(* ===== verification/_CoqProject ===== *)
-Q . S2P
Prelude.v
InodeStore.v
Treedisk.v
TreediskLayout.v
TreediskAlloc.v
TreediskRead.v
TreediskLink.v
TreediskWrite.v
TreediskCreate.v
TreediskSpec.v
Typed.v
MemAlloc.v
SoftTlb.v
Earth.v
Process.v
Ipc.v
Scheduler.v
Rendezvous.v
Kernel.v
KernelRuns.v
Messages.v
Sweeps.v
KernelOk.v
Blocking.v
Timer.v
Terminal.v
EarthImpl.v
KernelExample.v
Riscv.v
ThreadSwitch.v
TrapEntry.v
AppEntry.v
FileServer.v
Rpc.v
CString.v
Print.v
TermServer.v
TermRpc.v
Boot.v
BootLock.v
Metrics.v
Mlfq.v
Directory.v
Mkfs.v
BootPaths.v
Malloc.v
TestApps.v
Apps.v
AppsSpec.v
Ult.v
Session.v
Shell.v
Startup.v
Elf.v
ElfLoad.v
SysProc.v
BootServers.v
BootSpawn.v
ShellMain.v
SysProcExample.v
