(* ===== verification/Prelude.v ===== *)
(** * egos: a verification development of the egos-2k+ teaching kernel

    ** The program

    egos-2k+ is a small operating system for 32-bit RISC-V in three layers.
    The earth layer (src/earth) abstracts the hardware: a disk, a TTY, a timer
    and memory translation.  The grass layer (src/grass) is the kernel:
    processes, scheduling and message passing, entered by interrupts.  The
    applications (src/apps) are four servers (process, terminal, file, shell)
    and the user programs, which reach each other by messages through the
    library (src/library), which also holds the file system and the ELF
    loader.  The tool src/tools/mkfs.c builds the disk image the system boots
    from.

    A command typed at the terminal travels through all of them: the kernel's
    terminal edits the line, the shell parses it and sends a message to the
    process server, which asks the file server for the directory and the
    program, loads the program into fresh pages and makes the new process
    ready; the scheduler dispatches it at the next interrupt; its exit
    request frees the slot and the pages and wakes the shell.

    ** Conventions

    Machine integers are [Z] with the wrap-around written out ([u32], [i32],
    [u64] below); bytes are numbers from 0 to 255, a block is a list of 512 of
    them, RAM is a map from page numbers to lists of 4096.  Fallible code
    returns an [outcome]: [Ret], or a [Fault] that is a FATAL of the source
    ([Fatal]), undefined behaviour of C ([Undef]) or a loop over the bound of
    the model ([OutOfFuel]).  State is passed explicitly, with stdpp's
    monad notation for sequencing.  Code outside the sources (the hardware
    counter, the host's file system, an uninitialised stack buffer) is an
    argument with its documented behaviour as a hypothesis.

    ** Files

    - Prelude: outcomes, integers at their width, little-endian words, lists
      updated by index, strided blocks, and the lemmas shared by all files.
    - InodeStore: [struct inode_store] of library/file/inode.h as a record of
      operations; the classes [ReadStore] and [DiskStore] say what a client of
      a store relies on.  Instances: the ramdisk of mkfs.c, the flash disk of
      dev_disk.c below sys_file.c, and mydisk of library/file/file0.c.
    - Treedisk (file1.c, file1.h): every function of the tree file system.
      TreediskLayout, TreediskAlloc, TreediskRead, TreediskLink,
      TreediskWrite, TreediskCreate: the layout invariant and the lemmas per
      function.  TreediskSpec: the abstract file system and the theorems that
      reads, writes and creation implement it on any store of the class.
      Typed: that the operations end on a disk with arbitrary contents,
      against the class [TypedStore].
    - MemAlloc (mem_alloc.c), SoftTlb (mem_soft_tlb.c): the page allocator
      and address spaces by copying; the refinements of "the lowest free
      page" and of private memory per process.
    - Earth, EarthImpl (egos.h, cpu_mmu.c): the [struct earth] table as a
      class with laws, and its instance from SoftTlb, Timer and Terminal.
    - Process, Ipc, Scheduler (process.c, ipc.c, scheduler.c), Rendezvous,
      Kernel (kernel.c): processes, message passing, dispatching and the
      interrupt handlers, proved against the class of Earth.  KernelRuns:
      runs of traps and process steps (the process server's calls of
      proc_alloc, proc_set_ready and proc_free, killall included), and the
      full invariant along those in good order.  Messages (syscall.c):
      sys_send and sys_recv composed with
      the kernel.  Sweeps: what the retries of [clear_pending_syscalls] leave
      behind, whatever the state they start from.  KernelOk: the invariant
      that survives the end of any process in any state, along every run, and
      fairness.  Blocking: what releases a blocked process.  KernelExample
      has concrete states for the witnesses.  Riscv is an interpreter for the
      instructions of the assembly files; TrapEntry (kernel.s) composes the
      saving and restoring of the registers with the kernel, AppEntry (app.S)
      the first instructions of an application, ThreadSwitch (thread.s) is
      the switch between user-level threads.
    - Timer (cpu_timer.c, init.c) and Terminal (dev_tty.c, servers.c).
      Boot (boot.c, cpu_intr.c, init.c and the initialisation functions of
      the earth layer): the boot sequence as a list of steps on the table,
      the devices and the control registers.  BootLock (boot.s, the lock
      macros of egos.h): several cores that spin on a lock, as a step
      relation, and the boot sequence behind it.
    - Metrics (scheduler.c, process.c): the scheduling callbacks, and
      proc_free with the reports it prints.  Mlfq (mlfq.c, queue.h): the
      other scheduler as far as it is written.
    - Print (print.c): formatted printing.  TermServer (sys_terminal.c,
      servers.c): the terminal server and term_read and term_write of an
      application; TermRpc: term_read as an exchange of messages through the
      kernel.  Malloc (malloc.c): the heap of an application.
    - CString (C library), Directory (dir_lookup of servers.c), FileServer
      (sys_file.c, file_read of servers.c), Mkfs (mkfs.c), BootPaths: the way
      of a file from the host through the image to a reader.  Rpc: the
      exchange between file_read and the file server through the kernel.
    - Apps (apps/user: echo, loop, cat, ls, cd): the main functions over a
      file system and a terminal; AppsSpec: what they print and the working
      directory; Session: cd, ls and cat on the image of mkfs.
    - Ult (ult.c, ult_test.c): the programs on user-level threads, for every
      schedule of their turns.  TestApps (crash1.c, crash2.c, memloop.c,
      helloworld.c): the programs that probe the memory.
    - Startup (sys_file.c, sys_proc.c, sys_shell.c): what the servers do
      before their loops, and the message with which each reports.
    - Shell (sys_shell.c: the parsers), Elf and ElfLoad
      (library/elf/elf.c), SysProc (sys_proc.c), BootSpawn: from a command
      line to a running process.  BootServers (mkfs.c, sys_proc.c): from the
      binaries of the host to the running servers.  ShellMain (sys_shell.c:
      main; exit of servers.c): the prompt, and the shell and the process
      server as a step relation.  SysProcExample has the concrete program
      and states.

    ** What the theorems show

    The file system: on a well-formed disk every operation of file1.c returns
    what the abstract file system (an array of arrays of blocks) returns and
    keeps the disk well formed; a write can only fail because the disk is
    full.  On a disk with any contents the operations end.  mkfs followed by
    a boot gives every application back byte for byte under its name, and
    [spec_search] is what looking up any other name gives, a number or an
    overlong name included.

    Memory: the allocator hands out the lowest free page; any history of
    switches, stores, allocations and frees gives every process private
    memory, and freeing a process gives back exactly its pages.  Nothing
    protects the pool itself: what a program that clears it destroys is
    exactly the memory of the other processes.

    Booting: no message is printed and no interrupt can be taken before what
    it needs is set up; of the cores that race for the boot lock at most one
    runs the boot sequence, once.

    The kernel: each interrupt has exactly the effect of its specification (one
    rendezvous or none, then the dispatch of the nearest runnable process),
    keeps the kernel's invariant, and stops only at the named FATALs.  Along
    every run, in which processes may be ended in any state, alone or all by
    killall, the invariant [kernel_ok] holds and a runnable process is passed
    over fewer than MAX_NPROCESS times.  The stronger [kernel_inv] holds along
    runs in which no process is ended while it waits for a message or while
    another sends to it; KernelExample.v shows how it breaks otherwise
    ([stale_receiver], [orphaned_sender]).  A process that gets the core back finds
    every register as it was, however long it was away, and a new process
    enters [main] with its arguments.  A message sent to a waiting process is in
    its buffer after the interrupt, byte for byte, and a blocked process is
    released by the matching call of its partner, or it is ended itself.  A
    request to the file server and its reply, interleaved with anything other
    processes do in good order, give the client what the function call would;
    so does reading a line through the terminal server.

    The servers: a spawn request runs the named program with its arguments in
    the lowest free slot, an exit request undoes it without a leak, and a
    command line does this end to end on the booted image.  The image starts
    the three other servers with the process ids they are addressed by,
    whatever those do while the process server waits for their messages.  The
    shell and the process server stay in step in every interleaving of
    commands and exits: the shell never waits for a message that is not sent
    and never takes one for another.

    The library and the applications: a message is printed byte for byte or
    overruns its buffer, and an unsupported conversion prints the line of
    FATAL and nothing else; printing and reading through the terminal server is
    equivalent to the kernel's; cd keeps the inode and the path name of the
    working directory in step; the heap hands out disjoint regions up to its
    end, at which the application's exception stops the kernel; a switch between threads returns with the registers a C function
    preserves; the ring of the producers and consumers is a bounded queue whatever
    the schedule of the threads.

    Several theorems state behaviour that the authors will not have
    intended; the comments before them say so.

    ** Bounds of the loops

    [clear_pending_syscalls] sweeps the table until nothing changes: [SWEEPS] =
    17 rounds are shown to be enough, since each round but the last completes
    a process.  The read of the 64-bit counter repeats at most twice
    ([MTIME_FUEL]) under the hypothesis on the clock.  The loops of file1.c
    over the levels of a tree get 33 steps, one more than the bits of a block
    number.  [term_read], [dir_lookup], the loops of the ELF loader and the
    shell's loop get the number of the characters, blocks or commands they
    consume; the theorems about them conclude [Ret], so the fuel is enough.
    The prompt gets the number of lines typed, ls the length of the block,
    [load_loop] the list of what the host's read() returns, and loop.c its
    count, or any number when it does not end ([loop_forever]); so do the
    turns of memloop.c.  The recursion of [stack] in ult_test.c gets one step
    more than its 128 calls and [many_yield] one turn more than its 102400
    yields.

    ** Not modelled

    The log messages of the components other than the applications, the
    shell, the boot sequence, the start of the servers and proc_free (INFO,
    SUCCESS and, except in print.c, the line a FATAL prints before it stops),
    although printing itself is; what the servers do during [start_servers],
    which is its argument [handshake], any function after which the process
    server runs on, no process has been started or ended and the pages that
    were free still are ([handshake_ok]); the kernel on more
    than one core: the places for the kernel lock in kernel.s and for the
    lock of the page allocator are empty in this version, and TrapEntry and
    Kernel are about one core; the linker scripts, from which only addresses
    are taken; the SD card, whose branch is a FATAL in the source.  Parts of
    this version of the source are exercises: memory protection and page
    tables, the MLFQ scheduler, the queue, the thread package and the metrics
    are modelled as they stand, as functions that stop, exit, do nothing or
    return a constant.  What is not mapped of the C files are declarations,
    prototypes and the macros around them.  Memory is as fine as a page,
    since the code copies and maps whole pages; in Riscv it is as fine as a
    word.  In SysProc and in the applications a call of the file server is the
    function call [file_rpc], which Rpc justifies. *)
From stdpp Require Export base numbers list list_numbers strings gmap.

#[global] Open Scope Z_scope.

(** ** Outcomes of C code

    [Ret] is a normal return; [Fatal] is [FATAL]/[panic]/a failed [ASSERT]
    (print a message and never return); [Undef] is undefined behaviour that
    the source would run into (an access outside an array, a store through a
    null pointer); [OutOfFuel] is a loop that exceeded the bound of the
    model. *)
Inductive fault : Type :=
  | Fatal (msg : string)
  | Undef (what : string)
  | OutOfFuel.

Inductive outcome (A : Type) : Type :=
  | Ret (a : A)
  | Fault (f : fault).
Arguments Ret {A} a.
Arguments Fault {A} f.

#[global] Instance fault_eq_dec : EqDecision fault.
Proof. solve_decision. Defined.
#[global] Instance outcome_eq_dec {A} `{EqDecision A} : EqDecision (outcome A).
Proof. solve_decision. Defined.

#[global] Instance outcome_ret : MRet outcome := λ A a, Ret a.
#[global] Instance outcome_bind : MBind outcome := λ A B k c,
  match c with Ret a => k a | Fault f => Fault f end.
#[global] Instance outcome_fmap : FMap outcome := λ A B g c,
  match c with Ret a => Ret (g a) | Fault f => Fault f end.

(** [ASSERT(cond, msg)] of egos.h. *)
Definition ASSERT (cond : bool) (msg : string) : outcome unit :=
  if cond then Ret () else Fault (Fatal msg).

Lemma bind_ret {A B} (k : A → outcome B) a : (Ret a ≫= k) = k a.
Proof. reflexivity. Qed.
Lemma bind_fault {A B} (k : A → outcome B) f : (Fault f ≫= k) = Fault f.
Proof. reflexivity. Qed.
Lemma bind_ret_inv {A B} (c : outcome A) (k : A → outcome B) b :
  (c ≫= k) = Ret b → ∃ a, c = Ret a ∧ k a = Ret b.
Proof. destruct c; [eauto | discriminate]. Qed.


(** Invert a successful monadic computation as far as possible. *)
Ltac inv_bind :=
  repeat match goal with
  | H : (_ ≫= _) = Ret _ |- _ =>
      let a := fresh "r" in let Ha := fresh "Hr" in
      apply bind_ret_inv in H as (a & Ha & H)
  | H : ASSERT ?b _ = Ret _ |- _ =>
      let E := fresh "Hassert" in destruct b eqn:E; [clear H | discriminate H]
  end.

(** [for (uint i = i0; ...; i++) body(i)] with [n] iterations. *)
Fixpoint for_up {S} (n : nat) (i : Z) (body : Z → S → outcome S) (s : S) : outcome S :=
  match n with
  | O => Ret s
  | Datatypes.S n => s ← body i s; for_up n (i + 1) body s
  end.

(** A loop invariant: established by each iteration, it holds at the end. *)
Lemma for_up_inv {S} (P : Z → S → Prop) n i body s :
  P i s →
  (∀ j s, i ≤ j < i + Z.of_nat n → P j s → ∃ s', body j s = Ret s' ∧ P (j + 1) s') →
  ∃ s', for_up n i body s = Ret s' ∧ P (i + Z.of_nat n) s'.
Proof.
  revert i s. induction n as [|n IH]; intros i s HP Hbody; simpl.
  - exists s. split; [done|]. by rewrite Z.add_0_r.
  - destruct (Hbody i s ltac:(lia) HP) as (s1 & -> & HP1). rewrite bind_ret.
    destruct (IH (i + 1) s1 HP1) as (s2 & Hs2 & HP2); [intros; apply Hbody; [lia|done]|].
    exists s2. split; [done|]. replace (i + _) with (i + 1 + Z.of_nat n) by lia. done.
Qed.

(** ** Machine integers *)

(** Wrap-around of an unsigned 32-bit and 64-bit value, and the
    reinterpretation of a value as a signed 32-bit one. *)
Definition u32 (z : Z) : Z := z `mod` 2 ^ 32.
Definition u64 (z : Z) : Z := z `mod` 2 ^ 64.
Definition i32 (z : Z) : Z :=
  let w := u32 z in if w <? 2 ^ 31 then w else w - 2 ^ 32.

Lemma u32_small z : 0 ≤ z < 2 ^ 32 → u32 z = z.
Proof. apply Z.mod_small. Qed.
Lemma u32_range z : 0 ≤ u32 z < 2 ^ 32.
Proof. apply Z.mod_pos_bound. lia. Qed.
Lemma u64_small z : 0 ≤ z < 2 ^ 64 → u64 z = z.
Proof. apply Z.mod_small. Qed.
Lemma u64_range z : 0 ≤ u64 z < 2 ^ 64.
Proof. apply Z.mod_pos_bound. lia. Qed.
Lemma i32_range z : - 2 ^ 31 ≤ i32 z < 2 ^ 31.
Proof. unfold i32. pose proof (u32_range z). destruct (Z.ltb_spec (u32 z) (2 ^ 31)); lia. Qed.
Lemma i32_small z : 0 ≤ z < 2 ^ 31 → i32 z = z.
Proof.
  intros. unfold i32. rewrite u32_small by lia.
  destruct (Z.ltb_spec z (2 ^ 31)); lia.
Qed.

(** Storing a signed value as a word and reading it back. *)
Lemma i32_u32 z : - 2 ^ 31 ≤ z < 2 ^ 31 → i32 (u32 z) = z.
Proof.
  intros. unfold i32, u32. rewrite Z.mod_mod by lia.
  destruct (Z.ltb_spec (z `mod` 2 ^ 32) (2 ^ 31)); Z.div_mod_to_equations; lia.
Qed.

(** ** Byte arrays and the 32-bit little-endian words stored in them

    A C object of [n] bytes is a [list Z] of length [n]; [off] is a byte
    offset. *)
Definition byte_at (bs : list Z) (i : nat) : Z := default 0 (bs !! i).

Definition get32 (bs : list Z) (off : nat) : Z :=
  byte_at bs off + 2 ^ 8 * byte_at bs (off + 1)
  + 2 ^ 16 * byte_at bs (off + 2) + 2 ^ 24 * byte_at bs (off + 3).

Definition set32 (bs : list Z) (off : nat) (v : Z) : list Z :=
  <[off := v `mod` 2 ^ 8]>
  (<[(off + 1)%nat := (v / 2 ^ 8) `mod` 2 ^ 8]>
  (<[(off + 2)%nat := (v / 2 ^ 16) `mod` 2 ^ 8]>
  (<[(off + 3)%nat := (v / 2 ^ 24) `mod` 2 ^ 8]> bs))).

(** The four bytes of a 32-bit word in memory. *)
Definition le32 (v : Z) : list Z :=
  [v `mod` 2 ^ 8; (v / 2 ^ 8) `mod` 2 ^ 8; (v / 2 ^ 16) `mod` 2 ^ 8; (v / 2 ^ 24) `mod` 2 ^ 8].

Lemma length_le32 v : length (le32 v) = 4%nat.
Proof. reflexivity. Qed.

(** [memset(p, 0, n)] *)
Definition zeros (n : nat) : list Z := replicate n 0.

Section words.
Implicit Types (bs : list Z) (off : nat).

Lemma length_set32 bs off v : length (set32 bs off v) = length bs.
Proof. unfold set32. by rewrite !length_insert. Qed.

Lemma byte_at_insert_eq bs i v : (i < length bs)%nat → byte_at (<[i:=v]> bs) i = v.
Proof. intros. unfold byte_at. by rewrite list_lookup_insert_eq. Qed.

Lemma byte_at_insert_ne bs i j v : i ≠ j → byte_at (<[i:=v]> bs) j = byte_at bs j.
Proof. intros. unfold byte_at. by rewrite list_lookup_insert_ne. Qed.

Lemma get32_set32_eq bs off v :
  (off + 4 ≤ length bs)%nat → 0 ≤ v < 2 ^ 32 → get32 (set32 bs off v) off = v.
Proof.
  intros Hlen Hv. unfold get32, set32.
  repeat first
    [ rewrite byte_at_insert_eq by (rewrite ?length_insert; lia)
    | rewrite byte_at_insert_ne by lia ].
  Z.div_mod_to_equations. lia.
Qed.

Lemma get32_set32_ne bs off off' v :
  (off' + 4 ≤ off ∨ off + 4 ≤ off')%nat → get32 (set32 bs off v) off' = get32 bs off'.
Proof. intros Hne. unfold get32, set32. by rewrite !byte_at_insert_ne by lia. Qed.

Lemma byte_at_app_l bs bs' i : (i < length bs)%nat → byte_at (bs ++ bs') i = byte_at bs i.
Proof. intros. unfold byte_at. by rewrite lookup_app_l. Qed.

Lemma byte_at_app_r bs bs' i : (length bs ≤ i)%nat →
  byte_at (bs ++ bs') i = byte_at bs' (i - length bs).
Proof. intros. unfold byte_at. by rewrite lookup_app_r. Qed.

Lemma get32_app_l bs bs' off : (off + 4 ≤ length bs)%nat → get32 (bs ++ bs') off = get32 bs off.
Proof. intros. unfold get32. by rewrite !byte_at_app_l by lia. Qed.

Lemma get32_app_r bs bs' off : (length bs ≤ off)%nat →
  get32 (bs ++ bs') off = get32 bs' (off - length bs).
Proof.
  intros. unfold get32. rewrite !byte_at_app_r by lia.
  by replace (off + 1 - length bs)%nat with (off - length bs + 1)%nat by lia;
    replace (off + 2 - length bs)%nat with (off - length bs + 2)%nat by lia;
    replace (off + 3 - length bs)%nat with (off - length bs + 3)%nat by lia.
Qed.

(** A word written at the front of some bytes reads back modulo 2^32. *)
Lemma get32_le32 v bs : get32 (le32 v ++ bs) 0 = u32 v.
Proof.
  unfold get32, byte_at, le32, u32. cbn -[Z.div Z.modulo Z.pow].
  Z.div_mod_to_equations. lia.
Qed.

Lemma byte_at_zeros n i : byte_at (zeros n) i = 0.
Proof.
  unfold zeros, byte_at. destruct (decide (i < n)%nat).
  - by rewrite lookup_replicate_2.
  - rewrite lookup_ge_None_2; [done|]. rewrite length_replicate. lia.
Qed.

Lemma get32_zeros n off : get32 (zeros n) off = 0.
Proof. unfold get32. by rewrite !byte_at_zeros. Qed.

Lemma length_zeros n : length (zeros n) = n.
Proof. apply length_replicate. Qed.

(** Every byte of [bs] is a byte. *)
Definition bytes_ok bs : Prop := Forall (λ b, 0 ≤ b < 2 ^ 8) bs.

Lemma bytes_ok_lookup bs i : bytes_ok bs → 0 ≤ byte_at bs i < 2 ^ 8.
Proof.
  intros H. unfold byte_at. destruct (bs !! i) as [b|] eqn:E; simpl; [|lia].
  eapply Forall_lookup_1 in H; [exact H | exact E].
Qed.

Lemma get32_range bs off : bytes_ok bs → 0 ≤ get32 bs off < 2 ^ 32.
Proof.
  intros H. unfold get32.
  pose proof (bytes_ok_lookup bs off H). pose proof (bytes_ok_lookup bs (off + 1) H).
  pose proof (bytes_ok_lookup bs (off + 2) H). pose proof (bytes_ok_lookup bs (off + 3) H). lia.
Qed.

Lemma bytes_ok_set32 bs off v : bytes_ok bs → bytes_ok (set32 bs off v).
Proof.
  intros H. unfold set32, bytes_ok.
  repeat (apply Forall_insert; [|apply Z.mod_pos_bound; lia]). done.
Qed.

Lemma bytes_ok_zeros n : bytes_ok (zeros n).
Proof. apply Forall_replicate. lia. Qed.
End words.

(** [filter] depends only on the predicate at the members of the list. *)
Lemma filter_ext_in {A} (P Q : A → Prop) `{!∀ x, Decision (P x), !∀ x, Decision (Q x)}
  (l : list A) :
  (∀ x, x ∈ l → P x ↔ Q x) → filter P l = filter Q l.
Proof.
  induction l as [|a l IH]; intros Hpq; [done|].
  rewrite !filter_cons, IH by (intros; apply Hpq; by right).
  destruct (Hpq a ltac:(left)). repeat case_decide; (done || tauto).
Qed.

(** The first element of a numbered sequence that satisfies [P]. *)
Lemma first_seqZ {A} (P : A → Prop) `{!∀ x, Decision (P x)} (f : Z → A) m (n : nat) :
  match head (filter P (f <$> seqZ m (Z.of_nat n))) with
  | Some x => ∃ a, m ≤ a < m + Z.of_nat n ∧ x = f a ∧ P x ∧ ∀ b, m ≤ b < a → ¬ P (f b)
  | None => ∀ b, m ≤ b < m + Z.of_nat n → ¬ P (f b)
  end.
Proof.
  revert m. induction n as [|n IH]; intros m; [intros b ?; lia|].
  rewrite seqZ_cons, fmap_cons, filter_cons by lia. case_decide as Hm; simpl.
  - exists m. split_and!; [lia|lia|done|done|]. intros b ?. lia.
  - replace (Z.pred _) with (Z.of_nat n) by lia. rewrite <- Z.add_1_r.
    specialize (IH (m + 1)). destruct (head _) as [x|].
    + destruct IH as (a & Ha & -> & HP & Hb). exists a. split_and!; [lia|lia|done|done|].
      intros b Hlt. destruct (decide (b = m)) as [->|]; [done|]. apply Hb. lia.
    + intros b Hlt. destruct (decide (b = m)) as [->|]; [done|]. apply IH. lia.
Qed.

(** A loop split in two. *)
Lemma for_up_app {S} n m i body (s : S) :
  for_up (n + m) i body s = (for_up n i body s ≫= for_up m (i + Z.of_nat n) body).
Proof.
  revert i s. induction n as [|n IH]; intros i s.
  - simpl. by rewrite Z.add_0_r.
  - cbn [for_up Nat.add]. destruct (body i s) as [s1|f]; [|done]. rewrite !bind_ret, IH.
    by replace (i + Z.of_nat (Datatypes.S n)) with (i + 1 + Z.of_nat n) by lia.
Qed.

(** A loop whose iterations change nothing. *)
Lemma for_up_noop {S} n i body (s : S) :
  (∀ j, i ≤ j < i + Z.of_nat n → body j s = Ret s) → for_up n i body s = Ret s.
Proof.
  revert i. induction n as [|n IH]; intros i Hb; [done|]. simpl.
  rewrite Hb, bind_ret by lia. apply IH. intros. apply Hb. lia.
Qed.

(** Replace the bytes of [m] from offset [off] on by [bs]. *)
Definition splice (m : list Z) (off : nat) (bs : list Z) : list Z :=
  take off m ++ bs ++ drop (off + length bs) m.

Lemma length_splice m off bs : (off + length bs ≤ length m)%nat → length (splice m off bs) = length m.
Proof. intros. unfold splice. rewrite !length_app, length_take, length_drop. lia. Qed.

#[global] Opaque le32.

(** Normalise sizes, and words read back from an update. *)
Create HintDb egos discriminated.
Create Rewrite HintDb len.
#[export] Hint Resolve bytes_ok_set32 bytes_ok_zeros : egos.
#[export] Hint Rewrite length_set32 length_zeros length_le32 @length_insert @length_replicate
  @length_app @length_take @length_drop @length_fmap : len.
Ltac len := autorewrite with len in *; try lia.

