(* ===== verification/InodeStore.v ===== *)
(** * The inode-store interface and the block devices below it

    Models [library/file/inode.h] (the [struct inode_store] of four methods),
    [library/file/disk.h], the disk driver [earth/dev_disk.c], the file
    server's view of it ([apps/system/sys_file.c]), the ramdisk of
    [tools/mkfs.c] and the placeholder file system [library/file/file0.c].

    The classes [ReadStore] and [DiskStore] state what a file system relies on
    from the store below it; the ramdisk is an instance of both and the flash
    disk of the first. *)
From S2P Require Import Prelude.

(** ** disk.h *)
Definition BLOCK_SIZE : Z := 512.
Definition SIZE_2MB : Z := 2 * 1024 * 1024.
Definition EGOS_BIN_DISK_SIZE : Z := SIZE_2MB.
Definition FILE_SYS_DISK_SIZE : Z := SIZE_2MB.
Definition FILE_SYS_DISK_START : Z := EGOS_BIN_DISK_SIZE / BLOCK_SIZE.

(** [block_t]: [BLOCK_SIZE] bytes. *)
Abbreviation block_t := (list Z).
Definition null_block : block_t := zeros 512.
Definition block_ok (b : block_t) : Prop := length b = 512%nat.

Lemma null_block_ok : block_ok null_block.
Proof. apply length_zeros. Qed.
#[export] Hint Resolve null_block_ok : egos.

(** ** inode.h

    [state] is threaded explicitly.  [read] receives the contents of the
    caller's buffer and returns the return code with the buffer afterwards;
    no store of the repository changes its state on a read. *)
Record inode_store (S : Type) : Type := InodeStore {
  getsize : S → Z → outcome Z;
  setsize : S → Z → Z → outcome (Z * S);
  read : S → Z → Z → block_t → outcome (Z * block_t);
  write : S → Z → Z → block_t → outcome (Z * S)
}.
Arguments InodeStore {S}.
Arguments getsize {S}.
Arguments setsize {S}.
Arguments read {S}.
Arguments write {S}.

(** What a file system relies on from inode [ino] of a store it only reads. *)
Class ReadStore {S} (st : inode_store S) (ino : Z) := {
  ds_blocks : S → list block_t;
  ds_read s off buf b :
    0 ≤ off → ds_blocks s !! Z.to_nat off = Some b → read st s ino off buf = Ret (0, b)
}.
Arguments ds_blocks {S} st ino {_} s.

(** ... and from a store it also writes. *)
Class DiskStore {S} (st : inode_store S) (ino : Z) := {
  ds_readable :: ReadStore st ino;
  ds_inv : S → Prop;
  ds_getsize s : ds_inv s → getsize st s ino = Ret (Z.of_nat (length (ds_blocks st ino s)));
  ds_write s off b :
    ds_inv s → 0 ≤ off < Z.of_nat (length (ds_blocks st ino s)) →
    ∃ s', write st s ino off b = Ret (0, s') ∧ ds_inv s' ∧
          ds_blocks st ino s' = <[Z.to_nat off := b]> (ds_blocks st ino s)
}.
Arguments ds_inv {S} st ino {_} s.

(** ** The ramdisk of mkfs.c: the buffer [fs[]], viewed as blocks *)
Module Ramdisk.
Abbreviation ram := (list block_t).

Definition getsize (s : ram) (ino : Z) : outcome Z := Ret (FILE_SYS_DISK_SIZE / BLOCK_SIZE).

Definition setsize (s : ram) (ino newsize : Z) : outcome (Z * ram) := Fault (Fatal "assert(0)").

Definition ramread (s : ram) (ino offset : Z) (block : block_t) : outcome (Z * block_t) :=
  match s !! Z.to_nat offset with
  | Some b => Ret (0, b)
  | None => Fault (Undef "ramread: beyond fs[]")
  end.

Definition ramwrite (s : ram) (ino offset : Z) (block : block_t) : outcome (Z * ram) :=
  if bool_decide (Z.to_nat offset < length s)%nat
  then Ret (0, <[Z.to_nat offset := block]> s)
  else Fault (Undef "ramwrite: beyond fs[]").

Definition ramdisk : inode_store ram := InodeStore getsize setsize ramread ramwrite.

(** [char fs[SIZE_2MB]] *)
Definition fs_init : ram := replicate (Z.to_nat (FILE_SYS_DISK_SIZE / BLOCK_SIZE)) null_block.

#[export] Instance ramdisk_read ino : ReadStore ramdisk ino.
Proof.
  refine {| ds_blocks := λ s : ram, s |}.
  intros s off buf b Hoff Hb. simpl. unfold ramread. by rewrite Hb.
Defined.

#[export] Instance ramdisk_store ino : DiskStore ramdisk ino.
Proof.
  refine {| ds_readable := ramdisk_read ino;
            ds_inv := λ s : ram, length s = Z.to_nat (FILE_SYS_DISK_SIZE / BLOCK_SIZE) |}.
  - intros s Hs. simpl. unfold getsize. rewrite Hs. reflexivity.
  - intros s off b Hs Hoff. simpl in *. unfold ramwrite. rewrite bool_decide_true by lia.
    eexists; split; [reflexivity|]. by rewrite length_insert.
Defined.
End Ramdisk.

(** ** The disk driver and the file server's store over it *)
Module Flash.
Inductive disk_type := SD_CARD | FLASH_ROM.

(** [rom]: the flash memory mapped at [FLASH_ROM_BASE], as blocks; [type] is
    the driver's static variable. *)
Record disk := Disk { type : disk_type; rom : list block_t }.

Definition disk_init (rom : list block_t) : disk := Disk FLASH_ROM rom.

Definition disk_read (d : disk) (block_no nblocks : Z) : outcome (list block_t) :=
  match type d with
  | FLASH_ROM =>
      if bool_decide (Z.to_nat block_no + Z.to_nat nblocks ≤ length (rom d))%nat
      then Ret (take (Z.to_nat nblocks) (drop (Z.to_nat block_no) (rom d)))
      else Fault (Undef "disk_read: beyond the flash")
  | SD_CARD => Fault (Fatal "UNKNOWN disk type.")
  end.

Definition disk_write (d : disk) (block_no nblocks : Z) (src : list block_t) : outcome disk :=
  match type d with
  | FLASH_ROM => Fault (Fatal "FLASH_ROM is read only")
  | SD_CARD => Fault (Fatal "UNKNOWN disk type.")
  end.

(** The four methods of sys_file.c *)
Definition getsize (d : disk) (ino : Z) : outcome Z := Ret (FILE_SYS_DISK_SIZE / BLOCK_SIZE).

Definition setsize (d : disk) (ino newsize : Z) : outcome (Z * disk) :=
  Fault (Fatal "cannot set size").

Definition read (d : disk) (ino offset : Z) (block : block_t) : outcome (Z * block_t) :=
  bs ← disk_read d (u32 (FILE_SYS_DISK_START + offset)) 1;
  Ret (0, default block (head bs)).

Definition write (d : disk) (ino offset : Z) (block : block_t) : outcome (Z * disk) :=
  d' ← disk_write d (u32 (FILE_SYS_DISK_START + offset)) 1 [block];
  Ret (0, d').

Definition disk_store : inode_store disk := InodeStore getsize setsize read write.

Definition fs_nblocks : nat := Z.to_nat (FILE_SYS_DISK_SIZE / BLOCK_SIZE).

(** The blocks of the file system: the second 2MB of the flash image. *)
Definition fs_blocks (d : disk) : list block_t :=
  match type d with
  | FLASH_ROM => take fs_nblocks (drop (Z.to_nat FILE_SYS_DISK_START) (rom d))
  | SD_CARD => []
  end.

Lemma disk_read_one d block_no b :
  type d = FLASH_ROM → rom d !! Z.to_nat block_no = Some b → disk_read d block_no 1 = Ret [b].
Proof.
  intros Hty Hb. unfold disk_read. rewrite Hty. pose proof (lookup_lt_Some _ _ _ Hb).
  rewrite bool_decide_true by lia. f_equal. change (Z.to_nat 1) with 1%nat.
  erewrite drop_S by done. done.
Qed.

#[export] Instance disk_store_read ino : ReadStore disk_store ino.
Proof.
  refine {| ds_blocks := fs_blocks |}.
  intros d off buf b Hoff Hb. simpl. unfold read, fs_blocks in *.
  destruct (type d) eqn:Hty; [by rewrite lookup_nil in Hb|].
  apply lookup_take_Some in Hb as [Hb Hlt]. rewrite lookup_drop in Hb.
  change fs_nblocks with (Z.to_nat 4096) in Hlt.
  assert (u32 (FILE_SYS_DISK_START + off) = FILE_SYS_DISK_START + off) as ->.
  { apply u32_small. change FILE_SYS_DISK_START with 4096. lia. }
  rewrite (disk_read_one d _ b); [done | done |].
  rewrite Z2Nat.inj_add; [exact Hb | done | done].
Defined.

Lemma disk_store_write_fatal d ino off b :
  type d = FLASH_ROM → InodeStore.write disk_store d ino off b = Fault (Fatal "FLASH_ROM is read only").
Proof. intros Hty. simpl. unfold write, disk_write. by rewrite Hty. Qed.
End Flash.

(** ** file0.c: the placeholder file system [mydisk] *)
Section mydisk.
Context {S : Type} (below : inode_store S).

Definition DUMMY_DISK_OFFSET (ino offset : Z) : Z := u32 (ino * 128 + offset).

Definition mydisk_read (s : S) (ino offset : Z) (block : block_t) : outcome (Z * block_t) :=
  read below s 0 (DUMMY_DISK_OFFSET ino offset) block.

Definition mydisk_write (s : S) (ino offset : Z) (block : block_t) : outcome (Z * S) :=
  write below s 0 (DUMMY_DISK_OFFSET ino offset) block.

Definition mydisk_getsize (s : S) (ino : Z) : outcome Z :=
  Fault (Fatal "mydisk_getsize not implemented").

Definition mydisk_setsize (s : S) (ino nblocks : Z) : outcome (Z * S) :=
  Fault (Fatal "mydisk_setsize not implemented").

Definition mydisk_create (s : S) (below_ino ninodes : Z) : outcome (Z * S) := Ret (0, s).

Definition mydisk_init : inode_store S :=
  InodeStore mydisk_getsize mydisk_setsize mydisk_read mydisk_write.
End mydisk.

(** On a store of 128 blocks per inode, [mydisk] keeps files apart: a
    block written below offset 128 is read back, and every other block of
    every file keeps its contents. *)
Theorem mydisk_write_read {S} (below : inode_store S) `{!DiskStore below 0} s ino off b ino' off' buf buf' :
  ds_inv below 0 s → 0 ≤ off < 128 → 0 ≤ off' < 128 → 0 ≤ ino → 0 ≤ ino' →
  128 * (ino + 1) ≤ Z.of_nat (length (ds_blocks below 0 s)) < 2 ^ 32 →
  128 * (ino' + 1) ≤ Z.of_nat (length (ds_blocks below 0 s)) →
  ∃ s', mydisk_write below s ino off b = Ret (0, s') ∧ ds_inv below 0 s' ∧
    mydisk_read below s' ino off buf = Ret (0, b) ∧
    ((ino', off') ≠ (ino, off) →
     mydisk_read below s' ino' off' buf' = mydisk_read below s ino' off' buf').
Proof.
  intros Hs Hoff Hoff' Hino Hino' Hlen Hlen'. unfold mydisk_write, mydisk_read, DUMMY_DISK_OFFSET.
  rewrite !u32_small by lia.
  destruct (ds_write s (ino * 128 + off) b Hs ltac:(lia)) as (s' & -> & Hs' & Hd).
  exists s'. split; [done|]. split; [done|]. split.
  - apply ds_read; [lia|]. rewrite Hd. apply list_lookup_insert_eq. lia.
  - intros Hne.
    destruct (lookup_lt_is_Some_2 (ds_blocks below 0 s) (Z.to_nat (ino' * 128 + off'))) as [b' Hb']; [lia|].
    rewrite (ds_read s' _ buf' b'), (ds_read s _ buf' b'); try done; try lia.
    rewrite Hd, list_lookup_insert_ne; [done|]. intros Heq. apply Hne.
    assert (ino * 128 + off = ino' * 128 + off') by lia. f_equal; lia.
Qed.

Lemma mydisk_write_read_witness : ∃ s',
  mydisk_write Ramdisk.ramdisk Ramdisk.fs_init 3 5 null_block = Ret (0, s') ∧
  @ds_inv _ Ramdisk.ramdisk 0 (Ramdisk.ramdisk_store 0) s' ∧ mydisk_read Ramdisk.ramdisk s' 3 5 null_block = Ret (0, null_block) ∧
  ((4, 0) ≠ (3, 5) → mydisk_read Ramdisk.ramdisk s' 4 0 null_block
                     = mydisk_read Ramdisk.ramdisk Ramdisk.fs_init 4 0 null_block).
Proof.
  assert (Z.of_nat (length Ramdisk.fs_init) = 4096) as Hl.
  { unfold Ramdisk.fs_init. rewrite length_replicate. reflexivity. }
  apply (@mydisk_write_read _ Ramdisk.ramdisk (Ramdisk.ramdisk_store 0) Ramdisk.fs_init 3 5 null_block 4 0);
    try lia; [apply length_replicate| |].
  - change (128 * (3 + 1) ≤ Z.of_nat (length Ramdisk.fs_init) < 2 ^ 32). rewrite Hl. lia.
  - change (128 * (4 + 1) ≤ Z.of_nat (length Ramdisk.fs_init)). rewrite Hl. lia.
Defined.
