(* ===== verification/Treedisk.v ===== *)
(** * The tree file system: library/file/file1.c and file1.h

    A translation of every function of [file1.c].  The store below
    ([ts->below], [ts->below_ino]) and the static variable [log_rpb] are
    section variables; the state of the store below is threaded through the
    operations.  On-disk structures are accessed as 32-bit words of a 512-byte
    block, at the offsets of [file1.h].  Sizes are those of the 32-bit target
    ([size_t] is [unsigned int]). *)
From S2P Require Import Prelude InodeStore.

(** ** file1.h *)
Definition REFS_PER_BLOCK : Z := BLOCK_SIZE / 4.
Definition INODES_PER_BLOCK : Z := BLOCK_SIZE / 8.

(** [struct treedisk_superblock] *)
Definition sb_n_inodeblocks (b : block_t) : Z := get32 b 0.
Definition sb_free_list (b : block_t) : Z := get32 b 4.
Definition set_n_inodeblocks (b : block_t) (v : Z) : block_t := set32 b 0 v.
Definition set_free_list (b : block_t) (v : Z) : block_t := set32 b 4 v.

(** [struct treedisk_inodeblock]: field [root] and [nblocks] of inode [i] *)
Definition root_off (i : Z) : nat := (8 * Z.to_nat i)%nat.
Definition nblocks_off (i : Z) : nat := (8 * Z.to_nat i + 4)%nat.
Definition inode_root (b : block_t) (i : Z) : Z := get32 b (root_off i).
Definition inode_nblocks (b : block_t) (i : Z) : Z := get32 b (nblocks_off i).

(** [struct treedisk_freelistblock] and [struct treedisk_indirblock]: [refs[i]] *)
Definition ref_off (i : nat) : nat := (4 * i)%nat.
Definition refs (b : block_t) (i : nat) : Z := get32 b (ref_off i).
Definition set_refs (b : block_t) (i : nat) (v : Z) : block_t := set32 b (ref_off i) v.

(** ** file1.c *)

(** [struct treedisk_snapshot]; the pointer [inode] into [inodeblock] is the
    index of the inode in its block. *)
Record snapshot := Snapshot {
  superblock : block_t;
  inodeblock : block_t;
  inode_blockno : Z;
  inode_idx : Z
}.

Definition snap_root (sn : snapshot) : Z := inode_root (inodeblock sn) (inode_idx sn).
Definition snap_nblocks (sn : snapshot) : Z := inode_nblocks (inodeblock sn) (inode_idx sn).
Definition with_superblock (sn : snapshot) (b : block_t) : snapshot :=
  Snapshot b (inodeblock sn) (inode_blockno sn) (inode_idx sn).
Definition with_root (sn : snapshot) (v : Z) : snapshot :=
  Snapshot (superblock sn) (set32 (inodeblock sn) (root_off (inode_idx sn)) v)
           (inode_blockno sn) (inode_idx sn).
Definition with_nblocks (sn : snapshot) (v : Z) : snapshot :=
  Snapshot (superblock sn) (set32 (inodeblock sn) (nblocks_off (inode_idx sn)) v)
           (inode_blockno sn) (inode_idx sn).

Definition log_shift_r (x nbits : Z) : Z :=
  if 32 <=? nbits then 0 else Z.shiftr x nbits.

(** The [do ... while] loop of [treedisk_init] that sets [log_rpb]. *)
Fixpoint log_rpb_loop (fuel : nat) (log_rpb : Z) : outcome Z :=
  match fuel with
  | O => Fault OutOfFuel
  | S fuel =>
      let log_rpb := u32 (log_rpb + 1) in
      if Z.shiftr (REFS_PER_BLOCK - 1) log_rpb =? 0 then Ret log_rpb
      else log_rpb_loop fuel log_rpb
  end.

(** The value of the static variable [log_rpb] after [treedisk_init]. *)
Definition treedisk_init_log_rpb (log_rpb : Z) : outcome Z :=
  if log_rpb =? 0 then log_rpb_loop 32 log_rpb else Ret log_rpb.

(** The scan [for (i = REFS_PER_BLOCK; --i > 0;) if (refs[i] != 0) break;],
    from [i] downwards. *)
Fixpoint scan_refs (flb : block_t) (i : nat) : nat :=
  match i with
  | O => O
  | S j => if refs flb i =? 0 then scan_refs flb j else i
  end.

#[global] Arguments scan_refs : simpl never.

Section treedisk.
Context {S : Type} (below : inode_store S) (below_ino : Z) (log_rpb : Z).

(** [None] is the return value -1. *)
Definition treedisk_get_snapshot (s : S) (inode_no : Z) : outcome (option snapshot) :=
  '(r, sb) ← read below s below_ino 0 null_block;
  if r <? 0 then Ret None else
  if u32 (sb_n_inodeblocks sb * INODES_PER_BLOCK) <=? inode_no then Ret None else
  let blockno := u32 (1 + inode_no / INODES_PER_BLOCK) in
  '(r, ib) ← read below s below_ino blockno null_block;
  if r <? 0 then Ret None else
  Ret (Some (Snapshot sb ib blockno (inode_no `mod` INODES_PER_BLOCK))).

Definition treedisk_alloc_block (s : S) (sn : snapshot) : outcome (Z * snapshot * S) :=
  let b := sb_free_list (superblock sn) in
  if b =? 0 then Fault (Fatal "treedisk_alloc_block: inode store is full") else
  '(r, flb) ← read below s below_ino b null_block;
  if r <? 0 then Fault (Fatal "treedisk_alloc_block") else
  match scan_refs flb (Z.to_nat (REFS_PER_BLOCK - 1)) with
  | O =>
      let sb := set_free_list (superblock sn) (refs flb 0) in
      '(r, s) ← write below s below_ino 0 sb;
      if r <? 0 then Fault (Fatal "treedisk_alloc_block: superblock") else
      Ret (b, with_superblock sn sb, s)
  | i =>
      let free_blockno := refs flb i in
      '(r, s) ← write below s below_ino b (set_refs flb i 0);
      if r <? 0 then Fault (Fatal "treedisk_alloc_block: freelistblock") else
      Ret (free_blockno, sn, s)
  end.

Definition treedisk_getsize (s : S) (ino : Z) : outcome Z :=
  osn ← treedisk_get_snapshot s ino;
  match osn with
  | None => Ret (-1)
  | Some sn => Ret (i32 (snap_nblocks sn))
  end.

Definition treedisk_setsize (s : S) (ino nblocks : Z) : outcome (Z * S) :=
  Fault (Fatal "treedisk_setsize not implemented").

(** [while (log_shift_r(x, nlevels * log_rpb) != 0) nlevels++;] *)
Fixpoint levels_loop (fuel : nat) (x nlevels : Z) : outcome Z :=
  match fuel with
  | O => Fault OutOfFuel
  | Datatypes.S fuel =>
      if log_shift_r x (u32 (nlevels * log_rpb)) =? 0 then Ret nlevels
      else levels_loop fuel x (u32 (nlevels + 1))
  end.

Definition count_levels (x : Z) : outcome Z := levels_loop 33 x 0.

(** The number of levels of a tree of [nblocks] blocks. *)
Definition nlevels_of (nblocks : Z) : outcome Z :=
  if 0 <? nblocks then count_levels (nblocks - 1) else Ret 0.

(** Index of [offset] in an indirect block at level [nlevels] + 1. *)
Definition tree_index (offset : Z) (nlevels : nat) : nat :=
  Z.to_nat (log_shift_r offset (u32 (Z.of_nat nlevels * log_rpb)) `mod` REFS_PER_BLOCK).

(** The [for (;;)] loop of [treedisk_read]. *)
Fixpoint read_walk (nlevels : nat) (s : S) (offset b : Z) (block : block_t)
    : outcome (Z * block_t) :=
  if b =? 0 then Ret (0, null_block) else
  '(result, block) ← read below s below_ino b block;
  if result <? 0 then Ret (result, block) else
  match nlevels with
  | O => Ret (0, block)
  | Datatypes.S nlevels =>
      read_walk nlevels s offset (refs block (tree_index offset nlevels)) block
  end.

Definition treedisk_read (s : S) (ino offset : Z) (block : block_t) : outcome (Z * block_t) :=
  osn ← treedisk_get_snapshot s ino;
  match osn with
  | None => Ret (-1, block)
  | Some sn =>
      if snap_nblocks sn <=? offset then Ret (-1, block) else
      nlevels ← nlevels_of (snap_nblocks sn);
      read_walk (Z.to_nat nlevels) s offset (snap_root sn) block
  end.

(** The loop of [treedisk_write] that inserts indirect blocks above the root,
    [n] times. *)
Fixpoint grow (n : nat) (s : S) (sn : snapshot) : outcome (snapshot * S) :=
  match n with
  | O => Ret (sn, s)
  | Datatypes.S n =>
      '(indir, sn, s) ← treedisk_alloc_block s sn;
      let tib := set_refs null_block 0 (snap_root sn) in
      let sn := with_root sn indir in
      '(r, s) ← write below s below_ino indir tib;
      if r <? 0 then Fault (Fatal "treedisk_write: indirect block") else
      grow n s sn
  end.

(** The [for (;;)] loop of [treedisk_write].  [parent_no] points to the word
    at byte [slot] of [parent_block]; the result is the block number of the
    data block. *)
Fixpoint write_walk (nlevels : nat) (s : S) (sn : snapshot) (offset : Z)
    (parent_off : Z) (parent_block : block_t) (slot : nat) : outcome (Z * S) :=
  let b := get32 parent_block slot in
  if b =? 0 then
    '(b, sn, s) ← treedisk_alloc_block s sn;
    '(r, s) ← write below s below_ino parent_off (set32 parent_block slot b);
    if r <? 0 then Fault (Fatal "treedisk_write: parent") else
    match nlevels with
    | O => Ret (b, s)
    | Datatypes.S nlevels =>
        write_walk nlevels s sn offset b null_block (ref_off (tree_index offset nlevels))
    end
  else
    match nlevels with
    | O => Ret (b, s)
    | Datatypes.S nlevels =>
        '(r, tib) ← read below s below_ino b null_block;
        if r <? 0 then Fault (Fatal "treedisk_write") else
        write_walk nlevels s sn offset b tib (ref_off (tree_index offset nlevels))
    end.

(** The second half of [treedisk_write]: flush the inode block if it is
    dirty, find or allocate the data block, write the data. *)
Definition write_data (s : S) (sn : snapshot) (dirty_inode : bool) (nlevels offset : Z)
    (block : block_t) : outcome (Z * S) :=
  s ← (if dirty_inode then
         '(r, s) ← write below s below_ino (inode_blockno sn) (inodeblock sn);
         if r <? 0 then Fault (Fatal "treedisk_write: inode block") else Ret s
       else Ret s);
  '(b, s) ← write_walk (Z.to_nat nlevels) s sn offset
              (inode_blockno sn) (inodeblock sn) (root_off (inode_idx sn));
  '(r, s) ← write below s below_ino b block;
  if r <? 0 then Fault (Fatal "treedisk_write: data block") else Ret (0, s).

Definition treedisk_write (s : S) (ino offset : Z) (block : block_t) : outcome (Z * S) :=
  osn ← treedisk_get_snapshot s ino;
  match osn with
  | None => Ret (-1, s)
  | Some sn =>
      nlevels ← nlevels_of (snap_nblocks sn);
      '(sn, nlevels_after, dirty) ←
        (if snap_nblocks sn <=? offset then
           nlevels_after ← count_levels offset;
           Ret (with_nblocks sn (u32 (offset + 1)), nlevels_after, true)
         else Ret (sn, nlevels, false));
      if snap_nblocks sn =? 0 then write_data s sn dirty nlevels_after offset block
      else if nlevels <? nlevels_after then
        '(sn, s) ← grow (Z.to_nat (nlevels_after - nlevels)) s sn;
        write_data s sn true nlevels_after offset block
      else write_data s sn dirty nlevels offset block
  end.

(** [treedisk_init] returns these four methods. *)
Definition treedisk_init : inode_store S :=
  InodeStore treedisk_getsize treedisk_setsize treedisk_read treedisk_write.
End treedisk.

(** [for (i = 1; i < REFS_PER_BLOCK && next_free < nblocks; i++)
     freelist_data[i] = next_free++;] followed by the loop that clears the
    remaining entries; [k] entries are left, the first one is [i]. *)
Fixpoint fill_refs (k : nat) (i : nat) (data : block_t) (next_free nblocks : Z) : block_t * Z :=
  match k with
  | O => (data, next_free)
  | Datatypes.S k =>
      if next_free <? nblocks
      then fill_refs k (i + 1) (set_refs data i next_free) (u32 (next_free + 1)) nblocks
      else fill_refs k (i + 1) (set_refs data i 0) next_free nblocks
  end.

#[global] Arguments fill_refs : simpl never.

Section create.
Context {S : Type} (below : inode_store S) (below_ino : Z).

(** The outer loop of [setup_freelist]; [data] is the local array
    [freelist_data], whose entries are all written in every iteration. *)
Fixpoint setup_freelist_loop (fuel : nat) (s : S) (data : block_t)
    (freelist_block next_free nblocks : Z) : outcome (Z * S) :=
  if next_free <? nblocks then
    match fuel with
    | O => Fault OutOfFuel
    | Datatypes.S fuel =>
        let data := set_refs data 0 freelist_block in
        let freelist_block := next_free in
        let '(data, next_free) :=
          fill_refs (Z.to_nat (REFS_PER_BLOCK - 1)) 1 data (u32 (next_free + 1)) nblocks in
        '(r, s) ← write below s below_ino freelist_block data;
        if r <? 0 then Fault (Fatal "treedisk_setup_freelist") else
        setup_freelist_loop fuel s data freelist_block next_free nblocks
    end
  else Ret (freelist_block, s).

Definition setup_freelist (s : S) (next_free nblocks : Z) : outcome (Z * S) :=
  setup_freelist_loop (Z.to_nat nblocks) s null_block 0 next_free nblocks.

(** [for (uint i = 1; i <= n_inodeblocks; i++) write(i, &null_block)]; [false]
    is the error return. *)
Fixpoint clear_inodeblocks (n : nat) (i : Z) (s : S) : outcome (bool * S) :=
  match n with
  | O => Ret (true, s)
  | Datatypes.S n =>
      '(r, s) ← write below s below_ino i null_block;
      if r <? 0 then Ret (false, s) else clear_inodeblocks n (i + 1) s
  end.

Definition treedisk_create (s : S) (ninodes : Z) : outcome (Z * S) :=
  let n_inodeblocks := u32 (ninodes + INODES_PER_BLOCK - 1) / INODES_PER_BLOCK in
  nblocks ← getsize below s below_ino;
  let nblocks := u32 nblocks in
  if nblocks <? u32 (n_inodeblocks + 2) then Ret (-1, s) else
  '(r, sb) ← read below s below_ino 0 null_block;
  if r <? 0 then Ret (-1, s) else
  if sb_n_inodeblocks sb =? 0 then
    '(free_list, s) ← setup_freelist s (u32 (n_inodeblocks + 1)) nblocks;
    let sb := set_free_list (set_n_inodeblocks null_block n_inodeblocks) free_list in
    '(r, s) ← write below s below_ino 0 sb;
    if r <? 0 then Ret (-1, s) else
    '(ok, s) ← clear_inodeblocks (Z.to_nat n_inodeblocks) 1 s;
    if negb ok then Ret (-1, s) else Ret (0, s)
  else Ret (0, s).
End create.
