(* ===== verification/TreediskLayout.v ===== *)
(** * What a tree file system on a disk means

    The disk is the list of its blocks.  [fnode d ino n k] is the block number
    stored for the [k]-th node at depth [n] of the tree of inode [ino] (0 is a
    hole), [freelist] the free list in allocation order, and [tree_inv] the
    invariant of the layout: every block has at most one owner. *)
From S2P Require Import Prelude InodeStore Treedisk.

(** ** Blocks of a disk *)
Definition blk (d : list block_t) (b : Z) : block_t := default null_block (d !! Z.to_nat b).

Section blk.
Implicit Types (d : list block_t) (b x : Z).

Lemma blk_insert_eq d b v : 0 ≤ b < Z.of_nat (length d) → blk (<[Z.to_nat b := v]> d) b = v.
Proof. intros. unfold blk. by rewrite list_lookup_insert_eq by lia. Qed.

Lemma blk_insert_ne d b x v : 0 ≤ b → 0 ≤ x → x ≠ b → blk (<[Z.to_nat b := v]> d) x = blk d x.
Proof. intros. unfold blk. by rewrite list_lookup_insert_ne by lia. Qed.

Lemma lookup_blk d b : 0 ≤ b < Z.of_nat (length d) → d !! Z.to_nat b = Some (blk d b).
Proof.
  intros. unfold blk. destruct (d !! Z.to_nat b) eqn:E; [done|].
  apply lookup_ge_None in E. lia.
Qed.

Lemma insert_blk_id d b : 0 ≤ b < Z.of_nat (length d) → <[Z.to_nat b := blk d b]> d = d.
Proof. intros. by apply list_insert_id, lookup_blk. Qed.

Lemma blk_ok d b : Forall block_ok d → block_ok (blk d b).
Proof.
  intros H. unfold blk. destruct (d !! Z.to_nat b) eqn:E; simpl; [|apply null_block_ok].
  by eapply Forall_lookup_1 in H.
Qed.
End blk.
#[export] Hint Resolve blk_ok : egos.

(** ** Words of the on-disk structures *)
Section words.
Implicit Types (b : block_t).

Lemma refs_set_eq b i v :
  block_ok b → (i < 128)%nat → 0 ≤ v < 2 ^ 32 → refs (set_refs b i v) i = v.
Proof. unfold block_ok. intros. apply get32_set32_eq; unfold ref_off; lia. Qed.

Lemma refs_set_ne b i j v : i ≠ j → refs (set_refs b i v) j = refs b j.
Proof. intros. apply get32_set32_ne. unfold ref_off. lia. Qed.

Lemma refs_null i : refs null_block i = 0.
Proof. apply get32_zeros. Qed.

Lemma set_refs_ok b i v : block_ok b → block_ok (set_refs b i v).
Proof. unfold block_ok, set_refs. by rewrite length_set32. Qed.

Lemma set32_ok b i v : block_ok b → block_ok (set32 b i v).
Proof. unfold block_ok. by rewrite length_set32. Qed.

Lemma free_list_set_eq b v : block_ok b → 0 ≤ v < 2 ^ 32 → sb_free_list (set_free_list b v) = v.
Proof. unfold block_ok. intros. apply get32_set32_eq; lia. Qed.

Lemma n_inodeblocks_set_free_list b v :
  sb_n_inodeblocks (set_free_list b v) = sb_n_inodeblocks b.
Proof. apply get32_set32_ne. lia. Qed.
End words.
#[export] Hint Resolve set_refs_ok set32_ok : egos.

(** ** Heights

    [lv x] is the number of levels of a tree whose last offset is [x]. *)
Definition lv (x : Z) : nat :=
  if x <? 1 then 0 else if x <? 2 ^ 7 then 1 else if x <? 2 ^ 14 then 2
  else if x <? 2 ^ 21 then 3 else if x <? 2 ^ 28 then 4 else 5.

Definition height (nblocks : Z) : nat := if 0 <? nblocks then lv (nblocks - 1) else 0.

(** Offsets covered by a tree of height [h]. *)
Definition cap (h : nat) : Z := 2 ^ (7 * Z.of_nat h).

Ltac lv_cases :=
  unfold lv;
  repeat match goal with |- context [?x <? ?y] => destruct (Z.ltb_spec x y) end.

Lemma cap_pos h : 0 < cap h.
Proof. unfold cap. apply Z.pow_pos_nonneg; lia. Qed.

Lemma cap_S h : cap (S h) = 128 * cap h.
Proof.
  unfold cap. replace (7 * Z.of_nat (S h)) with (7 + 7 * Z.of_nat h) by lia.
  rewrite Z.pow_add_r by lia. reflexivity.
Qed.

Lemma cap_mono h h' : (h ≤ h')%nat → cap h ≤ cap h'.
Proof. intros. unfold cap. apply Z.pow_le_mono_r; lia. Qed.

Lemma lt_cap_lv x : x < 2 ^ 32 → x < cap (lv x).
Proof. lv_cases; unfold cap; simpl Z.of_nat; lia. Qed.

Lemma lv_le x : (lv x ≤ 5)%nat.
Proof. lv_cases; lia. Qed.

Lemma lv_mono x y : x ≤ y → (lv x ≤ lv y)%nat.
Proof. intros. lv_cases; lia. Qed.

Lemma height_mono x y : x ≤ y → (height x ≤ height y)%nat.
Proof.
  intros. unfold height. destruct (Z.ltb_spec 0 x), (Z.ltb_spec 0 y); try lia.
  apply lv_mono. lia.
Qed.

Lemma height_S x : 0 ≤ x → height (x + 1) = lv x.
Proof.
  intros. unfold height. rewrite (proj2 (Z.ltb_lt 0 (x + 1))) by lia. f_equal. lia.
Qed.

Lemma lt_cap_height n x : x < n < 2 ^ 32 → 0 ≤ x → x < cap (height n).
Proof.
  intros. unfold height. rewrite (proj2 (Z.ltb_lt 0 n)) by lia.
  pose proof (lt_cap_lv (n - 1)). lia.
Qed.

(** The level loops of the code compute [lv], within their bound. *)
Lemma log_shift_r_div x n :
  0 ≤ x < 2 ^ 32 → (n ≤ 6)%nat → log_shift_r x (u32 (Z.of_nat n * 7)) = x / cap n.
Proof.
  intros Hx Hn. unfold log_shift_r, cap.
  rewrite u32_small by lia. replace (Z.of_nat n * 7) with (7 * Z.of_nat n) by lia.
  destruct (Z.leb_spec 32 (7 * Z.of_nat n)).
  - symmetry. apply Z.div_small. split; [lia|].
    eapply Z.lt_le_trans; [apply Hx|]. apply Z.pow_le_mono_r; lia.
  - by rewrite Z.shiftr_div_pow2 by lia.
Qed.

Lemma levels_loop_spec fuel x n :
  0 ≤ x < 2 ^ 32 → (n ≤ lv x)%nat → (lv x < n + fuel)%nat →
  levels_loop 7 fuel x (Z.of_nat n) = Ret (Z.of_nat (lv x)).
Proof.
  revert n. induction fuel as [|fuel IH]; intros n Hx Hn Hf; [lia|].
  pose proof (lv_le x). simpl. rewrite log_shift_r_div by lia.
  destruct (decide (n = lv x)) as [->|Hne].
  - rewrite Z.div_small; [done|]. split; [lia|]. apply lt_cap_lv. lia.
  - assert (cap n ≤ x) as Hc.
    { assert (n < lv x)%nat as Hlt by lia. clear -Hlt. revert Hlt.
      unfold cap. lv_cases; intros; [lia|..];
        (assert (n = 0 ∨ n = 1 ∨ n = 2 ∨ n = 3 ∨ n = 4)%nat as Hn by lia);
        destruct Hn as [->|[->|[->|[->| ->]]]]; simpl; lia. }
    pose proof (cap_pos n).
    rewrite (proj2 (Z.eqb_neq (x / cap n) 0)).
    2: { pose proof (Z.div_str_pos x (cap n)). lia. }
    rewrite u32_small by lia. replace (Z.of_nat n + 1) with (Z.of_nat (S n)) by lia.
    apply IH; lia.
Qed.

Lemma count_levels_spec x : 0 ≤ x < 2 ^ 32 → count_levels 7 x = Ret (Z.of_nat (lv x)).
Proof. intros. pose proof (lv_le x). apply (levels_loop_spec 33 x 0); lia. Qed.

Lemma nlevels_of_spec n : 0 ≤ n < 2 ^ 32 → nlevels_of 7 n = Ret (Z.of_nat (height n)).
Proof.
  intros. unfold nlevels_of, height. destruct (Z.ltb_spec 0 n); [|done].
  apply count_levels_spec. lia.
Qed.

Lemma tree_index_spec x n :
  0 ≤ x < 2 ^ 32 → (n ≤ 5)%nat → tree_index 7 x n = Z.to_nat ((x / cap n) `mod` 128).
Proof. intros. unfold tree_index. by rewrite log_shift_r_div by lia. Qed.

(** ** Inodes and trees *)
Section trees.
Implicit Types (d : list block_t).

(** Block and index of an inode. *)
Definition iblk (ino : Z) : Z := 1 + ino / 64.
Definition iidx (ino : Z) : Z := ino `mod` 64.

Definition root_of d (ino : Z) : Z := inode_root (blk d (iblk ino)) (iidx ino).
Definition size_of d (ino : Z) : Z := inode_nblocks (blk d (iblk ino)) (iidx ino).

Fixpoint node d (root : Z) (n : nat) (k : Z) : Z :=
  match n with
  | O => if k =? 0 then root else 0
  | S n =>
      let p := node d root n (k / 128) in
      if p =? 0 then 0 else refs (blk d p) (Z.to_nat (k `mod` 128))
  end.

Definition fnode d (ino : Z) (n : nat) (k : Z) : Z := node d (root_of d ino) n k.

(** Contents of block [k] of the file [ino] when its tree has height [h]. *)
Definition fblock d (h : nat) (ino k : Z) : block_t :=
  let b := fnode d ino h k in if b =? 0 then null_block else blk d b.

(** ** The free list, in allocation order *)
Fixpoint free_refs (b : block_t) (i : nat) : list Z :=
  match i with
  | O => []
  | S j => if refs b i =? 0 then free_refs b j else refs b i :: free_refs b j
  end.

#[global] Arguments free_refs : simpl never.

Inductive freelist d : Z → list Z → Prop :=
  | freelist_nil : freelist d 0 []
  | freelist_cons b rest :
      b ≠ 0 → freelist d (refs (blk d b) 0) rest →
      freelist d b (free_refs (blk d b) 127 ++ b :: rest).

(** ** The invariant

    [ni] inode blocks, [H ino] the height of the tree of [ino], [fl] the free
    list.  A valid position is a node of the tree of some inode. *)
Definition ino_ok (ni ino : Z) : Prop := 0 ≤ ino < 64 * ni.
Definition pos_ok (ni : Z) (H : Z → nat) (ino : Z) (n : nat) (k : Z) : Prop :=
  ino_ok ni ino ∧ (n ≤ H ino)%nat ∧ 0 ≤ k.

Record tree_inv d (ni : Z) (H : Z → nat) (fl : list Z) : Prop := TreeInv {
  ti_len : ni < Z.of_nat (length d) < 2 ^ 32;
  ti_ni : 0 ≤ ni ∧ 64 * ni < 2 ^ 32;
  ti_blocks : Forall block_ok d;
  ti_sb : sb_n_inodeblocks (blk d 0) = ni;
  ti_free : freelist d (sb_free_list (blk d 0)) fl;
  ti_free_nodup : NoDup fl;
  ti_free_range b : b ∈ fl → ni < b < Z.of_nat (length d);
  ti_node_range ino n k :
    pos_ok ni H ino n k → fnode d ino n k ≠ 0 → ni < fnode d ino n k < Z.of_nat (length d);
  ti_node_free ino n k : pos_ok ni H ino n k → fnode d ino n k ∉ fl;
  ti_node_inj ino n k ino' n' k' :
    pos_ok ni H ino n k → pos_ok ni H ino' n' k' →
    fnode d ino n k ≠ 0 → fnode d ino n k = fnode d ino' n' k' →
    ino = ino' ∧ n = n' ∧ k = k';
  ti_size ino : ino_ok ni ino → 0 ≤ size_of d ino < 2 ^ 32;
  ti_leaf ino k :
    ino_ok ni ino → 0 ≤ k → fnode d ino (H ino) k ≠ 0 → k < size_of d ino;
  ti_height ino : ino_ok ni ino → (H ino ≤ 5)%nat
}.

(** A file system at rest: the heights are those of the sizes. *)
Definition fs_wf d (ni : Z) (fl : list Z) : Prop := tree_inv d ni (λ ino, height (size_of d ino)) fl.
End trees.

(** ** Inodes: updating one word of an inode block *)
Section inodes.
Implicit Types (d : list block_t).

Lemma iblk_range ni ino : ino_ok ni ino → 1 ≤ iblk ino ≤ ni.
Proof. unfold ino_ok, iblk. intros. Z.div_mod_to_equations. lia. Qed.

Lemma iidx_range ino : 0 ≤ iidx ino < 64.
Proof. apply Z.mod_pos_bound. lia. Qed.

Lemma ino_eq ino ino' : iblk ino = iblk ino' → iidx ino = iidx ino' → ino = ino'.
Proof. unfold iblk, iidx. intros. Z.div_mod_to_equations. lia. Qed.

(** Overwriting a non-inode block, or a word of one inode. *)
Lemma root_size_frame d d' ino :
  blk d' (iblk ino) = blk d (iblk ino) → root_of d' ino = root_of d ino ∧ size_of d' ino = size_of d ino.
Proof. unfold root_of, size_of. by intros ->. Qed.

(** One word of the block of inode [ino] is overwritten. *)
Definition iword_set d d' (ino : Z) (off : nat) (v : Z) : Prop :=
  (∀ i, 0 ≤ i → i ≠ iblk ino → blk d' i = blk d i) ∧
  blk d' (iblk ino) = set32 (blk d (iblk ino)) off v.

Lemma iword_set_eq d d' ino off v :
  Forall block_ok d → iword_set d d' ino off v → 0 ≤ v < 2 ^ 32 → (off + 4 ≤ 512)%nat →
  get32 (blk d' (iblk ino)) off = v.
Proof.
  intros Hok [_ ->] Hv Ho. apply get32_set32_eq; [|done].
  pose proof (blk_ok d (iblk ino) Hok) as Hl. unfold block_ok in Hl. by rewrite Hl.
Qed.

Lemma iword_set_ne d d' ino off v ino' off' :
  iword_set d d' ino off v → 0 ≤ ino' →
  (iblk ino' = iblk ino → off' + 4 ≤ off ∨ off + 4 ≤ off')%nat →
  get32 (blk d' (iblk ino')) off' = get32 (blk d (iblk ino')) off'.
Proof.
  intros [Hfr E] Hi Ho. destruct (decide (iblk ino' = iblk ino)) as [Eb|Nb].
  - rewrite Eb, E. apply get32_set32_ne. auto.
  - rewrite Hfr; [done| |done]. unfold iblk. Z.div_mod_to_equations. lia.
Qed.

Ltac inode_word ino ino' :=
  pose proof (iidx_range ino); pose proof (iidx_range ino');
  pose proof (ino_eq ino ino'); unfold root_off, nblocks_off; lia.

Lemma root_of_set_eq d d' ino v :
  Forall block_ok d → iword_set d d' ino (root_off (iidx ino)) v → 0 ≤ v < 2 ^ 32 →
  root_of d' ino = v.
Proof. intros. eapply iword_set_eq; [done..|]. inode_word ino ino. Qed.

Lemma size_of_set_eq d d' ino v :
  Forall block_ok d → iword_set d d' ino (nblocks_off (iidx ino)) v → 0 ≤ v < 2 ^ 32 →
  size_of d' ino = v.
Proof. intros. eapply iword_set_eq; [done..|]. inode_word ino ino. Qed.

Lemma root_of_set_ne d d' ino ino' v :
  iword_set d d' ino (root_off (iidx ino)) v → 0 ≤ ino' → ino' ≠ ino →
  root_of d' ino' = root_of d ino'.
Proof. intros. eapply iword_set_ne; [done..|]. inode_word ino ino'. Qed.

Lemma size_of_set_ne d d' ino ino' v :
  iword_set d d' ino (nblocks_off (iidx ino)) v → 0 ≤ ino' → ino' ≠ ino →
  size_of d' ino' = size_of d ino'.
Proof. intros. eapply iword_set_ne; [done..|]. inode_word ino ino'. Qed.

Lemma size_of_set_root d d' ino ino' v :
  iword_set d d' ino (root_off (iidx ino)) v → 0 ≤ ino' → size_of d' ino' = size_of d ino'.
Proof. intros. eapply iword_set_ne; [done..|]. inode_word ino ino'. Qed.

Lemma root_of_set_size d d' ino ino' v :
  iword_set d d' ino (nblocks_off (iidx ino)) v → 0 ≤ ino' → root_of d' ino' = root_of d ino'.
Proof. intros. eapply iword_set_ne; [done..|]. inode_word ino ino'. Qed.
End inodes.

(** ** Nodes *)
Section nodes.
Implicit Types (d : list block_t).

Lemma node_frame d d' r n k :
  (∀ m k', (m < n)%nat → node d r m k' ≠ 0 → blk d' (node d r m k') = blk d (node d r m k')) →
  node d' r n k = node d r n k.
Proof.
  revert k. induction n as [|n IH]; intros k Hfr; [done|]. simpl.
  rewrite IH by eauto with lia.
  destruct (Z.eqb_spec (node d r n (k / 128)) 0) as [E|E]; [done|].
  rewrite Hfr; [done|lia|done].
Qed.

Lemma fnode_child d ino n k :
  fnode d ino (S n) k ≠ 0 → fnode d ino n (k / 128) ≠ 0.
Proof. unfold fnode. simpl. by destruct (Z.eqb_spec (node d (root_of d ino) n (k / 128)) 0). Qed.

Lemma fnode_S d ino n k :
  fnode d ino n (k / 128) ≠ 0 →
  fnode d ino (S n) k = refs (blk d (fnode d ino n (k / 128))) (Z.to_nat (k `mod` 128)).
Proof. unfold fnode. simpl. intros. by rewrite (proj2 (Z.eqb_neq _ 0)). Qed.

Lemma fnode_S_hole d ino n k : fnode d ino n (k / 128) = 0 → fnode d ino (S n) k = 0.
Proof. unfold fnode. simpl. intros ->. done. Qed.

Lemma fnode_0 d ino : fnode d ino 0 0 = root_of d ino.
Proof. done. Qed.

Lemma pos_ok_parent ni H ino n k : pos_ok ni H ino (S n) k → pos_ok ni H ino n (k / 128).
Proof. unfold pos_ok. intros (? & ? & ?). repeat split; [apply H0|apply H0|lia|Z.div_mod_to_equations; lia]. Qed.

(** Blocks whose change does not affect the tree of [ino]. *)
Lemma fnode_frame d d' ni H ino n k :
  pos_ok ni H ino n k → root_of d' ino = root_of d ino →
  (∀ m k', (m < n)%nat → pos_ok ni H ino m k' → fnode d ino m k' ≠ 0 →
     blk d' (fnode d ino m k') = blk d (fnode d ino m k')) →
  fnode d' ino n k = fnode d ino n k.
Proof.
  intros Hp Hr Hfr. revert k Hp. induction n as [|n IH]; intros k Hp.
  - unfold fnode. by rewrite Hr.
  - pose proof (pos_ok_parent _ _ _ _ _ Hp) as Hp'.
    assert (fnode d' ino n (k / 128) = fnode d ino n (k / 128)) as E.
    { apply IH; [|done]. intros. apply Hfr; [lia|done|done]. }
    destruct (decide (fnode d ino n (k / 128) = 0)) as [Hz|Hnz].
    + rewrite !fnode_S_hole; [done|done|congruence].
    + rewrite !fnode_S; [|done|congruence]. rewrite E, Hfr; [done|lia|done|done].
Qed.
End nodes.
