(* ===== verification/TreediskAlloc.v ===== *)
(** * The block allocator of the tree file system

    [treedisk_alloc_block] pops the first block of the free list in
    allocation order ([TreediskLayout.freelist]); the free list acts as a
    stack. *)
From S2P Require Import Prelude InodeStore Treedisk TreediskLayout.

Section pure.
Implicit Types (d : list block_t) (b x : Z).

(** ** The scan of a free-list block *)
Lemma free_refs_S (b : block_t) j :
  free_refs b (S j) = if refs b (S j) =? 0 then free_refs b j else refs b (S j) :: free_refs b j.
Proof. reflexivity. Qed.

Lemma scan_refs_0 flb i : scan_refs flb i = 0%nat → free_refs flb i = [].
Proof. induction i as [|i IH]; [done|]. rewrite free_refs_S. unfold scan_refs. simpl. fold (scan_refs flb i). destruct (refs flb (S i) =? 0); [done|discriminate]. Qed.

Lemma free_refs_set flb i j v :
  (i < j)%nat → free_refs (set_refs flb j v) i = free_refs flb i.
Proof.
  induction i as [|i IH]; intros; [done|]. rewrite !free_refs_S.
  rewrite refs_set_ne by lia. by rewrite IH by lia.
Qed.

Lemma scan_refs_S flb i j :
  block_ok flb → (i < 128)%nat → scan_refs flb i = S j →
  (j < i)%nat ∧ free_refs flb i = refs flb (S j) :: free_refs flb j
  ∧ free_refs (set_refs flb (S j) 0) i = free_refs flb j.
Proof.
  intros Hok. induction i as [|i IH]; intros Hi Hs; [discriminate|].
  rewrite !free_refs_S. unfold scan_refs in Hs. fold (scan_refs flb i) in Hs. destruct (refs flb (S i) =? 0) eqn:E.
  - destruct IH as (Hj & E1 & E2); [lia|done|].
    rewrite refs_set_ne by lia. rewrite E. split; [lia|done].
  - injection Hs as ->. rewrite refs_set_eq by (done || lia). simpl.
    rewrite free_refs_set by lia. split; [lia|done].
Qed.

(** ** Framing and popping the free list *)
Lemma freelist_frame d d' b fl :
  freelist d b fl → (∀ x, x ∈ fl → blk d' x = blk d x) → freelist d' b fl.
Proof.
  induction 1 as [|b rest Hb Hf IH]; intros Hfr; [constructor|].
  assert (blk d' b = blk d b) as E by (apply Hfr, elem_of_app; right; left).
  rewrite <- E. constructor; [done|]. rewrite E. apply IH.
  intros x Hx. apply Hfr, elem_of_app. right. by right.
Qed.

Lemma freelist_head d b fl : freelist d b fl → b = 0 ∧ fl = [] ∨ b ≠ 0 ∧ b ∈ fl.
Proof. intros []; [by left|right]. split; [done|]. apply elem_of_app. right; left. Qed.

(** What an allocation does: the allocated block, the one block it overwrites
    and with what, and the new superblock. *)
Definition alloc_effect (sb flb : block_t) (head : Z) : Z * Z * block_t * block_t :=
  match scan_refs flb 127 with
  | O => let sb' := set_free_list sb (refs flb 0) in (head, 0, sb', sb')
  | i => (refs flb i, head, set_refs flb i 0, sb)
  end.

(** Block [hb] is overwritten by [nb], and this takes [b] off the free list. *)
Record pops d (ni b : Z) (fl : list Z) (hb : Z) (nb : block_t) : Prop := Pops {
  pops_where : hb = 0 ∨ hb ∈ b :: fl;
  pops_ok : block_ok nb;
  pops_free : let d' := <[Z.to_nat hb := nb]> d in freelist d' (sb_free_list (blk d' 0)) fl;
  pops_sb : sb_n_inodeblocks (blk (<[Z.to_nat hb := nb]> d) 0) = ni
}.

(** The free list of a disk with [ni] inode blocks. *)
Record free_ok d (ni : Z) (fl : list Z) : Prop := FreeOk {
  fo_len : ni < Z.of_nat (length d) < 2 ^ 32;
  fo_ni : 0 ≤ ni;
  fo_blocks : Forall block_ok d;
  fo_sb : sb_n_inodeblocks (blk d 0) = ni;
  fo_free : freelist d (sb_free_list (blk d 0)) fl;
  fo_nodup : NoDup fl;
  fo_range b : b ∈ fl → ni < b < Z.of_nat (length d)
}.

Lemma tree_inv_free_ok d ni H fl : tree_inv d ni H fl → free_ok d ni fl.
Proof. intros []. constructor; try done. lia. Qed.

Lemma alloc_pops d ni b fl :
  free_ok d ni (b :: fl) →
  ∃ hb nb sb',
    alloc_effect (blk d 0) (blk d (sb_free_list (blk d 0))) (sb_free_list (blk d 0))
      = (b, hb, nb, sb') ∧
    pops d ni b fl hb nb ∧ blk (<[Z.to_nat hb := nb]> d) 0 = sb'.
Proof.
  intros Hok. pose proof (fo_free _ _ _ Hok) as Hf.
  set (head := sb_free_list (blk d 0)) in *.
  assert (block_ok (blk d head)) as Hflb by (apply blk_ok, Hok).
  pose proof (fo_len _ _ _ Hok) as Hlen. pose proof (fo_ni _ _ _ Hok) as Hni.
  unfold alloc_effect. inversion Hf as [|h rest Hnz Hrest]; subst h.
  assert (∀ x, x ∈ b :: fl → 0 < x < Z.of_nat (length d)) as Hrange.
  { intros x Hx. apply (fo_range _ _ _ Hok) in Hx. lia. }
  assert (head ∈ b :: fl) as Hhead by (destruct (freelist_head _ _ _ Hf) as [[_ ?]|[_ ?]]; done).
  pose proof (Hrange _ Hhead) as Hhr.
  destruct (scan_refs (blk d head) 127) as [|j] eqn:Es.
  - rewrite (scan_refs_0 _ _ Es) in H0. simpl in H0. injection H0 as <- <-.
    assert (0 ≤ refs (blk d head) 0 < 2 ^ 32) as Hr.
    { apply freelist_head in Hrest as [[-> _]|[_ Hin]]; [lia|].
      specialize (Hrange (refs (blk d head) 0) ltac:(by right)). lia. }
    eexists _, _, _. split; [reflexivity|].
    assert (blk (<[Z.to_nat 0 := set_free_list (blk d 0) (refs (blk d head) 0)]> d) 0
            = set_free_list (blk d 0) (refs (blk d head) 0)) as E.
    { apply blk_insert_eq. lia. }
    split; [|done]. constructor; [by left|apply set32_ok, blk_ok, Hok|..]; simpl; rewrite ?E.
    + rewrite free_list_set_eq by (done || apply blk_ok, Hok). eapply freelist_frame; [exact Hrest|].
      intros x Hx. specialize (Hrange x ltac:(by right)). apply blk_insert_ne; lia.
    + rewrite n_inodeblocks_set_free_list. apply Hok.
  - destruct (scan_refs_S _ 127 j Hflb ltac:(lia) Es) as (Hj & E1 & E2).
    rewrite E1 in H0. simpl in H0. injection H0 as <- <-.
    eexists _, _, _. split; [reflexivity|].
    set (d' := <[Z.to_nat head := set_refs (blk d head) (S j) 0]> d).
    assert (blk d' 0 = blk d 0) as E0 by (apply blk_insert_ne; lia).
    assert (blk d' head = set_refs (blk d head) (S j) 0) as Eh by (apply blk_insert_eq; lia).
    split; [|done]. constructor; [by right|by apply set_refs_ok|..]; simpl; fold d'; rewrite E0.
    2: apply Hok.
    fold head. rewrite <- E2, <- Eh. constructor; [done|].
    rewrite Eh, refs_set_ne by lia.
    pose proof (fo_nodup _ _ _ Hok) as Hnd.
    eapply freelist_frame; [exact Hrest|]. intros x Hx.
    assert (x ≠ head).
    { intros ->. apply NoDup_cons in Hnd as [_ Hnd].
      apply NoDup_app in Hnd as (_ & _ & Hnd). by apply NoDup_cons in Hnd as [Hnd _]. }
    specialize (Hrange x ltac:(right; apply elem_of_app; right; by right)).
    apply blk_insert_ne; [lia..|done].
Qed.
End pure.

(** ** Changes that do not concern the trees *)
Section frame.
Implicit Types (d : list block_t).

(** Blocks the trees depend on: inode blocks and indirect blocks. *)
Definition tree_block d (ni : Z) (H : Z → nat) (x : Z) : Prop :=
  1 ≤ x ≤ ni ∨
  ∃ ino n k, pos_ok ni H ino n k ∧ (n < H ino)%nat ∧ fnode d ino n k = x ∧ x ≠ 0.

Lemma fnode_same d d' ni H ino n k :
  (∀ x, tree_block d ni H x → blk d' x = blk d x) →
  pos_ok ni H ino n k → fnode d' ino n k = fnode d ino n k.
Proof.
  intros Hfr Hp. pose proof Hp as (Hi & Hn & Hk).
  apply (fnode_frame d d' ni H); [done| |].
  - apply root_size_frame, Hfr. left. by apply iblk_range.
  - intros m k' Hm Hp' Hnz. apply Hfr. right. exists ino, m, k'. split_and!; [done|lia|done|done].
Qed.

Lemma size_same d d' ni H ino :
  (∀ x, tree_block d ni H x → blk d' x = blk d x) →
  ino_ok ni ino → size_of d' ino = size_of d ino.
Proof. intros Hfr Hi. apply root_size_frame, Hfr. left. by apply iblk_range. Qed.

Lemma tree_inv_frame d d' ni H fl fl' :
  tree_inv d ni H fl → free_ok d' ni fl' → length d' = length d → fl' ⊆ fl →
  (∀ x, tree_block d ni H x → blk d' x = blk d x) →
  tree_inv d' ni H fl'.
Proof.
  intros Hinv Hfree Hlen Hsub Hfr.
  pose proof (λ ino n k, fnode_same d d' ni H ino n k Hfr) as Hn.
  destruct Hfree. constructor; try done.
  - apply Hinv.
  - intros ino n k Hp. rewrite Hn, Hlen by done. by apply Hinv.
  - intros ino n k Hp. rewrite Hn by done. intros Hin. by eapply (ti_node_free _ _ _ _ Hinv), Hsub.
  - intros ino n k ino' n' k' Hp Hp'. rewrite !Hn by done. by apply Hinv.
  - intros ino Hi. rewrite (size_same d d' ni H) by done. by apply Hinv.
  - intros ino k Hi Hk. rewrite (size_same d d' ni H), Hn by (done || (by repeat split; (apply Hi || lia))).
    by apply Hinv.
  - apply Hinv.
Qed.

(** A block that is neither free nor used. *)
Definition fresh d (ni : Z) (H : Z → nat) (fl : list Z) (b : Z) : Prop :=
  ni < b < Z.of_nat (length d) ∧ (b ∉ fl) ∧ (∀ ino n k, pos_ok ni H ino n k → fnode d ino n k ≠ b).

Lemma tree_block_not_free d ni H fl x : tree_inv d ni H fl → tree_block d ni H x → x ≠ 0 ∧ x ∉ fl.
Proof.
  intros Hinv [Hx|(ino & n & k & Hp & _ & <- & Hnz)].
  - split; [lia|]. intros Hin. apply (ti_free_range _ _ _ _ Hinv) in Hin. lia.
  - split; [done|]. by apply Hinv.
Qed.

Lemma tree_block_nonneg d ni H fl x : tree_inv d ni H fl → tree_block d ni H x → 0 ≤ x.
Proof.
  intros Hinv [Hx|(ino & n & k & Hp & _ & <- & Hnz)]; [lia|].
  pose proof (ti_node_range _ _ _ _ Hinv _ _ _ Hp Hnz). pose proof (ti_ni _ _ _ _ Hinv). lia.
Qed.

Lemma pops_free_ok d ni b fl hb nb : free_ok d ni (b :: fl) → pops d ni b fl hb nb →
  free_ok (<[Z.to_nat hb := nb]> d) ni fl.
Proof.
  intros [] []. constructor; rewrite ?length_insert; try done.
  - by apply Forall_insert.
  - by eapply NoDup_cons_1_2.
  - intros x Hx. apply fo_range0. by right.
Qed.

(** Popping [b] leaves the trees alone and makes [b] fresh. *)
Lemma pops_frame d ni H b fl hb nb :
  tree_inv d ni H (b :: fl) → pops d ni b fl hb nb →
  let d' := <[Z.to_nat hb := nb]> d in
  (∀ x, 0 < x → x ∉ b :: fl → blk d' x = blk d x).
Proof.
  intros Hinv Hpop d' x Hx Hin. apply blk_insert_ne; [|lia|].
  - destruct (pops_where _ _ _ _ _ _ Hpop) as [->|Hhb]; [done|].
    apply (ti_free_range _ _ _ _ Hinv) in Hhb. pose proof (ti_ni _ _ _ _ Hinv). lia.
  - intros ->. destruct (pops_where _ _ _ _ _ _ Hpop) as [->|Hhb]; [lia|done].
Qed.

Lemma pops_tree_inv d ni H b fl hb nb :
  tree_inv d ni H (b :: fl) → pops d ni b fl hb nb →
  let d' := <[Z.to_nat hb := nb]> d in
  tree_inv d' ni H fl ∧ fresh d' ni H fl b ∧
  (∀ x, tree_block d ni H x → blk d' x = blk d x).
Proof.
  intros Hinv Hpop d'.
  assert (∀ x, tree_block d ni H x → blk d' x = blk d x) as Hfr.
  { intros x Hx. pose proof (tree_block_not_free _ _ _ _ _ Hinv Hx) as [? ?].
    pose proof (tree_block_nonneg _ _ _ _ _ Hinv Hx).
    eapply pops_frame; [done|done|lia|done]. }
  split; [|split; [split; [|split]|done]].
  - eapply tree_inv_frame; [done| | |set_solver|done].
    + eapply pops_free_ok; [by eapply tree_inv_free_ok|done].
    + apply length_insert.
  - unfold d'. rewrite length_insert. apply (ti_free_range _ _ _ _ Hinv). by left.
  - pose proof (ti_free_nodup _ _ _ _ Hinv) as Hnd. by apply NoDup_cons in Hnd as [? _].
  - intros ino n k Hp. rewrite (fnode_same d d' ni H) by done.
    intros E. apply (ti_node_free _ _ _ _ Hinv ino n k Hp). rewrite E. by left.
Qed.
End frame.

(** ** [treedisk_alloc_block] *)
Section alloc.
Context {S : Type} (below : inode_store S) (bino : Z) `{!DiskStore below bino}.

(** The disk in store [s] may differ from [d] away from the free list. *)
Lemma treedisk_alloc_block_spec s sn d ni b fl :
  ds_inv below bino s → free_ok d ni (b :: fl) → superblock sn = blk d 0 →
  length (ds_blocks below bino s) = length d →
  (∀ x, x ∈ b :: fl → blk (ds_blocks below bino s) x = blk d x) →
  ∃ hb nb s',
    treedisk_alloc_block below bino s sn
      = Ret (b, with_superblock sn (blk (<[Z.to_nat hb := nb]> d) 0), s') ∧
    ds_inv below bino s' ∧
    ds_blocks below bino s' = <[Z.to_nat hb := nb]> (ds_blocks below bino s) ∧
    pops d ni b fl hb nb.
Proof.
  intros Hs Hok Hsb Hlen Hagree.
  destruct (alloc_pops d ni b fl Hok) as (hb & nb & sb' & Heff & Hpop & Esb).
  set (head := sb_free_list (blk d 0)) in *.
  assert (head ≠ 0 ∧ head ∈ b :: fl) as [Hnz Hhead].
  { destruct (freelist_head _ _ _ (fo_free _ _ _ Hok)) as [[_ ?]|?]; done. }
  pose proof (fo_range _ _ _ Hok _ Hhead) as Hr. pose proof (fo_ni _ _ _ Hok).
  exists hb, nb.
  assert (0 ≤ hb < Z.of_nat (length (ds_blocks below bino s))) as Hhb.
  { destruct (pops_where _ _ _ _ _ _ Hpop) as [->|Hin]; [lia|].
    apply (fo_range _ _ _ Hok) in Hin. lia. }
  destruct (ds_write s hb nb Hs Hhb) as (s' & Hw & Hs' & Hd').
  exists s'. split_and!; [|done..].
  unfold treedisk_alloc_block. rewrite Hsb. fold head.
  rewrite (proj2 (Z.eqb_neq head 0)) by done.
  erewrite ds_read; [|lia|apply lookup_blk; lia].
  rewrite bind_ret, Hagree by done. simpl. rewrite Esb.
  change (Z.to_nat (REFS_PER_BLOCK - 1)) with 127%nat. unfold alloc_effect in Heff.
  destruct (scan_refs (blk d head) 127) as [|j]; injection Heff as <- <- Enb <-; subst nb;
    rewrite Hw; simpl; [done|].
  rewrite <- Hsb. by destruct sn.
Qed.

Lemma treedisk_alloc_block_full s sn :
  sb_free_list (superblock sn) = 0 →
  treedisk_alloc_block below bino s sn
    = Fault (Fatal "treedisk_alloc_block: inode store is full").
Proof. intros E. unfold treedisk_alloc_block. by rewrite E. Qed.
End alloc.
