(* ===== verification/TreediskRead.v ===== *)
(** * Reading the tree file system

    On a well-formed disk [treedisk_get_snapshot] finds the superblock and the
    inode, and [treedisk_read] returns the block the tree stores for the
    offset ([TreediskLayout.fblock]), or a null block for a hole. *)
From S2P Require Import Prelude InodeStore Treedisk TreediskLayout TreediskAlloc.

Section walk.
Implicit Types (d : list block_t).

Lemma div_cap_0 x : x / cap 0 = x.
Proof. apply Z.div_1_r. Qed.

Lemma div_cap_S x m : x / cap m / 128 = x / cap (S m).
Proof. rewrite cap_S, Z.div_div, (Z.mul_comm 128) by (pose proof (cap_pos m); lia). done. Qed.

Lemma div_cap_nonneg x m : 0 ≤ x → 0 ≤ x / cap m.
Proof. intros. apply Z.div_pos; [done|apply cap_pos]. Qed.

(** A hole at depth [n] is a hole below. *)
Lemma fnode_hole d ino n m x :
  fnode d ino n (x / cap m) = 0 → fnode d ino (n + m) x = 0.
Proof.
  revert n. induction m as [|m IH]; intros n Hz.
  - by rewrite div_cap_0, Nat.add_0_r in *.
  - rewrite <- Nat.add_succ_comm. apply IH. apply fnode_S_hole. by rewrite div_cap_S.
Qed.

Lemma pos_ok_div ni H ino n m x :
  ino_ok ni ino → (n + m = H ino)%nat → 0 ≤ x → pos_ok ni H ino n (x / cap m).
Proof. intros. split_and!; [done|lia|by apply div_cap_nonneg]. Qed.
End walk.

Section read.
Context {S : Type} (below : inode_store S) (bino : Z) `{!ReadStore below bino}.

Lemma ds_read_blk s b buf :
  0 ≤ b < Z.of_nat (length (ds_blocks below bino s)) →
  read below s bino b buf = Ret (0, blk (ds_blocks below bino s) b).
Proof. intros. apply ds_read; [lia|]. by apply lookup_blk. Qed.

Lemma get_snapshot_ok s ino ni H fl :
  tree_inv (ds_blocks below bino s) ni H fl → ino_ok ni ino →
  treedisk_get_snapshot below bino s ino
    = Ret (Some (Snapshot (blk (ds_blocks below bino s) 0)
                          (blk (ds_blocks below bino s) (iblk ino)) (iblk ino) (iidx ino))).
Proof.
  intros Hinv Hi. pose proof (ti_len _ _ _ _ Hinv). pose proof (ti_ni _ _ _ _ Hinv).
  unfold treedisk_get_snapshot. rewrite (ds_read_blk s 0) by lia. rewrite bind_ret. simpl.
  rewrite (ti_sb _ _ _ _ Hinv). change INODES_PER_BLOCK with 64. rewrite u32_small by lia.
  unfold ino_ok in Hi. rewrite (proj2 (Z.leb_gt _ _)) by lia.
  pose proof (iblk_range ni ino Hi). rewrite u32_small by (unfold iblk in *; lia).
  change (1 + ino / 64) with (iblk ino). by rewrite ds_read_blk by lia.
Qed.

Lemma get_snapshot_bad s ino ni H fl :
  tree_inv (ds_blocks below bino s) ni H fl → 64 * ni ≤ ino →
  treedisk_get_snapshot below bino s ino = Ret None.
Proof.
  intros Hinv Hi. pose proof (ti_len _ _ _ _ Hinv). pose proof (ti_ni _ _ _ _ Hinv).
  unfold treedisk_get_snapshot. rewrite (ds_read_blk s 0) by lia. rewrite bind_ret. simpl.
  rewrite (ti_sb _ _ _ _ Hinv). change INODES_PER_BLOCK with 64. rewrite u32_small by lia.
  by rewrite (proj2 (Z.leb_le _ _)) by lia.
Qed.

Lemma read_walk_step m s off b buf :
  let d := ds_blocks below bino s in
  0 < b < Z.of_nat (length d) →
  read_walk below bino 7 m s off b buf
    = match m with
      | O => Ret (0, blk d b)
      | Datatypes.S m =>
          read_walk below bino 7 m s off (refs (blk d b) (tree_index 7 off m)) (blk d b)
      end.
Proof.
  intros d Hb. destruct m; simpl; rewrite (proj2 (Z.eqb_neq b 0)) by lia;
    by rewrite ds_read_blk by (fold d; lia).
Qed.

Lemma read_walk_spec s ni H fl ino off m n buf :
  let d := ds_blocks below bino s in
  tree_inv d ni H fl → ino_ok ni ino → 0 ≤ off < 2 ^ 32 → (n + m = H ino)%nat →
  read_walk below bino 7 m s off (fnode d ino n (off / cap m)) buf
    = Ret (0, fblock d (H ino) ino off).
Proof.
  intros d Hinv Hi Hoff. pose proof (ti_height _ _ _ _ Hinv ino Hi) as Hh.
  pose proof (ti_ni _ _ _ _ Hinv) as Hni. unfold fblock.
  revert n buf. induction m as [|m IH]; intros n buf Hn;
    (match goal with |- context [fnode d ino n ?k] =>
         destruct (decide (fnode d ino n k = 0)) as [Hz|Hnz];
         [ rewrite Hz, <- Hn, fnode_hole by done; by destruct buf
         | pose proof (ti_node_range _ _ _ _ Hinv ino n k
             (pos_ok_div _ _ _ _ _ off Hi Hn (proj1 Hoff)) Hnz) ]
       end); rewrite read_walk_step by (fold d; lia); fold d.
  - rewrite div_cap_0, Nat.add_0_r in *. subst n. by rewrite (proj2 (Z.eqb_neq _ 0)).
  - rewrite tree_index_spec by lia.
    rewrite <- (div_cap_S off m) in Hnz |- *. rewrite <- fnode_S by done.
    apply IH. lia.
Qed.

(** [treedisk_read] on a well-formed disk. *)
Lemma treedisk_read_spec s ni fl ino off buf :
  let d := ds_blocks below bino s in
  fs_wf d ni fl → ino_ok ni ino → 0 ≤ off < size_of d ino →
  treedisk_read below bino 7 s ino off buf
    = Ret (0, fblock d (height (size_of d ino)) ino off).
Proof.
  intros d Hwf Hi Hoff. unfold treedisk_read. rewrite (get_snapshot_ok s ino ni _ fl Hwf Hi).
  rewrite bind_ret. unfold snap_nblocks, snap_root. simpl. fold d.
  change (inode_nblocks (blk d (iblk ino)) (iidx ino)) with (size_of d ino).
  change (inode_root (blk d (iblk ino)) (iidx ino)) with (root_of d ino).
  pose proof (ti_size _ _ _ _ Hwf ino Hi) as Hs.
  rewrite (proj2 (Z.leb_gt _ _)) by lia. rewrite nlevels_of_spec by done.
  rewrite bind_ret, Nat2Z.id, <- fnode_0.
  replace 0 with (off / cap (height (size_of d ino))) at 1
    by (apply Z.div_small; split; [lia|apply lt_cap_height; lia]).
  apply (read_walk_spec s ni (λ i, height (size_of d i)) fl ino off (height (size_of d ino)) 0 buf
    Hwf Hi); [lia|done].
Qed.

Lemma treedisk_read_eof s ni fl ino off buf :
  let d := ds_blocks below bino s in
  fs_wf d ni fl → ino_ok ni ino → size_of d ino ≤ off →
  treedisk_read below bino 7 s ino off buf = Ret (-1, buf).
Proof.
  intros d Hwf Hi Hoff. unfold treedisk_read. rewrite (get_snapshot_ok s ino ni _ fl Hwf Hi).
  rewrite bind_ret. unfold snap_nblocks. simpl. fold d.
  change (inode_nblocks (blk d (iblk ino)) (iidx ino)) with (size_of d ino).
  by rewrite (proj2 (Z.leb_le _ _)) by lia.
Qed.

Lemma treedisk_read_bad_ino s ni fl ino off buf :
  fs_wf (ds_blocks below bino s) ni fl → 64 * ni ≤ ino →
  treedisk_read below bino 7 s ino off buf = Ret (-1, buf).
Proof. intros Hwf Hi. unfold treedisk_read. by rewrite (get_snapshot_bad s ino ni _ fl Hwf Hi). Qed.

Lemma treedisk_getsize_spec s ni fl ino :
  let d := ds_blocks below bino s in
  fs_wf d ni fl → ino_ok ni ino →
  treedisk_getsize below bino s ino = Ret (i32 (size_of d ino)).
Proof.
  intros d Hwf Hi. unfold treedisk_getsize. by rewrite (get_snapshot_ok s ino ni _ fl Hwf Hi).
Qed.
End read.
