(* ===== verification/TreediskLink.v ===== *)
(** * Updating the trees

    The three changes [treedisk_write] makes to the trees, as facts about
    disks: overwriting a block nobody owns ([fresh_write]), storing a fresh
    block in an empty slot of a tree ([link_inv]), and putting a new root above
    a tree ([grow_inv]).  Each keeps [tree_inv] and the contents of all files. *)
From S2P Require Import Prelude InodeStore Treedisk TreediskLayout TreediskAlloc TreediskRead.

(** ** Keeping files *)
Section keeps.
Implicit Types (d : list block_t).

(** Sizes and contents of all files, [except] the given blocks, are kept. *)
Definition keeps d (H : Z → nat) d' (H' : Z → nat) (ni : Z) (except : Z → Z → Prop) : Prop :=
  (∀ ino, ino_ok ni ino → size_of d' ino = size_of d ino) ∧
  (∀ ino k, ino_ok ni ino → 0 ≤ k → ¬ except ino k →
     fblock d' (H' ino) ino k = fblock d (H ino) ino k).

Lemma keeps_refl d H ni P : keeps d H d H ni P.
Proof. by split. Qed.

Lemma keeps_trans d H d' H' d'' H'' ni P :
  keeps d H d' H' ni P → keeps d' H' d'' H'' ni P → keeps d H d'' H'' ni P.
Proof.
  intros [Hs Hb] [Hs' Hb']. split; intros.
  - by rewrite Hs', Hs.
  - by rewrite Hb', Hb.
Qed.

Lemma keeps_weaken d H d' H' ni (P Q : Z → Z → Prop) :
  (∀ ino k, P ino k → Q ino k) → keeps d H d' H' ni P → keeps d H d' H' ni Q.
Proof. intros Hpq [Hs Hb]. split; [done|]. intros. apply Hb; [done|done|]. auto. Qed.

Lemma free_ok_frame d d' ni fl :
  free_ok d ni fl → length d' = length d → Forall block_ok d' →
  (∀ x, x = 0 ∨ x ∈ fl → blk d' x = blk d x) → free_ok d' ni fl.
Proof.
  intros [] Hlen Hok Hfr. constructor; rewrite ?Hlen, ?(Hfr 0) by auto; try done.
  eapply freelist_frame; [done|]. auto.
Qed.

(** ** Blocks nobody owns *)
Lemma fresh_not_tree_block d ni H fl b x :
  fresh d ni H fl b → tree_block d ni H x → x ≠ b.
Proof.
  intros (Hr & _ & Hf) [Hx|(ino & n & k & Hp & _ & <- & _)]; [lia|]. by apply Hf.
Qed.

Lemma fresh_write d ni H fl b v :
  tree_inv d ni H fl → fresh d ni H fl b → block_ok v →
  let d' := <[Z.to_nat b := v]> d in
  tree_inv d' ni H fl ∧ fresh d' ni H fl b ∧
  (∀ ino n k, pos_ok ni H ino n k → fnode d' ino n k = fnode d ino n k) ∧
  keeps d H d' H ni (λ _ _, False).
Proof.
  intros Hinv Hfresh Hv d'. pose proof Hfresh as (Hr & Hnf & Hf). pose proof (ti_ni _ _ _ _ Hinv).
  assert (∀ x, 0 ≤ x → x ≠ b → blk d' x = blk d x) as Hne by (intros; apply blk_insert_ne; lia).
  assert (∀ x, tree_block d ni H x → blk d' x = blk d x) as Hfr.
  { intros x Hx. apply Hne; [by eapply tree_block_nonneg|by eapply fresh_not_tree_block]. }
  pose proof (λ ino n k, fnode_same d d' ni H ino n k Hfr) as Hn.
  split; [|split; [split; [|split]|split; [done|split]]].
  - eapply tree_inv_frame; [done| |apply length_insert|done|done].
    eapply free_ok_frame; [by eapply tree_inv_free_ok|apply length_insert|
      by apply Forall_insert; [apply Hinv|]|].
    intros x [->|Hx]; [apply Hne; lia|].
    apply Hne; [apply (ti_free_range _ _ _ _ Hinv) in Hx; lia|congruence].
  - unfold d'. by rewrite length_insert.
  - done.
  - intros ino n k Hp. rewrite Hn by done. by apply Hf.
  - intros ino Hi. by eapply size_same.
  - intros ino k Hi Hk _. unfold fblock.
    assert (pos_ok ni H ino (H ino) k) as Hp by (split_and!; [done|lia|done]).
    rewrite Hn by done. destruct (Z.eqb_spec (fnode d ino (H ino) k) 0) as [|Hnz]; [done|].
    pose proof (ti_node_range _ _ _ _ Hinv _ _ _ Hp Hnz). apply Hne; [lia|by apply Hf].
Qed.

(** The data of a leaf is overwritten. *)
Lemma leaf_write d ni H fl ino off v :
  tree_inv d ni H fl → ino_ok ni ino → 0 ≤ off → fnode d ino (H ino) off ≠ 0 → block_ok v →
  let d' := <[Z.to_nat (fnode d ino (H ino) off) := v]> d in
  tree_inv d' ni H fl ∧ fblock d' (H ino) ino off = v ∧
  keeps d H d' H ni (λ ino' k', ino' = ino ∧ k' = off).
Proof.
  intros Hinv Hi Hoff Hnz Hv d'. pose proof (ti_ni _ _ _ _ Hinv).
  assert (pos_ok ni H ino (H ino) off) as Hp by (split_and!; [done|lia|done]).
  set (b := fnode d ino (H ino) off) in *.
  pose proof (ti_node_range _ _ _ _ Hinv _ _ _ Hp Hnz) as Hr.
  assert (∀ x, 0 ≤ x → x ≠ b → blk d' x = blk d x) as Hne by (intros; apply blk_insert_ne; fold b; lia).
  assert (∀ x, tree_block d ni H x → blk d' x = blk d x) as Hfr.
  { intros x Hx. apply Hne; [by eapply tree_block_nonneg|].
    destruct Hx as [Hx|(ino' & n & k & Hp' & Hlt & <- & Hnz')]; [fold b in Hr; lia|].
    intros E. destruct (ti_node_inj _ _ _ _ Hinv _ _ _ _ _ _ Hp' Hp Hnz' E) as (-> & -> & ->). lia. }
  pose proof (λ ino n k, fnode_same d d' ni H ino n k Hfr) as Hn.
  split; [|split; [|split]].
  - eapply tree_inv_frame; [done| |apply length_insert|done|done].
    eapply free_ok_frame; [by eapply tree_inv_free_ok|apply length_insert|
      by apply Forall_insert; [apply Hinv|]|].
    intros x [->|Hx]; apply Hne; [lia|fold b in Hr; lia| |].
    + apply (ti_free_range _ _ _ _ Hinv) in Hx. lia.
    + intros ->. by apply (ti_node_free _ _ _ _ Hinv) in Hx.
  - unfold fblock. rewrite Hn by done. fold b. rewrite (proj2 (Z.eqb_neq b 0)) by done.
    apply blk_insert_eq. fold b in Hr. lia.
  - intros ino' Hi'. by eapply size_same.
  - intros ino' k' Hi' Hk' Hex. unfold fblock.
    assert (pos_ok ni H ino' (H ino') k') as Hp' by (split_and!; [done|lia|done]).
    rewrite Hn by done. destruct (Z.eqb_spec (fnode d ino' (H ino') k') 0) as [|Hnz']; [done|].
    pose proof (ti_node_range _ _ _ _ Hinv _ _ _ Hp' Hnz').
    apply Hne; [lia|]. intros E.
    destruct (ti_node_inj _ _ _ _ Hinv _ _ _ _ _ _ Hp' Hp Hnz' E) as (-> & _ & ->). by apply Hex.
Qed.
End keeps.

(** ** Filling an empty slot of a tree *)
Section link.
Implicit Types (d : list block_t).

(** The word that holds the block number of node [(n, k)] of [ino]. *)
Definition cell d (ino : Z) (n : nat) (k : Z) (po : Z) (slot : nat) : Prop :=
  match n with
  | O => k = 0 ∧ po = iblk ino ∧ slot = root_off (iidx ino)
  | S n => po = fnode d ino n (k / 128) ∧ po ≠ 0 ∧ slot = ref_off (Z.to_nat (k `mod` 128))
  end.

Lemma cell_value d ino n k po slot : cell d ino n k po slot → get32 (blk d po) slot = fnode d ino n k.
Proof.
  destruct n as [|n]; simpl.
  - intros (-> & -> & ->). done.
  - intros (-> & Hnz & ->). by rewrite fnode_S.
Qed.

Lemma cell_range d ni H fl ino n k po slot :
  tree_inv d ni H fl → pos_ok ni H ino n k → cell d ino n k po slot →
  0 < po < Z.of_nat (length d) ∧ po ∉ fl.
Proof.
  intros Hinv Hp Hc. pose proof Hp as (Hi & Hn & Hk). pose proof (ti_len _ _ _ _ Hinv).
  pose proof (ti_ni _ _ _ _ Hinv). destruct n as [|n]; simpl in Hc.
  - destruct Hc as (_ & -> & _). pose proof (iblk_range _ _ Hi). split; [lia|].
    intros Hin. apply (ti_free_range _ _ _ _ Hinv) in Hin. lia.
  - destruct Hc as (-> & Hnz & _). apply pos_ok_parent in Hp.
    pose proof (ti_node_range _ _ _ _ Hinv _ _ _ Hp Hnz). split; [lia|by apply Hinv].
Qed.

Section update.
Variables (d d' : list block_t) (ni : Z) (H : Z → nat) (fl : list Z).
Variables (b ino : Z) (n : nat) (k po : Z) (slot : nat).
Hypothesis Hinv : tree_inv d ni H fl.
Hypothesis Hfresh : fresh d ni H fl b.
Hypothesis Hpos : pos_ok ni H ino n k.
Hypothesis Hcell : cell d ino n k po slot.
Hypothesis Hhole : fnode d ino n k = 0.
Hypothesis Hnull : (n < H ino)%nat → blk d b = null_block.
Hypothesis Hleaf : n = H ino → k < size_of d ino.
Hypothesis Hlen : length d' = length d.
Hypothesis Hok : Forall block_ok d'.
Hypothesis Hpo : blk d' po = set32 (blk d po) slot b.
Hypothesis Hne : ∀ x, 0 ≤ x → x ≠ po → blk d' x = blk d x.

Lemma link_b_range : 0 ≤ b < 2 ^ 32.
Proof.
  clear - Hinv Hfresh. destruct Hfresh as [Hr _].
  pose proof (ti_len _ _ _ _ Hinv). pose proof (ti_ni _ _ _ _ Hinv). lia.
Qed.

Lemma link_size ino' : ino_ok ni ino' → size_of d' ino' = size_of d ino'.
Proof.
  clear Hleaf Hnull Hlen. intros Hi'. pose proof (iblk_range _ _ Hi'). pose proof Hi' as [? _].
  destruct n as [|n0]; simpl in Hcell.
  - destruct Hcell as (_ & -> & ->). eapply size_of_set_root; [split; [exact Hne|exact Hpo]|done].
  - destruct Hcell as (-> & Hnz & _). apply root_size_frame, Hne; [lia|].
    pose proof (ti_node_range _ _ _ _ Hinv _ _ _ (pos_ok_parent _ _ _ _ _ Hpos) Hnz). lia.
Qed.

(** The root of each tree afterwards. *)
Lemma link_root ino' : ino_ok ni ino' →
  root_of d' ino' = if decide (ino' = ino ∧ n = 0%nat) then b else root_of d ino'.
Proof.
  pose proof link_b_range as Hb. clear Hleaf Hnull Hlen.
  intros Hi'. pose proof (iblk_range _ _ Hi'). pose proof Hi' as [? _].
  destruct n as [|n0]; simpl in Hcell.
  - destruct Hcell as (_ & -> & ->). case_decide as Hd.
    + destruct Hd as [-> _]. eapply root_of_set_eq; [apply Hinv|by split|done].
    + eapply root_of_set_ne; [split; [exact Hne|exact Hpo]|done|].
      intros ->. by apply Hd.
  - rewrite decide_False by (intros [_ ?]; discriminate).
    destruct Hcell as (-> & Hnz & _). apply root_size_frame, Hne; [lia|].
    pose proof (ti_node_range _ _ _ _ Hinv _ _ _ (pos_ok_parent _ _ _ _ _ Hpos) Hnz). lia.
Qed.

Lemma link_b_ne_po : b ≠ po.
Proof.
  clear - Hfresh Hcell Hpos. intros Eb. destruct Hfresh as (Hr & _ & Hf). destruct n as [|n0]; simpl in Hcell.
  - destruct Hcell as (_ & E & _). pose proof (iblk_range _ _ (proj1 Hpos)). lia.
  - destruct Hcell as (E & _). apply (Hf ino n0 (k / 128)); [by apply pos_ok_parent|congruence].
Qed.

(** A node's parent block after the update, for a node other than [(ino, n, k)]
    or for that node. *)
Lemma link_child ino' n' k' :
  pos_ok ni H ino' (S n') k' → fnode d ino' n' (k' / 128) ≠ 0 →
  refs (blk d' (fnode d ino' n' (k' / 128))) (Z.to_nat (k' `mod` 128))
    = if decide (ino' = ino ∧ S n' = n ∧ k' = k) then b else fnode d ino' (S n') k'.
Proof.
  pose proof link_b_range as Hb. clear Hleaf Hnull Hlen.
  intros Hp' Hnz. pose proof (pos_ok_parent _ _ _ _ _ Hp') as Hpp. rewrite fnode_S by done.
  set (p := fnode d ino' n' (k' / 128)) in *.
  pose proof (ti_node_range _ _ _ _ Hinv _ _ _ Hpp Hnz) as Hr. fold p in Hr.
  pose proof (ti_ni _ _ _ _ Hinv).
  assert (Z.to_nat (k' `mod` 128) < 128)%nat by (pose proof (Z.mod_pos_bound k' 128); lia).
  destruct (decide (p = po)) as [Epo|Npo].
  - rewrite Epo, Hpo. destruct n as [|n0]; simpl in Hcell.
    { destruct Hcell as (_ & E & _). pose proof (iblk_range _ _ (proj1 Hpos)). lia. }
    destruct Hcell as (Ec & Hpz & ->).
    destruct (ti_node_inj _ _ _ _ Hinv _ _ _ _ _ _ Hpp (pos_ok_parent _ _ _ _ _ Hpos) Hnz)
      as (-> & -> & Ek); [by rewrite <- Ec|].
    case_decide as Hd'.
    + destruct Hd' as (_ & _ & ->). apply refs_set_eq; [apply blk_ok, Hinv|done|done].
    + apply refs_set_ne. intros Em. apply Hd'. split_and!; [done|done|].
      pose proof (Z.mod_pos_bound k 128). pose proof (Z.mod_pos_bound k' 128).
      rewrite (Z.div_mod k 128), (Z.div_mod k' 128) by lia. lia.
  - rewrite Hne by lia. rewrite decide_False; [done|].
    intros (-> & En & ->). apply Npo. rewrite <- En in Hcell. by destruct Hcell as (-> & _).
Qed.

(** The only node that changes is [(ino, n, k)]. *)
Lemma link_fnode ino' n' k' : pos_ok ni H ino' n' k' →
  fnode d' ino' n' k'
    = if decide (ino' = ino ∧ n' = n ∧ k' = k) then b else fnode d ino' n' k'.
Proof.
  revert k'. induction n' as [|n' IH]; intros k' Hp'; pose proof Hp' as (Hi' & Hn' & Hk').
  - unfold fnode at 1. simpl. rewrite link_root by done.
    destruct (Z.eqb_spec k' 0) as [->|Hk0].
    + destruct (decide (ino' = ino ∧ n = 0%nat)) as [[-> Hn0]|Hd].
      * rewrite decide_True; [done|]. rewrite Hn0 in Hcell. by destruct Hcell as (-> & _).
      * rewrite decide_False; [done|]. intros (-> & <- & _). by apply Hd.
    + rewrite decide_False; [unfold fnode; simpl; by rewrite (proj2 (Z.eqb_neq k' 0))|].
      intros (-> & En & ->). rewrite <- En in Hcell. by destruct Hcell as (? & _).
  - pose proof (pos_ok_parent _ _ _ _ _ Hp') as Hpp. specialize (IH _ Hpp).
    destruct (decide (ino' = ino ∧ n' = n ∧ k' / 128 = k)) as [(-> & -> & Ek)|Hd].
    + (* a child of the new node: its block is empty *)
      rewrite decide_False by (intros (_ & ? & _); lia).
      pose proof link_b_range. pose proof link_b_ne_po. destruct Hfresh as [Hr _].
      pose proof (ti_ni _ _ _ _ Hinv).
      rewrite (fnode_S_hole d) by congruence. rewrite fnode_S by (rewrite IH; lia).
      rewrite IH, Hne, Hnull by (done || lia). apply refs_null.
    + destruct (decide (fnode d ino' n' (k' / 128) = 0)) as [Hz|Hnz].
      * rewrite (fnode_S_hole d') by congruence.
        rewrite decide_False, fnode_S_hole; [done|done|].
        intros (-> & En & ->). rewrite <- En in Hcell. destruct Hcell as (? & ? & _). congruence.
      * rewrite (fnode_S d') by congruence. rewrite IH. by apply link_child.
Qed.

Lemma link_keeps : keeps d H d' H ni (λ ino' k', ino' = ino ∧ n = H ino ∧ k' = k).
Proof.
  split; [intros; by apply link_size|]. intros ino' k' Hi' Hk' Hex. unfold fblock.
  assert (pos_ok ni H ino' (H ino') k') as Hp' by (split_and!; [done|lia|done]).
  rewrite link_fnode by done. rewrite decide_False by (intros (-> & E & ->); by apply Hex).
  destruct (Z.eqb_spec (fnode d ino' (H ino') k') 0) as [|Hnz]; [done|].
  pose proof (ti_node_range _ _ _ _ Hinv _ _ _ Hp' Hnz). pose proof (ti_ni _ _ _ _ Hinv).
  apply Hne; [lia|]. intros E. destruct n as [|n0]; simpl in Hcell.
  - destruct Hcell as (_ & -> & _). pose proof (iblk_range _ _ (proj1 Hpos)). lia.
  - destruct Hcell as (Ec & _). pose proof Hpos as (_ & ? & _).
    destruct (ti_node_inj _ _ _ _ Hinv _ _ _ _ _ _ Hp' (pos_ok_parent _ _ _ _ _ Hpos) Hnz)
      as (-> & E' & _); [congruence|lia].
Qed.

Lemma link_inv : tree_inv d' ni H fl.
Proof.
  pose proof (cell_range _ _ _ _ _ _ _ _ _ Hinv Hpos Hcell) as [Hpr Hpf].
  pose proof Hfresh as (Hr & Hnf & Hf). pose proof link_b_range.
  assert (free_ok d' ni fl) as [].
  { eapply free_ok_frame; [by eapply tree_inv_free_ok|done|done|].
    intros x [->|Hx]; apply Hne; [lia|lia| |congruence].
    apply (ti_free_range _ _ _ _ Hinv) in Hx. pose proof (ti_ni _ _ _ _ Hinv). lia. }
  constructor; try done; try apply Hinv.
  - intros ino' n' k' Hp'. rewrite link_fnode, Hlen by done. case_decide; [done|by apply Hinv].
  - intros ino' n' k' Hp'. rewrite link_fnode by done. case_decide; [done|by apply Hinv].
  - intros i1 n1 k1 i2 n2 k2 Hp1 Hp2. rewrite !link_fnode by done.
    case_decide as H1; case_decide as H2.
    + destruct H1 as (? & ? & ?), H2 as (? & ? & ?). intros _ _. split_and!; congruence.
    + intros _ E. by apply eq_sym, Hf in E.
    + intros _ E. by apply Hf in E.
    + by apply Hinv.
  - intros ino' Hi'. rewrite link_size by done. by apply Hinv.
  - intros ino' k' Hi' Hk'. rewrite link_size by done.
    rewrite link_fnode by (split_and!; [done|lia|done]). case_decide as Hd; [|by apply Hinv].
    destruct Hd as (-> & E & ->). intros _. by apply Hleaf.
Qed.
End update.
End link.

(** ** Putting a new root above a tree *)
Section grow.
Variables (d d' : list block_t) (ni : Z) (H : Z → nat) (fl : list Z) (b ino : Z).
Hypothesis Hinv : tree_inv d ni H fl.
Hypothesis Hfresh : fresh d ni H fl b.
Hypothesis Hino : ino_ok ni ino.
Hypothesis Hheight : (H ino < 5)%nat.
Hypothesis Hb : blk d b = set_refs null_block 0 (root_of d ino).
Hypothesis Hset : iword_set d d' ino (root_off (iidx ino)) b.
Hypothesis Hlen : length d' = length d.
Hypothesis Hok : Forall block_ok d'.

Definition grown (i : Z) : nat := if decide (i = ino) then S (H ino) else H i.

Lemma grow_ranges : 0 ≤ ni < b ∧ b < 2 ^ 32 ∧ 1 ≤ iblk ino ≤ ni.
Proof.
  pose proof (ti_len _ _ _ _ Hinv). pose proof (ti_ni _ _ _ _ Hinv).
  pose proof (iblk_range _ _ Hino). destruct Hfresh as [Hr _]. lia.
Qed.

Lemma grow_root_range : 0 ≤ root_of d ino < 2 ^ 32.
Proof.
  destruct (decide (root_of d ino = 0)) as [->|Hnz]; [lia|].
  assert (pos_ok ni H ino 0 0) as Hp by (split_and!; [done|lia|lia]).
  pose proof (ti_node_range _ _ _ _ Hinv ino 0 0 Hp Hnz) as Hr. rewrite fnode_0 in Hr.
  pose proof (ti_len _ _ _ _ Hinv). pose proof (ti_ni _ _ _ _ Hinv). lia.
Qed.

Lemma grow_ne x : ni < x → blk d' x = blk d x.
Proof. pose proof grow_ranges. intros. apply Hset; lia. Qed.

Lemma grow_fnode_ne i n k :
  pos_ok ni H i n k → i ≠ ino → fnode d' i n k = fnode d i n k.
Proof.
  intros Hp Hne. apply (fnode_frame d d' ni H); [done| |].
  - eapply root_of_set_ne; [exact Hset|apply Hp|done].
  - intros m k' _ Hp' Hnz. apply grow_ne. by apply (ti_node_range _ _ _ _ Hinv).
Qed.

Lemma grow_fnode_0 k : fnode d' ino 0 k = if k =? 0 then b else 0.
Proof.
  pose proof grow_ranges. unfold fnode. simpl.
  rewrite (root_of_set_eq d d' ino b); [done|apply Hinv|done|lia].
Qed.

Lemma grow_fnode_S n k :
  pos_ok ni H ino n k → fnode d' ino (S n) k = fnode d ino n k.
Proof.
  pose proof grow_ranges. pose proof grow_root_range.
  revert k. induction n as [|n IH]; intros k Hp.
  - destruct Hp as (_ & _ & Hk). destruct (Z.eqb_spec (k / 128) 0) as [E|E].
    + rewrite fnode_S by (rewrite grow_fnode_0, E; simpl; lia).
      rewrite grow_fnode_0, E. simpl. rewrite grow_ne, Hb by lia.
      assert (0 ≤ k < 128) by (Z.div_mod_to_equations; lia).
      rewrite Z.mod_small by lia. unfold fnode. simpl.
      destruct (Z.eqb_spec k 0) as [->|Hk0].
      * apply refs_set_eq; [apply null_block_ok|simpl; lia|done].
      * rewrite refs_set_ne by lia. apply refs_null.
    + rewrite fnode_S_hole by (rewrite grow_fnode_0; by apply Z.eqb_neq in E as ->).
      unfold fnode. simpl. destruct (Z.eqb_spec k 0) as [->|]; [done|done].
  - pose proof (pos_ok_parent _ _ _ _ _ Hp) as Hpp. specialize (IH _ Hpp).
    destruct (decide (fnode d ino n (k / 128) = 0)) as [Hz|Hnz].
    + rewrite (fnode_S_hole d) by done. apply fnode_S_hole. congruence.
    + rewrite (fnode_S d) by done. rewrite fnode_S by congruence. rewrite IH, grow_ne; [done|].
      by apply (ti_node_range _ _ _ _ Hinv).
Qed.

(** Every node of the grown trees is the new root or a node there was. *)
Lemma grow_pos i n k :
  pos_ok ni grown i n k → fnode d' i n k ≠ 0 →
  (i = ino ∧ n = 0%nat ∧ k = 0 ∧ fnode d' i n k = b) ∨
  ∃ m, pos_ok ni H i m k ∧ fnode d' i n k = fnode d i m k ∧
       n = (if decide (i = ino) then S m else m).
Proof.
  intros (Hi & Hn & Hk) Hnz. unfold grown in Hn. case_decide as Hd.
  - subst i. destruct n as [|n].
    + left. rewrite grow_fnode_0 in *. by destruct (Z.eqb_spec k 0) as [->|].
    + right. assert (pos_ok ni H ino n k) as Hp by (split_and!; [done|lia|done]).
      exists n. by rewrite grow_fnode_S.
  - right. assert (pos_ok ni H i n k) as Hp by (split_and!; [done|lia|done]).
    exists n. by rewrite grow_fnode_ne.
Qed.

Lemma grow_leaf i k :
  ino_ok ni i → 0 ≤ k → fnode d' i (grown i) k = fnode d i (H i) k.
Proof.
  intros Hi Hk. unfold grown. case_decide as Hd.
  - subst i. apply grow_fnode_S. split_and!; [done|lia|done].
  - apply grow_fnode_ne; [split_and!; [done|lia|done]|done].
Qed.

Lemma grow_keeps : keeps d H d' grown ni (λ _ _, False).
Proof.
  split.
  - intros i [Hi _]. by eapply size_of_set_root.
  - intros i k Hi Hk _. unfold fblock. rewrite grow_leaf by done.
    destruct (Z.eqb_spec (fnode d i (H i) k) 0) as [|Hnz]; [done|].
    apply grow_ne, (ti_node_range _ _ _ _ Hinv); [split_and!; [done|lia|done]|done].
Qed.

Lemma grow_inv : tree_inv d' ni grown fl.
Proof.
  pose proof grow_ranges. pose proof Hfresh as (Hr & Hnf & Hf).
  assert (free_ok d' ni fl) as [].
  { eapply free_ok_frame; [by eapply tree_inv_free_ok|done|done|].
    intros x [->|Hx]; [apply Hset; lia|].
    apply (ti_free_range _ _ _ _ Hinv) in Hx. apply grow_ne; lia. }
  constructor; try done; try apply Hinv.
  - intros i n k Hp Hnz. rewrite Hlen.
    destruct (grow_pos i n k Hp Hnz) as [(_ & _ & _ & ->)|(m & Hp' & E & _)]; [done|].
    rewrite E in Hnz |- *. by apply (ti_node_range _ _ _ _ Hinv).
  - intros i n k Hp Hin. destruct (decide (fnode d' i n k = 0)) as [Ez|Hnz].
    { rewrite Ez in Hin. apply (ti_free_range _ _ _ _ Hinv) in Hin. lia. }
    destruct (grow_pos i n k Hp Hnz) as [(_ & _ & _ & E)|(m & Hp' & E & _)]; rewrite E in Hin; [done|].
    by apply (ti_node_free _ _ _ _ Hinv) in Hin.
  - intros i1 n1 k1 i2 n2 k2 Hp1 Hp2 Hnz E.
    destruct (grow_pos i1 n1 k1 Hp1 Hnz) as [(-> & -> & -> & E1)|(m1 & Hp1' & E1 & ->)],
      (grow_pos i2 n2 k2 Hp2 ltac:(congruence)) as [(-> & -> & -> & E2)|(m2 & Hp2' & E2 & ->)].
    + done.
    + rewrite E1, E2 in E. by apply eq_sym, Hf in E.
    + rewrite E1, E2 in E. by apply Hf in E.
    + rewrite E1 in Hnz. rewrite E1, E2 in E.
      by destruct (ti_node_inj _ _ _ _ Hinv _ _ _ _ _ _ Hp1' Hp2' Hnz E) as (-> & -> & ->).
  - intros i Hi. rewrite (proj1 grow_keeps) by done. by apply Hinv.
  - intros i k Hi Hk. rewrite (proj1 grow_keeps), grow_leaf by done. by apply Hinv.
  - intros i Hi. unfold grown. case_decide; [lia|by apply Hinv].
Qed.
End grow.

(** Popping a free block keeps all files. *)
Lemma pops_keeps d ni H b fl hb nb :
  tree_inv d ni H (b :: fl) → pops d ni b fl hb nb →
  keeps d H (<[Z.to_nat hb := nb]> d) H ni (λ _ _, False).
Proof.
  intros Hinv Hpop. destruct (pops_tree_inv _ _ _ _ _ _ _ Hinv Hpop) as (_ & _ & Hfr).
  split; [intros; by eapply size_same|].
  intros ino k Hi Hk _. unfold fblock.
  assert (pos_ok ni H ino (H ino) k) as Hp by (split_and!; [done|lia|done]).
  rewrite (fnode_same d _ ni H) by done.
  destruct (Z.eqb_spec (fnode d ino (H ino) k) 0) as [|Hnz]; [done|].
  pose proof (ti_node_range _ _ _ _ Hinv _ _ _ Hp Hnz). pose proof (ti_ni _ _ _ _ Hinv).
  eapply pops_frame; [done|done|lia|by apply Hinv].
Qed.

(** Storing a fresh block in an empty slot; below the leaves the new block
    counts as an empty indirect block. *)
Lemma link_step d ni H fl b ino n k po slot :
  tree_inv d ni H fl → fresh d ni H fl b → pos_ok ni H ino n k → cell d ino n k po slot →
  fnode d ino n k = 0 → (n = H ino → k < size_of d ino) →
  let d2 := <[Z.to_nat po := set32 (blk d po) slot b]> d in
  let d3 := if decide (n = H ino) then d2 else <[Z.to_nat b := null_block]> d2 in
  tree_inv d3 ni H fl ∧ fnode d3 ino n k = b ∧ blk d3 0 = blk d 0 ∧
  keeps d H d3 H ni (λ ino' k', ino' = ino ∧ n = H ino ∧ k' = k).
Proof.
  intros Hinv Hfresh Hpos Hcell Hhole Hleaf d2 d3.
  destruct (cell_range _ _ _ _ _ _ _ _ _ Hinv Hpos Hcell) as [Hpr _].
  pose proof (ti_ni _ _ _ _ Hinv). pose proof Hfresh as [Hbr _].
  assert (block_ok (set32 (blk d po) slot b)) as Hbok by apply set32_ok, blk_ok, Hinv.
  unfold d3. clear d3. case_decide as Hd.
  - assert (∀ x, 0 ≤ x → x ≠ po → blk d2 x = blk d x) as Hne by (intros; apply blk_insert_ne; lia).
    assert (blk d2 po = set32 (blk d po) slot b) as Hpo by (apply blk_insert_eq; lia).
    assert (length d2 = length d) as Hl by apply length_insert.
    assert (Forall block_ok d2) as Hok by (apply Forall_insert; [apply Hinv|done]).
    split_and!.
    + by eapply (link_inv d d2 ni H fl b ino n k po slot); try done; lia.
    + rewrite (link_fnode d d2 ni H fl b ino n k po slot) by (done || lia).
      by rewrite decide_True.
    + apply Hne; lia.
    + eapply (link_keeps d d2 ni H fl b ino n k po slot); try done; lia.
  - destruct (fresh_write d ni H fl b null_block Hinv Hfresh null_block_ok) as (Hinv' & Hfr' & Hn' & Hk').
    set (d1 := <[Z.to_nat b := null_block]> d) in *. set (d3 := <[Z.to_nat b := null_block]> d2).
    assert (b ≠ po) as Hbpo.
    { apply (link_b_ne_po d ni H fl b ino n k po slot); done. }
    assert (d3 = <[Z.to_nat po := set32 (blk d po) slot b]> d1) as E3.
    { unfold d3, d2, d1. apply list_insert_insert_ne. lia. }
    assert (cell d1 ino n k po slot) as Hcell1.
    { destruct n as [|n0]; simpl in *; [done|]. by rewrite Hn' by by apply pos_ok_parent. }
    assert (blk d1 po = blk d po) as Hpo1 by (apply blk_insert_ne; lia).
    assert (length d1 = length d) as Hl1 by apply length_insert.
    assert (∀ x, 0 ≤ x → x ≠ po → blk d3 x = blk d1 x) as Hne.
    { intros. rewrite E3. apply blk_insert_ne; lia. }
    assert (blk d3 po = set32 (blk d1 po) slot b) as Hpo.
    { rewrite E3, Hpo1. apply blk_insert_eq. lia. }
    assert (length d3 = length d1) as Hl by (rewrite E3; apply length_insert).
    assert (Forall block_ok d3) as Hok by (rewrite E3; apply Forall_insert; [apply Hinv'|done]).
    assert (blk d1 b = null_block) as Hb1 by (apply blk_insert_eq; lia).
    assert (fnode d1 ino n k = 0) as Hhole1 by (rewrite Hn'; done).
    split_and!.
    + by eapply (link_inv d1 d3 ni H fl b ino n k po slot).
    + rewrite (link_fnode d1 d3 ni H fl b ino n k po slot) by done. by rewrite decide_True.
    + rewrite Hne by lia. apply blk_insert_ne; lia.
    + eapply keeps_trans; [eapply keeps_weaken; [|exact Hk']; done|].
      by eapply (link_keeps d1 d3 ni H fl b ino n k po slot).
Qed.

(** ** Setting the size of a file *)
Section resize.
Variables (d d' : list block_t) (ni : Z) (H : Z → nat) (fl : list Z) (ino v : Z).
Hypothesis Hinv : tree_inv d ni H fl.
Hypothesis Hino : ino_ok ni ino.
Hypothesis Hset : iword_set d d' ino (nblocks_off (iidx ino)) v.
Hypothesis Hv : size_of d ino ≤ v < 2 ^ 32.
Hypothesis Hlen : length d' = length d.
Hypothesis Hok : Forall block_ok d'.

Lemma resize_ne x : ni < x → blk d' x = blk d x.
Proof. pose proof (iblk_range _ _ Hino). pose proof (ti_ni _ _ _ _ Hinv). intros. apply Hset; lia. Qed.

Lemma resize_size i : ino_ok ni i → size_of d' i = if decide (i = ino) then v else size_of d i.
Proof.
  intros Hi. pose proof (ti_size _ _ _ _ Hinv _ Hino). case_decide as E.
  - subst i. eapply size_of_set_eq; [apply Hinv|exact Hset|lia].
  - eapply size_of_set_ne; [exact Hset|apply Hi|done].
Qed.

Lemma resize_fnode i n k : pos_ok ni H i n k → fnode d' i n k = fnode d i n k.
Proof.
  intros Hp. apply (fnode_frame d d' ni H); [done| |].
  - eapply root_of_set_size; [exact Hset|apply Hp].
  - intros m k' _ Hp' Hnz. by apply resize_ne, (ti_node_range _ _ _ _ Hinv).
Qed.

Lemma resize_fblock i k : ino_ok ni i → 0 ≤ k → fblock d' (H i) i k = fblock d (H i) i k.
Proof.
  intros Hi Hk. unfold fblock. assert (pos_ok ni H i (H i) k) as Hp by (split_and!; [done|lia|done]).
  rewrite resize_fnode by done. destruct (Z.eqb_spec (fnode d i (H i) k) 0) as [|Hnz]; [done|].
  by apply resize_ne, (ti_node_range _ _ _ _ Hinv).
Qed.

Lemma resize_inv : tree_inv d' ni H fl.
Proof.
  pose proof (iblk_range _ _ Hino). pose proof (ti_ni _ _ _ _ Hinv).
  assert (free_ok d' ni fl) as [].
  { eapply free_ok_frame; [by eapply tree_inv_free_ok|done|done|].
    intros x [->|Hx]; [apply Hset; lia|].
    apply (ti_free_range _ _ _ _ Hinv) in Hx. apply resize_ne; lia. }
  constructor; try done; try apply Hinv.
  - intros i n k Hp. rewrite resize_fnode, Hlen by done. by apply Hinv.
  - intros i n k Hp. rewrite resize_fnode by done. by apply Hinv.
  - intros i1 n1 k1 i2 n2 k2 Hp1 Hp2. rewrite !resize_fnode by done. by apply Hinv.
  - intros i Hi. rewrite resize_size by done. pose proof (ti_size _ _ _ _ Hinv _ Hino).
    case_decide; [lia|by apply Hinv].
  - intros i k Hi Hk. rewrite resize_fnode by (split_and!; [done|lia|done]).
    rewrite resize_size by done. intros Hnz. pose proof (ti_leaf _ _ _ _ Hinv i k Hi Hk Hnz).
    case_decide; subst; lia.
Qed.
End resize.

Lemma tree_inv_ext d ni H H' fl :
  (∀ i, ino_ok ni i → H i = H' i) → tree_inv d ni H fl → tree_inv d ni H' fl.
Proof.
  intros HH Hinv.
  assert (∀ i n k, pos_ok ni H' i n k → pos_ok ni H i n k) as Hp.
  { intros i n k (Hi & Hn & Hk). split_and!; [done|by rewrite HH|done]. }
  destruct Hinv. constructor; eauto.
  - intros i k Hi Hk. rewrite <- HH by done. eauto.
  - intros i Hi. rewrite <- HH by done. eauto.
Qed.
