(* ===== verification/TreediskWrite.v ===== *)
(** * Writing the tree file system

    [treedisk_write] on a well-formed disk: the block is stored, every other
    block of every file is kept, the layout stays well formed; the only way to
    fail is a full free list. *)
From S2P Require Import Prelude InodeStore Treedisk TreediskLayout TreediskAlloc TreediskRead.
From S2P Require Import TreediskLink.

Definition store_full {A} : outcome A := Fault (Fatal "treedisk_alloc_block: inode store is full").

(** [fl'] is [fl] without its first blocks, at most [n] of them. *)
Definition took (n : nat) (fl fl' : list Z) : Prop := ∃ l, fl = l ++ fl' ∧ (length l ≤ n)%nat.

Lemma took_0 n fl : took n fl fl.
Proof. exists []. split; [done|simpl; lia]. Qed.
Lemma took_S n b fl fl' : took n fl fl' → took (S n) (b :: fl) fl'.
Proof. intros (l & -> & Hl). exists (b :: l). split; [done|simpl; lia]. Qed.
Lemma took_app n m l fl fl' : length l = n → took m fl fl' → took (n + m) (l ++ fl) fl'.
Proof. intros El (l' & -> & Hl). exists (l ++ l'). rewrite length_app, app_assoc. split; [done|lia]. Qed.
Lemma took_le n m fl fl' : (n ≤ m)%nat → took n fl fl' → took m fl fl'.
Proof. intros Hle (l & -> & Hl). exists l. split; [done|lia]. Qed.

Section write.
Context {S : Type} (below : inode_store S) (bino : Z) `{!DiskStore below bino}.
Abbreviation disk s := (ds_blocks below bino s).
Abbreviation inv s := (ds_inv below bino s).

Lemma alloc_full s sn d ni H :
  tree_inv d ni H [] → superblock sn = blk d 0 →
  treedisk_alloc_block below bino s sn = store_full.
Proof.
  intros Hinv Hsb. apply treedisk_alloc_block_full. rewrite Hsb.
  destruct (freelist_head _ _ _ (ti_free _ _ _ _ Hinv)) as [[E _]|[_ E]]; [done|].
  by apply not_elem_of_nil in E.
Qed.

(** ** Allocating a block for an empty slot

    [pb] is the contents of block [po] in memory; the tree invariant holds for
    the disk with [pb] in place of [po]. *)
Lemma alloc_write s sn d ni H b fl po pb v :
  let dv := <[Z.to_nat po := pb]> (disk s) in
  inv s → tree_inv dv ni H (b :: fl) → superblock sn = blk dv 0 →
  0 < po < Z.of_nat (length (disk s)) → po ∉ b :: fl → d = dv →
  ∃ hb nb s1 s2,
    let dv1 := <[Z.to_nat hb := nb]> dv in
    treedisk_alloc_block below bino s sn = Ret (b, with_superblock sn (blk dv1 0), s1) ∧
    write below s1 bino po v = Ret (0, s2) ∧ inv s2 ∧
    disk s2 = <[Z.to_nat po := v]> dv1 ∧ blk dv1 po = pb ∧ pops dv ni b fl hb nb.
Proof.
  intros dv Hs Hinv Hsb Hpr Hpf _. pose proof (ti_ni _ _ _ _ Hinv) as Hni.
  assert (length dv = length (disk s)) as Hlv by apply length_insert.
  destruct (treedisk_alloc_block_spec below bino s sn dv ni b fl)
    as (hb & nb & s1 & Ha & Hs1 & Hd1 & Hpop); [done|by eapply tree_inv_free_ok|done|done| |].
  { intros x Hx. symmetry. apply blk_insert_ne; [lia| |congruence].
    apply (ti_free_range _ _ _ _ Hinv) in Hx. lia. }
  destruct (ds_write s1 po v Hs1) as (s2 & Hw & Hs2 & Hd2).
  { rewrite Hd1, length_insert. lia. }
  assert (0 ≤ hb ∧ hb ≠ po) as [Hhb0 Hhbne].
  { destruct (pops_where _ _ _ _ _ _ Hpop) as [->|Hin]; [lia|].
    split; [apply (ti_free_range _ _ _ _ Hinv) in Hin; lia|congruence]. }
  exists hb, nb, s1, s2. split_and!; try done.
  - rewrite Hd2, Hd1. unfold dv.
    rewrite (list_insert_insert_ne _ (Z.to_nat po) (Z.to_nat hb)) by lia.
    rewrite (list_insert_insert_ne _ (Z.to_nat po) (Z.to_nat hb)) by lia.
    by rewrite list_insert_insert_eq.
  - rewrite blk_insert_ne by lia. apply blk_insert_eq. lia.
Qed.

Section walk.
Context (ni : Z) (H : Z → nat) (ino off : Z).
Hypothesis Hino : ino_ok ni ino.
Hypothesis Hoff : 0 ≤ off < 2 ^ 32.
Abbreviation here := (λ ino' k', ino' = ino ∧ k' = off).

Lemma alloc_link m n s sn b fl po pb slot :
  let dv := <[Z.to_nat po := pb]> (disk s) in
  (n + m = H ino)%nat → inv s → tree_inv dv ni H (b :: fl) → off < size_of dv ino →
  superblock sn = blk dv 0 → cell dv ino n (off / cap m) po slot → get32 pb slot = 0 →
  ∃ sb s1 s2,
    treedisk_alloc_block below bino s sn = Ret (b, with_superblock sn sb, s1) ∧
    write below s1 bino po (set32 pb slot b) = Ret (0, s2) ∧ inv s2 ∧ b ≠ 0 ∧
    let dv2 := if decide (n = H ino) then disk s2 else <[Z.to_nat b := null_block]> (disk s2) in
    tree_inv dv2 ni H fl ∧ fnode dv2 ino n (off / cap m) = b ∧ blk dv2 0 = sb ∧
    keeps dv H dv2 H ni here.
Proof.
  intros dv Hnm Hs Hinv Hsz Hsb Hcell Hz.
  assert (pos_ok ni H ino n (off / cap m)) as Hpos by (apply pos_ok_div; lia || done).
  destruct (cell_range _ _ _ _ _ _ _ _ _ Hinv Hpos Hcell) as [Hpr Hpf].
  pose proof (ti_ni _ _ _ _ Hinv) as Hni.
  assert (length dv = length (disk s)) as Hlv by apply length_insert.
  destruct (alloc_write s sn dv ni H b fl po pb (set32 pb slot b)) as
    (hb & nb & s1 & s2 & Ha & Hw & Hs2 & Hd2 & Hpb & Hpop); try done; [lia|].
  fold dv in Ha, Hd2, Hpb, Hpop. set (dv1 := <[Z.to_nat hb := nb]> dv) in *.
  destruct (pops_tree_inv _ _ _ _ _ _ _ Hinv Hpop) as (Hinv1 & Hfresh & Hfr1).
  pose proof (pops_keeps _ _ _ _ _ _ _ Hinv Hpop) as Hk1. fold dv1 in Hinv1, Hfresh, Hfr1, Hk1.
  assert (cell dv1 ino n (off / cap m) po slot) as Hcell1.
  { clear - Hcell Hpos Hfr1. destruct n as [|n0]; simpl in *; [done|].
    by rewrite (fnode_same dv dv1 ni H) by (done || by apply pos_ok_parent). }
  exists (blk dv1 0), s1, s2. split_and!; try done.
  { destruct Hfresh as [? _]. lia. }
  rewrite Hd2, <- Hpb.
  destruct (link_step dv1 ni H fl b ino n (off / cap m) po slot) as (Hi & Hf & H0 & Hk); try done.
  - by rewrite <- (cell_value _ _ _ _ _ _ Hcell1), Hpb.
  - intros En. assert (m = 0%nat) as -> by lia. rewrite div_cap_0, (proj1 Hk1) by done. lia.
  - split_and!; try done. eapply keeps_trans.
    + eapply keeps_weaken; [|exact Hk1]. done.
    + eapply keeps_weaken; [|exact Hk]. intros i k (-> & En & ->). split; [done|].
      assert (m = 0%nat) as -> by lia. apply div_cap_0.
Qed.

(** ** The loop of [treedisk_write] *)
Lemma write_walk_spec m : ∀ s sn fl n po pb slot,
  let dv := <[Z.to_nat po := pb]> (disk s) in
  (n + m = H ino)%nat → inv s → tree_inv dv ni H fl → off < size_of dv ino →
  superblock sn = blk dv 0 → cell dv ino n (off / cap m) po slot →
  (disk s = dv ∨ get32 pb slot = 0) →
  (∃ b s' fl',
     write_walk below bino 7 m s sn off po pb slot = Ret (b, s') ∧ inv s' ∧
     tree_inv (disk s') ni H fl' ∧ b = fnode (disk s') ino (H ino) off ∧ b ≠ 0 ∧
     keeps dv H (disk s') H ni here ∧ took (m + 1) fl fl') ∨
  (write_walk below bino 7 m s sn off po pb slot = store_full ∧ (length fl ≤ m)%nat).
Proof.
  induction m as [|m IH]; intros s sn fl n po pb slot dv Hnm Hs Hinv Hsz Hsb Hcell Hcase;
  match type of Hnm with (n + ?m' = _)%nat =>
    assert (pos_ok ni H ino n (off / cap m')) as Hpos by (apply pos_ok_div; lia || done) end;
  destruct (cell_range _ _ _ _ _ _ _ _ _ Hinv Hpos Hcell) as [Hpr _];
  assert (blk dv po = pb) as Hpb by (apply blk_insert_eq; unfold dv in Hpr; len);
  pose proof (cell_value _ _ _ _ _ _ Hcell) as Hval; rewrite Hpb in Hval;
  pose proof (ti_height _ _ _ _ Hinv ino Hino) as Hh; simpl;
  (destruct (Z.eqb_spec (get32 pb slot) 0) as [Hz|Hnz];
   [destruct fl as [|b fl]; [right; rewrite (alloc_full s sn dv ni H) by done; split; [done|simpl; lia]|];
    destruct (alloc_link _ n s sn b fl po pb slot Hnm Hs Hinv Hsz Hsb Hcell Hz)
      as (sb & s1 & s2 & Ha & Hw & Hs2 & Hb0 & Hinv2 & Hf2 & Hsb2 & Hk2); fold dv in Hk2;
    rewrite Ha; simpl; rewrite Hw; simpl
   |destruct Hcase as [Ed|]; [|done]]).
  - rewrite decide_True in * by lia. left. exists b, s2, fl.
    rewrite div_cap_0, Nat.add_0_r in *. rewrite <- Hnm.
    split_and!; try done. by apply took_S, took_0.
  - left. exists (get32 pb slot), s, fl. rewrite div_cap_0, Nat.add_0_r in *. rewrite Ed, <- Hnm.
    split_and!; try done. apply took_0.
  - rewrite decide_False in * by lia.
    destruct (IH s2 (with_superblock sn sb) fl (Datatypes.S n) b null_block
                (ref_off (tree_index 7 off m))) as
      [(b' & s' & fl' & E & Hs' & Hinv' & Hb' & Hnz' & Hk' & Hsuf)|[E Hfull]]; try done.
    + lia.
    + rewrite (proj1 Hk2) by done. done.
    + simpl. rewrite div_cap_S, Hf2. split_and!; [done|done|]. by rewrite tree_index_spec by lia.
    + right. apply refs_null.
    + left. exists b', s', fl'. split_and!; try done; [|by apply took_S].
      by eapply keeps_trans.
    + right. split; [done|]. simpl. lia.
  - pose proof (ti_node_range _ _ _ _ Hinv _ _ _ Hpos ltac:(congruence)) as Hbr. rewrite <- Hval in Hbr.
    pose proof (ti_ni _ _ _ _ Hinv).
    rewrite (ds_read_blk below bino s) by (rewrite Ed; lia). simpl.
    assert (<[Z.to_nat (get32 pb slot) := blk (disk s) (get32 pb slot)]> (disk s) = dv) as Edv.
    { rewrite insert_blk_id by (rewrite Ed; lia). done. }
    destruct (IH s sn fl (Datatypes.S n) (get32 pb slot) (blk (disk s) (get32 pb slot))
                (ref_off (tree_index 7 off m))) as
      [(b' & s' & fl' & E & Hs' & Hinv' & Hb' & Hnz' & Hk' & Hsuf)|[E Hfull]];
      rewrite ?Edv in *; try done.
    + lia.
    + simpl. rewrite div_cap_S, <- Hval. split_and!; [done|done|]. by rewrite tree_index_spec by lia.
    + by left.
    + left. exists b', s', fl'. split_and!; try done. eapply took_le; [|done]. lia.
    + right. split; [done|]. lia.
Qed.
End walk.

(** ** Growing a tree *)

(** The snapshot in memory agrees with the disk with its inode block in place. *)
Record snap_ok (ni ino : Z) (sn : snapshot) (s : S) : Prop := SnapOk {
  so_blockno : inode_blockno sn = iblk ino;
  so_idx : inode_idx sn = iidx ino;
  so_sb : superblock sn = blk (<[Z.to_nat (iblk ino) := inodeblock sn]> (disk s)) 0;
  so_ib : block_ok (inodeblock sn)
}.
Abbreviation vdisk ino sn s := (<[Z.to_nat (iblk ino) := inodeblock sn]> (disk s)).

Lemma grow_step ni H ino s sn b fl :
  inv s → ino_ok ni ino → snap_ok ni ino sn s → tree_inv (vdisk ino sn s) ni H (b :: fl) →
  (H ino < 5)%nat →
  ∃ sb s1 s2,
    treedisk_alloc_block below bino s sn = Ret (b, with_superblock sn sb, s1) ∧
    write below s1 bino b (set_refs null_block 0 (snap_root sn)) = Ret (0, s2) ∧ inv s2 ∧
    let sn2 := with_root (with_superblock sn sb) b in
    snap_ok ni ino sn2 s2 ∧
    tree_inv (vdisk ino sn2 s2) ni (grown H ino) fl ∧
    keeps (vdisk ino sn s) H (vdisk ino sn2 s2) (grown H ino) ni (λ _ _, False).
Proof.
  intros Hs Hino [Hbno Hidx Hsb Hib] Hinv Hh. set (dv := vdisk ino sn s) in *.
  pose proof (iblk_range _ _ Hino) as Hir. pose proof (ti_ni _ _ _ _ Hinv) as Hni.
  pose proof (ti_len _ _ _ _ Hinv) as Hlen.
  assert (length dv = length (disk s)) as Hlv by apply length_insert.
  destruct (treedisk_alloc_block_spec below bino s sn dv ni b fl)
    as (hb & nb & s1 & Ha & Hs1 & Hd1 & Hpop); [done|by eapply tree_inv_free_ok|done|done| |].
  { intros x Hx. symmetry. apply (ti_free_range _ _ _ _ Hinv) in Hx. apply blk_insert_ne; lia. }
  destruct (pops_tree_inv _ _ _ _ _ _ _ Hinv Hpop) as (Hinv1 & Hfresh & _).
  pose proof (pops_keeps _ _ _ _ _ _ _ Hinv Hpop) as Hk1.
  set (dv1 := <[Z.to_nat hb := nb]> dv) in *. pose proof Hfresh as [Hbr _].
  assert (length dv1 = length (disk s)) as Hl1 by (unfold dv1; by rewrite length_insert).
  set (tib := set_refs null_block 0 (snap_root sn)).
  destruct (ds_write s1 b tib Hs1) as (s2 & Hw & Hs2 & Hd2).
  { rewrite Hd1, length_insert. lia. }
  destruct (fresh_write dv1 ni H fl b tib Hinv1 Hfresh) as (Hinv2 & Hfresh2 & _ & Hk2);
    [apply set_refs_ok, null_block_ok|]. set (dv2 := <[Z.to_nat b := tib]> dv1) in *.
  assert (0 ≤ hb ∧ (hb = 0 ∨ ni < hb)) as [Hhb0 Hhb].
  { destruct (pops_where _ _ _ _ _ _ Hpop) as [->|Hin]; [lia|].
    apply (ti_free_range _ _ _ _ Hinv) in Hin. lia. }
  assert (blk dv2 (iblk ino) = inodeblock sn) as Hib2.
  { unfold dv2, dv1, dv. rewrite !blk_insert_ne by lia. apply blk_insert_eq. lia. }
  exists (blk dv1 0), s1, s2.
  set (sn2 := with_root (with_superblock sn (blk dv1 0)) b). set (dv3 := vdisk ino sn2 s2).
  assert (length dv2 = length (disk s)) as Hl2 by (unfold dv2; by rewrite length_insert).
  assert (dv3 = <[Z.to_nat (iblk ino) := inodeblock sn2]> dv2) as E3.
  { unfold dv3, dv2, dv1, dv. rewrite Hd2, Hd1.
    rewrite !(list_insert_insert_ne _ (Z.to_nat (iblk ino)) (Z.to_nat b)) by lia.
    rewrite !(list_insert_insert_ne _ (Z.to_nat (iblk ino)) (Z.to_nat hb)) by lia.
    by rewrite list_insert_insert_eq. }
  assert (block_ok (inodeblock sn2)) as Hib3 by (simpl; by apply set32_ok).
  assert (∀ x, 0 ≤ x → x ≠ iblk ino → blk dv3 x = blk dv2 x) as Hne.
  { intros x Hx Hxi. rewrite E3. apply blk_insert_ne; lia. }
  assert (iword_set dv2 dv3 ino (root_off (iidx ino)) b) as Hset.
  { split; [done|]. rewrite Hib2, E3. rewrite blk_insert_eq by lia. simpl. by rewrite Hidx. }
  assert (blk dv2 b = set_refs null_block 0 (root_of dv2 ino)) as Htib.
  { unfold dv2 at 1. rewrite blk_insert_eq by lia. unfold tib, root_of, snap_root.
    by rewrite Hib2, Hidx. }
  assert (length dv3 = length dv2) as Hl3 by (rewrite E3; apply length_insert).
  assert (Forall block_ok dv3) as Hok3 by (rewrite E3; apply Forall_insert; [apply Hinv2|done]).
  split_and!; try done. cbv zeta. fold sn2. fold dv3. split_and!.
  - constructor; try done. change (blk dv1 0 = blk dv3 0). rewrite Hne by lia. unfold dv2.
    by rewrite blk_insert_ne by lia.
  - by eapply (grow_inv dv2 dv3 ni H fl b ino).
  - eapply keeps_trans; [exact Hk1|]. eapply keeps_trans; [exact Hk2|].
    by eapply (grow_keeps dv2 dv3 ni H fl b ino).
Qed.

Lemma grow_spec ni ino j : ino_ok ni ino → ∀ H s sn fl,
  inv s → snap_ok ni ino sn s → tree_inv (vdisk ino sn s) ni H fl → (H ino + j ≤ 5)%nat →
  (∃ H' sn' s' l fl',
     grow below bino j s sn = Ret (sn', s') ∧ inv s' ∧ snap_ok ni ino sn' s' ∧
     tree_inv (vdisk ino sn' s') ni H' fl' ∧ H' ino = (H ino + j)%nat ∧ (∀ i, i ≠ ino → H' i = H i) ∧
     keeps (vdisk ino sn s) H (vdisk ino sn' s') H' ni (λ _ _, False) ∧
     fl = l ++ fl' ∧ length l = j) ∨
  (grow below bino j s sn = store_full ∧ (length fl < j)%nat).
Proof.
  intros Hino. induction j as [|j IH]; intros H s sn fl Hs Hsn Hinv Hh.
  { left. exists H, sn, s, [], fl. split_and!; done. }
  simpl. destruct fl as [|b fl].
  { right. rewrite (alloc_full s sn (vdisk ino sn s) ni H) by (done || apply Hsn).
    split; [done|simpl; lia]. }
  destruct (grow_step ni H ino s sn b fl Hs Hino Hsn Hinv) as
    (sb & s1 & s2 & Ha & Hw & Hs2 & Hsn2 & Hinv2 & Hk2); [lia|].
  rewrite Ha. simpl. change (snap_root (with_superblock sn sb)) with (snap_root sn).
  rewrite Hw. simpl. assert (grown H ino ino = Datatypes.S (H ino)) as Eg.
  { unfold grown. by rewrite decide_True. }
  destruct (IH _ _ _ _ Hs2 Hsn2 Hinv2) as
    [(H' & sn' & s' & l & fl' & E & Hs' & Hsn' & Hinv' & EH & EH' & Hk' & -> & El)|[E Hfull]]; [lia|..].
  - left. exists H', sn', s', (b :: l), fl'. split_and!; try done; [lia| |..].
    + intros i Hi. rewrite EH' by done. unfold grown. by rewrite decide_False.
    + by eapply keeps_trans.
    + simpl. lia.
  - right. split; [done|]. simpl. lia.
Qed.

(** ** The second half of [treedisk_write] *)
Lemma write_data_spec ni H ino off s sn dirty fl block :
  ino_ok ni ino → 0 ≤ off < 2 ^ 32 → inv s → snap_ok ni ino sn s → block_ok block →
  tree_inv (vdisk ino sn s) ni H fl → off < size_of (vdisk ino sn s) ino → off < cap (H ino) →
  (dirty = true ∨ disk s = vdisk ino sn s) →
  (∃ s' fl',
     write_data below bino 7 s sn dirty (Z.of_nat (H ino)) off block = Ret (0, s') ∧ inv s' ∧
     tree_inv (disk s') ni H fl' ∧ fblock (disk s') (H ino) ino off = block ∧
     keeps (vdisk ino sn s) H (disk s') H ni (λ ino' k', ino' = ino ∧ k' = off) ∧
     took (H ino + 1) fl fl') ∨
  (write_data below bino 7 s sn dirty (Z.of_nat (H ino)) off block = store_full ∧
   (length fl ≤ H ino)%nat).
Proof.
  intros Hino Hoff Hs Hsn Hblk Hinv Hsz Hcap Hdirty. set (dv := vdisk ino sn s) in *.
  pose proof Hsn as [Hbno Hidx Hsb Hib]. pose proof (iblk_range _ _ Hino) as Hir.
  pose proof (ti_ni _ _ _ _ Hinv). pose proof (ti_len _ _ _ _ Hinv) as Hlen.
  assert (length dv = length (disk s)) as Hlv by apply length_insert.
  assert (∃ s1, (if dirty then
         '(r, s) ← write below s bino (inode_blockno sn) (inodeblock sn);
         if r <? 0 then Fault (Fatal "treedisk_write: inode block") else Ret s
       else Ret s) = Ret s1 ∧ inv s1 ∧ disk s1 = dv) as (s1 & E1 & Hs1 & Hd1).
  { rewrite Hbno. destruct dirty.
    - destruct (ds_write s (iblk ino) (inodeblock sn) Hs) as (s1 & Hw & Hs1 & Hd1); [lia|].
      exists s1. rewrite Hw. done.
    - exists s. split_and!; [done|done|]. by destruct Hdirty. }
  unfold write_data. rewrite E1, bind_ret, Nat2Z.id, Hbno, Hidx.
  assert (<[Z.to_nat (iblk ino) := inodeblock sn]> (disk s1) = dv) as Edv.
  { rewrite Hd1. unfold dv. apply list_insert_insert_eq. }
  destruct (write_walk_spec ni H ino off Hino Hoff (H ino) s1 sn fl 0 (iblk ino) (inodeblock sn)
    (root_off (iidx ino))) as [(b & s2 & fl' & E & Hs2 & Hinv2 & Hb & Hnz & Hk & Hsuf)|[E Hfull]];
    rewrite ?Edv; try done.
  - simpl. split_and!; [|done|done]. apply Z.div_small. lia.
  - by left.
  - rewrite Edv in Hk. left. rewrite E, bind_ret.
    pose proof (ti_node_range _ _ _ _ Hinv2 ino (H ino) off) as Hr. rewrite <- Hb in Hr.
    specialize (Hr ltac:(split_and!; [done|lia|lia]) Hnz).
    destruct (ds_write s2 b block Hs2) as (s3 & Hw & Hs3 & Hd3); [lia|].
    destruct (leaf_write (disk s2) ni H fl' ino off block) as (Hinv3 & Hblk3 & Hk3);
      [done|done|lia|congruence|done|]. rewrite <- Hb, <- Hd3 in *.
    exists s3, fl'. rewrite Hw. split_and!; try done. by eapply keeps_trans.
  - right. rewrite E. done.
Qed.

Lemma grow_write_spec ni H ino off s sn fl block j :
  ino_ok ni ino → 0 ≤ off < 2 ^ 32 → inv s → snap_ok ni ino sn s → block_ok block →
  tree_inv (vdisk ino sn s) ni H fl → off < size_of (vdisk ino sn s) ino →
  (H ino + j ≤ 5)%nat → off < cap (H ino + j) →
  let run := '(sn, s) ← grow below bino j s sn;
             write_data below bino 7 s sn true (Z.of_nat (H ino + j)) off block in
  (∃ s' H' fl', run = Ret (0, s') ∧ inv s' ∧ tree_inv (disk s') ni H' fl' ∧
     H' ino = (H ino + j)%nat ∧ (∀ i, i ≠ ino → H' i = H i) ∧
     fblock (disk s') (H' ino) ino off = block ∧
     keeps (vdisk ino sn s) H (disk s') H' ni (λ ino' k', ino' = ino ∧ k' = off) ∧
     took (j + (H ino + j + 1)) fl fl') ∨
  (run = store_full ∧ (length fl ≤ j + (H ino + j))%nat).
Proof.
  intros Hino Hoff Hs Hsn Hblk Hinv Hsz Hj Hcap run. unfold run.
  destruct (grow_spec ni ino j Hino H s sn fl Hs Hsn Hinv Hj) as
    [(H1 & sn1 & s1 & l & fl1 & E & Hs1 & Hsn1 & Hinv1 & EH & EH' & Hk & -> & El)|[E Hfull]];
    rewrite E; [rewrite bind_ret|right; split; [done|lia]].
  rewrite <- EH in *.
  destruct (write_data_spec ni H1 ino off s1 sn1 true fl1 block) as
    [(s2 & fl2 & E2 & Hs2 & Hinv2 & Hb2 & Hk2 & Hsuf)|[E2 Hfull]]; try done.
  - by rewrite (proj1 Hk) by done.
  - by left.
  - left. exists s2, H1, fl2. split_and!; try done.
    + eapply keeps_trans; [eapply keeps_weaken; [|exact Hk]; done|done].
    + by apply took_app.
  - right. split; [done|]. rewrite length_app. lia.
Qed.

(** ** [treedisk_write] *)
Definition new_size (size off : Z) : Z := Z.max size (off + 1).

(** Sizes and contents after writing [block] at [off] of [ino]. *)
Definition wrote (d d' : list block_t) (ni ino off : Z) (block : block_t) : Prop :=
  (∀ i, ino_ok ni i →
     size_of d' i = if decide (i = ino) then new_size (size_of d ino) off else size_of d i) ∧
  fblock d' (height (size_of d' ino)) ino off = block ∧
  (∀ i k, ino_ok ni i → 0 ≤ k → ¬ (i = ino ∧ k = off) →
     fblock d' (height (size_of d' i)) i k = fblock d (height (size_of d i)) i k).

(** Free blocks that a write may need: the new levels, then a path to the leaf. *)
Definition blocks_needed (size off : Z) : nat :=
  (height (new_size size off) - height size + (height (new_size size off) + 1))%nat.

Lemma snapshot_snap_ok ni H ino s fl :
  tree_inv (disk s) ni H fl → ino_ok ni ino →
  let sn := Snapshot (blk (disk s) 0) (blk (disk s) (iblk ino)) (iblk ino) (iidx ino) in
  vdisk ino sn s = disk s ∧ snap_ok ni ino sn s.
Proof.
  intros Hinv Hino sn. pose proof (iblk_range _ _ Hino). pose proof (ti_len _ _ _ _ Hinv).
  assert (vdisk ino sn s = disk s) as E by (apply insert_blk_id; lia).
  split; [done|]. constructor; [done|done|by rewrite E|apply blk_ok, Hinv].
Qed.

Lemma treedisk_write_inside s ni fl ino off block :
  inv s → fs_wf (disk s) ni fl → ino_ok ni ino → 0 ≤ off < size_of (disk s) ino → block_ok block →
  (∃ s' fl', treedisk_write below bino 7 s ino off block = Ret (0, s') ∧ inv s' ∧
     fs_wf (disk s') ni fl' ∧ wrote (disk s) (disk s') ni ino off block ∧
     took (blocks_needed (size_of (disk s) ino) off) fl fl') ∨
  (treedisk_write below bino 7 s ino off block = store_full ∧
   (length fl < blocks_needed (size_of (disk s) ino) off)%nat).
Proof.
  intros Hs Hwf Hino Hoff Hblk. pose proof (ti_size _ _ _ _ Hwf _ Hino) as Hsz.
  destruct (snapshot_snap_ok _ _ ino s fl Hwf Hino) as [Ev Hsn].
  unfold treedisk_write. rewrite (get_snapshot_ok below bino s ino ni _ fl Hwf Hino), bind_ret.
  set (sn := Snapshot _ _ _ _) in *.
  change (snap_nblocks sn) with (size_of (disk s) ino).
  rewrite nlevels_of_spec, bind_ret by done. rewrite (proj2 (Z.leb_gt _ _)) by lia.
  rewrite bind_ret. change (snap_nblocks sn) with (size_of (disk s) ino).
  rewrite (proj2 (Z.eqb_neq _ 0)), Z.ltb_irrefl by lia.
  assert (new_size (size_of (disk s) ino) off = size_of (disk s) ino) as En by (unfold new_size; lia).
  destruct (write_data_spec ni (λ i, height (size_of (disk s) i)) ino off s sn false fl block) as
    [(s2 & fl2 & E2 & Hs2 & Hinv2 & Hb2 & Hk2 & Hsuf)|[E2 Hfull]];
    rewrite ?Ev in *; try done; try lia.
  - apply lt_cap_height; lia.
  - by right.
  - left. exists s2, fl2. destruct Hk2 as [Hks Hkb]. split_and!; [done|done| |split; [|split]|].
    + eapply tree_inv_ext; [|exact Hinv2]. intros i Hi. by rewrite Hks.
    + intros i Hi. rewrite En, Hks by done. by case_decide; subst.
    + by rewrite Hks.
    + intros i k Hi Hk Hex. rewrite Hks by done. by apply Hkb.
    + eapply took_le; [|exact Hsuf]. unfold blocks_needed. rewrite En. lia.
  - right. split; [done|]. unfold blocks_needed. rewrite En. lia.
Qed.

(** The snapshot with its size set beyond the old one. *)
Lemma resize_snapshot s ni fl ino v :
  fs_wf (disk s) ni fl → ino_ok ni ino → size_of (disk s) ino ≤ v < 2 ^ 32 →
  let sn := with_nblocks
    (Snapshot (blk (disk s) 0) (blk (disk s) (iblk ino)) (iblk ino) (iidx ino)) v in
  let H := λ i, height (size_of (disk s) i) in
  snap_ok ni ino sn s ∧ tree_inv (vdisk ino sn s) ni H fl ∧
  (∀ i, ino_ok ni i →
     size_of (vdisk ino sn s) i = if decide (i = ino) then v else size_of (disk s) i) ∧
  (∀ i k, ino_ok ni i → 0 ≤ k →
     fblock (vdisk ino sn s) (H i) i k = fblock (disk s) (H i) i k) ∧
  snap_nblocks sn = v.
Proof.
  intros Hwf Hino Hv sn H. pose proof (iblk_range _ _ Hino) as Hir.
  pose proof (ti_len _ _ _ _ Hwf) as Hlen.
  assert (iword_set (disk s) (vdisk ino sn s) ino (nblocks_off (iidx ino)) v) as Hset.
  { split; [intros; apply blk_insert_ne; lia|]. apply blk_insert_eq. lia. }
  assert (block_ok (inodeblock sn)) as Hib by (apply set32_ok, blk_ok, Hwf).
  assert (length (vdisk ino sn s) = length (disk s)) as Hl by apply length_insert.
  assert (Forall block_ok (vdisk ino sn s)) as Hok by (apply Forall_insert; [apply Hwf|done]).
  pose proof (resize_size (disk s) _ ni H fl ino v Hwf Hino Hset Hv Hl) as Hsize.
  split_and!; [|by eapply (resize_inv (disk s))|done| |].
  - constructor; [done|done| |done]. symmetry. apply blk_insert_ne; lia.
  - intros i k Hi Hk. by eapply (resize_fblock (disk s) _ ni H fl ino v).
  - specialize (Hsize ino Hino). rewrite decide_True in Hsize by done. rewrite <- Hsize.
    unfold size_of. by rewrite blk_insert_eq by lia.
Qed.

Lemma grow_branch s sn h j off block :
  (if Z.of_nat h <? Z.of_nat (h + j) then
     '(sn, s) ← grow below bino (Z.to_nat (Z.of_nat (h + j) - Z.of_nat h)) s sn;
     write_data below bino 7 s sn true (Z.of_nat (h + j)) off block
   else write_data below bino 7 s sn true (Z.of_nat h) off block)
  = ('(sn, s) ← grow below bino j s sn;
     write_data below bino 7 s sn true (Z.of_nat (h + j)) off block).
Proof.
  destruct (Z.ltb_spec (Z.of_nat h) (Z.of_nat (h + j))).
  - by replace (Z.to_nat (Z.of_nat (h + j) - Z.of_nat h)) with j by lia.
  - assert (j = 0%nat) as -> by lia. simpl. by rewrite Nat.add_0_r.
Qed.

Lemma treedisk_write_beyond s ni fl ino off block :
  inv s → fs_wf (disk s) ni fl → ino_ok ni ino → size_of (disk s) ino ≤ off < 2 ^ 32 - 1 →
  block_ok block →
  (∃ s' fl', treedisk_write below bino 7 s ino off block = Ret (0, s') ∧ inv s' ∧
     fs_wf (disk s') ni fl' ∧ wrote (disk s) (disk s') ni ino off block ∧
     took (blocks_needed (size_of (disk s) ino) off) fl fl') ∨
  (treedisk_write below bino 7 s ino off block = store_full ∧
   (length fl < blocks_needed (size_of (disk s) ino) off)%nat).
Proof.
  intros Hs Hwf Hino Hoff Hblk. pose proof (ti_size _ _ _ _ Hwf _ Hino) as Hsz.
  unfold treedisk_write. rewrite (get_snapshot_ok below bino s ino ni _ fl Hwf Hino), bind_ret.
  change (snap_nblocks (Snapshot _ _ _ _)) with (size_of (disk s) ino).
  rewrite nlevels_of_spec, bind_ret by done. rewrite (proj2 (Z.leb_le _ _)) by lia.
  rewrite count_levels_spec, !bind_ret, u32_small by lia.
  destruct (resize_snapshot s ni fl ino (off + 1) Hwf Hino) as (Hsn1 & Hinv1 & Hsize & Hfb & Enb); [lia|].
  set (sn1 := with_nblocks _ _) in *. set (H := λ i, height (size_of (disk s) i)) in *.
  assert (size_of (vdisk ino sn1 s) ino = off + 1) as Esz1 by (rewrite Hsize; [by rewrite decide_True|done]).
  assert (new_size (size_of (disk s) ino) off = off + 1) as En by (unfold new_size; lia).
  rewrite Enb, (proj2 (Z.eqb_neq _ 0)) by lia.
  pose proof (lv_le off). pose proof (height_S off ltac:(lia)) as Ehs.
  assert (H ino ≤ lv off)%nat as Hle by (rewrite <- Ehs; unfold H; apply height_mono; lia).
  set (j := (lv off - H ino)%nat). assert (lv off = H ino + j)%nat as Ej by (unfold j; lia).
  pose proof (lt_cap_lv off ltac:(lia)) as Hcap. rewrite Ej in Hcap |- *.
  change (height (size_of (disk s) ino)) with (H ino). rewrite grow_branch.
  destruct (grow_write_spec ni H ino off s sn1 fl block j) as
    [(s2 & H2 & fl2 & E2 & Hs2 & Hinv2 & EH & EH' & Hb2 & [Hks Hkb] & Hsuf)|[E2 Hfull]];
    try done; try lia.
  - assert (∀ i, ino_ok ni i → H2 i = height (size_of (disk s2) i)) as EH2.
    { intros i Hi. rewrite Hks, Hsize by done. case_decide as Hd; [subst i; congruence|].
      by rewrite EH'. }
    left. exists s2, fl2. split_and!; [done|done| |split; [|split]|].
    + by eapply tree_inv_ext.
    + intros i Hi. rewrite Hks, Hsize, En by done. done.
    + by rewrite <- EH2.
    + intros i k Hi Hk Hex. rewrite <- EH2, Hkb by done. by apply Hfb.
    + eapply took_le; [|exact Hsuf]. unfold blocks_needed. rewrite En, Ehs. unfold H in *. lia.
  - right. split; [done|]. unfold blocks_needed. rewrite En, Ehs. unfold H in *. lia.
Qed.

Lemma treedisk_write_spec s ni fl ino off block :
  inv s → fs_wf (disk s) ni fl → ino_ok ni ino → 0 ≤ off < 2 ^ 32 - 1 → block_ok block →
  (∃ s' fl', treedisk_write below bino 7 s ino off block = Ret (0, s') ∧ inv s' ∧
     fs_wf (disk s') ni fl' ∧ wrote (disk s) (disk s') ni ino off block ∧
     took (blocks_needed (size_of (disk s) ino) off) fl fl') ∨
  (treedisk_write below bino 7 s ino off block = store_full ∧
   (length fl < blocks_needed (size_of (disk s) ino) off)%nat).
Proof.
  intros Hs Hwf Hino Hoff Hblk. destruct (Z.lt_ge_cases off (size_of (disk s) ino)).
  - apply treedisk_write_inside; try done. lia.
  - apply treedisk_write_beyond; try done. lia.
Qed.

Lemma treedisk_write_bad_ino s ni fl ino off block :
  fs_wf (disk s) ni fl → 64 * ni ≤ ino →
  treedisk_write below bino 7 s ino off block = Ret (-1, s).
Proof. intros Hwf Hi. unfold treedisk_write. by rewrite (get_snapshot_bad below bino s ino ni _ fl Hwf Hi). Qed.
End write.
