(* ===== verification/TreediskCreate.v ===== *)
(** * Creating a tree file system

    [setup_freelist] chains every block behind the inode blocks into the free
    list, and [treedisk_create] leaves a well-formed disk on which every file
    is empty. *)
From S2P Require Import Prelude InodeStore Treedisk TreediskLayout TreediskAlloc TreediskRead.

(** ** One block of the free list *)
Lemma fill_refs_spec k : ∀ i data nf nb,
  0 ≤ nf ≤ nb → nb < 2 ^ 32 → block_ok data → (i + k ≤ 128)%nat →
  let '(data', nf') := fill_refs k i data nf nb in
  block_ok data' ∧ nf' = Z.min (nf + Z.of_nat k) nb ∧
  (∀ j, (j < i)%nat → refs data' j = refs data j) ∧
  (∀ j, (i ≤ j < i + k)%nat →
     refs data' j = let v := nf + Z.of_nat (j - i) in if v <? nb then v else 0).
Proof.
  induction k as [|k IH]; intros i data nf nb Hnf Hnb Hok Hi;
    unfold fill_refs; fold fill_refs.
  { split_and!; [done|lia|done|intros; lia]. }
  destruct (Z.ltb_spec nf nb) as [Hlt|Hge].
  - rewrite u32_small by lia. specialize (IH (i + 1)%nat (set_refs data i nf) (nf + 1) nb).
    destruct (fill_refs k (i + 1) _ (nf + 1) nb) as [data' nf'].
    destruct IH as (Hok' & Hnf' & Hlo & Hhi); [lia|lia|by apply set_refs_ok|lia|].
    split_and!; [done|lia|..].
    + intros j Hj. rewrite Hlo by lia. apply refs_set_ne. lia.
    + intros j Hj. destruct (decide (j = i)) as [->|Hne].
      * rewrite Hlo, refs_set_eq by (done || lia). rewrite Nat.sub_diag, Z.add_0_r. simpl.
        by rewrite (proj2 (Z.ltb_lt nf nb)).
      * rewrite Hhi by lia. simpl. replace (nf + 1 + Z.of_nat (j - (i + 1))) with (nf + Z.of_nat (j - i)) by lia. done.
  - specialize (IH (i + 1)%nat (set_refs data i 0) nf nb).
    destruct (fill_refs k (i + 1) _ nf nb) as [data' nf'].
    destruct IH as (Hok' & Hnf' & Hlo & Hhi); [lia|lia|by apply set_refs_ok|lia|].
    split_and!; [done|lia|..].
    + intros j Hj. rewrite Hlo by lia. apply refs_set_ne. lia.
    + intros j Hj. simpl. rewrite (proj2 (Z.ltb_ge _ nb)) by lia.
      destruct (decide (j = i)) as [->|Hne].
      * by rewrite Hlo, refs_set_eq by (done || lia).
      * rewrite Hhi by lia. simpl. by rewrite (proj2 (Z.ltb_ge _ nb)) by lia.
Qed.

Lemma free_refs_fill data h nb i :
  0 ≤ h < nb → (∀ j, (1 ≤ j ≤ i)%nat →
    refs data j = let v := h + Z.of_nat j in if v <? nb then v else 0) →
  free_refs data i ≡ₚ seqZ (h + 1) (Z.min (Z.of_nat i) (nb - 1 - h)).
Proof.
  intros Hh. induction i as [|i IH]; intros Hr.
  { rewrite Z.min_l by lia. done. }
  rewrite free_refs_S, Hr by lia. simpl. specialize (IH ltac:(intros; apply Hr; lia)).
  destruct (Z.ltb_spec (h + Z.of_nat (S i)) nb).
  - rewrite (proj2 (Z.eqb_neq _ 0)), IH by lia. rewrite !Z.min_l by lia.
    rewrite seqZ_S, Permutation_app_comm. simpl.
    by replace (h + Z.of_nat (S i)) with (h + 1 + Z.of_nat i) by lia.
  - simpl. rewrite IH. by rewrite !Z.min_r by lia.
Qed.

Lemma seqZ_chunk start nf nb :
  start ≤ nf < nb →
  seqZ (nf + 1) (Z.min (Z.of_nat 127) (nb - 1 - nf)) ++ nf :: seqZ start (nf - start)
  ≡ₚ seqZ start (Z.min (nf + 1 + 127) nb - start).
Proof.
  intros H. set (c := Z.min (Z.of_nat 127) (nb - 1 - nf)).
  replace (Z.min (nf + 1 + 127) nb - start) with ((nf - start) + (1 + c)) by (unfold c; lia).
  rewrite seqZ_app by (unfold c; lia). replace (start + (nf - start)) with nf by lia.
  rewrite (seqZ_cons nf) by (unfold c; lia).
  replace (Z.pred (1 + c)) with c by lia. replace (Z.succ nf) with (nf + 1) by lia.
  rewrite Permutation_app_comm. simpl. rewrite <- Permutation_middle. done.
Qed.

Section create.
Context {S : Type} (below : inode_store S) (bino : Z) `{!DiskStore below bino}.
Abbreviation disk s := (ds_blocks below bino s).
Abbreviation inv s := (ds_inv below bino s).

(** ** [setup_freelist] *)
Lemma setup_freelist_loop_spec start nb fuel : ∀ s data fb nf fl,
  0 < start ≤ nf → nf ≤ nb → nb = Z.of_nat (length (disk s)) → nb < 2 ^ 32 →
  inv s → Forall block_ok (disk s) → block_ok data →
  freelist (disk s) fb fl → fl ≡ₚ seqZ start (nf - start) → nb - nf ≤ Z.of_nat fuel →
  ∃ fb' s' fl',
    setup_freelist_loop below bino fuel s data fb nf nb = Ret (fb', s') ∧ inv s' ∧
    length (disk s') = length (disk s) ∧ Forall block_ok (disk s') ∧
    freelist (disk s') fb' fl' ∧ fl' ≡ₚ seqZ start (nb - start) ∧
    (∀ x, 0 ≤ x < start → blk (disk s') x = blk (disk s) x).
Proof.
  induction fuel as [|fuel IH]; intros s data fb nf fl Hst Hnf Enb Hnb Hs Hok Hdata Hfl Hperm Hfuel;
    simpl; destruct (Z.ltb_spec nf nb) as [Hlt|Hge]; try lia.
  1, 3: assert (nf = nb) as -> by lia; exists fb, s, fl; split_and!; done.
  change (Z.to_nat (REFS_PER_BLOCK - 1)) with 127%nat. rewrite u32_small by lia.
  pose proof (fill_refs_spec 127 1 (set_refs data 0 fb) (nf + 1) nb) as Hfill.
  destruct (fill_refs 127 1 (set_refs data 0 fb) (nf + 1) nb) as [data' nf'].
  destruct Hfill as (Hok' & -> & Hlo & Hhi); [lia|lia|by apply set_refs_ok|lia|].
  destruct (ds_write s nf data' Hs) as (s1 & Hw & Hs1 & Hd1); [lia|].
  rewrite Hw. simpl.
  assert (∀ x, x ∈ fl → start ≤ x < nf) as Hrange.
  { intros x Hx. rewrite Hperm in Hx. apply elem_of_seqZ in Hx. lia. }
  assert (0 ≤ fb < 2 ^ 32) as Hfb.
  { destruct (freelist_head _ _ _ Hfl) as [[-> _]|[_ Hin]]; [lia|]. apply Hrange in Hin. lia. }
  assert (refs data' 0 = fb) as Hr0 by (rewrite Hlo, refs_set_eq by (done || lia); done).
  assert (blk (disk s1) nf = data') as Hb1 by (rewrite Hd1; apply blk_insert_eq; lia).
  assert (freelist (disk s1) nf (free_refs data' 127 ++ nf :: fl)) as Hfl1.
  { rewrite <- Hb1. constructor; [lia|]. rewrite Hb1, Hr0. eapply freelist_frame; [exact Hfl|].
    intros x Hx. apply Hrange in Hx. rewrite Hd1. apply blk_insert_ne; lia. }
  destruct (IH s1 data' nf (Z.min (nf + 1 + 127) nb) (free_refs data' 127 ++ nf :: fl))
    as (fb' & s' & fl' & E & Hs' & Hl' & Hok'' & Hfl' & Hp' & Hfr'); try done; try lia.
  - rewrite Hd1, length_insert. done.
  - rewrite Hd1. by apply Forall_insert.
  - rewrite (free_refs_fill data' nf nb 127), Hperm by
      (try lia; intros j Hj; rewrite Hhi by lia; simpl;
       by replace (nf + 1 + Z.of_nat (j - 1)) with (nf + Z.of_nat j) by lia).
    apply seqZ_chunk. lia.
  - exists fb', s', fl'. split_and!; try done.
    + rewrite Hl', Hd1. apply length_insert.
    + intros x Hx. rewrite Hfr', Hd1 by done. apply blk_insert_ne; lia.
Qed.

Lemma clear_inodeblocks_spec n : ∀ i s,
  inv s → 0 ≤ i → i + Z.of_nat n ≤ Z.of_nat (length (disk s)) → Forall block_ok (disk s) →
  ∃ s', clear_inodeblocks below bino n i s = Ret (true, s') ∧ inv s' ∧
    length (disk s') = length (disk s) ∧ Forall block_ok (disk s') ∧
    ∀ x, 0 ≤ x → blk (disk s') x
         = if decide (i ≤ x < i + Z.of_nat n) then null_block else blk (disk s) x.
Proof.
  induction n as [|n IH]; intros i s Hs Hi Hlen Hok; simpl.
  { exists s. split_and!; try done. intros. by rewrite decide_False by lia. }
  destruct (ds_write s i null_block Hs) as (s1 & Hw & Hs1 & Hd1); [lia|]. rewrite Hw. simpl.
  destruct (IH (i + 1) s1) as (s2 & E & Hs2 & Hl2 & Hok2 & Hb2); [done|lia|..].
  { rewrite Hd1, length_insert. lia. }
  { rewrite Hd1. apply Forall_insert; [done|apply null_block_ok]. }
  exists s2. split_and!; try done; [by rewrite Hl2, Hd1, length_insert|].
  intros x Hx. rewrite Hb2 by done. destruct (decide (x = i)) as [->|Hne].
  - rewrite decide_False, decide_True by lia. rewrite Hd1. apply blk_insert_eq. lia.
  - rewrite Hd1, blk_insert_ne by lia.
    destruct (decide (i + 1 ≤ x < i + 1 + Z.of_nat n)).
    + by rewrite decide_True by lia.
    + by rewrite decide_False by lia.
Qed.

(** All trees are empty when all inode blocks are null. *)
Lemma empty_files d ino n k :
  blk d (iblk ino) = null_block → size_of d ino = 0 ∧ fnode d ino n k = 0.
Proof.
  intros E. unfold size_of. rewrite E. split; [apply get32_zeros|].
  assert (root_of d ino = 0) as Er by (unfold root_of; rewrite E; apply get32_zeros).
  revert k. induction n as [|n IH]; intros k.
  - unfold fnode. simpl. rewrite Er. by destruct (k =? 0).
  - by apply fnode_S_hole.
Qed.

Lemma empty_fs_wf d ni fl :
  free_ok d ni fl → 64 * ni < 2 ^ 32 → (∀ i, 1 ≤ i ≤ ni → blk d i = null_block) → fs_wf d ni fl.
Proof.
  intros Hfree Hni Hnull. pose proof (fo_ni _ _ _ Hfree).
  assert (∀ ino n k, ino_ok ni ino → size_of d ino = 0 ∧ fnode d ino n k = 0) as He.
  { intros ino n k Hi. by apply empty_files, Hnull, iblk_range. }
  constructor; try apply Hfree; try done.
  - intros ino n k [Hi _] Hnz. by destruct Hnz; apply He.
  - intros ino n k [Hi _] Hin. rewrite (proj2 (He ino n k Hi)) in Hin.
    apply (fo_range _ _ _ Hfree) in Hin. lia.
  - intros ino n k ino' n' k' [Hi _] _ Hnz. by destruct Hnz; apply He.
  - intros ino Hi. rewrite (proj1 (He ino 0%nat 0 Hi)). lia.
  - intros ino k Hi _ Hnz. by destruct Hnz; apply He.
  - intros ino Hi. cbv beta. rewrite (proj1 (He ino 0%nat 0 Hi)). change (height 0) with 0%nat. lia.
Qed.

Definition n_inodeblocks (ninodes : Z) : Z := (ninodes + 63) / 64.

(** ** [treedisk_create] on a disk whose superblock is not initialised *)
Lemma treedisk_create_spec s ninodes :
  inv s → Forall block_ok (disk s) → 0 ≤ ninodes → ninodes + 63 < 2 ^ 32 →
  n_inodeblocks ninodes + 2 ≤ Z.of_nat (length (disk s)) < 2 ^ 32 →
  sb_n_inodeblocks (blk (disk s) 0) = 0 →
  ∃ s' fl, treedisk_create below bino s ninodes = Ret (0, s') ∧ inv s' ∧
    fs_wf (disk s') (n_inodeblocks ninodes) fl ∧
    length (disk s') = length (disk s) ∧
    fl ≡ₚ seqZ (n_inodeblocks ninodes + 1) (Z.of_nat (length (disk s)) - n_inodeblocks ninodes - 1) ∧
    (∀ ino, ino_ok (n_inodeblocks ninodes) ino → size_of (disk s') ino = 0).
Proof.
  intros Hs Hok Hn0 Hn Hlen Hsb. set (ni := n_inodeblocks ninodes) in *.
  assert (0 ≤ ni ∧ 64 * ni < 2 ^ 32) as [Hni0 Hni].
  { unfold ni, n_inodeblocks. Z.div_mod_to_equations. lia. }
  unfold treedisk_create. change INODES_PER_BLOCK with 64.
  replace (ninodes + 64 - 1) with (ninodes + 63) by lia. rewrite (u32_small (ninodes + 63)) by lia.
  change ((ninodes + 63) / 64) with ni. rewrite ds_getsize, bind_ret by done.
  rewrite (u32_small (Z.of_nat _)), (u32_small (ni + 2)) by lia.
  rewrite (proj2 (Z.ltb_ge _ _)) by lia.
  rewrite (ds_read_blk below bino s 0), bind_ret by lia. simpl. rewrite Hsb. simpl.
  rewrite (u32_small (ni + 1)) by lia. unfold setup_freelist.
  destruct (setup_freelist_loop_spec (ni + 1) (Z.of_nat (length (disk s)))
    (Z.to_nat (Z.of_nat (length (disk s)))) s null_block 0 (ni + 1) [])
    as (fb & s1 & fl & E1 & Hs1 & Hl1 & Hok1 & Hfl & Hperm & Hfr1);
    try done; try lia; [constructor|by rewrite Z.sub_diag|].
  rewrite E1, bind_ret. set (sb := set_free_list _ fb).
  destruct (ds_write s1 0 sb Hs1) as (s2 & Hw & Hs2 & Hd2); [lia|]. rewrite Hw. simpl.
  assert (block_ok sb) as Hsbok by (do 2 apply set32_ok; apply null_block_ok).
  destruct (clear_inodeblocks_spec (Z.to_nat ni) 1 s2) as (s3 & E3 & Hs3 & Hl3 & Hok3 & Hb3);
    [done|lia|rewrite Hd2, length_insert; lia|rewrite Hd2; by apply Forall_insert|].
  rewrite E3. simpl.
  assert (∀ x, x ∈ fl → ni < x < Z.of_nat (length (disk s))) as Hrange.
  { intros x Hx. rewrite Hperm in Hx. apply elem_of_seqZ in Hx. lia. }
  assert (0 ≤ fb < 2 ^ 32) as Hfb.
  { destruct (freelist_head _ _ _ Hfl) as [[-> _]|[_ Hin]]; [lia|]. apply Hrange in Hin. lia. }
  assert (blk (disk s3) 0 = sb) as H0.
  { rewrite Hb3, decide_False by lia. rewrite Hd2. apply blk_insert_eq. lia. }
  assert (length (disk s3) = length (disk s)) as El.
  { rewrite Hl3, Hd2, length_insert. done. }
  assert (∀ i, 1 ≤ i ≤ ni → blk (disk s3) i = null_block) as Hnull.
  { intros i Hi. rewrite Hb3 by lia. by rewrite decide_True by lia. }
  exists s3, fl. split_and!; try done.
  - apply empty_fs_wf; [|done|done]. constructor; try done; try lia; rewrite ?H0.
    + unfold sb. rewrite n_inodeblocks_set_free_list. apply get32_set32_eq; [change (length null_block) with 512%nat; lia|lia].
    + unfold sb. rewrite free_list_set_eq by (done || (apply set32_ok, null_block_ok)).
      eapply freelist_frame; [exact Hfl|]. intros x Hx. apply Hrange in Hx.
      rewrite Hb3, decide_False by lia. rewrite Hd2. apply blk_insert_ne; lia.
    + rewrite Hperm. apply NoDup_seqZ.
    + intros b Hb. rewrite El. by apply Hrange.
  - by rewrite Hperm; replace (Z.of_nat (length (disk s)) - (ni + 1)) with (Z.of_nat (length (disk s)) - ni - 1) by lia.
  - intros ino Hi. apply (empty_files _ _ 0 0), Hnull. by apply iblk_range.
Qed.

(** An initialised superblock is left alone, and a disk that is too small is
    refused. *)
Lemma treedisk_create_exists s ninodes :
  inv s → 0 ≤ ninodes → ninodes + 63 < 2 ^ 32 →
  n_inodeblocks ninodes + 2 ≤ Z.of_nat (length (disk s)) < 2 ^ 32 →
  sb_n_inodeblocks (blk (disk s) 0) ≠ 0 →
  treedisk_create below bino s ninodes = Ret (0, s).
Proof.
  intros Hs Hn0 Hn Hlen Hsb. set (ni := n_inodeblocks ninodes) in *.
  assert (0 ≤ ni) as Hni0 by (unfold ni, n_inodeblocks; Z.div_mod_to_equations; lia).
  unfold treedisk_create. change INODES_PER_BLOCK with 64.
  replace (ninodes + 64 - 1) with (ninodes + 63) by lia. rewrite (u32_small (ninodes + 63)) by lia.
  change ((ninodes + 63) / 64) with ni. rewrite ds_getsize, bind_ret by done.
  rewrite (u32_small (Z.of_nat _)), (u32_small (ni + 2)) by lia.
  rewrite (proj2 (Z.ltb_ge _ _)) by lia.
  rewrite (ds_read_blk below bino s 0), bind_ret by lia. simpl.
  by rewrite (proj2 (Z.eqb_neq _ 0)).
Qed.
End create.
