(* ===== verification/TreediskSpec.v ===== *)
(** * The contract of the tree file system

    [FileSpec] is the abstract file system of [library/file/inode.h]: an array
    of files, a file an array of blocks.  [files] abstracts a well-formed disk
    to it, and the theorems show that [treedisk_read], [treedisk_write] and
    [treedisk_create] implement it on any store that satisfies
    [InodeStore.DiskStore] (for reads, [InodeStore.ReadStore]). *)
From S2P Require Import Prelude InodeStore Treedisk TreediskLayout TreediskAlloc TreediskRead.
From S2P Require Import TreediskLink TreediskWrite TreediskCreate.

(** ** The abstract file system *)
Module FileSpec.
Definition spec_read (F : list (list block_t)) (ino off : nat) : option block_t :=
  f ← F !! ino; f !! off.

(** Writing beyond the end fills the gap with null blocks. *)
Definition file_write (f : list block_t) (off : nat) (b : block_t) : list block_t :=
  <[off := b]> (f ++ replicate (S off - length f) null_block).

Definition spec_write (F : list (list block_t)) (ino off : nat) (b : block_t) : list (list block_t) :=
  alter (λ f, file_write f off b) ino F.

Lemma length_file_write f off b : length (file_write f off b) = Nat.max (length f) (S off).
Proof. unfold file_write. rewrite length_insert, length_app, length_replicate. lia. Qed.

Lemma file_write_lookup_eq f off b : file_write f off b !! off = Some b.
Proof.
  unfold file_write. apply list_lookup_insert_eq. rewrite length_app, length_replicate. lia.
Qed.

Lemma file_write_lookup_ne f off b i :
  i ≠ off → (i < Nat.max (length f) (S off))%nat →
  file_write f off b !! i = Some (default null_block (f !! i)).
Proof.
  intros Hne Hi. unfold file_write. rewrite list_lookup_insert_ne by done.
  destruct (decide (i < length f)%nat) as [Hlt|Hge].
  - rewrite lookup_app_l by done. destruct (lookup_lt_is_Some_2 f i Hlt) as [x Hx]. by rewrite Hx.
  - rewrite lookup_app_r by lia. rewrite (lookup_ge_None_2 f) by lia.
    by rewrite lookup_replicate_2 by lia.
Qed.
End FileSpec.
Import FileSpec.

(** ** The abstraction of a disk *)
Section abs.
Implicit Types (d : list block_t).

Definition file_of d (ino : Z) : list block_t :=
  fblock d (height (size_of d ino)) ino <$> seqZ 0 (size_of d ino).

Definition files d (ni : Z) : list (list block_t) := file_of d <$> seqZ 0 (64 * ni).

Lemma files_lookup d ni ino : ino_ok ni ino → files d ni !! Z.to_nat ino = Some (file_of d ino).
Proof.
  unfold ino_ok. intros. unfold files. rewrite list_lookup_fmap, lookup_seqZ_lt by lia.
  simpl. do 2 f_equal. lia.
Qed.

Lemma files_lookup_None d ni ino : 64 * ni ≤ ino → files d ni !! Z.to_nat ino = None.
Proof. intros. apply lookup_ge_None_2. unfold files. rewrite length_fmap, length_seqZ. lia. Qed.

Lemma file_of_lookup d ino k :
  0 ≤ k < size_of d ino → file_of d ino !! Z.to_nat k = Some (fblock d (height (size_of d ino)) ino k).
Proof.
  intros. unfold file_of. rewrite list_lookup_fmap, lookup_seqZ_lt by lia. simpl. do 2 f_equal. lia.
Qed.

Lemma length_file_of d ino : length (file_of d ino) = Z.to_nat (size_of d ino).
Proof. unfold file_of. by rewrite length_fmap, length_seqZ. Qed.

(** Blocks beyond the end of a file read as null blocks. *)
Lemma file_of_default d ni fl ino k :
  fs_wf d ni fl → ino_ok ni ino → 0 ≤ k →
  default null_block (file_of d ino !! Z.to_nat k) = fblock d (height (size_of d ino)) ino k.
Proof.
  intros Hwf Hi Hk. destruct (Z.lt_ge_cases k (size_of d ino)).
  - by rewrite file_of_lookup.
  - rewrite lookup_ge_None_2 by (rewrite length_file_of; lia). unfold fblock.
    destruct (Z.eqb_spec (fnode d ino (height (size_of d ino)) k) 0) as [|Hnz]; [done|].
    pose proof (ti_leaf _ _ _ _ Hwf ino k Hi Hk Hnz). lia.
Qed.

Lemma wrote_file_write d d' ni fl fl' ino off block :
  fs_wf d ni fl → fs_wf d' ni fl' → ino_ok ni ino → 0 ≤ off → wrote d d' ni ino off block →
  file_of d' ino = file_write (file_of d ino) (Z.to_nat off) block.
Proof.
  intros Hwf Hwf' Hi Hoff (Hsz & Hhere & Hother).
  pose proof (Hsz ino Hi) as Hszi. rewrite decide_True in Hszi by done.
  pose proof (ti_size _ _ _ _ Hwf _ Hi).
  assert (length (file_write (file_of d ino) (Z.to_nat off) block) = length (file_of d' ino)) as Hl.
  { rewrite length_file_write, !length_file_of, Hszi. unfold new_size. lia. }
  apply (list_eq_same_length _ _ (length (file_of d' ino))); [done|done|].
  intros i x y Hlt Hx Hy. rewrite length_file_of in Hlt.
  assert (x = fblock d' (height (size_of d' ino)) ino (Z.of_nat i)) as ->.
  { rewrite <- (Nat2Z.id i), file_of_lookup in Hx by lia. congruence. }
  destruct (decide (i = Z.to_nat off)) as [->|Hne].
  - rewrite file_write_lookup_eq in Hy. rewrite Z2Nat.id by done. congruence.
  - rewrite file_write_lookup_ne in Hy; [|done|rewrite length_file_write in Hl; rewrite Hl, length_file_of; lia].
    rewrite <- (Nat2Z.id i) in Hy at 1. rewrite (file_of_default d ni fl) in Hy by (done || lia).
    rewrite Hother by (done || lia). congruence.
Qed.

Lemma wrote_spec_write d d' ni fl fl' ino off block :
  fs_wf d ni fl → fs_wf d' ni fl' → ino_ok ni ino → 0 ≤ off → wrote d d' ni ino off block →
  files d' ni = spec_write (files d ni) (Z.to_nat ino) (Z.to_nat off) block.
Proof.
  intros Hwf Hwf' Hi Hoff Hw. apply list_eq. intros i. unfold spec_write.
  destruct (decide (i = Z.to_nat ino)) as [->|Hne].
  - rewrite list_lookup_alter_eq, !files_lookup by done. simpl. f_equal. by eapply wrote_file_write.
  - rewrite list_lookup_alter_ne by done. rewrite <- (Nat2Z.id i).
    destruct (Z.lt_ge_cases (Z.of_nat i) (64 * ni)); [|by rewrite !files_lookup_None].
    assert (ino_ok ni (Z.of_nat i)) as Hi' by (unfold ino_ok; lia).
    rewrite !files_lookup by done. f_equal. destruct Hw as (Hsz & _ & Hother).
    assert (Z.of_nat i ≠ ino) by lia.
    unfold file_of. rewrite (Hsz _ Hi'), decide_False by done.
    apply list_fmap_ext. intros j k Hjk. apply lookup_seqZ in Hjk as [-> Hj].
    rewrite <- (Hother (Z.of_nat i) (0 + Z.of_nat j)) by (done || lia || naive_solver).
    by rewrite (Hsz _ Hi'), decide_False by done.
Qed.
End abs.

(** ** Refinement *)

(** [treedisk_read] against the abstract files. *)
Lemma read_files {S} (below : inode_store S) (bino : Z) `{!ReadStore below bino}
    s ni fl ino off buf :
  fs_wf (ds_blocks below bino s) ni fl → 0 ≤ ino → 0 ≤ off →
  treedisk_read below bino 7 s ino off buf
    = match spec_read (files (ds_blocks below bino s) ni) (Z.to_nat ino) (Z.to_nat off) with
      | Some b => Ret (0, b)
      | None => Ret (-1, buf)
      end.
Proof.
  intros Hwf Hino Hoff. unfold spec_read. destruct (Z.lt_ge_cases ino (64 * ni)).
  - assert (ino_ok ni ino) as Hi by done. rewrite files_lookup by done. simpl.
    destruct (Z.lt_ge_cases off (size_of (ds_blocks below bino s) ino)).
    + rewrite file_of_lookup by done. by eapply treedisk_read_spec.
    + rewrite lookup_ge_None_2 by (rewrite length_file_of; lia). by eapply treedisk_read_eof.
  - rewrite files_lookup_None by done. simpl. by eapply treedisk_read_bad_ino.
Qed.

(** C4: on a well-formed disk, [treedisk_read] returns 0 and the block of the
    abstract file when the inode and the offset exist, and -1 with the buffer
    untouched otherwise. *)
Theorem treedisk_read_refines {S} (below : inode_store S) (bino : Z) `{!ReadStore below bino}
    s ni fl ino off buf :
  fs_wf (ds_blocks below bino s) ni fl → 0 ≤ ino → 0 ≤ off →
  treedisk_read below bino 7 s ino off buf
    = match spec_read (files (ds_blocks below bino s) ni) (Z.to_nat ino) (Z.to_nat off) with
      | Some b => Ret (0, b)
      | None => Ret (-1, buf)
      end.
Proof. apply read_files. Qed.

Section refinement.
Context {S : Type} (below : inode_store S) (bino : Z) `{!DiskStore below bino}.
Abbreviation disk s := (ds_blocks below bino s).
Abbreviation inv s := (ds_inv below bino s).

(** C3: with enough free blocks (the new levels and a path to the leaf, at most
    11), [treedisk_write] succeeds, keeps the disk well formed, and changes the
    abstract file system exactly as [spec_write] does; it takes only as many
    blocks off the free list. *)
Theorem treedisk_write_refines s ni fl ino off block :
  inv s → fs_wf (disk s) ni fl → ino_ok ni ino → 0 ≤ off < 2 ^ 32 - 1 → block_ok block →
  (blocks_needed (size_of (disk s) ino) off ≤ length fl)%nat →
  ∃ s' fl', treedisk_write below bino 7 s ino off block = Ret (0, s') ∧ inv s' ∧
    fs_wf (disk s') ni fl' ∧
    files (disk s') ni = spec_write (files (disk s) ni) (Z.to_nat ino) (Z.to_nat off) block ∧
    took (blocks_needed (size_of (disk s) ino) off) fl fl'.
Proof.
  intros Hs Hwf Hi Hoff Hb Hfree.
  destruct (treedisk_write_spec below bino s ni fl ino off block) as
    [(s' & fl' & E & Hs' & Hwf' & Hw & Ht)|[_ Hfull]]; [done..| |lia].
  exists s', fl'. split_and!; try done. eapply wrote_spec_write; try done. lia.
Qed.

(** C6: whatever the free list holds, a write to an existing inode either
    succeeds as above or stops with the panic "inode store is full"; no other
    fault and no error code is possible. *)
Theorem treedisk_write_total s ni fl ino off block :
  inv s → fs_wf (disk s) ni fl → ino_ok ni ino → 0 ≤ off < 2 ^ 32 - 1 → block_ok block →
  (∃ s' fl', treedisk_write below bino 7 s ino off block = Ret (0, s') ∧ inv s' ∧
     fs_wf (disk s') ni fl' ∧
     files (disk s') ni = spec_write (files (disk s) ni) (Z.to_nat ino) (Z.to_nat off) block) ∨
  treedisk_write below bino 7 s ino off block
    = Fault (Fatal "treedisk_alloc_block: inode store is full").
Proof.
  intros Hs Hwf Hi Hoff Hb.
  destruct (treedisk_write_spec below bino s ni fl ino off block) as
    [(s' & fl' & E & Hs' & Hwf' & Hw & Ht)|[E _]]; [done..| |by right].
  left. exists s', fl'. split_and!; try done. eapply wrote_spec_write; try done. lia.
Qed.

(** C5: [treedisk_create] on a disk that is large enough and not initialised
    returns 0 and leaves a well-formed file system of [ninodes] (rounded up to
    whole inode blocks) empty files whose free list holds every other block. *)
Theorem treedisk_create_refines s ninodes :
  inv s → Forall block_ok (disk s) → 0 ≤ ninodes → ninodes + 63 < 2 ^ 32 →
  n_inodeblocks ninodes + 2 ≤ Z.of_nat (length (disk s)) < 2 ^ 32 →
  sb_n_inodeblocks (blk (disk s) 0) = 0 →
  ∃ s' fl, treedisk_create below bino s ninodes = Ret (0, s') ∧ inv s' ∧
    fs_wf (disk s') (n_inodeblocks ninodes) fl ∧
    files (disk s') (n_inodeblocks ninodes)
      = replicate (Z.to_nat (64 * n_inodeblocks ninodes)) [] ∧
    fl ≡ₚ seqZ (n_inodeblocks ninodes + 1)
              (Z.of_nat (length (disk s)) - n_inodeblocks ninodes - 1).
Proof.
  intros Hs Hok H0 Hn Hlen Hsb.
  destruct (treedisk_create_spec below bino s ninodes) as (s' & fl & E & Hs' & Hwf & _ & Hp & Hsz);
    [done..|].
  exists s', fl. split_and!; try done. symmetry. apply replicate_as_elem_of.
  unfold files. rewrite length_fmap, length_seqZ. split; [done|].
  intros f Hf. apply list_elem_of_fmap in Hf as (ino & -> & Hino). apply elem_of_seqZ in Hino.
  unfold file_of. by rewrite Hsz by (unfold ino_ok; lia).
Qed.

(** ** Histories of writes *)
Fixpoint run_writes (s : S) (ws : list (Z * Z * block_t)) : outcome S :=
  match ws with
  | [] => Ret s
  | (ino, off, block) :: ws =>
      '(r, s) ← treedisk_write below bino 7 s ino off block;
      run_writes s ws
  end.

Definition write_ok (ni : Z) (w : Z * Z * block_t) : Prop :=
  let '(ino, off, block) := w in ino_ok ni ino ∧ 0 ≤ off < 2 ^ 32 - 1 ∧ block_ok block.

Definition spec_writes (F : list (list block_t)) (ws : list (Z * Z * block_t)) :=
  fold_left (λ F '(ino, off, block), spec_write F (Z.to_nat ino) (Z.to_nat off) block) ws F.

Lemma blocks_needed_le size off : (blocks_needed size off ≤ 11)%nat.
Proof.
  unfold blocks_needed. assert (∀ x, height x ≤ 5)%nat as H.
  { intros x. unfold height. destruct (0 <? x); [apply lv_le|lia]. }
  pose proof (H (new_size size off)). lia.
Qed.

Lemma run_writes_spec ws : ∀ s ni fl,
  inv s → fs_wf (disk s) ni fl → Forall (write_ok ni) ws → (11 * length ws ≤ length fl)%nat →
  ∃ s' fl', run_writes s ws = Ret s' ∧ inv s' ∧ fs_wf (disk s') ni fl' ∧
    files (disk s') ni = spec_writes (files (disk s) ni) ws ∧
    (length fl ≤ length fl' + 11 * length ws)%nat.
Proof.
  induction ws as [|[[ino off] block] ws IH]; intros s ni fl Hs Hwf Hws Hfree; simpl.
  { exists s, fl. split_and!; try done. lia. }
  apply Forall_cons in Hws as [(Hi & Hoff & Hb) Hws]. simpl in Hfree.
  pose proof (blocks_needed_le (size_of (disk s) ino) off).
  destruct (treedisk_write_spec below bino s ni fl ino off block) as
    [(s1 & fl1 & E & Hs1 & Hwf1 & Hw & (l & -> & Hl))|[_ Hfull]]; [done..| |lia].
  rewrite E. simpl. rewrite length_app in Hfree.
  destruct (IH s1 ni fl1) as (s2 & fl2 & E2 & Hs2 & Hwf2 & HF & Hfl2); [done|done|done|lia|].
  exists s2, fl2. split_and!; try done; [|rewrite length_app; lia].
  rewrite HF. f_equal. eapply wrote_spec_write; try done. lia.
Qed.
End refinement.

(** ** Instances: the disk that mkfs builds *)
Section witnesses.
Import Ramdisk.

Lemma fs_init_ok : Forall block_ok fs_init.
Proof. apply Forall_replicate, null_block_ok. Qed.

Lemma fs_init_length : length fs_init = 4096%nat.
Proof. unfold fs_init. rewrite length_replicate. reflexivity. Qed.

(** A created file system with 128 inodes on the 2MB ramdisk. *)
Lemma mkfs_created :
  ∃ s fl, treedisk_create ramdisk 0 fs_init 128 = Ret (0, s) ∧ ds_inv ramdisk 0 s ∧
    fs_wf s 2 fl ∧ length fl = 4093%nat ∧ (∀ ino, ino_ok 2 ino → size_of s ino = 0).
Proof.
  destruct (treedisk_create_spec ramdisk 0 fs_init 128) as (s & fl & E & Hs & Hwf & _ & Hp & Hsz);
    [apply fs_init_length|apply fs_init_ok|lia|lia| |reflexivity|].
  { change (ds_blocks ramdisk 0 fs_init) with fs_init. rewrite fs_init_length.
    change (n_inodeblocks 128) with 2. lia. }
  exists s, fl. split; [exact E|]. split; [exact Hs|]. split; [exact Hwf|]. split; [|exact Hsz].
  rewrite Hp, length_seqZ. change (ds_blocks ramdisk 0 fs_init) with fs_init.
  rewrite fs_init_length. reflexivity.
Qed.

Lemma treedisk_read_refines_witness :
  ∃ s fl, fs_wf (ds_blocks ramdisk 0 s) 2 fl ∧
    treedisk_read ramdisk 0 7 s 3 0 null_block
      = match spec_read (files (ds_blocks ramdisk 0 s) 2) (Z.to_nat 3) (Z.to_nat 0) with
        | Some b => Ret (0, b)
        | None => Ret (-1, null_block)
        end.
Proof.
  destruct mkfs_created as (s & fl & _ & _ & Hwf & _). exists s, fl. split; [exact Hwf|].
  apply (treedisk_read_refines ramdisk 0 s 2 fl 3 0 null_block); [exact Hwf|lia|lia].
Defined.

Lemma treedisk_write_refines_witness :
  ∃ s fl s' fl', fs_wf s 2 fl ∧ treedisk_write ramdisk 0 7 s 5 1000 null_block = Ret (0, s') ∧
    fs_wf s' 2 fl' ∧
    files s' 2 = spec_write (files s 2) (Z.to_nat 5) (Z.to_nat 1000) null_block.
Proof.
  destruct mkfs_created as (s & fl & _ & Hs & Hwf & Hl & Hsz).
  destruct (treedisk_write_refines ramdisk 0 s 2 fl 5 1000 null_block) as (s' & fl' & E & _ & Hwf' & HF & _);
    [exact Hs|exact Hwf|unfold ino_ok; lia|lia|apply null_block_ok| |].
  - change (ds_blocks ramdisk 0 s) with s. rewrite Hsz by (unfold ino_ok; lia). rewrite Hl.
    change (blocks_needed 0 1000) with 5%nat. lia.
  - exists s, fl, s', fl'. done.
Defined.

Lemma treedisk_write_total_witness :
  ∃ s fl, fs_wf s 2 fl ∧
    ((∃ s' fl', treedisk_write ramdisk 0 7 s 127 0 null_block = Ret (0, s') ∧
        ds_inv ramdisk 0 s' ∧ fs_wf s' 2 fl' ∧
        files s' 2 = spec_write (files s 2) (Z.to_nat 127) (Z.to_nat 0) null_block) ∨
     treedisk_write ramdisk 0 7 s 127 0 null_block
       = Fault (Fatal "treedisk_alloc_block: inode store is full")).
Proof.
  destruct mkfs_created as (s & fl & _ & Hs & Hwf & _). exists s, fl. split; [exact Hwf|].
  apply (@treedisk_write_total _ ramdisk 0 (ramdisk_store 0) s 2 fl 127 0 null_block);
    [exact Hs|exact Hwf|unfold ino_ok; lia|lia|apply null_block_ok].
Defined.

Lemma treedisk_create_refines_witness :
  ∃ s' fl, treedisk_create ramdisk 0 fs_init 128 = Ret (0, s') ∧ fs_wf s' 2 fl ∧
    files s' 2 = replicate 128 [].
Proof.
  destruct (treedisk_create_refines ramdisk 0 fs_init 128) as (s & fl & E & _ & Hwf & HF & _);
    [apply fs_init_length|apply fs_init_ok|lia|lia| |reflexivity|].
  - change (ds_blocks ramdisk 0 fs_init) with fs_init. rewrite fs_init_length.
    change (n_inodeblocks 128) with 2. lia.
  - exists s, fl. split; [exact E|]. split; [exact Hwf|exact HF].
Defined.
End witnesses.
