(* ===== verification/Typed.v ===== *)
(** * The file systems are well typed

    The model writes machine integers and bytes as [Z].  Here every value a
    file system computes is shown to stay in the range of its C type, on any
    store whose blocks are arrays of bytes: also on a disk that [mkfs] did not
    write, whatever garbage its superblock, inodes and free list hold.  And on
    every such disk each operation ends: it returns or stops with a FATAL or
    an access outside the store.

    [post m Q] is the partial-correctness triple of an outcome: a result
    satisfies [Q], and the loops of the model have enough fuel. *)
From S2P Require Import Prelude InodeStore Treedisk.

(** ** Types *)
Definition uint (z : Z) : Prop := 0 ≤ z < 2 ^ 32.
Definition sint (z : Z) : Prop := - 2 ^ 31 ≤ z < 2 ^ 31.
Definition typed_block (b : block_t) : Prop := length b = 512%nat ∧ bytes_ok b.

(** ** Triples *)
Definition post {A} (m : outcome A) (Q : A → Prop) : Prop :=
  match m with Ret a => Q a | Fault f => f ≠ OutOfFuel end.

Lemma post_ret {A} (a : A) (Q : A → Prop) : Q a → post (Ret a) Q.
Proof. done. Qed.
Lemma post_fatal {A} msg (Q : A → Prop) : post (Fault (Fatal msg)) Q.
Proof. done. Qed.
Lemma post_bind {A B} (m : outcome A) (k : A → outcome B) (P : A → Prop) (Q : B → Prop) :
  post m P → (∀ a, P a → post (k a) Q) → post (m ≫= k) Q.
Proof. destruct m as [a|f]; [|done]. intros HP Hk. by apply Hk. Qed.
Lemma post_mono {A} (m : outcome A) (P Q : A → Prop) : post m P → (∀ a, P a → Q a) → post m Q.
Proof. destruct m; [|done]. cbn. auto. Qed.
Lemma post_if {A} (c : bool) (m1 m2 : outcome A) Q : post m1 Q → post m2 Q → post (if c then m1 else m2) Q.
Proof. by destruct c. Qed.

Create HintDb typed.
#[export] Hint Resolve post_ret post_fatal u32_range i32_range : typed.

(** ** Values *)
Lemma u32_uint z : uint (u32 z).
Proof. apply u32_range. Qed.
Lemma i32_sint z : sint (i32 z).
Proof. apply i32_range. Qed.
Lemma get32_uint b off : typed_block b → uint (get32 b off).
Proof. intros [_ Hb]. by apply get32_range. Qed.
Lemma set32_typed b off v : typed_block b → typed_block (set32 b off v).
Proof.
  intros [Hl Hb]. split; [by rewrite length_set32|by apply bytes_ok_set32].
Qed.
Lemma null_typed : typed_block null_block.
Proof. split; [apply length_zeros|apply bytes_ok_zeros]. Qed.
#[export] Hint Resolve u32_uint i32_sint get32_uint set32_typed null_typed : typed.

(** ** Stores *)

(** A store of bytes: well-typed requests get well-typed answers. *)
Class TypedStore {S} (st : inode_store S) := {
  ts_ok : S → Prop;
  ts_getsize s ino : ts_ok s → uint ino → post (getsize st s ino) sint;
  ts_setsize s ino n : ts_ok s → uint ino → uint n → post (setsize st s ino n) (λ '(r, s'), sint r ∧ ts_ok s');
  ts_read s ino off b : ts_ok s → uint ino → uint off → typed_block b →
    post (read st s ino off b) (λ '(r, b'), sint r ∧ typed_block b');
  ts_write s ino off b : ts_ok s → uint ino → uint off → typed_block b →
    post (write st s ino off b) (λ '(r, s'), sint r ∧ ts_ok s')
}.
Arguments ts_ok {S} st {_} s.

#[export] Instance ramdisk_typed : TypedStore Ramdisk.ramdisk.
Proof.
  refine {| ts_ok := λ s : Ramdisk.ram, Forall typed_block s |}; try done.
  - intros s ino off b Hs _ _ _. cbn. unfold Ramdisk.ramread. destruct (s !! _) as [b'|] eqn:Hb; [|done].
    split; [done|]. exact (proj1 (Forall_lookup _ _) Hs _ _ Hb).
  - intros s ino off b Hs _ _ Hb. cbn. unfold Ramdisk.ramwrite. case_bool_decide; [|done].
    split; [done|]. by apply Forall_insert.
Defined.

#[export] Instance flash_typed : TypedStore Flash.disk_store.
Proof.
  refine {| ts_ok := λ d : Flash.disk, Forall typed_block (Flash.rom d) |}; try done.
  - intros d ino off b Hd _ _ Hb. cbn. unfold Flash.read, Flash.disk_read. destruct (Flash.type d); [done|].
    case_bool_decide; [|done]. split; [done|].
    destruct (drop _ (Flash.rom d)) as [|x l] eqn:Hx; [done|]. cbn.
    assert (x ∈ Flash.rom d) as Hin. { rewrite <- (take_drop (Z.to_nat (u32 (FILE_SYS_DISK_START + off)))), Hx. set_solver. }
    by apply (proj1 (Forall_forall _ _) Hd).
  - intros d ino off b Hd _ _ Hb. cbn. unfold Flash.write, Flash.disk_write. by destruct (Flash.type d).
Defined.

(** ** The tree file system *)
Definition typed_snapshot (sn : snapshot) : Prop :=
  typed_block (superblock sn) ∧ typed_block (inodeblock sn) ∧ uint (inode_blockno sn).

Lemma with_superblock_typed sn b : typed_snapshot sn → typed_block b → typed_snapshot (with_superblock sn b).
Proof. intros (_ & Hi & Hn) Hb. by split_and!. Qed.
Lemma with_root_typed sn v : typed_snapshot sn → typed_snapshot (with_root sn v).
Proof. intros (Hs & Hi & Hn). split_and!; [done| |done]. by apply set32_typed. Qed.
Lemma with_nblocks_typed sn v : typed_snapshot sn → typed_snapshot (with_nblocks sn v).
Proof. intros (Hs & Hi & Hn). split_and!; [done| |done]. by apply set32_typed. Qed.
Lemma snap_words sn : typed_snapshot sn → uint (snap_root sn) ∧ uint (snap_nblocks sn).
Proof. intros (_ & Hi & _). split; by apply get32_uint. Qed.
#[export] Hint Resolve with_superblock_typed with_root_typed with_nblocks_typed : typed.

Section treedisk.
Context {S : Type} (below : inode_store S) `{!TypedStore below} (below_ino : Z) (Hino : uint below_ino).
Abbreviation ok := (ts_ok below).

(** Calls of the store below: reads into the null block, writes. *)
Lemma read_below s off b : ok s → uint off → typed_block b →
  post (read below s below_ino off b) (λ '(r, b'), sint r ∧ typed_block b').
Proof using Hino. intros. by apply ts_read. Qed.
Lemma write_below s off b : ok s → uint off → typed_block b →
  post (write below s below_ino off b) (λ '(r, s'), sint r ∧ ok s').
Proof using Hino. intros. by apply ts_write. Qed.

(** Run the code of an operation symbolically. *)
Ltac step H := eapply post_bind; [apply H; first [solve [eauto with typed]|by vm_compute|by apply get32_uint|by apply set32_typed]|]; cbv beta.

Lemma snapshot_typed s ino : ok s → uint ino →
  post (treedisk_get_snapshot below below_ino s ino) (λ osn, from_option typed_snapshot True osn).
Proof using Hino.
  intros Hs Hi. unfold treedisk_get_snapshot. step read_below. intros [r sb] [_ Hsb].
  do 2 (apply post_if; [done|]). step read_below. intros [r' ib] [_ Hib]. apply post_if; [done|].
  cbn. split_and!; [done..|apply u32_uint].
Qed.

Lemma alloc_typed s sn : ok s → typed_snapshot sn →
  post (treedisk_alloc_block below below_ino s sn) (λ '(b, sn', s'), uint b ∧ typed_snapshot sn' ∧ ok s').
Proof using Hino.
  intros Hs Hsn. pose proof Hsn as (Hsb & _ & _). unfold treedisk_alloc_block. apply post_if; [done|].
  step read_below. intros [r flb] [_ Hflb]. apply post_if; [done|].
  destruct (scan_refs flb _) as [|i].
  - step write_below. intros [r' s'] [_ Hs']. apply post_if; [done|].
    cbn. split_and!; [by apply get32_uint| |done]. apply with_superblock_typed; [done|by apply set32_typed].
  - step write_below. intros [r' s'] [_ Hs']. apply post_if; [done|].
    cbn. split_and!; [by apply get32_uint|done..].
Qed.

(** The trees have at most five levels. *)
Lemma levels_step fuel x n : levels_loop 7 (Datatypes.S fuel) x n =
  if log_shift_r x (u32 (n * 7)) =? 0 then Ret n else levels_loop 7 fuel x (u32 (n + 1)).
Proof using Type. done. Qed.

Lemma levels_typed x : post (count_levels 7 x) (λ n, 0 ≤ n ≤ 5).
Proof using Type.
  unfold count_levels. do 5 (rewrite levels_step; destruct (_ =? 0); [vm_compute; by split|]).
  rewrite levels_step. change (log_shift_r x _ =? 0) with true. vm_compute. by split.
Qed.

Lemma nlevels_typed n : post (nlevels_of 7 n) (λ n, 0 ≤ n ≤ 5).
Proof using Type. unfold nlevels_of. apply post_if; [apply levels_typed|cbn; lia]. Qed.

Lemma read_walk_typed nlevels : ∀ s off b blk, ok s → uint b → typed_block blk →
  post (read_walk below below_ino 7 nlevels s off b blk) (λ '(r, b'), sint r ∧ typed_block b').
Proof using Hino.
  induction nlevels as [|n IH]; intros s off b blk Hs Hb Hblk; cbn [read_walk]; (apply post_if; [split; [done|apply null_typed]|]).
  - step read_below. intros [r b'] [Hr Hb']. apply post_if; by cbn.
  - step read_below. intros [r b'] [Hr Hb']. apply post_if; [by cbn|]. apply IH; [done|by apply get32_uint|done].
Qed.

Lemma read_typed s ino off blk : ok s → uint ino → uint off → typed_block blk →
  post (treedisk_read below below_ino 7 s ino off blk) (λ '(r, b'), sint r ∧ typed_block b').
Proof using Hino.
  intros Hs Hi Ho Hb. unfold treedisk_read. step snapshot_typed. intros [sn|] Hsn; [|by cbn].
  apply post_if; [by cbn|]. step nlevels_typed. intros n _. apply read_walk_typed; [done|by apply snap_words|done].
Qed.

Lemma grow_typed n : ∀ s sn, ok s → typed_snapshot sn →
  post (grow below below_ino n s sn) (λ '(sn', s'), typed_snapshot sn' ∧ ok s').
Proof using Hino.
  induction n as [|n IH]; intros s sn Hs Hsn; cbn [grow]; [by cbn|].
  step alloc_typed. intros [[indir sn1] s1] (Hb & Hsn1 & Hs1). step write_below. intros [r s2] [_ Hs2].
  apply post_if; [done|]. apply IH; [done|]. by apply with_root_typed.
Qed.

Lemma write_walk_typed nlevels : ∀ s sn off poff pb slot, ok s → typed_snapshot sn → uint poff → typed_block pb →
  post (write_walk below below_ino 7 nlevels s sn off poff pb slot) (λ '(b, s'), uint b ∧ ok s').
Proof using Hino.
  induction nlevels as [|n IH]; intros s sn off poff pb slot Hs Hsn Hp Hpb; cbn [write_walk].
  - apply post_if; [|split; [by apply get32_uint|done]]. step alloc_typed. intros [[b sn1] s1] (Hb & Hsn1 & Hs1).
    step write_below. intros [r s2] [_ Hs2]. apply post_if; by cbn.
  - apply post_if.
    + step alloc_typed. intros [[b sn1] s1] (Hb & Hsn1 & Hs1). step write_below. intros [r s2] [_ Hs2].
      apply post_if; [done|]. apply IH; eauto with typed.
    + step read_below. intros [r tib] [_ Ht]. apply post_if; [done|]. apply IH; try done. by apply get32_uint.
Qed.

Lemma write_data_typed s sn dirty nlevels off blk : ok s → typed_snapshot sn → typed_block blk →
  post (write_data below below_ino 7 s sn dirty nlevels off blk) (λ '(r, s'), sint r ∧ ok s').
Proof using Hino.
  intros Hs Hsn Hb. pose proof Hsn as (_ & Hi & Hn). unfold write_data. eapply (post_bind _ _ ok).
  - apply post_if; [|done]. step write_below. intros [r s1] [_ Hs1]. by apply post_if.
  - intros s1 Hs1. step write_walk_typed. intros [b s2] [Hb2 Hs2]. step write_below. intros [r s3] [_ Hs3].
    by apply post_if.
Qed.

Lemma write_typed s ino off blk : ok s → uint ino → uint off → typed_block blk →
  post (treedisk_write below below_ino 7 s ino off blk) (λ '(r, s'), sint r ∧ ok s').
Proof using Hino.
  intros Hs Hi Ho Hb. unfold treedisk_write. step snapshot_typed. intros [sn|] Hsn; [|by cbn]. cbn in Hsn.
  step nlevels_typed. intros n _.
  eapply (post_bind _ _ (λ '(sn', _, _), typed_snapshot sn')).
  - apply post_if; [|done]. step levels_typed. intros n' _. cbn. by apply with_nblocks_typed.
  - intros [[sn' n'] dirty] Hsn'. apply post_if; [by apply write_data_typed|]. apply post_if; [|by apply write_data_typed].
    step grow_typed. intros [sn2 s2] [Hsn2 Hs2]. by apply write_data_typed.
Qed.

Lemma getsize_typed s ino : ok s → uint ino → post (treedisk_getsize below below_ino s ino) sint.
Proof using Hino.
  intros Hs Hi. unfold treedisk_getsize. step snapshot_typed. intros [sn|] _; [apply i32_sint|by cbn].
Qed.
End treedisk.

(** A tree file system is again a store of bytes, so that a file of it can
    carry another one. *)
#[export] Instance treedisk_store_typed {S} (below : inode_store S) `{!TypedStore below} below_ino (Hino : uint below_ino) :
  TypedStore (treedisk_init below below_ino 7).
Proof.
  refine {| ts_ok := ts_ok below |}.
  - intros s ino Hs Hi. by apply (getsize_typed below below_ino Hino).
  - done.
  - intros s ino off b Hs Hi Ho Hb. by apply (read_typed below below_ino Hino).
  - intros s ino off b Hs Hi Ho Hb. by apply (write_typed below below_ino Hino).
Defined.

(** ** Creating a file system *)
Lemma fill_refs_typed k : ∀ i data nf nblocks, typed_block data → uint nf → uint nblocks →
  let '(data', nf') := fill_refs k i data nf nblocks in typed_block data' ∧ uint nf' ∧ nf ≤ nf'.
Proof.
  induction k as [|k IH]; intros i data nf nblocks Hd Hn Hb; unfold fill_refs; fold fill_refs; [by split_and!|].
  destruct (Z.ltb_spec nf nblocks).
  - unfold uint in *. specialize (IH (i + 1)%nat (set_refs data i nf) (u32 (nf + 1)) nblocks).
    rewrite u32_small in * by lia. destruct (fill_refs k (i + 1) _ _ _) as [d' n'].
    destruct IH as (? & ? & ?); [by apply set32_typed|lia..|]. split_and!; [done|lia..].
  - apply IH; [by apply set32_typed|done..].
Qed.

Section create.
Context {S : Type} (below : inode_store S) `{!TypedStore below} (below_ino : Z) (Hino : uint below_ino).
Abbreviation ok := (ts_ok below).

Lemma freelist_typed fuel : ∀ s data fl nf nblocks, ok s → typed_block data → uint fl → uint nf → uint nblocks →
  nblocks - nf ≤ Z.of_nat fuel →
  post (setup_freelist_loop below below_ino fuel s data fl nf nblocks) (λ '(b, s'), uint b ∧ ok s').
Proof using Hino.
  induction fuel as [|fuel IH]; intros s data fl nf nblocks Hs Hd Hf Hn Hb Hfuel; cbn [setup_freelist_loop].
  - destruct (Z.ltb_spec nf nblocks); [lia|]. by cbn.
  - destruct (Z.ltb_spec nf nblocks); [|by cbn].
    pose proof (fill_refs_typed (Z.to_nat (REFS_PER_BLOCK - 1)) 1 (set_refs data 0 fl) (u32 (nf + 1)) nblocks
      ltac:(by apply set32_typed) ltac:(apply u32_uint) Hb) as Hfill.
    destruct (fill_refs _ 1 _ _ _) as [data' nf']. destruct Hfill as (Hd' & Hn' & Hle).
    rewrite u32_small in Hle by (unfold uint in *; lia).
    eapply post_bind; [by apply write_below|]. intros [r s'] [_ Hs']. apply post_if; [done|]. apply IH; try done. lia.
Qed.

Lemma clear_typed n : ∀ i s, ok s → 0 ≤ i → i + Z.of_nat n < 2 ^ 32 →
  post (clear_inodeblocks below below_ino n i s) (λ '(_, s'), ok s').
Proof using Hino.
  induction n as [|n IH]; intros i s Hs Hi Hn; cbn [clear_inodeblocks]; [by cbn|].
  eapply post_bind; [apply (write_below below below_ino Hino); [done..|unfold uint; lia|apply null_typed]|].
  intros [r s'] [_ Hs']. apply post_if; [done|]. apply IH; [done|lia..].
Qed.

Lemma create_typed s ninodes : ok s → uint ninodes →
  post (treedisk_create below below_ino s ninodes) (λ '(r, s'), sint r ∧ ok s').
Proof using Hino.
  intros Hs Hn. unfold treedisk_create. eapply post_bind; [by apply ts_getsize|]. intros nblocks _.
  apply post_if; [by cbn|]. eapply post_bind; [apply (read_below below below_ino Hino); [done..|by vm_compute|apply null_typed]|].
  intros [r sb] [_ Hsb]. apply post_if; [by cbn|]. apply post_if; [|by cbn].
  eapply post_bind; [apply freelist_typed; try done; try apply u32_uint; [apply null_typed|]|].
  { pose proof (u32_uint nblocks). pose proof (u32_uint (u32 (ninodes + INODES_PER_BLOCK - 1) / INODES_PER_BLOCK + 1)).
    unfold uint in *. lia. }
  intros [fl s1] [Hfl Hs1]. eapply post_bind; [apply (write_below below below_ino Hino); [done..|by vm_compute|by repeat apply set32_typed; apply null_typed]|].
  intros [r2 s2] [_ Hs2]. apply post_if; [by cbn|]. eapply post_bind; [apply clear_typed; [done|lia|]|].
  { unfold INODES_PER_BLOCK, BLOCK_SIZE. pose proof (u32_range (ninodes + 512 / 8 - 1)). change (512 / 8) with 64 in *.
    Z.div_mod_to_equations. lia. }
  intros [b s3] Hs3. apply post_if; by cbn.
Qed.
End create.

(** On any store of byte blocks, whatever its contents, [treedisk_read],
    [treedisk_write], [treedisk_getsize] and [treedisk_create] called with
    arguments of their C types return values of their C types, leave a store
    of byte blocks, and end: a result or a stop, never the end of the fuel.
    The number of levels is bounded by [levels_typed], the rounds of
    [setup_freelist] by [freelist_typed].  Of the store below they need only
    what a [TypedStore] promises.  What the operations return is the subject
    of [TreediskSpec]; here the ranges are those of the model's own 32-bit
    arithmetic. *)
Theorem treedisk_typed {S} (below : inode_store S) `{!TypedStore below} below_ino s ino off blk :
  uint below_ino → ts_ok below s → uint ino → uint off → typed_block blk →
  post (treedisk_read below below_ino 7 s ino off blk) (λ '(r, b'), sint r ∧ typed_block b') ∧
  post (treedisk_write below below_ino 7 s ino off blk) (λ '(r, s'), sint r ∧ ts_ok below s') ∧
  post (treedisk_getsize below below_ino s ino) sint ∧
  post (treedisk_create below below_ino s ino) (λ '(r, s'), sint r ∧ ts_ok below s').
Proof.
  intros Hino Hs Hi Ho Hb.
  split_and!; [by apply (read_typed below below_ino Hino)|by apply (write_typed below below_ino Hino)
    |by apply (getsize_typed below below_ino Hino)|by apply (create_typed below below_ino Hino)].
Qed.

(** A disk full of ones. *)
Lemma treedisk_typed_witness : let s := replicate 8 (replicate 512 255) in
  post (treedisk_read Ramdisk.ramdisk 0 7 s 3 9 null_block) (λ '(r, b'), sint r ∧ typed_block b') ∧
  post (treedisk_write Ramdisk.ramdisk 0 7 s 3 9 null_block) (λ '(r, s'), sint r ∧ ts_ok Ramdisk.ramdisk s') ∧
  post (treedisk_getsize Ramdisk.ramdisk 0 s 3) sint ∧
  post (treedisk_create Ramdisk.ramdisk 0 s 3) (λ '(r, s'), sint r ∧ ts_ok Ramdisk.ramdisk s').
Proof.
  apply treedisk_typed; [by vm_compute|apply (bool_decide_unpack _); vm_compute; exact I|by vm_compute..|apply null_typed].
Defined.
