(* ===== verification/MemAlloc.v ===== *)
(** * The physical page allocator (earth/mem_alloc.c)

    [bitmap] is the array of the C file, one bit per page of
    [APPS_PAGES_BASE, RAM_END); RAM is a map from page numbers to pages,
    which is as fine as the code needs: [memset] and [memcpy] of the memory
    subsystem move whole aligned pages.  The abstract allocator is the set of
    used page ids ([used]) with "take the lowest free page" ([spec_alloc]). *)
From S2P Require Import Prelude.

(** ** Memory layout (library/egos.h) *)
Definition RAM_END : Z := 0x80800000.
Definition APPS_PAGES_BASE : Z := 0x80400000.
Definition APPS_STACK_TOP : Z := 0x80400000.
Definition SHELL_WORK_DIR : Z := 0x80302000.
Definition SYSCALL_ARG : Z := 0x80301000.
Definition APPS_ARG : Z := 0x80300000.
Definition APPS_ENTRY : Z := 0x80200000.
Definition EGOS_STACK_TOP : Z := 0x80200000.
Definition RAM_START : Z := 0x80000000.
Definition PAGE_SIZE : Z := 4096.
Definition APPS_PAGES_CNT : Z := (RAM_END - APPS_PAGES_BASE) / PAGE_SIZE.

(** RAM by pages; a page never written reads as zeros. *)
Abbreviation page_t := (list Z).
Definition zero_page : page_t := zeros (Z.to_nat PAGE_SIZE).
Abbreviation ram_t := (gmap Z page_t).
Definition page_at (m : ram_t) (pn : Z) : page_t := default zero_page (m !! pn).

(** ** The bitmap *)
Definition BITMAP_LEN : nat := Z.to_nat (APPS_PAGES_CNT / 8).

Definition bitmap_cell (b : list Z) (i : Z) : outcome Z :=
  match b !! Z.to_nat (i / 8) with
  | Some w => Ret w
  | None => Fault (Undef "bitmap index")
  end.

Definition bitmap_set (b : list Z) (i : Z) : outcome (list Z) :=
  w ← bitmap_cell b i;
  Ret (<[Z.to_nat (i / 8) := Z.lor w (Z.shiftl 1 (i `mod` 8)) `mod` 2 ^ 8]> b).

Definition bitmap_clear (b : list Z) (i : Z) : outcome (list Z) :=
  w ← bitmap_cell b i;
  Ret (<[Z.to_nat (i / 8) :=
         Z.land w (Z.lnot (Z.shiftl 1 (i `mod` 8))) `mod` 2 ^ 8]> b).

Definition bitmap_test (b : list Z) (i : Z) : outcome Z :=
  w ← bitmap_cell b i;
  Ret (Z.land w (Z.shiftl 1 (i `mod` 8))).

(** ** Page ids and physical addresses *)
Definition pgid_to_paddr (pgid : Z) : outcome Z :=
  ASSERT (pgid <? APPS_PAGES_CNT) "pgid_to_paddr: pgid is too large";;
  Ret (u32 (APPS_PAGES_BASE + u32 (pgid * PAGE_SIZE))).

Definition paddr_to_pgid (paddr : Z) : outcome Z :=
  ASSERT (paddr `mod` PAGE_SIZE =? 0) "paddr_to_pgid: paddr is not page aligned";;
  let pgid := u32 (paddr - APPS_PAGES_BASE) / PAGE_SIZE in
  ASSERT (pgid <? APPS_PAGES_CNT) "paddr_to_pgid: pgid is too large";;
  Ret pgid.

(** ** The allocator *)
Record pmem := PMem { bitmap : list Z; ram : ram_t }.

Definition pmem_init : pmem := PMem (zeros BITMAP_LEN) ∅.

(** The [for] loop of [pmalloc] with [n] iterations left, at page id [i]. *)
Fixpoint pmalloc_loop (n : nat) (i clear_page : Z) (s : pmem) : outcome (Z * pmem) :=
  match n with
  | O => Fault (Fatal "pmalloc: no more available page")
  | S n =>
      t ← bitmap_test (bitmap s) i;
      if t =? 0 then
        b ← bitmap_set (bitmap s) i;
        ret ← pgid_to_paddr i;
        Ret (ret, PMem b (if clear_page =? 0 then ram s
                          else <[ret / PAGE_SIZE := zero_page]> (ram s)))
      else pmalloc_loop n (i + 1) clear_page s
  end.

Definition pmalloc (clear_page : Z) (s : pmem) : outcome (Z * pmem) :=
  pmalloc_loop (Z.to_nat APPS_PAGES_CNT) 0 clear_page s.

Definition pfree (paddr : Z) (s : pmem) : outcome pmem :=
  pgid ← paddr_to_pgid paddr;
  b ← bitmap_clear (bitmap s) pgid;
  Ret (PMem b (ram s)).

(** [mmu_alloc] of earth/cpu_mmu.c. *)
Definition mmu_alloc (s : pmem) : outcome (Z * pmem) :=
  '(paddr, s) ← pmalloc 1 s;
  pgid ← paddr_to_pgid paddr;
  Ret (pgid, s).

(** ** The abstract allocator *)
Definition page_ids : list Z := seqZ 0 APPS_PAGES_CNT.
Arguments page_ids : simpl never.

Definition bit (b : list Z) (i : Z) : bool :=
  Z.testbit (byte_at b (Z.to_nat (i / 8))) (i `mod` 8).

Definition used (b : list Z) : gset Z := list_to_set (filter (λ i, bit b i) page_ids).

Definition spec_alloc (U : gset Z) : option Z := head (filter (λ i, i ∉ U) page_ids).

Definition bitmap_ok (b : list Z) : Prop := length b = BITMAP_LEN ∧ bytes_ok b.

(** ** Lemmas on bits *)
Lemma elem_of_page_ids i : i ∈ page_ids ↔ 0 ≤ i < APPS_PAGES_CNT.
Proof. unfold page_ids. rewrite elem_of_seqZ. lia. Qed.

Lemma elem_of_used b i : i ∈ used b ↔ 0 ≤ i < APPS_PAGES_CNT ∧ bit b i.
Proof.
  unfold used. rewrite elem_of_list_to_set, list_elem_of_filter, elem_of_page_ids. tauto.
Qed.

Lemma land_bit_zero w k : 0 ≤ k → (Z.land w (Z.shiftl 1 k) =? 0) = negb (Z.testbit w k).
Proof.
  intros Hk. destruct (Z.testbit w k) eqn:E; simpl.
  - apply Z.eqb_neq. intros H. apply (f_equal (λ z, Z.testbit z k)) in H.
    rewrite Z.land_spec, Z.shiftl_spec, Z.sub_diag, E, Z.bits_0 in H by lia. done.
  - apply Z.eqb_eq. apply Z.bits_inj'. intros n Hn.
    rewrite Z.land_spec, Z.bits_0, Z.shiftl_1_l, Z.pow2_bits_eqb by lia.
    destruct (Z.eqb_spec k n) as [->|]; [by rewrite E | apply andb_false_r].
Qed.

Lemma bitmap_cell_ok b i : bitmap_ok b → 0 ≤ i < APPS_PAGES_CNT →
  bitmap_cell b i = Ret (byte_at b (Z.to_nat (i / 8))) ∧ (Z.to_nat (i / 8) < length b)%nat.
Proof.
  intros [Hlen _] Hi. assert (Z.to_nat (i / 8) < length b)%nat as H.
  { rewrite Hlen. change BITMAP_LEN with 128%nat. change APPS_PAGES_CNT with 1024 in Hi.
    Z.div_mod_to_equations. lia. }
  split; [|done]. unfold bitmap_cell, byte_at.
  destruct (lookup_lt_is_Some_2 b _ H) as [w ->]. done.
Qed.

Lemma bit_insert b i j v : (Z.to_nat (i / 8) < length b)%nat → 0 ≤ i → 0 ≤ j →
  bit (<[Z.to_nat (i / 8) := v]> b) j =
  if decide (i / 8 = j / 8) then Z.testbit v (j `mod` 8) else bit b j.
Proof.
  intros. unfold bit. case_decide as E.
  - rewrite E in *. by rewrite byte_at_insert_eq.
  - rewrite byte_at_insert_ne; [done|]. Z.div_mod_to_equations. lia.
Qed.

(** A masked update of the bit's byte changes that bit and no other. *)
Lemma bit_update b i (x : bool) v : bitmap_ok b → 0 ≤ i < APPS_PAGES_CNT →
  (∀ k, 0 ≤ k < 8 → Z.testbit v k =
     if decide (k = i `mod` 8) then x else Z.testbit (byte_at b (Z.to_nat (i / 8))) k) →
  0 ≤ v < 2 ^ 8 →
  bitmap_ok (<[Z.to_nat (i / 8) := v]> b) ∧
  ∀ j, 0 ≤ j → bit (<[Z.to_nat (i / 8) := v]> b) j = if decide (j = i) then x else bit b j.
Proof.
  intros Hb Hi Hv Hrange. destruct (bitmap_cell_ok b i Hb Hi) as [_ Hlt].
  destruct Hb as [Hlen Hbytes]. split.
  - split; [by rewrite length_insert|]. by apply Forall_insert.
  - intros j Hj. rewrite bit_insert by lia.
    pose proof (Z.mod_pos_bound j 8 ltac:(lia)).
    case_decide as E; [|case_decide; [congruence|done]].
    rewrite Hv by lia. repeat case_decide; subst; try done.
    + exfalso. Z.div_mod_to_equations. lia.
    + unfold bit. by rewrite E.
Qed.

Lemma testbit_low v n k : 0 ≤ k < n → Z.testbit (v `mod` 2 ^ n) k = Z.testbit v k.
Proof. intros. by rewrite Z.mod_pow2_bits_low by lia. Qed.

Lemma bitmap_set_spec b i : bitmap_ok b → 0 ≤ i < APPS_PAGES_CNT →
  ∃ b', bitmap_set b i = Ret b' ∧ bitmap_ok b' ∧
    ∀ j, 0 ≤ j → bit b' j = if decide (j = i) then true else bit b j.
Proof.
  intros Hb Hi. unfold bitmap_set. rewrite (proj1 (bitmap_cell_ok b i Hb Hi)).
  rewrite bind_ret. eexists. split; [done|].
  apply bit_update; try done; [|apply Z.mod_pos_bound; lia].
  intros k Hk. rewrite testbit_low, Z.lor_spec, Z.shiftl_1_l by lia.
  rewrite Z.pow2_bits_eqb by (apply Z.mod_pos_bound; lia).
  case_decide as E; [subst k; rewrite Z.eqb_refl; apply orb_true_r|].
  rewrite (proj2 (Z.eqb_neq _ _)) by congruence. apply orb_false_r.
Qed.

Lemma bitmap_clear_spec b i : bitmap_ok b → 0 ≤ i < APPS_PAGES_CNT →
  ∃ b', bitmap_clear b i = Ret b' ∧ bitmap_ok b' ∧
    ∀ j, 0 ≤ j → bit b' j = if decide (j = i) then false else bit b j.
Proof.
  intros Hb Hi. unfold bitmap_clear. rewrite (proj1 (bitmap_cell_ok b i Hb Hi)).
  rewrite bind_ret. eexists. split; [done|].
  apply bit_update; try done; [|apply Z.mod_pos_bound; lia].
  intros k Hk. rewrite testbit_low, Z.land_spec, Z.lnot_spec, Z.shiftl_1_l by lia.
  rewrite Z.pow2_bits_eqb by (apply Z.mod_pos_bound; lia).
  case_decide as E; [subst k; rewrite Z.eqb_refl; apply andb_false_r|].
  rewrite (proj2 (Z.eqb_neq _ _)) by congruence. apply andb_true_r.
Qed.

Lemma bitmap_test_spec b i : bitmap_ok b → 0 ≤ i < APPS_PAGES_CNT →
  ∃ t, bitmap_test b i = Ret t ∧ (t =? 0) = negb (bit b i).
Proof.
  intros Hb Hi. unfold bitmap_test. rewrite (proj1 (bitmap_cell_ok b i Hb Hi)).
  rewrite bind_ret. eexists. split; [done|].
  apply land_bit_zero. apply Z.mod_pos_bound. lia.
Qed.

Lemma used_set b b' i : 0 ≤ i < APPS_PAGES_CNT →
  (∀ j, 0 ≤ j → bit b' j = if decide (j = i) then true else bit b j) →
  used b' = {[i]} ∪ used b.
Proof.
  intros Hi H. apply set_eq. intros j. rewrite elem_of_union, elem_of_singleton, !elem_of_used.
  destruct (decide (0 ≤ j)); [|split; intros; lia].
  rewrite H by done. case_decide; subst; simpl; intuition lia.
Qed.

Lemma used_clear b b' i :
  (∀ j, 0 ≤ j → bit b' j = if decide (j = i) then false else bit b j) →
  used b' = used b ∖ {[i]}.
Proof.
  intros H. apply set_eq. intros j. rewrite elem_of_difference, elem_of_singleton, !elem_of_used.
  destruct (decide (0 ≤ j)); [|split; intros; lia].
  rewrite H by done. case_decide; subst; simpl; intuition lia.
Qed.

(** ** Addresses *)
Lemma pgid_to_paddr_ok i : 0 ≤ i < APPS_PAGES_CNT →
  pgid_to_paddr i = Ret (APPS_PAGES_BASE + i * PAGE_SIZE).
Proof.
  intros Hi. unfold pgid_to_paddr, ASSERT. rewrite (proj2 (Z.ltb_lt _ _)) by lia. simpl.
  change APPS_PAGES_CNT with 1024 in Hi. unfold PAGE_SIZE, APPS_PAGES_BASE.
  by rewrite !u32_small by (rewrite ?u32_small; lia).
Qed.

Lemma paddr_to_pgid_ok i : 0 ≤ i < APPS_PAGES_CNT →
  paddr_to_pgid (APPS_PAGES_BASE + i * PAGE_SIZE) = Ret i.
Proof.
  intros Hi. unfold paddr_to_pgid, ASSERT.
  change APPS_PAGES_CNT with 1024 in *. unfold PAGE_SIZE, APPS_PAGES_BASE.
  rewrite (proj2 (Z.eqb_eq _ _)) by (Z.div_mod_to_equations; lia). simpl.
  rewrite u32_small by lia.
  replace ((2151677952 + i * 4096 - 2151677952) / 4096) with i by (Z.div_mod_to_equations; lia).
  by rewrite (proj2 (Z.ltb_lt _ _)) by lia.
Qed.

(** [paddr_to_pgid] accepts exactly the page addresses of the pool. *)
Lemma paddr_to_pgid_inv paddr i : 0 ≤ paddr < 2 ^ 32 → paddr_to_pgid paddr = Ret i →
  0 ≤ i < APPS_PAGES_CNT ∧ paddr = APPS_PAGES_BASE + i * PAGE_SIZE.
Proof.
  intros Hp H. unfold paddr_to_pgid in H. inv_bind. injection H as <-.
  rewrite Z.eqb_eq in Hassert0. rewrite Z.ltb_lt in Hassert.
  change APPS_PAGES_CNT with 1024 in *. unfold u32, PAGE_SIZE, APPS_PAGES_BASE in *.
  Z.div_mod_to_equations. lia.
Qed.

(** ** The loop of [pmalloc] *)
Lemma seqZ_filter_head P `{!∀ x : Z, Decision (P x)} m n i : 0 ≤ m →
  head (filter P (seqZ m n)) = Some i → m ≤ i < m + n ∧ P i.
Proof.
  intros Hm Hh. destruct (filter P (seqZ m n)) as [|x l] eqn:E; [done|]. injection Hh as <-.
  assert (x ∈ filter P (seqZ m n)) as Hx by (rewrite E; left).
  apply list_elem_of_filter in Hx as [? Hx]. rewrite elem_of_seqZ in Hx.
  split; [lia|done].
Qed.

Lemma pmalloc_loop_spec n i c s : bitmap_ok (bitmap s) → 0 ≤ i →
  i + Z.of_nat n = APPS_PAGES_CNT →
  match head (filter (λ j, ¬ bit (bitmap s) j) (seqZ i (Z.of_nat n))) with
  | None => pmalloc_loop n i c s = Fault (Fatal "pmalloc: no more available page")
  | Some j => ∃ b', bitmap_set (bitmap s) j = Ret b' ∧
      pmalloc_loop n i c s = Ret (APPS_PAGES_BASE + j * PAGE_SIZE,
        PMem b' (if c =? 0 then ram s
                 else <[APPS_PAGES_BASE / PAGE_SIZE + j := zero_page]> (ram s)))
  end.
Proof.
  intros Hb. revert i. induction n as [|n IH]; intros i Hi Hn; [done|].
  rewrite seqZ_cons, filter_cons by lia. cbn [pmalloc_loop].
  destruct (bitmap_test_spec (bitmap s) i Hb ltac:(lia)) as (t & -> & Ht).
  rewrite bind_ret, Ht. case_decide as Hbit; simpl.
  - destruct (bit (bitmap s) i); [by destruct Hbit|]. simpl.
    destruct (bitmap_set_spec (bitmap s) i Hb ltac:(lia)) as (b' & Hset & _).
    exists b'. split; [done|]. rewrite Hset, bind_ret, pgid_to_paddr_ok by lia. simpl.
    do 3 f_equal. destruct (c =? 0); [done|]. f_equal.
    unfold APPS_PAGES_BASE, PAGE_SIZE. Z.div_mod_to_equations. lia.
  - destruct (bit (bitmap s) i); [|by destruct Hbit]. simpl.
    replace (Z.pred _) with (Z.of_nat n) by lia. rewrite <- Z.add_1_r. apply IH; lia.
Qed.

Lemma spec_alloc_bits b :
  spec_alloc (used b) = head (filter (λ j, ¬ bit b j) page_ids).
Proof.
  unfold spec_alloc. f_equal. apply filter_ext_in.
  intros j Hj%elem_of_page_ids. rewrite elem_of_used. tauto.
Qed.

(** The whole of [pmalloc], with the new bitmap made explicit. *)
Lemma pmalloc_spec c s : bitmap_ok (bitmap s) →
  match spec_alloc (used (bitmap s)) with
  | None => pmalloc c s = Fault (Fatal "pmalloc: no more available page")
  | Some i => 0 ≤ i < APPS_PAGES_CNT ∧ (i ∉ used (bitmap s)) ∧ ∃ b',
      pmalloc c s = Ret (APPS_PAGES_BASE + i * PAGE_SIZE,
        PMem b' (if c =? 0 then ram s
                 else <[APPS_PAGES_BASE / PAGE_SIZE + i := zero_page]> (ram s))) ∧
      bitmap_ok b' ∧ used b' = {[i]} ∪ used (bitmap s)
  end.
Proof.
  intros Hb. pose proof (pmalloc_loop_spec 1024 0 c s Hb ltac:(lia) eq_refl) as H.
  change (Z.of_nat 1024) with APPS_PAGES_CNT in H. change (seqZ 0 _) with page_ids in H.
  rewrite <- spec_alloc_bits in H. change (pmalloc_loop 1024 0 c s) with (pmalloc c s) in H.
  destruct (spec_alloc (used (bitmap s))) as [i|] eqn:E; [|done].
  apply seqZ_filter_head in E as [Hi Hfree]; [|lia].
  split; [lia|]. split; [done|]. destruct H as (b' & Hset & ->).
  destruct (bitmap_set_spec (bitmap s) i Hb ltac:(lia)) as (b2 & Hset2 & Hok & Hbits).
  rewrite Hset in Hset2. injection Hset2 as <-.
  eexists. split; [done|]. split; [done|]. apply used_set; [lia|done].
Qed.

(** C28: with a well-formed bitmap, [pmalloc] hands out the lowest page id
    that is not in use, marks exactly that page used, returns its address
    (clearing that page and no other when asked to), and reports "no more
    available page" exactly when every page of the pool is in use. *)
Theorem pmalloc_refines c s : bitmap_ok (bitmap s) →
  match spec_alloc (used (bitmap s)) with
  | None => pmalloc c s = Fault (Fatal "pmalloc: no more available page")
  | Some i => 0 ≤ i < APPS_PAGES_CNT ∧ (i ∉ used (bitmap s)) ∧ ∃ s',
      pmalloc c s = Ret (APPS_PAGES_BASE + i * PAGE_SIZE, s') ∧
      bitmap_ok (bitmap s') ∧ used (bitmap s') = {[i]} ∪ used (bitmap s) ∧
      ram s' = if c =? 0 then ram s
               else <[APPS_PAGES_BASE / PAGE_SIZE + i := zero_page]> (ram s)
  end.
Proof.
  intros Hb. pose proof (pmalloc_spec c s Hb) as H.
  destruct (spec_alloc (used (bitmap s))); [|done].
  destruct H as (Hi & Hfree & b' & -> & Hok & Hused). eauto 10.
Qed.

Lemma pmalloc_refines_witness :
  ∃ s', pmalloc 1 (PMem (255 :: 3 :: zeros 126) ∅) = Ret (APPS_PAGES_BASE + 10 * PAGE_SIZE, s')
     ∧ bitmap_ok (bitmap s').
Proof.
  assert (bitmap_ok (255 :: 3 :: zeros 126)) as Hok.
  { split; [reflexivity|]. apply (bool_decide_unpack _); reflexivity. }
  pose proof (pmalloc_refines 1 (PMem (255 :: 3 :: zeros 126) ∅) Hok) as H.
  assert (spec_alloc (used (255 :: 3 :: zeros 126)) = Some 10) as E by (vm_compute; reflexivity).
  cbn [bitmap] in H. rewrite E in H. destruct H as (_ & _ & s' & Hs & Hb & _).
  exists s'. split; assumption.
Defined.

(** [pfree] of a page address of the pool marks exactly that page free
    and touches no memory; any other address in the 32-bit space stops the
    kernel at an assertion. *)
Theorem pfree_refines paddr s : bitmap_ok (bitmap s) → 0 ≤ paddr < 2 ^ 32 →
  (∃ i s', 0 ≤ i < APPS_PAGES_CNT ∧ paddr = APPS_PAGES_BASE + i * PAGE_SIZE ∧
     pfree paddr s = Ret s' ∧ bitmap_ok (bitmap s') ∧
     used (bitmap s') = used (bitmap s) ∖ {[i]} ∧ ram s' = ram s) ∨
  ((∀ i, 0 ≤ i < APPS_PAGES_CNT → paddr ≠ APPS_PAGES_BASE + i * PAGE_SIZE) ∧
   ∃ msg, pfree paddr s = Fault (Fatal msg)).
Proof.
  intros Hb Hp. unfold pfree. destruct (paddr_to_pgid paddr) as [i|f] eqn:E.
  - left. destruct (paddr_to_pgid_inv paddr i Hp E) as [Hi Heq].
    destruct (bitmap_clear_spec (bitmap s) i Hb Hi) as (b' & Hc & Hok & Hbits).
    exists i, (PMem b' (ram s)). rewrite bind_ret, Hc. simpl.
    repeat split; try (done || lia || apply Hok). by apply used_clear.
  - right. split.
    + intros i Hi ->. by rewrite paddr_to_pgid_ok in E.
    + unfold paddr_to_pgid in E. destruct (paddr `mod` PAGE_SIZE =? 0); simpl in E.
      * destruct (_ <? APPS_PAGES_CNT) in E; simpl in E; [done|].
        injection E as <-. eauto.
      * injection E as <-. eauto.
Qed.

Lemma pfree_refines_witness :
  (∃ i s', 0 ≤ i < APPS_PAGES_CNT ∧ 0x80409000 = APPS_PAGES_BASE + i * PAGE_SIZE ∧
     pfree 0x80409000 (PMem (255 :: 3 :: zeros 126) ∅) = Ret s' ∧ bitmap_ok (bitmap s') ∧
     used (bitmap s') = used (255 :: 3 :: zeros 126) ∖ {[i]} ∧ ram s' = ∅) ∨
  ((∀ i, 0 ≤ i < APPS_PAGES_CNT → 0x80409000 ≠ APPS_PAGES_BASE + i * PAGE_SIZE) ∧
   ∃ msg, pfree 0x80409000 (PMem (255 :: 3 :: zeros 126) ∅) = Fault (Fatal msg)).
Proof.
  apply (pfree_refines 0x80409000 (PMem (255 :: 3 :: zeros 126) ∅)); [|lia].
  split; [reflexivity|]. apply (bool_decide_unpack _); reflexivity.
Defined.

(** [mmu_alloc] returns the page id of the page [pmalloc] took. *)
Lemma mmu_alloc_spec s : bitmap_ok (bitmap s) →
  match spec_alloc (used (bitmap s)) with
  | None => mmu_alloc s = Fault (Fatal "pmalloc: no more available page")
  | Some i => 0 ≤ i < APPS_PAGES_CNT ∧ (i ∉ used (bitmap s)) ∧ ∃ b',
      mmu_alloc s = Ret (i, PMem b' (<[APPS_PAGES_BASE / PAGE_SIZE + i := zero_page]> (ram s))) ∧
      bitmap_ok b' ∧ used b' = {[i]} ∪ used (bitmap s)
  end.
Proof.
  intros Hb. pose proof (pmalloc_spec 1 s Hb) as H. unfold mmu_alloc.
  destruct (spec_alloc (used (bitmap s))) as [i|]; [|by rewrite H].
  destruct H as (Hi & Hfree & b' & -> & Hok & Hused).
  rewrite bind_ret, paddr_to_pgid_ok, bind_ret by lia. eauto 10.
Qed.
