(* ===== verification/SoftTlb.v ===== *)
(** * The software TLB (earth/mem_soft_tlb.c)

    Without address translation in hardware, the page of process [pid] at
    virtual page [vpage_no] lives in a page of the pool while [pid] does not
    run and is copied to physical page [vpage_no] while it does.  The state is
    the allocator's, [page_info_table] and the function-static
    [curr_vm_pid].

    The abstract machine of [Module TlbSpec] gives every process private
    memory; [tlb_refines] shows that the copying implements it. *)
From S2P Require Import Prelude MemAlloc.

(** ** Data and operations *)
Record page_info := PageInfo { pi_pid : Z; pi_vpage_no : Z }.
Record mmu := Mmu {
  mem : pmem;
  page_info_table : list page_info;
  curr_vm_pid : Z
}.

Definition mmu_boot : mmu :=
  Mmu pmem_init (replicate (Z.to_nat APPS_PAGES_CNT) (PageInfo 0 0)) (-1).

Definition PAGE_NO_TO_ADDR (x : Z) : Z := u32 (x * PAGE_SIZE).
Definition PAGE_ID_TO_ADDR (x : Z) : Z := u32 (APPS_PAGES_BASE + u32 (x * PAGE_SIZE)).

(** [page_info_table[i]] *)
Definition info (s : mmu) (i : Z) : outcome page_info :=
  match page_info_table s !! Z.to_nat i with
  | Some e => Ret e
  | None => Fault (Undef "page_info_table index")
  end.

Definition set_info (s : mmu) (i : Z) (e : page_info) : mmu :=
  Mmu (mem s) (<[Z.to_nat i := e]> (page_info_table s)) (curr_vm_pid s).

Definition set_ram (s : mmu) (m : ram_t) : mmu :=
  Mmu (PMem (bitmap (mem s)) m) (page_info_table s) (curr_vm_pid s).

(** [memcpy(dst, src, PAGE_SIZE)] at page-aligned addresses. *)
Definition memcpy_page (dst src : Z) (s : mmu) : mmu :=
  let m := ram (mem s) in set_ram s (<[dst / PAGE_SIZE := page_at m (src / PAGE_SIZE)]> m).

(** The loop body of [soft_tlb_free]. *)
Definition free_page (pid i : Z) (s : mmu) : outcome mmu :=
  e ← info s i;
  if pi_pid e =? pid then
    let s := set_info s i (PageInfo 0 (pi_vpage_no e)) in
    pm ← pfree (PAGE_ID_TO_ADDR i) (mem s);
    Ret (Mmu pm (page_info_table s) (curr_vm_pid s))
  else Ret s.

Definition soft_tlb_free (pid : Z) (s : mmu) : outcome mmu :=
  for_up (Z.to_nat APPS_PAGES_CNT) 0 (free_page pid) s.

Definition soft_tlb_map (pid vpage_no ppage_id : Z) (s : mmu) : outcome mmu :=
  info s ppage_id;;
  Ret (set_info s ppage_id (PageInfo pid vpage_no)).

(** The loop bodies of [soft_tlb_switch]: save a page of [curr_vm_pid] to the
    pool, and load a page of [pid] from it. *)
Definition unmap_page (i : Z) (s : mmu) : outcome mmu :=
  e ← info s i;
  Ret (if pi_pid e =? curr_vm_pid s
       then memcpy_page (PAGE_ID_TO_ADDR i) (PAGE_NO_TO_ADDR (pi_vpage_no e)) s else s).

Definition map_page (pid i : Z) (s : mmu) : outcome mmu :=
  e ← info s i;
  Ret (if pi_pid e =? pid
       then memcpy_page (PAGE_NO_TO_ADDR (pi_vpage_no e)) (PAGE_ID_TO_ADDR i) s else s).

Definition soft_tlb_switch (pid : Z) (s : mmu) : outcome mmu :=
  if pid =? curr_vm_pid s then Ret s else
  s ← for_up (Z.to_nat APPS_PAGES_CNT) 0 unmap_page s;
  s ← for_up (Z.to_nat APPS_PAGES_CNT) 0 (map_page pid) s;
  Ret (Mmu (mem s) (page_info_table s) pid).

Definition soft_tlb_translate (pid vaddr : Z) (s : mmu) : outcome (Z * mmu) :=
  s ← soft_tlb_switch pid s;
  Ret (vaddr, s).

(** [earth->mmu_alloc] on this state, and the allocation of a mapped page as
    [elf_load] does it. *)
Definition tlb_alloc (s : mmu) : outcome (Z * mmu) :=
  '(pgid, pm) ← mmu_alloc (mem s);
  Ret (pgid, Mmu pm (page_info_table s) (curr_vm_pid s)).

Definition alloc_and_map (pid vpage_no : Z) (s : mmu) : outcome mmu :=
  '(ppage_id, s) ← tlb_alloc s;
  soft_tlb_map pid vpage_no ppage_id s.

(** A store to memory: page [vpage_no] now holds [pg]. *)
Definition user_store (vpage_no : Z) (pg : page_t) (s : mmu) : mmu :=
  set_ram s (<[vpage_no := pg]> (ram (mem s))).

(** Accesses inside one page of physical memory. *)
Definition page_load (addr : Z) (n : nat) (m : mmu) : list Z :=
  take n (drop (Z.to_nat (addr `mod` PAGE_SIZE)) (page_at (ram (mem m)) (addr / PAGE_SIZE))).
Definition page_store (addr : Z) (bs : list Z) (m : mmu) : mmu :=
  let pn := addr / PAGE_SIZE in
  user_store pn (splice (page_at (ram (mem m)) pn) (Z.to_nat (addr `mod` PAGE_SIZE)) bs) m.

(** ** Invariant and the memory a process sees *)
Definition POOL : Z := APPS_PAGES_BASE / PAGE_SIZE.
Definition user_page (vp : Z) : Prop :=
  APPS_ENTRY / PAGE_SIZE ≤ vp < APPS_STACK_TOP / PAGE_SIZE.

#[global] Instance user_page_dec vp : Decision (user_page vp).
Proof. unfold user_page. apply _. Defined.

(** Page id [i] of the pool belongs to page [vp] of process [pid]. *)
Definition owns (s : mmu) (pid vp i : Z) : Prop :=
  0 ≤ i < APPS_PAGES_CNT ∧ pid ≠ 0 ∧
  page_info_table s !! Z.to_nat i = Some (PageInfo pid vp).

Definition home (s : mmu) (pid vp i : Z) : Z :=
  if curr_vm_pid s =? pid then vp else POOL + i.

(** The contents of page [vp] of process [pid]. *)
Definition sees (s : mmu) (pid vp : Z) (pg : page_t) : Prop :=
  ∃ i, owns s pid vp i ∧ page_at (ram (mem s)) (home s pid vp i) = pg.

Record tlb_wf (s : mmu) : Prop := {
  wf_bitmap : bitmap_ok (bitmap (mem s));
  wf_len : length (page_info_table s) = Z.to_nat APPS_PAGES_CNT;
  wf_used i : i ∈ used (bitmap (mem s)) ↔ ∃ pid vp, owns s pid vp i;
  wf_user pid vp i : owns s pid vp i → user_page vp;
  wf_inj pid vp i j : owns s pid vp i → owns s pid vp j → i = j;
  wf_curr : curr_vm_pid s ≠ 0
}.

(** ** Sequences of page copies *)
Definition copies (l : list (Z * Z)) (m : ram_t) : ram_t :=
  foldl (λ m '(d, s), <[d := page_at m s]> m) m l.

Lemma page_at_insert m x y pg :
  page_at (<[x := pg]> m) y = if decide (x = y) then pg else page_at m y.
Proof.
  unfold page_at. case_decide; subst; [by rewrite lookup_insert_eq | by rewrite lookup_insert_ne].
Qed.

(** Copies between disjoint areas do not see each other. *)
Lemma copies_other l m x : x ∉ l.*1 → page_at (copies l m) x = page_at m x.
Proof.
  revert m. induction l as [|[d s] l IH]; intros m Hx; [done|].
  rewrite fmap_cons, not_elem_of_cons in Hx. destruct Hx as [Hd Hx].
  change (copies ((d, s) :: l) m) with (copies l (<[d := page_at m s]> m)).
  rewrite IH by done. rewrite page_at_insert. case_decide; simpl in *; congruence.
Qed.

Lemma copies_at l m d s : NoDup l.*1 → (∀ x, x ∈ l.*2 → x ∉ l.*1) → (d, s) ∈ l →
  page_at (copies l m) d = page_at m s.
Proof.
  revert m. induction l as [|[d' s'] l IH]; intros m Hnd Hdisj Hin; [by apply not_elem_of_nil in Hin|].
  rewrite fmap_cons, NoDup_cons in Hnd. destruct Hnd as [Hd' Hnd].
  change (copies ((d', s') :: l) m) with (copies l (<[d' := page_at m s']> m)).
  apply elem_of_cons in Hin as [[= -> ->]|Hin].
  - rewrite copies_other by done. rewrite page_at_insert. by case_decide.
  - rewrite IH; [|done| |done].
    + rewrite page_at_insert. case_decide as E; [|done]. subst d'.
      exfalso. apply (Hdisj s); [|left]. right. apply (list_elem_of_fmap_2 snd l (d, s)). done.
    + intros x Hx. specialize (Hdisj x). rewrite !fmap_cons in Hdisj.
      rewrite elem_of_cons, not_elem_of_cons in Hdisj. tauto.
Qed.

(** The copies one loop of [soft_tlb_switch] performs for process [q]. *)
Definition move1 (t : list page_info) (q : Z) (f : Z → Z → Z * Z) (j : Z) : list (Z * Z) :=
  match t !! Z.to_nat j with
  | Some e => if pi_pid e =? q then [f j (pi_vpage_no e)] else []
  | None => []
  end.
Definition moves (t : list page_info) (q : Z) (f : Z → Z → Z * Z) : list (Z * Z) :=
  page_ids ≫= move1 t q f.

Lemma set_ram_set_ram s m m' : set_ram (set_ram s m) m' = set_ram s m'.
Proof. done. Qed.

Lemma copy_loop n i q f body s :
  (∀ j m, i ≤ j < i + Z.of_nat n → body j (set_ram s m)
     = Ret (set_ram s (copies (move1 (page_info_table s) q f j) m))) →
  for_up n i body s =
  Ret (set_ram s (copies (seqZ i (Z.of_nat n) ≫= move1 (page_info_table s) q f) (ram (mem s)))).
Proof.
  destruct s as [[b m] t c]; cbn [page_info_table mem ram].
  revert i m. induction n as [|n IH]; intros i m Hbody; [done|].
  rewrite seqZ_cons, bind_cons by lia. cbn [for_up].
  pose proof (Hbody i m ltac:(lia)) as H.
  change (set_ram _ m) with (Mmu (PMem b m) t c) in H. rewrite H, bind_ret.
  change (set_ram _ ?x) with (Mmu (PMem b x) t c). rewrite IH.
  - unfold set_ram; cbn [mem bitmap page_info_table curr_vm_pid].
    unfold copies. rewrite foldl_app. rewrite <- Z.add_1_r.
    by replace (Z.pred _) with (Z.of_nat n) by lia.
  - intros j m' Hj. apply (Hbody j m'). lia.
Qed.

Section wf.
Context (s : mmu) (Hwf : tlb_wf s).

Lemma info_ok i : 0 ≤ i < APPS_PAGES_CNT →
  ∃ e, info s i = Ret e ∧ page_info_table s !! Z.to_nat i = Some e.
Proof.
  intros Hi. unfold info. destruct (lookup_lt_is_Some_2 (page_info_table s) (Z.to_nat i)) as [e He].
  { rewrite (wf_len s Hwf). lia. }
  exists e. by rewrite He.
Qed.

Lemma page_no_to_addr vp : user_page vp → PAGE_NO_TO_ADDR vp / PAGE_SIZE = vp.
Proof using.
  intros [? ?]. unfold PAGE_NO_TO_ADDR, PAGE_SIZE in *.
  change (APPS_ENTRY / 4096) with 524800 in *. change (APPS_STACK_TOP / 4096) with 525312 in *.
  rewrite u32_small by lia. Z.div_mod_to_equations. lia.
Qed.

Lemma page_id_to_addr i : 0 ≤ i < APPS_PAGES_CNT →
  PAGE_ID_TO_ADDR i = APPS_PAGES_BASE + i * PAGE_SIZE ∧ PAGE_ID_TO_ADDR i / PAGE_SIZE = POOL + i.
Proof using.
  intros Hi. unfold PAGE_ID_TO_ADDR, POOL, PAGE_SIZE, APPS_PAGES_BASE.
  change APPS_PAGES_CNT with 1024 in Hi. rewrite !u32_small by (rewrite ?u32_small; lia).
  Z.div_mod_to_equations. lia.
Qed.

Lemma unmap_loop :
  for_up (Z.to_nat APPS_PAGES_CNT) 0 unmap_page s =
  Ret (set_ram s (copies (moves (page_info_table s) (curr_vm_pid s) (λ j vp, (POOL + j, vp)))
                         (ram (mem s)))).
Proof.
  apply (copy_loop (Z.to_nat APPS_PAGES_CNT) 0). intros j m Hj.
  rewrite Z2Nat.id in Hj by done. destruct (info_ok j Hj) as (e & Hinfo & He).
  unfold unmap_page. change (info (set_ram s m) j) with (info s j). rewrite Hinfo, bind_ret.
  change (curr_vm_pid (set_ram s m)) with (curr_vm_pid s).
  unfold move1. rewrite He. destruct (Z.eqb_spec (pi_pid e) (curr_vm_pid s)) as [E|]; [|done].
  unfold memcpy_page. rewrite set_ram_set_ram. simpl.
  rewrite (proj2 (page_id_to_addr j Hj)), page_no_to_addr; [done|].
  apply (wf_user s Hwf (pi_pid e) _ j). repeat split; try lia.
  - rewrite E. apply (wf_curr s Hwf).
  - rewrite He. by destruct e.
Qed.

Lemma map_loop pid : pid ≠ 0 →
  for_up (Z.to_nat APPS_PAGES_CNT) 0 (map_page pid) s =
  Ret (set_ram s (copies (moves (page_info_table s) pid (λ j vp, (vp, POOL + j)))
                         (ram (mem s)))).
Proof.
  intros Hpid. apply (copy_loop (Z.to_nat APPS_PAGES_CNT) 0). intros j m Hj.
  rewrite Z2Nat.id in Hj by done. destruct (info_ok j Hj) as (e & Hinfo & He).
  unfold map_page. change (info (set_ram s m) j) with (info s j). rewrite Hinfo, bind_ret.
  unfold move1. rewrite He. destruct (Z.eqb_spec (pi_pid e) pid) as [E|]; [|done].
  unfold memcpy_page. rewrite set_ram_set_ram. simpl.
  rewrite (proj2 (page_id_to_addr j Hj)), page_no_to_addr; [done|].
  apply (wf_user s Hwf (pi_pid e) _ j). repeat split; try lia.
  rewrite He. by destruct e.
Qed.

Lemma elem_of_move1 q f j y : y ∈ move1 (page_info_table s) q f j →
  ∃ vp, page_info_table s !! Z.to_nat j = Some (PageInfo q vp) ∧ y = f j vp.
Proof using.
  unfold move1. destruct (_ !! _) as [e|] eqn:He; [|by intros ?%not_elem_of_nil].
  destruct (Z.eqb_spec (pi_pid e) q) as [E|]; [|by intros ?%not_elem_of_nil].
  intros ->%list_elem_of_singleton. exists (pi_vpage_no e). by destruct e; simpl in *; subst.
Qed.

Lemma elem_of_moves q f y : q ≠ 0 →
  y ∈ moves (page_info_table s) q f ↔ ∃ j vp, owns s q vp j ∧ y = f j vp.
Proof using.
  intros Hq. unfold moves. rewrite list_elem_of_bind. split.
  - intros (j & (vp & He & ->)%elem_of_move1 & Hj%elem_of_page_ids).
    exists j, vp. done.
  - intros (j & vp & (Hj & _ & He) & ->). exists j. split; [|by apply elem_of_page_ids].
    unfold move1. rewrite He. simpl. rewrite Z.eqb_refl. left.
Qed.

(** Both loops copy between disjoint areas and never write a page twice. *)
Lemma moves_ok q f : q ≠ 0 →
  f = (λ j vp, (POOL + j, vp)) ∨ f = (λ j vp, (vp, POOL + j)) →
  NoDup (moves (page_info_table s) q f).*1 ∧
  ∀ x, x ∈ (moves (page_info_table s) q f).*2 → x ∉ (moves (page_info_table s) q f).*1.
Proof.
  intros Hq Hf. split.
  - apply NoDup_fmap_2_strong.
    + intros y1 y2 (j1 & v1 & Ho1 & ->)%elem_of_moves (j2 & v2 & Ho2 & ->)%elem_of_moves Heq; [|done..].
      destruct Hf as [-> | ->]; simpl in Heq.
      * assert (j1 = j2) as <- by lia. destruct Ho1 as (_ & _ & E1), Ho2 as (_ & _ & E2). congruence.
      * subst v2. by rewrite (wf_inj s Hwf _ _ _ _ Ho1 Ho2).
    + unfold moves. apply NoDup_bind; [| |apply NoDup_seqZ].
      * intros j1 j2 y _ _ (v1 & _ & ->)%elem_of_move1 (v2 & _ & Heq)%elem_of_move1.
        destruct Hf as [-> | ->]; injection Heq; lia.
      * intros j _. unfold move1. destruct (_ !! _) as [e|]; [|constructor].
        destruct (pi_pid e =? q); [apply NoDup_singleton|constructor].
  - intros x Hx Hx'. apply list_elem_of_fmap in Hx as ([d1 x1] & -> & H1).
    apply list_elem_of_fmap in Hx' as ([d2 x2] & Heq & H2). simpl in *. subst d2.
    apply elem_of_moves in H1 as (j1 & v1 & Ho1 & Hf1); [|done].
    apply elem_of_moves in H2 as (j2 & v2 & Ho2 & Hf2); [|done].
    pose proof (wf_user s Hwf _ _ _ Ho1) as [_ Hu1]. pose proof (wf_user s Hwf _ _ _ Ho2) as [_ Hu2].
    destruct Ho1 as [? _], Ho2 as [? _]. unfold POOL in *. change APPS_STACK_TOP with APPS_PAGES_BASE in *.
    destruct Hf as [-> | ->]; injection Hf1 as -> ->; injection Hf2; lia.
Qed.
End wf.

(** ** [soft_tlb_switch] *)

(** The invariant does not depend on the contents of RAM. *)
Lemma tlb_wf_set_ram s m : tlb_wf s → tlb_wf (set_ram s m).
Proof. intros []. by constructor. Qed.

Lemma owns_pool_user s pid vp i x : tlb_wf s → owns s pid vp i → user_page x → POOL + i ≠ x.
Proof.
  intros Hwf [Hi _] [_ Hx]. unfold POOL. change APPS_STACK_TOP with APPS_PAGES_BASE in Hx. lia.
Qed.

(** Physical memory after [soft_tlb_switch]: the pages of the old process are
    saved, those of the new one loaded, all others keep their contents. *)
Lemma switch_ram s p : tlb_wf s → p ≠ 0 → p ≠ curr_vm_pid s → ∃ m,
  soft_tlb_switch p s = Ret (Mmu (PMem (bitmap (mem s)) m) (page_info_table s) p) ∧
  ∀ q vp i, owns s q vp i →
    (q = p → page_at m vp = page_at (ram (mem s)) (POOL + i)) ∧
    (q = curr_vm_pid s → page_at m (POOL + i) = page_at (ram (mem s)) vp) ∧
    (q ≠ curr_vm_pid s → page_at m (POOL + i) = page_at (ram (mem s)) (POOL + i)).
Proof.
  intros Hwf Hp Hpc. pose proof (wf_curr s Hwf) as Hc. unfold soft_tlb_switch.
  rewrite (proj2 (Z.eqb_neq _ _)) by done. rewrite unmap_loop, bind_ret by done.
  set (m1 := copies _ (ram (mem s))). rewrite map_loop, bind_ret by (done || by apply tlb_wf_set_ram).
  change (page_info_table (set_ram s m1)) with (page_info_table s).
  change (ram (mem (set_ram s m1))) with m1. set (m2 := copies _ m1).
  exists m2. split; [done|]. intros q vp i Ho.
  assert (page_at m2 (POOL + i) = page_at m1 (POOL + i)) as Hpool.
  { apply copies_other. intros ([d x] & Hd & (j & v & Ho' & [= -> ->])%elem_of_moves)%list_elem_of_fmap; [|done].
    eapply owns_pool_user; [done|exact Ho|by eapply (wf_user s Hwf)|done]. }
  assert (q ≠ curr_vm_pid s → page_at m1 (POOL + i) = page_at (ram (mem s)) (POOL + i)) as Hkeep.
  { intros Hq. apply copies_other.
    intros ([d x] & Hd & (j & v & Ho' & [= -> ->])%elem_of_moves)%list_elem_of_fmap; [|done].
    simpl in Hd. assert (j = i) as -> by lia. destruct Ho as (_ & _ & E), Ho' as (_ & _ & E'). congruence. }
  split; [|split].
  - intros ->. rewrite <- Hkeep by done.
    destruct (moves_ok s Hwf p (λ j vp, (vp, POOL + j))) as [Hnd Hdisj]; [done|by right|].
    apply copies_at; [done|done|]. apply elem_of_moves; [done|]. eauto.
  - intros ->. rewrite Hpool.
    destruct (moves_ok s Hwf (curr_vm_pid s) (λ j vp, (POOL + j, vp))) as [Hnd Hdisj]; [done|by left|].
    apply copies_at; [done|done|]. apply elem_of_moves; [done|]. eauto.
  - intros Hq. by rewrite Hpool, Hkeep.
Qed.

Lemma switch_spec s p : tlb_wf s → p ≠ 0 → ∃ s',
  soft_tlb_switch p s = Ret s' ∧ tlb_wf s' ∧ curr_vm_pid s' = p ∧
  ∀ q vp pg, sees s' q vp pg ↔ sees s q vp pg.
Proof.
  intros Hwf Hp. destruct (decide (p = curr_vm_pid s)) as [->|Hpc].
  { exists s. unfold soft_tlb_switch. by rewrite Z.eqb_refl. }
  destruct (switch_ram s p Hwf Hp Hpc) as (m & Heq & Hm). eexists. split; [exact Heq|].
  split; [destruct Hwf; by constructor|]. split; [done|]. intros q vp pg.
  assert (∀ i, owns s q vp i → page_at m (home (Mmu (PMem (bitmap (mem s)) m) (page_info_table s) p) q vp i)
          = page_at (ram (mem s)) (home s q vp i)) as Hsame.
  { intros i Ho. destruct (Hm q vp i Ho) as (Hin & Hout & Hkeep).
    unfold home; cbn [curr_vm_pid].
    destruct (Z.eqb_spec p q) as [E|], (Z.eqb_spec (curr_vm_pid s) q) as [E'|]; [congruence|auto..]. }
  split; intros (i & Ho & <-); exists i; (split; [exact Ho|]); cbn [mem ram]; rewrite Hsame; done.
Qed.

(** ** [soft_tlb_free] *)
Section free.
Context (s : mmu) (Hwf : tlb_wf s) (pid : Z) (Hpid : pid ≠ 0).

(** After the iterations below [i]. *)
Record freed_below (i : Z) (s' : mmu) : Prop := {
  fb_bitmap : bitmap_ok (bitmap (mem s'));
  fb_len : length (page_info_table s') = Z.to_nat APPS_PAGES_CNT;
  fb_ram : ram (mem s') = ram (mem s);
  fb_curr : curr_vm_pid s' = curr_vm_pid s;
  fb_table q vp j : owns s' q vp j ↔ owns s q vp j ∧ ¬ (j < i ∧ q = pid);
  fb_todo j : i ≤ j → page_info_table s' !! Z.to_nat j = page_info_table s !! Z.to_nat j;
  fb_used j : j ∈ used (bitmap (mem s')) ↔
    j ∈ used (bitmap (mem s)) ∧ ¬ (j < i ∧ ∃ vp, owns s pid vp j)
}.

Lemma free_step j s' : 0 ≤ j < APPS_PAGES_CNT → freed_below j s' → ∃ s'',
  free_page pid j s' = Ret s'' ∧ freed_below (j + 1) s''.
Proof.
  intros Hj [Hb Hlen Hram Hcurr Htab Htodo Hused].
  destruct (info_ok s Hwf j Hj) as (e & Hinfo & He). pose proof (Htodo j ltac:(lia)) as He'.
  unfold free_page, info. rewrite He', He, bind_ret.
  destruct (Z.eqb_spec (pi_pid e) pid) as [Epid|Hne].
  - cbn zeta. rewrite (proj1 (page_id_to_addr j Hj)). unfold pfree.
    rewrite paddr_to_pgid_ok, bind_ret by done.
    destruct (bitmap_clear_spec _ j Hb Hj) as (b' & Hc & Hok & Hbits).
    change (mem (set_info _ _ _)) with (mem s'). rewrite Hc, !bind_ret.
    eexists. split; [done|].
    constructor; cbn [set_info mem bitmap ram page_info_table curr_vm_pid]; try done.
    + by rewrite length_insert.
    + intros q vp k. unfold owns at 1. cbn [page_info_table].
      destruct (decide (k = j)) as [->|Hk].
      * rewrite list_lookup_insert_eq by (rewrite Hlen; lia).
        split; [intros (_ & ? & [= <- _]); done|]. intros [(_ & ? & E) Hn]. exfalso.
        rewrite He in E. injection E as ->. simpl in Epid. apply Hn. lia.
      * destruct (decide (0 ≤ k)); [|split; [intros [? _]; lia | intros [[? _] _]; lia]].
        rewrite list_lookup_insert_ne by lia. pose proof (Htab q vp k) as Ht. unfold owns at 1 in Ht.
        rewrite Ht. split; (intros [? Hn]; split; [done|]; intros [? ?]; apply Hn; split; [lia|done]).
    + intros k Hk. rewrite list_lookup_insert_ne by lia. apply Htodo. lia.
    + intros k. rewrite (used_clear _ _ _ Hbits), elem_of_difference, elem_of_singleton, Hused.
      split.
      * intros [[? Hn] Hk]. split; [done|]. intros [? ?]. apply Hn. split; [lia|done].
      * intros [? Hn]. split; [split; [done|]; intros [? ?]; apply Hn; split; [lia|done]|].
        intros ->. apply Hn. split; [lia|]. exists (pi_vpage_no e). repeat split; try lia.
        rewrite He, <- Epid. by destruct e.
  - exists s'. split; [done|]. constructor; try done.
    + intros q vp k. rewrite Htab. split; intros [Ho Hn]; (split; [done|]); intros [? ->]; apply Hn;
        (split; [|done]); [|lia].
      destruct (decide (k = j)) as [->|]; [|lia]. exfalso. destruct Ho as (_ & _ & E).
      rewrite He in E. injection E as ->. by apply Hne.
    + intros k Hk. apply Htodo. lia.
    + intros k. rewrite Hused. split; intros [? Hn]; (split; [done|]); intros [? [vp Ho]]; apply Hn;
        (split; [|by exists vp]); [|lia].
      destruct (decide (k = j)) as [->|]; [|lia]. exfalso. destruct Ho as (_ & _ & E).
      rewrite He in E. injection E as ->. by apply Hne.
Qed.

Lemma free_spec : ∃ s', soft_tlb_free pid s = Ret s' ∧ tlb_wf s' ∧
  curr_vm_pid s' = curr_vm_pid s ∧
  (∀ j, j ∈ used (bitmap (mem s')) ↔ j ∈ used (bitmap (mem s)) ∧ ¬ ∃ vp, owns s pid vp j) ∧
  ∀ q vp pg, sees s' q vp pg ↔ sees s q vp pg ∧ q ≠ pid.
Proof.
  destruct (for_up_inv freed_below (Z.to_nat APPS_PAGES_CNT) 0
              (free_page pid) s) as (s' & Hs' & Hfb).
  { pose proof (wf_used s Hwf). destruct Hwf. constructor; try done.
    - intros q vp j. split; [|by intros [? _]]. intros Ho. split; [done|].
      intros [? _]. destruct Ho. lia.
    - intros j. split; [|by intros [? _]]. intros Ho. split; [done|].
      intros [? [vp [? _]]]. lia. }
  { intros j s1 Hj. apply free_step. lia. }
  exists s'. split; [exact Hs'|]. rewrite Z2Nat.id in Hfb by done.
  destruct Hfb as [Hb Hlen Hram Hcurr Htab _ Hused].
  assert (∀ q vp j, owns s' q vp j ↔ owns s q vp j ∧ q ≠ pid) as Htab'.
  { intros q vp j. rewrite Htab. split; intros [Ho Hn]; (split; [done|]).
    - intros ->. apply Hn. destruct Ho. lia.
    - by intros [_ ?]. }
  assert (∀ j, j ∈ used (bitmap (mem s')) ↔
            j ∈ used (bitmap (mem s)) ∧ ¬ ∃ vp, owns s pid vp j) as Hused'.
  { intros j. rewrite Hused. split; intros [Ho Hn]; (split; [done|]); [|tauto].
    intros [vp Hv]. apply Hn. split; [destruct Hv; lia | by exists vp]. }
  split_and!; [|done..|].
  - pose proof (wf_used s Hwf) as Hu. pose proof (wf_user s Hwf) as Husr.
    pose proof (wf_inj s Hwf) as Hinj. pose proof (wf_curr s Hwf). constructor; try done.
    + intros j. rewrite Hused', Hu. split.
      * intros [(q & vp & Ho) Hn]. exists q, vp. rewrite Htab'. split; [done|].
        intros ->. apply Hn. by exists vp.
      * intros (q & vp & [Ho Hq]%Htab'). split; [by exists q, vp|].
        intros [vp' Ho']. destruct Ho as (_ & _ & E), Ho' as (_ & _ & E'). congruence.
    + intros q vp j [Ho _]%Htab'. by eapply Husr.
    + intros q vp i j [Ho1 _]%Htab' [Ho2 _]%Htab'. by eapply Hinj.
    + congruence.
  - intros q vp pg. unfold sees, home. rewrite Hram, Hcurr. split.
    + intros (i & [Ho Hq]%Htab' & Hpg). split; [by exists i|done].
    + intros [(i & Ho & Hpg) Hq]. exists i. by rewrite Htab'.
Qed.
End free.

(** ** Allocation and stores *)
Lemma owns_insert s i e q vp j : length (page_info_table s) = Z.to_nat APPS_PAGES_CNT →
  0 ≤ i < APPS_PAGES_CNT →
  owns (set_info s i e) q vp j ↔
  (j = i ∧ q ≠ 0 ∧ e = PageInfo q vp) ∨ (j ≠ i ∧ owns s q vp j).
Proof.
  intros Hlen Hi. unfold owns, set_info; cbn [page_info_table]. destruct (decide (j = i)) as [->|Hne].
  - rewrite list_lookup_insert_eq by lia. split.
    + intros (_ & ? & [= ->]). by left.
    + intros [(_ & ? & ->)|[? _]]; done.
  - destruct (decide (0 ≤ j)).
    + rewrite list_lookup_insert_ne by lia. split; [by right|]. by intros [[? _]|[_ ?]].
    + split; [intros [? _]; lia|]. intros [[-> _]|[_ [? _]]]; lia.
Qed.

(** A change of one page of the pool is a change of the page of the process
    that owns it, if that process does not run. *)
Definition pool_store (i : Z) (pg : page_t) (s : mmu) : mmu :=
  set_ram s (<[POOL + i := pg]> (ram (mem s))).

Lemma pool_store_spec s p v i pg : tlb_wf s → owns s p v i → p ≠ curr_vm_pid s →
  tlb_wf (pool_store i pg s) ∧ ∀ q vp pg', sees (pool_store i pg s) q vp pg' ↔
    if decide ((q, vp) = (p, v)) then pg' = pg else sees s q vp pg'.
Proof.
  intros Hwf Ho Hpc. split; [by apply tlb_wf_set_ram|]. intros q vp pg'. unfold sees.
  cbn [pool_store set_ram mem ram]. change (home (pool_store i pg s)) with (home s).
  change (owns (pool_store i pg s)) with (owns s). case_decide as E.
  - injection E as -> ->. unfold home. rewrite (proj2 (Z.eqb_neq _ _)) by congruence. split.
    + intros (j & Hj & <-). rewrite (wf_inj s Hwf _ _ _ _ Hj Ho), page_at_insert. by case_decide.
    + intros ->. exists i. rewrite page_at_insert. by case_decide.
  - assert (∀ j, owns s q vp j → home s q vp j ≠ POOL + i) as Hne.
    { intros j Hj Hh. unfold home in Hh. destruct (Z.eqb_spec (curr_vm_pid s) q).
      - pose proof (wf_user s Hwf _ _ _ Hj) as Hu. by eapply (owns_pool_user s p v i) in Hu.
      - assert (j = i) as -> by lia. destruct Hj as (_ & _ & E1), Ho as (_ & _ & E2). congruence. }
    split; intros (j & Hj & <-); exists j; (split; [done|]); rewrite page_at_insert;
      case_decide as Ev; try done; exfalso; by eapply Hne.
Qed.

(** Giving page [v] of process [p] a page [i] of the pool that was free. *)
Lemma map_free_page s p v i b' : tlb_wf s → p ≠ 0 → user_page v → (¬ ∃ j, owns s p v j) →
  0 ≤ i < APPS_PAGES_CNT → i ∉ used (bitmap (mem s)) → bitmap_ok b' →
  used b' = {[i]} ∪ used (bitmap (mem s)) →
  let s' := set_info (Mmu (PMem b' (ram (mem s))) (page_info_table s) (curr_vm_pid s)) i (PageInfo p v) in
  tlb_wf s' ∧ owns s' p v i ∧ ∀ q vp pg, (q, vp) ≠ (p, v) → sees s' q vp pg ↔ sees s q vp pg.
Proof.
  intros Hwf Hp Hv Hnew Hi Hfree Hok Hused s'.
  assert (∀ q vp j, owns s q vp j → j ≠ i) as Hfresh.
  { intros q vp j Ho ->. apply Hfree, (wf_used s Hwf). eauto. }
  assert (∀ q vp j, owns s' q vp j ↔ (j = i ∧ q = p ∧ vp = v) ∨ owns s q vp j) as Hown.
  { intros q vp j. unfold s'. rewrite owns_insert by (done || apply (wf_len s Hwf)). split.
    - intros [(-> & _ & [= -> ->])|[_ ?]]; [by left|by right].
    - intros [(-> & -> & ->)|Ho]; [by left|right]. eauto. }
  split_and!; [|by apply Hown; left|].
  - pose proof (wf_used s Hwf) as Hu. pose proof (wf_user s Hwf) as Husr.
    pose proof (wf_inj s Hwf) as Hinj. pose proof (wf_curr s Hwf). pose proof (wf_len s Hwf).
    constructor; try done.
    + cbn. by rewrite length_insert.
    + intros j. cbn [s' set_info mem bitmap]. rewrite Hused, elem_of_union, elem_of_singleton, Hu. split.
      * intros [->|(q & vp & Ho)]; [exists p, v|exists q, vp]; rewrite Hown; auto.
      * intros (q & vp & [(-> & _)|Ho]%Hown); [by left|right; eauto].
    + intros q vp j [(_ & _ & ->)|Ho]%Hown; [done|]. by eapply Husr.
    + intros q vp j k [(-> & -> & ->)|Ho1]%Hown [(-> & E1 & E2)|Ho2]%Hown; try done.
      * exfalso. apply Hnew. eauto.
      * subst q vp. exfalso. apply Hnew. eauto.
      * by eapply Hinj.
  - intros q vp pg Hne. split; intros (j & Hj & <-); exists j; (split; [|done]).
    + apply Hown in Hj as [(_ & -> & ->)|]; done.
    + apply Hown. by right.
Qed.

Lemma spec_alloc_room U : (size U < Z.to_nat APPS_PAGES_CNT)%nat → spec_alloc U ≠ None.
Proof.
  intros Hsz Hnone. unfold spec_alloc in Hnone. destruct (filter (λ i, i ∉ U) page_ids) as [|i l] eqn:Ef; [|done].
  assert (list_to_set page_ids ⊆ U) as Hsub.
  { intros i Hi%elem_of_list_to_set. destruct (decide (i ∈ U)) as [|Hn]; [done|]. exfalso.
    assert (i ∈ filter (λ i, i ∉ U) page_ids) as Hin by (by apply list_elem_of_filter).
    rewrite Ef in Hin. by apply not_elem_of_nil in Hin. }
  apply subseteq_size in Hsub. rewrite size_list_to_set in Hsub by apply NoDup_seqZ.
  unfold page_ids in Hsub. rewrite length_seqZ in Hsub. lia.
Qed.

(** The number of pages in use. *)
Definition pages_used (s : mmu) : nat := size (used (bitmap (mem s))).

(** A page mapped for a process that does not run is fresh and zeroed. *)
Lemma alloc_page s p v : tlb_wf s → p ≠ 0 → p ≠ curr_vm_pid s → user_page v →
  (¬ ∃ i, owns s p v i) → spec_alloc (used (bitmap (mem s))) ≠ None →
  ∃ i s1 s', tlb_alloc s = Ret (i, s1) ∧ soft_tlb_map p v i s1 = Ret s' ∧ tlb_wf s' ∧
    0 ≤ i < APPS_PAGES_CNT ∧ owns s' p v i ∧
    curr_vm_pid s' = curr_vm_pid s ∧ pages_used s' = S (pages_used s) ∧
    ∀ q vp pg, sees s' q vp pg ↔ if decide ((q, vp) = (p, v)) then pg = zero_page else sees s q vp pg.
Proof.
  intros Hwf Hp Hpc Hv Hnew Hroom. unfold tlb_alloc.
  pose proof (mmu_alloc_spec (mem s) (wf_bitmap s Hwf)) as Halloc.
  destruct (spec_alloc _) as [i|]; [|done]. destruct Halloc as (Hi & Hfree & b' & -> & Hok & Hused).
  exists i. eexists _, _. rewrite !bind_ret. split; [done|]. unfold soft_tlb_map.
  destruct (info_ok s Hwf i Hi) as (e & _ & He). unfold info; cbn [page_info_table]. rewrite He, bind_ret.
  split; [done|].
  destruct (map_free_page s p v i b' Hwf Hp Hv Hnew Hi Hfree Hok Hused) as (Hwf1 & Ho & Hs1).
  set (s1 := set_info _ i _) in Hwf1, Ho, Hs1.
  destruct (pool_store_spec s1 p v i zero_page Hwf1 Ho Hpc) as [Hwf2 Hs2].
  change (set_info _ i _) with (pool_store i zero_page s1).
  split_and!; try done; try lia.
  - unfold pages_used. cbn. rewrite Hused, size_union, size_singleton by set_solver. lia.
  - intros q vp pg. rewrite Hs2. case_decide; [done|]. by apply Hs1.
Qed.

(** The allocation fails exactly when the whole pool is in use. *)
Lemma alloc_and_map_spec s p v : tlb_wf s → p ≠ 0 → p ≠ curr_vm_pid s → user_page v →
  (¬ ∃ i, owns s p v i) →
  (∃ s', alloc_and_map p v s = Ret s' ∧ tlb_wf s' ∧ curr_vm_pid s' = curr_vm_pid s ∧
     ∀ q vp pg, sees s' q vp pg ↔
       if decide ((q, vp) = (p, v)) then pg = zero_page else sees s q vp pg) ∨
  (spec_alloc (used (bitmap (mem s))) = None ∧
   alloc_and_map p v s = Fault (Fatal "pmalloc: no more available page")).
Proof.
  intros Hwf Hp Hpc Hv Hnew. unfold alloc_and_map.
  destruct (decide (spec_alloc (used (bitmap (mem s))) = None)) as [Hnone|Hroom].
  - right. pose proof (mmu_alloc_spec (mem s) (wf_bitmap s Hwf)) as Halloc. unfold tlb_alloc.
    rewrite Hnone in Halloc. by rewrite Halloc.
  - left. destruct (alloc_page s p v Hwf Hp Hpc Hv Hnew Hroom)
      as (i & s1 & s' & -> & Hmap & Hwf' & _ & _ & Hc & _ & Hs).
    rewrite bind_ret. eauto.
Qed.

Lemma user_store_spec s v pg : tlb_wf s → user_page v →
  tlb_wf (user_store v pg s) ∧ ∀ q vp pg', sees (user_store v pg s) q vp pg' ↔
    if decide ((q, vp) = (curr_vm_pid s, v)) then pg' = pg ∧ ∃ i, owns s q vp i
    else sees s q vp pg'.
Proof.
  intros Hwf Hv. split; [by apply tlb_wf_set_ram|]. intros q vp pg'. unfold sees.
  cbn [user_store set_ram mem ram]. change (home (user_store v pg s)) with (home s).
  change (owns (user_store v pg s)) with (owns s). case_decide as E.
  - injection E as -> ->. unfold home. rewrite Z.eqb_refl, page_at_insert, decide_True by done.
    split; [intros (i & Ho & <-); eauto | intros (-> & i & Ho); eauto].
  - assert (∀ i, owns s q vp i → home s q vp i ≠ v) as Hne.
    { intros i Ho Hh. unfold home in Hh. destruct (Z.eqb_spec (curr_vm_pid s) q); [congruence|].
      by eapply owns_pool_user. }
    split; intros (i & Ho & <-); exists i; (split; [done|]); rewrite page_at_insert;
      case_decide as Ev; try done; exfalso; by eapply Hne.
Qed.

(** ** Specification: every process has private memory *)
Module TlbSpec.

(** Pages by process and virtual page number, and the process whose address
    space is active. *)
Record astate := AState { asp : gmap (Z * Z) page_t; acur : Z }.

Inductive op :=
  | OSwitch (pid : Z)              (** [mmu_switch], [mmu_translate] *)
  | OStore (vp : Z) (pg : page_t)  (** a store of the running process *)
  | OMap (pid vp : Z)              (** [mmu_alloc] then [mmu_map] *)
  | OFree (pid : Z).               (** [mmu_free] *)

Inductive astep : astate → op → astate → Prop :=
  | astep_switch a p : p ≠ 0 → astep a (OSwitch p) (AState (asp a) p)
  | astep_store a vp pg : user_page vp →
      astep a (OStore vp pg) (AState (alter (λ _, pg) (acur a, vp) (asp a)) (acur a))
  | astep_map a p vp : p ≠ 0 → p ≠ acur a → user_page vp → asp a !! (p, vp) = None →
      astep a (OMap p vp) (AState (<[(p, vp) := zero_page]> (asp a)) (acur a))
  | astep_free a p : p ≠ 0 →
      astep a (OFree p) (AState (filter (λ x, x.1.1 ≠ p) (asp a)) (acur a)).

Inductive aruns : astate → list op → astate → Prop :=
  | aruns_nil a : aruns a [] a
  | aruns_cons a o a1 l a2 : astep a o a1 → aruns a1 l a2 → aruns a (o :: l) a2.

(** The code's operation for each abstract one. *)
Definition exec (o : op) (s : mmu) : outcome mmu :=
  match o with
  | OSwitch p => soft_tlb_switch p s
  | OStore vp pg => Ret (user_store vp pg s)
  | OMap p vp => alloc_and_map p vp s
  | OFree p => soft_tlb_free p s
  end.

Fixpoint execs (l : list op) (s : mmu) : outcome mmu :=
  match l with [] => Ret s | o :: l => s ← exec o s; execs l s end.

Definition R (s : mmu) (a : astate) : Prop :=
  tlb_wf s ∧ curr_vm_pid s = acur a ∧
  ∀ q vp pg, asp a !! (q, vp) = Some pg ↔ sees s q vp pg.

Definition no_page : fault := Fatal "pmalloc: no more available page".

Lemma R_owns s a q vp : R s a → asp a !! (q, vp) = None ↔ ¬ ∃ i, owns s q vp i.
Proof.
  intros (_ & _ & H). rewrite eq_None_not_Some. split; intros Hn.
  - intros [i Ho]. apply Hn. exists (page_at (ram (mem s)) (home s q vp i)). apply H. by exists i.
  - intros [pg (i & Ho & _)%H]. eauto.
Qed.

Lemma step_refines s a o a' : R s a → astep a o a' →
  (∃ s', exec o s = Ret s' ∧ R s' a') ∨
  (spec_alloc (used (bitmap (mem s))) = None ∧ exec o s = Fault no_page).
Proof.
  intros HR Hstep. pose proof HR as (Hwf & Hcur & Hasp).
  destruct Hstep as [a p Hp|a vp pg Hvp|a p vp Hp Hpc Hvp Hnew|a p Hp]; cbn [exec].
  - left. destruct (switch_spec s p Hwf Hp) as (s' & -> & Hwf' & Hc & Hsees).
    exists s'. split; [done|]. split_and!; [done..|]. intros. by rewrite Hsees, <- Hasp.
  - left. destruct (user_store_spec s vp pg Hwf Hvp) as [Hwf' Hsees].
    eexists. split; [done|]. split_and!; [done..|]. intros q v pg'. rewrite Hsees; cbn [asp acur].
    rewrite Hcur. case_decide as E.
    + injection E as -> ->. rewrite lookup_alter_eq.
      destruct (asp a !! (acur a, vp)) as [pg0|] eqn:E0; simpl.
      * split; [intros [= ->]|by intros [-> _]]. split; [done|].
        apply Hasp in E0 as (i & Ho & _). eauto.
      * split; [done|]. intros [_ Ho]. by apply (R_owns s a) in E0.
    + rewrite lookup_alter_ne by done. apply Hasp.
  - destruct (alloc_and_map_spec s p vp Hwf Hp ltac:(congruence) Hvp
                (proj1 (R_owns s a p vp HR) Hnew)) as [(s' & -> & Hwf' & Hc & Hsees)|]; [|by right].
    left. exists s'. split; [done|]. split_and!; [done|by rewrite Hc|].
    intros q v pg. rewrite Hsees; cbn [asp]. case_decide as E.
    + rewrite E, lookup_insert_eq. split; [by intros [= <-]|by intros ->].
    + rewrite lookup_insert_ne by done. apply Hasp.
  - left. destruct (free_spec s Hwf p Hp) as (s' & -> & Hwf' & Hc & _ & Hsees).
    exists s'. split; [done|]. split_and!; [done|by rewrite Hc|].
    intros q v pg. rewrite Hsees; cbn [asp]. rewrite map_lookup_filter_Some, Hasp. done.
Qed.

Lemma R_boot : R mmu_boot (AState ∅ (-1)).
Proof.
  assert (∀ q vp i, ¬ owns mmu_boot q vp i) as Hno.
  { intros q vp i (_ & Hq & H). apply lookup_replicate in H as [[= ->] _]. done. }
  split_and!; [|done|].
  - constructor.
    + split; [done|]. apply bytes_ok_zeros.
    + apply length_replicate.
    + intros i. split; [|intros (q & vp & Ho); by apply Hno in Ho].
      intros [_ Hb]%elem_of_used. unfold bit in Hb. cbn [bitmap mem mmu_boot pmem_init] in Hb.
      rewrite byte_at_zeros, Z.testbit_0_l in Hb. done.
    + intros q vp i Ho. by apply Hno in Ho.
    + intros q vp i j Ho. by apply Hno in Ho.
    + done.
  - intros q vp pg. cbn [asp]. rewrite lookup_empty. split; [done|].
    intros (i & Ho & _). by apply Hno in Ho.
Qed.

Lemma execs_refines l s a a' : R s a → aruns a l a' →
  (∃ s', execs l s = Ret s' ∧ R s' a') ∨ execs l s = Fault no_page.
Proof.
  intros HR Hruns. revert s HR. induction Hruns as [a|a o a1 l a2 Hstep _ IH]; intros s HR; simpl.
  - left. eauto.
  - destruct (step_refines s a o a1 HR Hstep) as [(s1 & -> & HR1)|[_ ->]]; [|by right].
    rewrite bind_ret. by apply IH.
Qed.

(** C26: address-space isolation of the software TLB.  From boot, any history
    of switches, stores by the running process, allocations for other
    processes and frees that the private-memory machine allows is executed
    without a fault unless the page pool is exhausted, and afterwards the
    running process finds in its virtual pages exactly its own memory,
    whatever the other processes did in between. *)
Theorem tlb_refines l a' : aruns (AState ∅ (-1)) l a' →
  (∃ s', execs l mmu_boot = Ret s' ∧ curr_vm_pid s' = acur a' ∧
     ∀ vp pg, asp a' !! (acur a', vp) = Some pg → page_at (ram (mem s')) vp = pg) ∨
  execs l mmu_boot = Fault no_page.
Proof.
  intros Hruns. destruct (execs_refines l _ _ _ R_boot Hruns) as [(s' & -> & HR)|]; [left|by right].
  destruct HR as (Hwf & Hc & Hasp). exists s'. split_and!; [done..|].
  intros vp pg (i & Ho & <-)%Hasp. unfold home. by rewrite Hc, Z.eqb_refl.
Qed.

(** Two processes with the same virtual page, scheduled alternately. *)
Definition demo : list op :=
  [OMap 1 0x80200; OMap 2 0x80200; OSwitch 1; OStore 0x80200 [7]; OSwitch 2;
   OStore 0x80200 [9]; OSwitch 1].

Lemma demo_runs : ∃ m, aruns (AState ∅ (-1)) demo (AState m 1) ∧ m !! (1, 0x80200) = Some [7].
Proof.
  eexists. split.
  - repeat first [apply aruns_nil | eapply aruns_cons; [constructor|]];
      try done; try (split; vm_compute; congruence).
  - reflexivity.
Qed.

Lemma tlb_refines_witness : ∃ a', aruns (AState ∅ (-1)) demo a' ∧
  ((∃ s', execs demo mmu_boot = Ret s' ∧ curr_vm_pid s' = acur a' ∧
     ∀ vp pg, asp a' !! (acur a', vp) = Some pg → page_at (ram (mem s')) vp = pg) ∨
   execs demo mmu_boot = Fault no_page).
Proof.
  destruct demo_runs as (m & Hruns & _). exists (AState m 1). split; [exact Hruns|].
  apply tlb_refines. exact Hruns.
Defined.

(** C27: freeing a process returns exactly its pages to the allocator: the
    pages in use afterwards are those other processes own. *)
Theorem tlb_free_reclaims s pid : tlb_wf s → pid ≠ 0 → ∃ s',
  soft_tlb_free pid s = Ret s' ∧ tlb_wf s' ∧
  (∀ j, j ∈ used (bitmap (mem s')) ↔ ∃ q vp, q ≠ pid ∧ owns s q vp j) ∧
  ∀ vp pg, ¬ sees s' pid vp pg.
Proof.
  intros Hwf Hp. destruct (free_spec s Hwf pid Hp) as (s' & Heq & Hwf' & _ & Hused & Hsees).
  exists s'. split_and!; [done..| |].
  - intros j. rewrite Hused, (wf_used s Hwf). split.
    + intros [(q & vp & Ho) Hn]. exists q, vp. split; [|done]. intros ->. eauto.
    + intros (q & vp & Hq & Ho). split; [eauto|]. intros [vp' Ho'].
      destruct Ho as (_ & _ & E), Ho' as (_ & _ & E'). congruence.
  - intros vp pg [_ ?]%Hsees. done.
Qed.

Lemma demo_state : ∃ s, execs demo mmu_boot = Ret s ∧ tlb_wf s ∧ owns s 2 0x80200 1.
Proof.
  destruct demo_runs as (m & Hruns & _).
  assert ((s ← execs demo mmu_boot; Ret (page_info_table s !! 1%nat))
          = Ret (Some (PageInfo 2 0x80200))) as Hval by (vm_compute; reflexivity).
  pose proof (execs_refines demo mmu_boot _ _ R_boot Hruns) as Href.
  revert Hval Href. generalize (execs demo mmu_boot) as r.
  intros r Hval [(s & -> & HR)| ->]; [|discriminate Hval].
  rewrite bind_ret in Hval. injection Hval as Hval.
  exists s. split_and!; [done|apply HR|]. split_and!; [done..|exact Hval].
Qed.

Lemma tlb_free_reclaims_witness : ∃ s s', execs demo mmu_boot = Ret s ∧ owns s 2 0x80200 1 ∧
  soft_tlb_free 2 s = Ret s' ∧ tlb_wf s' ∧
  (∀ j, j ∈ used (bitmap (mem s')) ↔ ∃ q vp, q ≠ 2 ∧ owns s q vp j) ∧
  ∀ vp pg, ¬ sees s' 2 vp pg.
Proof.
  destruct demo_state as (s & Heq & Hwf & Ho). exists s.
  destruct (tlb_free_reclaims s 2 Hwf ltac:(discriminate)) as (s' & H). exists s'. tauto.
Defined.
End TlbSpec.
