(* ===== verification/Earth.v ===== *)
(** * The earth interface as the grass layer uses it (library/egos.h)

    The kernel reaches the hardware abstraction layer through
    [struct earth]: a table of functions for the MMU, the timer and the TTY.
    [Earth] is that table over a state [E] of the layer, with the physical
    memory accesses the kernel performs on a translated address; [EarthLaws]
    states what the kernel relies on.  EarthImpl.v builds the instance from
    the software TLB, the timer and the TTY driver and proves the laws. *)
From S2P Require Import Prelude MemAlloc.

Class Earth (E : Type) := {
  mmu_free : Z → E → outcome E;
  mmu_translate : Z → Z → E → outcome (Z * E);
  mmu_switch : Z → E → outcome E;
  mmu_flush_cache : E → E;
  timer_reset : Z → E → outcome E;
  tty_input_empty : E → bool;
  tty_read : E → outcome (Z * E);
  (** [memcpy] of [n] bytes from, and of given bytes to, a physical address. *)
  ram_load : Z → nat → E → list Z;
  ram_store : Z → list Z → E → E;
  (** [CLINT_MSIP(hartid) = 0]: clear the pending software interrupt. *)
  msip_clear : Z → E → E
}.

(** Size of the system call page that the kernel reads and writes. *)
Definition SYSCALL_PAGE : nat := Z.to_nat PAGE_SIZE.

(** [smem e pid] is the contents of the page of process [pid] at
    [SYSCALL_ARG]; [mapped] says the process has that page, and [here e pid]
    that physical address [SYSCALL_ARG] currently designates it. *)
Class EarthLaws (E : Type) `{Earth E} := {
  e_inv : E → Prop;
  mapped : E → Z → Prop;
  smem : E → Z → list Z;
  here : E → Z → Prop;
  smem_len e pid : e_inv e → mapped e pid → length (smem e pid) = SYSCALL_PAGE;
  (** what no operation of the kernel on one process changes for another *)
  e_same (e e' : E) : Prop := e_inv e' ∧ ∀ q, (mapped e' q ↔ mapped e q) ∧ smem e' q = smem e q;
  mmu_translate_law e pid : e_inv e → mapped e pid → ∃ e',
    mmu_translate pid SYSCALL_ARG e = Ret (SYSCALL_ARG, e') ∧ e_same e e' ∧ here e' pid;
  mmu_switch_law e pid : e_inv e → mapped e pid → ∃ e',
    mmu_switch pid e = Ret e' ∧ e_same e e' ∧ here e' pid;
  mmu_flush_cache_law e : e_inv e → e_same e (mmu_flush_cache e);
  timer_reset_law e core : e_inv e → ∃ e', timer_reset core e = Ret e' ∧ e_same e e';
  msip_clear_law e core : e_inv e → e_same e (msip_clear core e);
  tty_read_law e : e_inv e → tty_input_empty e = false → ∃ c e',
    tty_read e = Ret (c, e') ∧ e_same e e';
  ram_load_law e pid n : e_inv e → mapped e pid → here e pid → (n ≤ SYSCALL_PAGE)%nat →
    ram_load SYSCALL_ARG n e = take n (smem e pid);
  ram_store_law e pid off bs : e_inv e → mapped e pid → here e pid →
    (off < SYSCALL_PAGE)%nat → (off + length bs ≤ SYSCALL_PAGE)%nat →
    let e' := ram_store (SYSCALL_ARG + Z.of_nat off) bs e in
    e_inv e' ∧ here e' pid ∧ (∀ q, mapped e' q ↔ mapped e q) ∧
    smem e' pid = splice (smem e pid) off bs ∧ (∀ q, q ≠ pid → smem e' q = smem e q);
  mmu_free_law e pid : e_inv e → pid ≠ 0 → ∃ e', mmu_free pid e = Ret e' ∧ e_inv e' ∧
    ∀ q, (mapped e' q ↔ mapped e q ∧ q ≠ pid) ∧ (q ≠ pid → smem e' q = smem e q)
}.

Section same.
Context {E} `{EarthLaws E}.

Lemma e_same_refl e : e_inv e → e_same e e.
Proof. by split. Qed.
Lemma e_same_trans e1 e2 e3 : e_same e1 e2 → e_same e2 e3 → e_same e1 e3.
Proof.
  intros [_ H1] [H3 H2]. split; [done|]. intros q.
  destruct (H1 q), (H2 q). split; [tauto|congruence].
Qed.
End same.
