(* ===== verification/Process.v ===== *)
(** * Processes (grass/process.c, grass/process.h, library/syscall/syscall.h)

    The process table [proc_set] and the operations of process.c on it.  Slot
    0 is a place holder for idle cores; [proc_alloc] hands out slots 1 to
    [MAX_NPROCESS], whose index is the process id. *)
From S2P Require Import Prelude Earth.

(** ** Data *)
Definition GPID_ALL : Z := -1.
Definition GPID_PROCESS : Z := 1.
Definition GPID_TERMINAL : Z := 2.
Definition GPID_FILE : Z := 3.
Definition GPID_SHELL : Z := 4.
Definition GPID_USER_START : Z := 5.
Definition CMD_NARGS : Z := 16.
Definition CMD_ARG_LEN : Z := 32.

Definition SYS_RECV : Z := 1.
Definition SYS_SEND : Z := 2.
Definition PENDING : Z := 1.
Definition DONE : Z := 2.
Definition SYSCALL_MSG_LEN : nat := 1024.

(** [struct syscall]; [type] and [status] come from user memory and may hold
    any 32-bit value. *)
Record syscall := Syscall {
  sc_type : Z; sc_sender : Z; sc_receiver : Z; sc_content : list Z; sc_status : Z
}.

Inductive proc_status :=
  | PROC_UNUSED | PROC_LOADING | PROC_READY | PROC_RUNNING | PROC_RUNNABLE
  | PROC_PENDING_SYSCALL | PROC_SLEEPING.
#[global] Instance proc_status_eq_dec : EqDecision proc_status.
Proof. solve_decision. Defined.

(** [struct process]; the scheduling attributes are not used by the code. *)
Record process := Process {
  p_pid : Z; p_syscall : syscall; p_status : proc_status; p_mepc : Z; p_saved : list Z
}.

Definition MAX_NPROCESS : Z := 16.

Definition with_status (st : proc_status) (p : process) : process :=
  Process (p_pid p) (p_syscall p) st (p_mepc p) (p_saved p).
Definition with_syscall (sc : syscall) (p : process) : process :=
  Process (p_pid p) sc (p_status p) (p_mepc p) (p_saved p).
Definition with_context (mepc : Z) (saved : list Z) (p : process) : process :=
  Process (p_pid p) (p_syscall p) (p_status p) mepc saved.

(** [sizeof(struct syscall)] and its layout in memory. *)
Definition SYSCALL_SIZE : nat := 1040.
Definition SYSCALL_STATUS_OFF : nat := 1036.

Definition encode_syscall (sc : syscall) : list Z :=
  le32 (sc_type sc) ++ le32 (sc_sender sc) ++ le32 (sc_receiver sc)
  ++ sc_content sc ++ le32 (sc_status sc).

Definition decode_syscall (bs : list Z) : syscall := {|
  sc_type := get32 bs 0;
  sc_sender := i32 (get32 bs 4);
  sc_receiver := i32 (get32 bs 8);
  sc_content := take SYSCALL_MSG_LEN (drop 12 bs);
  sc_status := get32 bs SYSCALL_STATUS_OFF
|}.

Definition syscall_ok (sc : syscall) : Prop :=
  0 ≤ sc_type sc < 2 ^ 32 ∧ - 2 ^ 31 ≤ sc_sender sc < 2 ^ 31 ∧
  - 2 ^ 31 ≤ sc_receiver sc < 2 ^ 31 ∧ length (sc_content sc) = SYSCALL_MSG_LEN ∧
  0 ≤ sc_status sc < 2 ^ 32.

(** ** Kernel state *)
Record kstate (E : Type) := KState {
  core_in_kernel : Z;
  core_to_proc_idx : list Z;
  proc_set : list process;
  earth : E
}.
Arguments KState {E} _ _ _ _.
Arguments core_in_kernel {E} _.
Arguments core_to_proc_idx {E} _.
Arguments proc_set {E} _.
Arguments earth {E} _.

Section ops.
Context {E : Type} `{Earth E}.
Implicit Type s : kstate E.

Definition set_procs s (ps : list process) : kstate E :=
  KState (core_in_kernel s) (core_to_proc_idx s) ps (earth s).
Definition set_earth s (e : E) : kstate E :=
  KState (core_in_kernel s) (core_to_proc_idx s) (proc_set s) e.

(** [proc_set[i]] *)
Definition get_proc s (i : Z) : outcome process :=
  match proc_set s !! Z.to_nat i with
  | Some p => Ret p
  | None => Fault (Undef "proc_set index")
  end.
Definition set_proc s (i : Z) (p : process) : kstate E :=
  set_procs s (<[Z.to_nat i := p]> (proc_set s)).

(** [curr_proc_idx], [curr_pid] *)
Definition curr_proc_idx s : outcome Z :=
  match core_to_proc_idx s !! Z.to_nat (core_in_kernel s) with
  | Some i => Ret i
  | None => Fault (Undef "core_to_proc_idx index")
  end.
Definition curr_proc s : outcome process := i ← curr_proc_idx s; get_proc s i.

(** ** Status *)

(** The loop bound of the source is [i < MAX_NPROCESS]. *)
Definition set_status_in (pid : Z) (st : proc_status) (ps : list process) : list process :=
  imap (λ i p, if (Z.of_nat i <? MAX_NPROCESS) && (p_pid p =? pid)
               then with_status st p else p) ps.

Definition proc_set_status s (pid : Z) (st : proc_status) : kstate E :=
  set_procs s (set_status_in pid st (proc_set s)).

Definition proc_set_ready s (pid : Z) := proc_set_status s pid PROC_READY.
Definition proc_set_running s (pid : Z) := proc_set_status s pid PROC_RUNNING.
Definition proc_set_runnable s (pid : Z) := proc_set_status s pid PROC_RUNNABLE.
Definition proc_set_pending s (pid : Z) := proc_set_status s pid PROC_PENDING_SYSCALL.

Definition pid2idx (pid : Z) : outcome Z :=
  ASSERT ((0 <? pid) && (pid <=? MAX_NPROCESS)) "wrong pid";; Ret pid.
Definition idx2pid (proc_idx : Z) : outcome Z :=
  ASSERT ((0 <? proc_idx) && (proc_idx <=? MAX_NPROCESS)) "wrong proc_idx";; Ret proc_idx.

(** ** Allocation *)

(** The loop of [proc_alloc] at slot [i] with [n] slots left. *)
Fixpoint proc_alloc_loop (n : nat) (i : Z) s : outcome (Z * kstate E) :=
  match n with
  | O => Fault (Fatal "proc_alloc: reach the limit of %d processes")
  | Datatypes.S n =>
      p ← get_proc s i;
      if bool_decide (p_status p = PROC_UNUSED) then
        Ret (i, set_proc s i (Process i (p_syscall p) PROC_LOADING (p_mepc p) (p_saved p)))
      else proc_alloc_loop n (i + 1) s
  end.

Definition proc_alloc s : outcome (Z * kstate E) :=
  proc_alloc_loop (Z.to_nat MAX_NPROCESS) 1 s.

(** One iteration of "free all user processes". *)
Definition free_user (i : Z) s : outcome (kstate E) :=
  p ← get_proc s i;
  if (GPID_USER_START <=? p_pid p) && negb (bool_decide (p_status p = PROC_UNUSED)) then
    e ← mmu_free (p_pid p) (earth s);
    Ret (set_earth (set_proc s i (with_status PROC_UNUSED p)) e)
  else Ret s.

Definition proc_free (pid : Z) s : outcome (kstate E) :=
  if negb (pid =? GPID_ALL) then
    e ← mmu_free pid (earth s);
    Ret (proc_set_status (set_earth s e) pid PROC_UNUSED)
  else for_up (Z.to_nat MAX_NPROCESS) 0 free_user s.

(** ** Invariant: a slot in use has its index as process id *)
Definition slot_ok (i : nat) (p : process) : Prop :=
  (p_status p = PROC_UNUSED ∨ p_pid p = Z.of_nat i) ∧ (p_pid p = 0 ∨ p_pid p = Z.of_nat i) ∧
  (i = O → p_status p = PROC_UNUSED).

Definition table_ok (ps : list process) : Prop :=
  length ps = 17%nat ∧ ∀ i p, ps !! i = Some p → slot_ok i p.

Lemma lookup_set_status pid st ps i :
  set_status_in pid st ps !! i =
  (λ p, if (Z.of_nat i <? MAX_NPROCESS) && (p_pid p =? pid) then with_status st p else p)
    <$> ps !! i.
Proof. unfold set_status_in. by rewrite list_lookup_imap. Qed.

Lemma length_set_status pid st ps : length (set_status_in pid st ps) = length ps.
Proof. apply length_imap. Qed.

(** On a well-formed table a status change hits exactly the slot of the
    process. *)
Lemma set_status_slot ps pid st : table_ok ps → 0 < pid < MAX_NPROCESS →
  ∀ i p, ps !! i = Some p → set_status_in pid st ps !! i =
    Some (if decide (Z.of_nat i = pid ∧ p_pid p = pid) then with_status st p else p).
Proof.
  intros [_ Hslots] Hpid i p Hi. rewrite lookup_set_status, Hi. simpl. f_equal.
  destruct (Hslots i p Hi) as (_ & Hp & _).
  destruct (Z.ltb_spec (Z.of_nat i) MAX_NPROCESS), (Z.eqb_spec (p_pid p) pid);
    case_decide; simpl; try done; lia.
Qed.

(** ** [proc_alloc] *)

(** The slot the specification allocates: the lowest unused one. *)
Definition spec_slot (ps : list process) : option Z :=
  head (filter (λ i, p_status <$> ps !! Z.to_nat i = Some PROC_UNUSED) (seqZ 1 MAX_NPROCESS)).

Definition loaded (i : Z) (p : process) : process :=
  Process i (p_syscall p) PROC_LOADING (p_mepc p) (p_saved p).

Lemma proc_alloc_loop_spec n i s : length (proc_set s) = 17%nat → 0 ≤ i →
  i + Z.of_nat n = 17 →
  match head (filter (λ j, p_status <$> proc_set s !! Z.to_nat j = Some PROC_UNUSED)
                     (seqZ i (Z.of_nat n))) with
  | None => proc_alloc_loop n i s = Fault (Fatal "proc_alloc: reach the limit of %d processes")
  | Some j => i ≤ j < 17 ∧ ∃ p, proc_set s !! Z.to_nat j = Some p ∧ p_status p = PROC_UNUSED ∧
      proc_alloc_loop n i s = Ret (j, set_proc s j (loaded j p))
  end.
Proof.
  intros Hlen. revert i. induction n as [|n IH]; intros i Hi Hn; [done|].
  rewrite seqZ_cons, filter_cons by lia. cbn [proc_alloc_loop]. unfold get_proc.
  destruct (lookup_lt_is_Some_2 (proc_set s) (Z.to_nat i)) as [p Hp]; [rewrite Hlen; lia|].
  rewrite Hp, bind_ret. destruct (decide (p_status p = PROC_UNUSED)) as [Hu|Hu].
  - rewrite decide_True by (simpl; congruence). rewrite bool_decide_true by done. simpl.
    split; [lia|]. by exists p.
  - rewrite decide_False by (simpl; congruence). rewrite bool_decide_false by done.
    replace (Z.pred _) with (Z.of_nat n) by lia. rewrite <- Z.add_1_r.
    specialize (IH (i + 1) ltac:(lia) ltac:(lia)). destruct (head _) as [j|]; [|done].
    destruct IH as [? ?]. split; [lia|done].
Qed.

Lemma slot_ok_loaded i p : (0 < i)%nat → slot_ok i (loaded (Z.of_nat i) p).
Proof. intros. unfold slot_ok; simpl. split_and!; [by right|by right|lia]. Qed.

Lemma table_ok_insert ps i p : table_ok ps → slot_ok i p → table_ok (<[i := p]> ps).
Proof.
  intros [Hlen Hs] Hp. split; [by rewrite length_insert|]. intros j q Hj.
  apply list_lookup_insert_Some in Hj as [(-> & -> & _)|[_ Hj]]; [done|by apply Hs].
Qed.

Lemma table_ok_set_status ps pid st : table_ok ps → 0 < pid →
  table_ok (set_status_in pid st ps).
Proof.
  intros [Hlen Hs] Hpid. split; [by rewrite length_set_status|]. intros i q.
  rewrite lookup_set_status. destruct (ps !! i) as [p|] eqn:Hp; [|done].
  intros [= <-]. destruct (Hs i p Hp) as (H1 & H2 & H3).
  destruct (Z.ltb_spec (Z.of_nat i) MAX_NPROCESS), (Z.eqb_spec (p_pid p) pid); simpl; try done.
  unfold slot_ok; simpl. split_and!; [right; lia|done|lia].
Qed.
End ops.

(** [proc_alloc] takes the lowest unused slot among 1..MAX_NPROCESS,
    gives it its index as process id and the status LOADING, changes no
    other slot and keeps the table well formed; it reports the process limit
    exactly when every slot is taken. *)
Theorem proc_alloc_refines {E} (s : kstate E) : table_ok (proc_set s) →
  match spec_slot (proc_set s) with
  | None => proc_alloc s = Fault (Fatal "proc_alloc: reach the limit of %d processes")
  | Some i => 1 ≤ i ≤ MAX_NPROCESS ∧ ∃ p s', proc_alloc s = Ret (i, s') ∧
      proc_set s !! Z.to_nat i = Some p ∧ p_status p = PROC_UNUSED ∧
      proc_set s' = <[Z.to_nat i := loaded i p]> (proc_set s) ∧
      table_ok (proc_set s') ∧ earth s' = earth s
  end.
Proof.
  intros Hok. pose proof (proc_alloc_loop_spec 16 1 s (proj1 Hok) ltac:(lia) eq_refl) as H.
  change (head (filter _ (seqZ 1 _))) with (spec_slot (proc_set s)) in H.
  change (proc_alloc_loop 16 1 s) with (proc_alloc s) in H.
  destruct (spec_slot (proc_set s)) as [i|]; [|done].
  destruct H as (Hi & p & Hp & Hu & ->). split; [unfold MAX_NPROCESS; lia|].
  exists p, (set_proc s i (loaded i p)). split_and!; try done.
  apply table_ok_insert; [done|]. rewrite <- (Z2Nat.id i) at 2 by lia. apply slot_ok_loaded. lia.
Qed.

Definition idle_process : process := Process 0 (Syscall 0 0 0 (zeros 1024) 0) PROC_UNUSED 0 (zeros 32).
(** The state of a booted kernel: all of [proc_set] zero. *)
Definition kboot {E} (e : E) : kstate E := KState 0 (replicate 4 0) (replicate 17 idle_process) e.

Lemma table_ok_boot {E} (e : E) : table_ok (proc_set (kboot e)).
Proof.
  split; [done|]. intros i p Hp. apply lookup_replicate in Hp as [-> _].
  split_and!; [by left|by left|done].
Qed.

Lemma proc_alloc_refines_witness : ∃ p s', proc_alloc (kboot ()) = Ret (1, s') ∧
  proc_set (kboot ()) !! 1%nat = Some p ∧ p_status p = PROC_UNUSED ∧
  proc_set s' = <[1%nat := loaded 1 p]> (proc_set (kboot ())) ∧ table_ok (proc_set s').
Proof.
  destruct (proc_alloc_refines (kboot ()) (table_ok_boot ())) as [_ (p & s' & H)].
  exists p, s'. tauto.
Defined.

(** Slot 16 can be allocated but never leaves LOADING: on a well-formed
    table a status change of process 16 changes nothing. *)
Theorem last_process_stuck {E} (s : kstate E) st : table_ok (proc_set s) →
  proc_set (proc_set_status s MAX_NPROCESS st) = proc_set s.
Proof.
  intros [_ Hs]. simpl. apply list_eq. intros i. rewrite lookup_set_status.
  destruct (proc_set s !! i) as [p|] eqn:Hp; [|done]. simpl. f_equal.
  destruct (Hs i p Hp) as (_ & Hpid & _).
  destruct (Z.ltb_spec (Z.of_nat i) MAX_NPROCESS), (Z.eqb_spec (p_pid p) MAX_NPROCESS); try done.
  unfold MAX_NPROCESS in *. lia.
Qed.

(** Fifteen processes are loaded, then a sixteenth. *)
Fixpoint alloc_n {E} (n : nat) (s : kstate E) : outcome (kstate E) :=
  match n with O => Ret s | S n => '(_, s) ← proc_alloc s; alloc_n n s end.

Lemma last_process_stuck_witness : ∃ s, alloc_n 16 (kboot ()) = Ret s ∧
  p_status <$> proc_set s !! 16%nat = Some PROC_LOADING ∧
  proc_set (proc_set_status s MAX_NPROCESS PROC_READY) = proc_set s.
Proof.
  eexists. split; [vm_compute; reflexivity|]. split; [reflexivity|].
  apply last_process_stuck. split; [reflexivity|].
  intros i p Hp. do 17 (destruct i as [|i];
    [injection Hp as <-; split_and!; vm_compute; first [by left|by right|done] |]). done.
Defined.

(** ** [proc_free] *)
Section free.
Context {E} `{EarthLaws E}.
Implicit Type s : kstate E.

(** A slot that "free all user processes" clears. *)
Definition user_slot (i : nat) (p : process) : Prop :=
  Z.of_nat i < MAX_NPROCESS ∧ GPID_USER_START ≤ p_pid p ∧ p_status p ≠ PROC_UNUSED.
#[global] Instance user_slot_dec i p : Decision (user_slot i p).
Proof. unfold user_slot. apply _. Defined.

(** After the iterations below [k] from state [s]. *)
Record users_freed s (k : Z) (s' : kstate E) : Prop := {
  uf_inv : e_inv (earth s');
  uf_len : length (proc_set s') = 17%nat;
  uf_cores : core_in_kernel s' = core_in_kernel s ∧ core_to_proc_idx s' = core_to_proc_idx s;
  uf_slots i p : proc_set s !! i = Some p → proc_set s' !! i =
    Some (if decide (user_slot i p ∧ Z.of_nat i < k) then with_status PROC_UNUSED p else p);
  uf_mapped q : mapped (earth s') q ↔ mapped (earth s) q ∧
    ¬ ∃ i p, proc_set s !! i = Some p ∧ user_slot i p ∧ Z.of_nat i < k ∧ p_pid p = q
}.

Lemma free_user_step s j s' : table_ok (proc_set s) → 0 ≤ j < MAX_NPROCESS →
  users_freed s j s' → ∃ s'', free_user j s' = Ret s'' ∧ users_freed s (j + 1) s''.
Proof.
  intros [Hlen _] Hj [Hinv Hlen' Hcores Hslots Hmap]. unfold MAX_NPROCESS in *.
  destruct (lookup_lt_is_Some_2 (proc_set s) (Z.to_nat j)) as [p Hp]; [lia|].
  assert (proc_set s' !! Z.to_nat j = Some p) as Hp'.
  { rewrite (Hslots _ _ Hp). rewrite decide_False; [done|]. lia. }
  unfold free_user, get_proc. rewrite Hp', bind_ret.
  destruct (decide (user_slot (Z.to_nat j) p)) as [Hu|Hu].
  - destruct Hu as (? & ? & ?) eqn:Eu. rewrite (proj2 (Z.leb_le _ _)) by lia.
    rewrite bool_decide_false by done. cbn [andb negb].
    destruct (mmu_free_law (earth s') (p_pid p) Hinv ltac:(unfold GPID_USER_START in *; lia))
      as (e' & -> & Hinv' & He'). rewrite bind_ret.
    eexists. split; [done|]. constructor; simpl; [done|by rewrite length_insert|done| |].
    + intros i q Hq. destruct (decide (i = Z.to_nat j)) as [->|Hne].
      * rewrite list_lookup_insert_eq by lia. rewrite Hp in Hq. injection Hq as <-.
        rewrite decide_True; [done|]. split; [done|lia].
      * rewrite list_lookup_insert_ne, (Hslots _ _ Hq) by done.
        f_equal. apply decide_ext. split; intros [? ?]; (split; [done|lia]).
    + intros q. destruct (He' q) as [Hm _]. rewrite Hm, Hmap. split.
      * intros [[? Hn] Hq]. split; [done|]. intros (i & r & Hi & Hr & Hlt & Hpid).
        destruct (decide (i = Z.to_nat j)) as [->|].
        -- rewrite Hp in Hi. injection Hi as <-. done.
        -- apply Hn. exists i, r. split_and!; try done. lia.
      * intros [? Hn]. split; [split; [done|]|].
        -- intros (i & r & ? & ? & ? & ?). apply Hn. exists i, r. split_and!; try done. lia.
        -- intros ->. apply Hn. exists (Z.to_nat j), p. split_and!; try done. lia.
  - replace ((GPID_USER_START <=? p_pid p) && _) with false.
    2:{ symmetry. apply andb_false_iff. unfold user_slot in Hu.
        destruct (Z.leb_spec GPID_USER_START (p_pid p)); [right|by left].
        rewrite bool_decide_true; [done|]. destruct (decide (p_status p = PROC_UNUSED)); [done|].
        exfalso. apply Hu. unfold MAX_NPROCESS. split_and!; try done; lia. }
    exists s'. split; [done|]. constructor; [done..| |].
    + intros i q Hq. rewrite (Hslots _ _ Hq). f_equal. apply decide_ext.
      split; intros [Huq ?]; (split; [done|]); [lia|].
      destruct (decide (i = Z.to_nat j)) as [->|]; [|lia].
      rewrite Hp in Hq. by injection Hq as <-.
    + intros q. rewrite Hmap. split; intros [? Hn]; (split; [done|]);
        intros (i & r & Hi & Hr & ? & ?); apply Hn; exists i, r; split_and!; try done; [|lia].
      destruct (decide (i = Z.to_nat j)) as [->|]; [|lia].
      rewrite Hp in Hi. by injection Hi as <-.
Qed.

(** [proc_free(GPID_ALL)]. *)
Lemma free_users_spec s : table_ok (proc_set s) → e_inv (earth s) → ∃ s',
  proc_free GPID_ALL s = Ret s' ∧ e_inv (earth s') ∧ length (proc_set s') = 17%nat ∧
  (core_in_kernel s' = core_in_kernel s ∧ core_to_proc_idx s' = core_to_proc_idx s) ∧
  (∀ i p, proc_set s !! i = Some p → proc_set s' !! i =
     Some (if decide (user_slot i p) then with_status PROC_UNUSED p else p)) ∧
  (∀ q, mapped (earth s') q ↔ mapped (earth s) q ∧
     ¬ ∃ i p, proc_set s !! i = Some p ∧ user_slot i p ∧ p_pid p = q).
Proof.
  intros Hok Hinv. unfold proc_free. rewrite Z.eqb_refl. cbn [negb].
  destruct (for_up_inv (users_freed s) (Z.to_nat MAX_NPROCESS) 0 free_user s) as (s' & -> & Huf).
  - constructor; [done|apply Hok|done| |].
    + intros i p Hp. rewrite Hp, decide_False; [done|]. lia.
    + intros q. split; [|by intros [? _]]. intros. split; [done|]. intros (i & p & ? & ? & ? & ?). lia.
  - intros j s1 Hj. apply free_user_step; [done|]. unfold MAX_NPROCESS in *. lia.
  - exists s'. destruct Huf as [Hinv' Hlen' Hcores Hslots Hmap]. split_and!; [done..|apply Hcores|apply Hcores| |].
    + intros i p Hp. rewrite (Hslots _ _ Hp). f_equal. apply decide_ext.
      split; [by intros [? _]|]. intros Hu. split; [done|]. destruct Hu. simpl. lia.
    + intros q. rewrite Hmap. split; intros [? Hn]; (split; [done|]); intros (i & p & Hp & Hu & Hr);
        apply Hn; exists i, p; [|tauto]. split_and!; try done. destruct Hu; simpl; lia.
Qed.

(** C7: killing all user processes, [proc_free(GPID_ALL)]: it returns, marks
    exactly the slots below MAX_NPROCESS that hold a user process unused,
    keeps every other slot and the state of the cores, and unmaps the memory
    of exactly the processes it ended. *)
Theorem proc_free_all s : table_ok (proc_set s) → e_inv (earth s) → ∃ s',
  proc_free GPID_ALL s = Ret s' ∧ e_inv (earth s') ∧ length (proc_set s') = 17%nat ∧
  (core_in_kernel s' = core_in_kernel s ∧ core_to_proc_idx s' = core_to_proc_idx s) ∧
  (∀ i p, proc_set s !! i = Some p → proc_set s' !! i =
     Some (if decide (user_slot i p) then with_status PROC_UNUSED p else p)) ∧
  (∀ q, mapped (earth s') q ↔ mapped (earth s) q ∧
     ¬ ∃ i p, proc_set s !! i = Some p ∧ user_slot i p ∧ p_pid p = q).
Proof. apply free_users_spec. Qed.

(** Freeing one process. *)
Lemma proc_free_spec s pid : table_ok (proc_set s) → e_inv (earth s) →
  0 < pid < MAX_NPROCESS → ∃ e', proc_free pid s =
    Ret (KState (core_in_kernel s) (core_to_proc_idx s)
                (set_status_in pid PROC_UNUSED (proc_set s)) e') ∧ e_inv e' ∧
  ∀ q, (mapped e' q ↔ mapped (earth s) q ∧ q ≠ pid) ∧ (q ≠ pid → smem e' q = smem (earth s) q).
Proof.
  intros Hok Hinv Hpid. unfold proc_free, GPID_ALL.
  rewrite (proj2 (Z.eqb_neq _ _)) by lia. cbn [negb].
  destruct (mmu_free_law (earth s) pid Hinv ltac:(lia)) as (e' & -> & Hinv' & He').
  by exists e'.
Qed.
End free.
