(* ===== verification/Ipc.v ===== *)
(** * Message passing (grass/ipc.c)

    [proc_try_send] hands the message of a pending sender to a receiver that
    waits for it; [proc_try_recv] completes a receiver that has been served
    and makes both sides runnable.  A [struct process*] is an index into
    [proc_set]. *)
From S2P Require Import Prelude MemAlloc Earth Process.

Section ipc.
Context {E : Type} `{Earth E}.
Implicit Type s : kstate E.

(** [sc->status = DONE] in the user memory of process [pid]. *)
Definition user_done (pid : Z) s : outcome (kstate E) :=
  '(sc, e) ← mmu_translate pid SYSCALL_ARG (earth s);
  Ret (set_earth s (ram_store (sc + Z.of_nat SYSCALL_STATUS_OFF) (le32 DONE) e)).

(** The two guards on the receiver [dst]. *)
Definition takes (dst sender : process) : bool :=
  (sc_type (p_syscall dst) =? SYS_RECV) && (sc_status (p_syscall dst) =? PENDING) &&
  ((sc_sender (p_syscall dst) =? GPID_ALL) || (sc_sender (p_syscall dst) =? p_pid sender)).

Definition deliver (dst sender : process) : process :=
  let sc := p_syscall dst in
  with_syscall (Syscall (sc_type sc) (p_pid sender) (sc_receiver sc)
                        (sc_content (p_syscall sender)) DONE) dst.

Fixpoint try_send_loop (n : nat) (j : Z) (sender : process) s : outcome (kstate E) :=
  match n with
  | O => Fault (Fatal "proc_try_send: unknown receiver pid=%d")
  | Datatypes.S n =>
      dst ← get_proc s j;
      if (p_pid dst =? sc_receiver (p_syscall sender)) &&
         negb (bool_decide (p_status dst = PROC_UNUSED)) then
        if takes dst sender then user_done (p_pid sender) (set_proc s j (deliver dst sender))
        else Ret s
      else try_send_loop n (j + 1) sender s
  end.

Definition proc_try_send (i : Z) s : outcome (kstate E) :=
  sender ← get_proc s i;
  try_send_loop (Z.to_nat MAX_NPROCESS) 0 sender s.

Definition proc_try_recv (i : Z) s : outcome (kstate E) :=
  receiver ← get_proc s i;
  if sc_status (p_syscall receiver) =? PENDING then Ret s else
  '(paddr, e) ← mmu_translate (p_pid receiver) SYSCALL_ARG (earth s);
  let s := set_earth s (ram_store paddr (encode_syscall (p_syscall receiver)) e) in
  let s := proc_set_runnable s (p_pid receiver) in
  let s := proc_set_runnable s (sc_sender (p_syscall receiver)) in
  user_done (p_pid receiver) s.

Definition proc_try_syscall (i : Z) s : outcome (kstate E) :=
  p ← get_proc s i;
  if sc_type (p_syscall p) =? SYS_RECV then proc_try_recv i s
  else if sc_type (p_syscall p) =? SYS_SEND then proc_try_send i s
  else Fault (Fatal "proc_try_syscall: unknown syscall type=%d").
End ipc.

(** ** The system call structure in memory *)
Lemma length_encode_syscall sc : syscall_ok sc → length (encode_syscall sc) = SYSCALL_SIZE.
Proof.
  intros (_ & _ & _ & Hlen & _). unfold encode_syscall, SYSCALL_MSG_LEN, SYSCALL_SIZE in *. len.
Qed.

Lemma decode_encode sc rest : syscall_ok sc →
  decode_syscall (encode_syscall sc ++ rest) = sc.
Proof.
  intros (Ht & Hs & Hr & Hlen & Hst). destruct sc as [t f r c st]; simpl in *.
  unfold decode_syscall, encode_syscall; cbn [sc_type sc_sender sc_receiver sc_content sc_status].
  rewrite <- !(assoc_L (++)). f_equal.
  - by rewrite get32_le32, u32_small.
  - rewrite get32_app_r, length_le32 by (by rewrite length_le32).
    rewrite (get32_le32 f). by rewrite i32_u32.
  - rewrite (assoc_L (++) (le32 t)). rewrite get32_app_r by (len).
    replace (8 - _)%nat with 0%nat by len. rewrite (get32_le32 r). by rewrite i32_u32.
  - rewrite (assoc_L (++) (le32 f)), (assoc_L (++) (le32 t)), drop_app_length' by len.
    apply take_app_length'. done.
  - rewrite (assoc_L (++) (le32 r)), (assoc_L (++) (le32 f)), (assoc_L (++) (le32 t)).
    unfold SYSCALL_STATUS_OFF, SYSCALL_MSG_LEN in *. rewrite get32_app_r by len.
    replace (1036 - _)%nat with 0%nat by len. by rewrite get32_le32, u32_small.
Qed.

