(* ===== verification/Scheduler.v ===== *)
(** * Scheduling (grass/scheduler.c)

    The default round-robin scheduler, [clear_pending_syscalls] and
    [proc_yield].  The event callbacks and metrics of the file are empty in
    this version of the source and are left out. *)
From S2P Require Import Prelude MemAlloc Earth Process Ipc.

Section scheduler.
Context {E : Type} `{Earth E}.
Implicit Type s : kstate E.

(** Slot [(curr_proc_idx + i) % MAX_NPROCESS]. *)
Definition nth_after s (i : Z) : outcome Z :=
  c ← curr_proc_idx s; Ret ((c + i) `mod` MAX_NPROCESS).

Definition is_ready (p : process) : bool :=
  bool_decide (p_status p = PROC_READY) || bool_decide (p_status p = PROC_RUNNABLE).

Fixpoint round_robin_loop (n : nat) (i : Z) s : outcome Z :=
  match n with
  | O => Ret MAX_NPROCESS
  | Datatypes.S n =>
      k ← nth_after s i;
      p ← get_proc s k;
      if is_ready p then Ret k else round_robin_loop n (i + 1) s
  end.

Definition round_robin s : outcome Z := round_robin_loop (Z.to_nat MAX_NPROCESS) 1 s.

(** [schedule] without [MLFQ]. *)
Definition schedule s : outcome Z := round_robin s.

(** One iteration of the [for] loop of [clear_pending_syscalls]; the second
    component counts [progress]. *)
Definition visit (i : Z) (x : kstate E * Z) : outcome (kstate E * Z) :=
  let '(s, progress) := x in
  k ← nth_after s i;
  p ← get_proc s k;
  if bool_decide (p_status p = PROC_PENDING_SYSCALL) then
    s ← proc_try_syscall k s;
    p ← get_proc s k;
    Ret (s, if sc_status (p_syscall p) =? DONE then progress + 1 else progress)
  else Ret (s, progress).

Definition sweep s : outcome (kstate E * Z) := for_up (Z.to_nat MAX_NPROCESS) 1 visit (s, 0).

(** [do ... while (progress)]. *)
Fixpoint clear_pending_syscalls (fuel : nat) s : outcome (kstate E) :=
  match fuel with
  | O => Fault OutOfFuel
  | Datatypes.S fuel =>
      '(s, progress) ← sweep s;
      if progress =? 0 then Ret s else clear_pending_syscalls fuel s
  end.

(** Every sweep that makes progress unblocks a process, so one more sweep
    than there are processes is enough. *)
Definition SWEEPS : nat := 17.

Definition set_curr_idx s (i : Z) : kstate E :=
  KState (core_in_kernel s) (<[Z.to_nat (core_in_kernel s) := i]> (core_to_proc_idx s))
         (proc_set s) (earth s).

(** Set up argc, argv and the program counter of a new process. *)
Definition first_run (p : process) : process :=
  with_context APPS_ENTRY (<[0%nat := APPS_ARG]> (<[1%nat := APPS_ARG + 4]> (p_saved p))) p.

Definition proc_yield s : outcome (kstate E) :=
  p ← curr_proc s;
  let s := if bool_decide (p_status p = PROC_RUNNING) then proc_set_runnable s (p_pid p) else s in
  s ← clear_pending_syscalls SWEEPS s;
  next_idx ← schedule s;
  ASSERT (next_idx <? MAX_NPROCESS) "proc_yield: no process to run";;
  let s := set_curr_idx s next_idx in
  p ← curr_proc s;
  e ← mmu_switch (p_pid p) (earth s);
  let s := set_earth s (mmu_flush_cache e) in
  let s := if bool_decide (p_status p = PROC_READY)
           then set_proc s next_idx (first_run p) else s in
  let s := proc_set_running s (p_pid p) in
  e ← timer_reset (core_in_kernel s) (earth s);
  Ret (set_earth s e).
End scheduler.

(** ** Round robin *)

(** The first process in cyclic order after [c] that can run. *)
Definition spec_next (ps : list process) (c : Z) : option Z :=
  head (filter (λ k, is_ready <$> ps !! Z.to_nat k = Some true)
               ((λ i, (c + i) `mod` MAX_NPROCESS) <$> seqZ 1 MAX_NPROCESS)).

Section round_robin.
Context {E : Type}.
Implicit Type s : kstate E.

Lemma get_proc_lt s k : length (proc_set s) = 17%nat → 0 ≤ k < 17 →
  ∃ p, get_proc s k = Ret p ∧ proc_set s !! Z.to_nat k = Some p.
Proof.
  intros Hlen Hk. unfold get_proc.
  destruct (lookup_lt_is_Some_2 (proc_set s) (Z.to_nat k)) as [p Hp]; [lia|].
  exists p. by rewrite Hp.
Qed.

Lemma nth_after_range c i : 0 ≤ (c + i) `mod` MAX_NPROCESS < 17.
Proof. pose proof (Z.mod_pos_bound (c + i) MAX_NPROCESS eq_refl). unfold MAX_NPROCESS in *. lia. Qed.

Lemma round_robin_loop_spec n i s c : length (proc_set s) = 17%nat → curr_proc_idx s = Ret c →
  round_robin_loop n i s = Ret (default MAX_NPROCESS
    (head (filter (λ k, is_ready <$> proc_set s !! Z.to_nat k = Some true)
                  ((λ i, (c + i) `mod` MAX_NPROCESS) <$> seqZ i (Z.of_nat n))))).
Proof.
  intros Hlen Hc. revert i. induction n as [|n IH]; intros i; [done|].
  rewrite seqZ_cons, fmap_cons, filter_cons by lia. cbn [round_robin_loop]. unfold nth_after.
  rewrite Hc, !bind_ret. destruct (get_proc_lt s _ Hlen (nth_after_range c i)) as (p & -> & Hp).
  rewrite bind_ret. destruct (is_ready p) eqn:Er.
  - rewrite decide_True by (rewrite Hp; simpl; congruence). done.
  - rewrite decide_False by (rewrite Hp; simpl; congruence). rewrite IH.
    replace (Z.pred _) with (Z.of_nat n) by lia. by rewrite <- Z.add_1_r.
Qed.

Lemma round_robin_ok s c : length (proc_set s) = 17%nat → curr_proc_idx s = Ret c →
  round_robin s = Ret (default MAX_NPROCESS (spec_next (proc_set s) c)).
Proof. intros Hlen Hc. exact (round_robin_loop_spec 16 1 s c Hlen Hc). Qed.
End round_robin.

(** Distance from [c] to [k] in cyclic order; the current slot itself comes
    last. *)
Definition distance (c k : Z) : Z := (k - c - 1) `mod` MAX_NPROCESS.

Definition runnable_slot (ps : list process) (k : Z) : Prop :=
  is_ready <$> ps !! Z.to_nat k = Some true.
#[global] Instance runnable_slot_dec ps k : Decision (runnable_slot ps k).
Proof. unfold runnable_slot. apply _. Defined.

Lemma distance_nth c i : 1 ≤ i ≤ MAX_NPROCESS → distance c ((c + i) `mod` MAX_NPROCESS) = i - 1.
Proof. unfold distance, MAX_NPROCESS. intros. Z.div_mod_to_equations. lia. Qed.

Lemma nth_distance c k : 0 ≤ k < MAX_NPROCESS →
  (c + (distance c k + 1)) `mod` MAX_NPROCESS = k ∧ 0 ≤ distance c k < MAX_NPROCESS.
Proof. unfold distance, MAX_NPROCESS. intros. Z.div_mod_to_equations. lia. Qed.

Lemma spec_next_spec ps c :
  match spec_next ps c with
  | Some k => 0 ≤ k < MAX_NPROCESS ∧ runnable_slot ps k ∧
      ∀ k', 0 ≤ k' < MAX_NPROCESS → runnable_slot ps k' → distance c k ≤ distance c k'
  | None => ∀ k, 0 ≤ k < MAX_NPROCESS → ¬ runnable_slot ps k
  end.
Proof.
  pose proof (first_seqZ (runnable_slot ps) (λ i, (c + i) `mod` MAX_NPROCESS) 1 16) as H.
  change (head _) with (spec_next ps c) in H.
  destruct (spec_next ps c) as [k|].
  - destruct H as (a & Ha & -> & Hrun & Hfirst).
    split; [apply Z.mod_pos_bound; done|]. split; [done|]. intros k' Hk' Hrun'.
    rewrite distance_nth by (unfold MAX_NPROCESS; lia).
    destruct (nth_distance c k' Hk') as [Hnth Hd].
    destruct (decide (distance c k' + 1 < a)); [|lia].
    exfalso. apply (Hfirst (distance c k' + 1)); [lia|]. by rewrite Hnth.
  - intros k Hk. destruct (nth_distance c k Hk) as [Hnth Hd].
    rewrite <- Hnth. apply H. unfold MAX_NPROCESS in *. lia.
Qed.

(** Round robin is fair: it returns the READY or RUNNABLE slot nearest
    after the current one in cyclic order (the current one being the last
    choice), and MAX_NPROCESS exactly when no slot below MAX_NPROCESS can
    run. *)
Theorem round_robin_nearest {E} (s : kstate E) c : table_ok (proc_set s) →
  curr_proc_idx s = Ret c → ∃ k, round_robin s = Ret k ∧
  ((0 ≤ k < MAX_NPROCESS ∧ runnable_slot (proc_set s) k ∧
    ∀ k', 0 ≤ k' < MAX_NPROCESS → runnable_slot (proc_set s) k' → distance c k ≤ distance c k') ∨
   (k = MAX_NPROCESS ∧ ∀ k', 0 ≤ k' < MAX_NPROCESS → ¬ runnable_slot (proc_set s) k')).
Proof.
  intros [Hlen _] Hc. eexists. split; [by apply round_robin_ok|].
  pose proof (spec_next_spec (proc_set s) c) as H. destruct (spec_next _ _); simpl; tauto.
Qed.

(** Process 3 runs, processes 1 and 2 can. *)
Definition demo_procs : list process :=
  imap (λ i p, Process (Z.of_nat i) (p_syscall p)
     (match i with 1 | 2 => PROC_RUNNABLE | 3 => PROC_RUNNING | _ => PROC_UNUSED end)%nat
     (p_mepc p) (p_saved p)) (replicate 17 idle_process).

Lemma round_robin_nearest_witness :
  let s := KState 0 [3; 0; 0; 0] demo_procs () in ∃ k, round_robin s = Ret k ∧
  ((0 ≤ k < MAX_NPROCESS ∧ runnable_slot (proc_set s) k ∧
    ∀ k', 0 ≤ k' < MAX_NPROCESS → runnable_slot (proc_set s) k' → distance 3 k ≤ distance 3 k') ∨
   (k = MAX_NPROCESS ∧ ∀ k', 0 ≤ k' < MAX_NPROCESS → ¬ runnable_slot (proc_set s) k')).
Proof.
  apply round_robin_nearest; [|reflexivity]. split; [reflexivity|].
  intros i p Hp. do 17 (destruct i as [|i];
    [injection Hp as <-; split_and!; vm_compute; first [by left|by right|done] |]). done.
Defined.
