(* ===== verification/Rendezvous.v ===== *)
(** * What a system call does to the other processes

    Message passing is by rendezvous: a send and a matching receive complete
    together.  The source reaches this through retries: [proc_try_syscall] on
    the caller and the repeated sweeps of [clear_pending_syscalls].  Here the
    sweeps are shown to terminate and to amount to one rendezvous, with the
    nearest partner in cyclic order, or to nothing. *)
From S2P Require Import Prelude MemAlloc Earth Process Ipc Scheduler.

(** ** Pending system calls *)

(** Slot [k] (below [MAX_NPROCESS]) holds [p]. *)
Definition at_slot (ps : list process) (k : Z) (p : process) : Prop :=
  0 ≤ k < MAX_NPROCESS ∧ ps !! Z.to_nat k = Some p.

Definition pend (ps : list process) (k : Z) (p : process) : Prop :=
  at_slot ps k p ∧ p_status p = PROC_PENDING_SYSCALL.

(** Process [r] exists and is [dst]. *)
Definition receiver_ok (ps : list process) (r : Z) (dst : process) : Prop :=
  0 < r ∧ at_slot ps r dst ∧ p_pid dst = r ∧ p_status dst ≠ PROC_UNUSED.

Definition recv_waits (p : process) : Prop :=
  sc_type (p_syscall p) = SYS_RECV ∧ sc_status (p_syscall p) = PENDING.
Definition send_waits (ps : list process) (p dst : process) : Prop :=
  sc_type (p_syscall p) = SYS_SEND ∧ sc_status (p_syscall p) = PENDING ∧
  receiver_ok ps (sc_receiver (p_syscall p)) dst.

(** A pending call that [proc_try_syscall] leaves alone. *)
Definition idle (ps : list process) (p : process) : Prop :=
  recv_waits p ∨ ∃ dst, send_waits ps p dst ∧ takes dst p = false.

(** No pending call can make progress. *)
Definition quiet (ps : list process) : Prop := ∀ k p, pend ps k p → idle ps p.

(** Only a process blocked in a receive looks like a receiver. *)
Definition no_stale (ps : list process) : Prop :=
  ∀ k p, at_slot ps k p → recv_waits p → p_status p = PROC_PENDING_SYSCALL.

Lemma at_slot_fun ps k p q : at_slot ps k p → at_slot ps k q → p = q.
Proof. intros [_ H1] [_ H2]. congruence. Qed.

Lemma at_slot_pid ps k p : table_ok ps → at_slot ps k p → p_status p ≠ PROC_UNUSED → p_pid p = k ∧ 0 < k.
Proof.
  intros [_ Hs] [Hk Hp] Hu. destruct (Hs _ _ Hp) as ([?|Hpid] & _ & H0); [done|].
  split; [lia|]. destruct (decide (k = 0)) as [->|]; [|lia]. by destruct Hu; apply H0.
Qed.

Lemma takes_recv dst p : takes dst p = true → recv_waits dst.
Proof. unfold takes. rewrite !andb_true_iff, !Z.eqb_eq. intros [[? ?] _]. done. Qed.

Section calls.
Context {E : Type} `{EarthLaws E}.
Implicit Type s : kstate E.

Lemma get_proc_at s k p : at_slot (proc_set s) k p → get_proc s k = Ret p.
Proof. intros [_ Hp]. unfold get_proc. by rewrite Hp. Qed.

(** ** One call of [proc_try_syscall] *)

Lemma try_send_loop_spec s p dst n j : table_ok (proc_set s) →
  receiver_ok (proc_set s) (sc_receiver (p_syscall p)) dst →
  0 ≤ j → j ≤ sc_receiver (p_syscall p) → sc_receiver (p_syscall p) < j + Z.of_nat n →
  try_send_loop n j p s =
  if takes dst p then
    user_done (p_pid p) (set_proc s (sc_receiver (p_syscall p)) (deliver dst p))
  else Ret s.
Proof.
  intros Hok (Hr & Hdst & Hpid & Hu). revert j. induction n as [|n IH]; intros j Hj Hle Hlt; [lia|].
  cbn [try_send_loop]. destruct (decide (j = sc_receiver (p_syscall p))) as [->|Hne].
  - rewrite (get_proc_at s _ dst Hdst), bind_ret, Hpid, Z.eqb_refl, bool_decide_false by done.
    cbn [andb negb]. by rewrite Hpid || done.
  - destruct Hdst as [Hr16 Hdst]. unfold MAX_NPROCESS in Hr16.
    destruct (get_proc_lt s j (proj1 Hok) ltac:(lia)) as (q & -> & Hq). rewrite bind_ret.
    destruct (proj2 Hok _ _ Hq) as (_ & Hq' & _).
    rewrite (proj2 (Z.eqb_neq (p_pid q) _)) by lia. cbn [andb]. apply IH; lia.
Qed.

Lemma proc_try_syscall_send s k p dst : table_ok (proc_set s) → at_slot (proc_set s) k p →
  send_waits (proc_set s) p dst →
  proc_try_syscall k s =
  if takes dst p then
    user_done (p_pid p) (set_proc s (sc_receiver (p_syscall p)) (deliver dst p))
  else Ret s.
Proof.
  intros Hok Hp (Ht & _ & Hrecv). unfold proc_try_syscall, proc_try_send.
  rewrite (get_proc_at s k p Hp), !bind_ret, Ht. cbn [Z.eqb].
  apply try_send_loop_spec; try done; destruct Hrecv as (? & [? _] & _);
    unfold MAX_NPROCESS in *; lia.
Qed.

Lemma proc_try_syscall_idle s k p : table_ok (proc_set s) → at_slot (proc_set s) k p →
  idle (proc_set s) p → proc_try_syscall k s = Ret s.
Proof.
  intros Hok Hp [[Ht Hst]|(dst & Hw & Htakes)].
  - unfold proc_try_syscall, proc_try_recv.
    rewrite (get_proc_at s k p Hp), !bind_ret, Ht, Hst. done.
  - rewrite (proc_try_syscall_send s k p dst) by done. by rewrite Htakes.
Qed.

(** An idle slot is passed over by a sweep. *)
Lemma visit_idle s c i pr : table_ok (proc_set s) → curr_proc_idx s = Ret c →
  (∀ p, pend (proc_set s) ((c + i) `mod` MAX_NPROCESS) p → idle (proc_set s) p) →
  visit i (s, pr) = Ret (s, pr).
Proof.
  intros Hok Hc Hidle. unfold visit, nth_after. rewrite Hc, !bind_ret.
  destruct (get_proc_lt s _ (proj1 Hok) (nth_after_range c i)) as (p & Hg & Hp).
  rewrite Hg, bind_ret. case_bool_decide as Hst; [|done].
  assert (pend (proc_set s) ((c + i) `mod` MAX_NPROCESS) p) as Hpend.
  { split; [|done]. split; [by apply Z.mod_pos_bound|done]. }
  pose proof (Hidle p Hpend) as Hi. rewrite (proc_try_syscall_idle s _ p Hok (proj1 Hpend) Hi).
  rewrite bind_ret, Hg, bind_ret. by destruct Hi as [[_ ->]|(dst & (_ & -> & _) & _)].
Qed.

Lemma sweep_quiet s c : table_ok (proc_set s) → curr_proc_idx s = Ret c →
  quiet (proc_set s) → sweep s = Ret (s, 0).
Proof.
  intros Hok Hc Hq. apply for_up_noop. intros j _. apply (visit_idle s c); [done..|]. apply Hq.
Qed.

Lemma clear_quiet s c fuel : table_ok (proc_set s) → curr_proc_idx s = Ret c →
  quiet (proc_set s) → clear_pending_syscalls (Datatypes.S fuel) s = Ret s.
Proof.
  intros Hok Hc Hq. cbn [clear_pending_syscalls]. by rewrite (sweep_quiet s c).
Qed.

(** ** User memory *)

(** [e'] is [e] with the syscall page of [pid] changed to [m]. *)
Definition page_update (e e' : E) (pid : Z) (m : list Z) : Prop :=
  e_inv e' ∧ (∀ q, mapped e' q ↔ mapped e q) ∧ smem e' pid = m ∧
  ∀ q, q ≠ pid → smem e' q = smem e q.

Lemma translate_store e pid off bs : e_inv e → mapped e pid → (off < SYSCALL_PAGE)%nat →
  (off + length bs ≤ SYSCALL_PAGE)%nat → ∃ e1 e2,
    mmu_translate pid SYSCALL_ARG e = Ret (SYSCALL_ARG, e1) ∧
    e2 = ram_store (SYSCALL_ARG + Z.of_nat off) bs e1 ∧
    page_update e e2 pid (splice (smem e pid) off bs).
Proof.
  intros Hinv Hm Hoff Hlen.
  destruct (mmu_translate_law e pid Hinv Hm) as (e1 & Htr & [Hinv1 Hsame] & Hhere).
  destruct (ram_store_law e1 pid off bs Hinv1 ltac:(by apply Hsame) Hhere Hoff Hlen)
    as (Hinv2 & _ & Hm2 & Hpid & Hoth).
  eexists e1, _. split_and!; [done..|]. split_and!; [done| | |].
  - intros q. rewrite Hm2. apply Hsame.
  - rewrite Hpid. by rewrite (proj2 (Hsame pid)).
  - intros q Hq. rewrite Hoth by done. apply Hsame.
Qed.

Lemma user_done_spec s pid : e_inv (earth s) → mapped (earth s) pid → ∃ e',
  user_done pid s = Ret (set_earth s e') ∧
  page_update (earth s) e' pid (splice (smem (earth s) pid) SYSCALL_STATUS_OFF (le32 DONE)).
Proof.
  intros Hinv Hm.
  destruct (translate_store (earth s) pid SYSCALL_STATUS_OFF (le32 DONE) Hinv Hm)
    as (e1 & e2 & Htr & -> & Hup).
  { apply (bool_decide_unpack _). vm_compute. done. }
  { rewrite length_le32. apply (bool_decide_unpack _). vm_compute. done. }
  unfold user_done. rewrite Htr, bind_ret. eauto.
Qed.

(** The whole structure written back, then its status once more. *)
Lemma splice_syscall m sc : syscall_ok sc → sc_status sc = DONE →
  length m = SYSCALL_PAGE →
  splice (splice m 0 (encode_syscall sc)) SYSCALL_STATUS_OFF (le32 DONE) =
  encode_syscall sc ++ drop SYSCALL_SIZE m.
Proof.
  intros Hok Hd Hlen. pose proof (length_encode_syscall sc Hok) as Hl. unfold splice.
  rewrite take_0, app_nil_l, Nat.add_0_l, Hl, length_le32.
  destruct Hok as (_ & _ & _ & Hc & _). unfold encode_syscall in *. rewrite Hd in *.
  rewrite !(assoc_L (++)).
  set (pre := ((le32 (sc_type sc) ++ le32 (sc_sender sc)) ++ le32 (sc_receiver sc)) ++ sc_content sc).
  assert (length pre = SYSCALL_STATUS_OFF) as Hpre.
  { unfold pre, SYSCALL_MSG_LEN, SYSCALL_STATUS_OFF in *. len. }
  rewrite <- !(assoc_L (++)). f_equal; [by apply take_app_length'|]. f_equal.
  rewrite (assoc_L (++) pre). apply drop_app_length'.
  rewrite length_app, Hpre, length_le32. done.
Qed.

(** [proc_try_recv] of a served receiver. *)
Lemma recv_complete s k p : table_ok (proc_set s) → e_inv (earth s) → mapped (earth s) k →
  at_slot (proc_set s) k p → p_pid p = k → sc_type (p_syscall p) = SYS_RECV →
  sc_status (p_syscall p) = DONE → syscall_ok (p_syscall p) → ∃ e',
  proc_try_syscall k s =
    Ret (set_earth (set_procs s (set_status_in (sc_sender (p_syscall p)) PROC_RUNNABLE
                                  (set_status_in k PROC_RUNNABLE (proc_set s)))) e') ∧
  page_update (earth s) e' k (encode_syscall (p_syscall p) ++ drop SYSCALL_SIZE (smem (earth s) k)).
Proof.
  intros Hok Hinv Hm Hp Hpid Ht Hst Hsc. unfold proc_try_syscall, proc_try_recv.
  rewrite !(get_proc_at s k p Hp), !bind_ret, Ht, Hst, Hpid. cbn [Z.eqb].
  destruct (translate_store (earth s) k 0 (encode_syscall (p_syscall p)) Hinv Hm)
    as (e1 & e2 & Htr & He2 & Hinv2 & Hm2 & Hs2 & Ho2).
  { apply (bool_decide_unpack _). vm_compute. done. }
  { rewrite (length_encode_syscall _ Hsc). apply (bool_decide_unpack _). vm_compute. done. }
  change (SYSCALL_ARG + Z.of_nat 0) with (SYSCALL_ARG + 0) in He2. rewrite Z.add_0_r in He2.
  change (Z.eqb DONE PENDING) with false. cbn iota. rewrite Htr, bind_ret, <- He2.
  match goal with |- context [user_done k ?s1] =>
    destruct (user_done_spec s1 k Hinv2) as (e3 & -> & Hinv3 & Hm3 & Hs3 & Ho3) end.
  { by apply Hm2. }
  exists e3. split; [done|]. simpl in Hm3, Hs3, Ho3. split_and!; [done| | |].
  - intros q. by rewrite Hm3, Hm2.
  - rewrite Hs3, Hs2. apply splice_syscall; [done..|]. by apply smem_len.
  - intros q Hq. by rewrite Ho3, Ho2.
Qed.
End calls.

(** ** Well-formed kernel states *)
Definition awake (st : proc_status) : Prop := st ≠ PROC_UNUSED ∧ st ≠ PROC_LOADING.

Record kwf {E} `{EarthLaws E} (s : kstate E) : Prop := {
  k_table : table_ok (proc_set s);
  k_inv : e_inv (earth s);
  k_mapped k p : at_slot (proc_set s) k p → awake (p_status p) → mapped (earth s) k;
  k_call k p : pend (proc_set s) k p → syscall_ok (p_syscall p);
  k_stale : no_stale (proc_set s)
}.

(** The part of it that survives processes being ended at any moment. *)
Record kbase {E} `{EarthLaws E} (s : kstate E) : Prop := {
  b_table : table_ok (proc_set s);
  b_inv : e_inv (earth s);
  b_mapped k p : at_slot (proc_set s) k p → awake (p_status p) → mapped (earth s) k;
  b_call k p : pend (proc_set s) k p → syscall_ok (p_syscall p)
}.
Lemma kwf_base {E} `{EarthLaws E} (s : kstate E) : kwf s → kbase s.
Proof. by intros []. Qed.

(** Every pending call is idle, except that sends to [j] may succeed. *)
Definition quiet_but (j : Z) (ps : list process) : Prop :=
  ∀ k p, pend ps k p → k ≠ j → recv_waits p ∨
    ∃ dst, send_waits ps p dst ∧ (sc_receiver (p_syscall p) ≠ j → takes dst p = false).

(** The table after the rendezvous of sender [i] and receiver [j]. *)
Definition served (i j : Z) (snd dst : process) (ps : list process) : list process :=
  set_status_in i PROC_RUNNABLE (set_status_in j PROC_RUNNABLE
    (<[Z.to_nat j := deliver dst snd]> ps)).

Lemma pend_pid ps k p : table_ok ps → pend ps k p → p_pid p = k ∧ 0 < k.
Proof. intros Hok [Hp Hst]. apply (at_slot_pid ps); [done..|congruence]. Qed.

Lemma at_slot_insert ps j q k p : table_ok ps → 0 ≤ j < MAX_NPROCESS →
  at_slot (<[Z.to_nat j := q]> ps) k p ↔ (k = j ∧ p = q) ∨ (k ≠ j ∧ at_slot ps k p).
Proof.
  intros [Hlen _] Hj. unfold at_slot, MAX_NPROCESS in *. destruct (decide (k = j)) as [->|Hne].
  - rewrite list_lookup_insert_eq by lia. split; [intros [_ [= ->]]; by left|].
    intros [[_ ->]|[? _]]; done.
  - split.
    + intros [Hk Hp]. rewrite list_lookup_insert_ne in Hp by lia. by right.
    + intros [[? _]|(_ & Hk & Hp)]; [done|]. by rewrite list_lookup_insert_ne by lia.
Qed.

Lemma at_slot_status ps pid st k p : table_ok ps → 0 < pid < MAX_NPROCESS →
  at_slot (set_status_in pid st ps) k p ↔
  ∃ q, at_slot ps k q ∧ p = if decide (k = pid ∧ p_pid q = pid) then with_status st q else q.
Proof.
  intros Hok Hpid. unfold at_slot. split.
  - intros [Hk Hp]. rewrite lookup_set_status in Hp.
    destruct (ps !! Z.to_nat k) as [q|] eqn:Hq; [|done]. exists q. split; [done|].
    assert (set_status_in pid st ps !! Z.to_nat k = Some p) as Hp'.
    { by rewrite lookup_set_status, Hq. }
    rewrite (set_status_slot ps pid st Hok Hpid _ _ Hq) in Hp'. injection Hp' as <-.
    rewrite Z2Nat.id by lia. done.
  - intros (q & [Hk Hq] & ->). split; [done|].
    rewrite (set_status_slot ps pid st Hok Hpid _ _ Hq), Z2Nat.id by lia. done.
Qed.

(** A change of status to RUNNABLE disturbs no idle call. *)
Lemma idle_status ps pid p : table_ok ps → 0 < pid < MAX_NPROCESS →
  idle ps p → idle (set_status_in pid PROC_RUNNABLE ps) p.
Proof.
  intros Hok Hpid [?|(dst & (Ht & Hst & Hr & Hdst & Hp & Hu) & Htakes)]; [by left|right].
  exists (if decide (sc_receiver (p_syscall p) = pid ∧ p_pid dst = pid)
          then with_status PROC_RUNNABLE dst else dst).
  split; [split_and!; [done..|]|by case_decide].
  split_and!; [done| |by case_decide|by case_decide].
  apply at_slot_status; [done..|]. eauto.
Qed.

Lemma slot_ok_deliver i dst snd : slot_ok i dst → slot_ok i (deliver dst snd).
Proof. done. Qed.

(** After a delivery to [j] every other pending call is idle. *)
Lemma delivered_idle ps j snd dst k p : table_ok ps → quiet_but j ps → at_slot ps j dst →
  pend (<[Z.to_nat j := deliver dst snd]> ps) k p → k ≠ j →
  idle (<[Z.to_nat j := deliver dst snd]> ps) p.
Proof.
  intros Hok Hq Hj [Hp Hst] Hne. apply at_slot_insert in Hp as [[? _]|[_ Hp]]; [done| |done|apply Hj].
  destruct (Hq k p) as [?|(d & (Ht & Hs & Hr & Hd & Hpid & Hu) & Htakes)]; [done..|by left|right].
  destruct (decide (sc_receiver (p_syscall p) = j)) as [Heq|Hr'].
  - rewrite Heq in Hd. rewrite (at_slot_fun _ _ _ _ Hd Hj) in *.
    exists (deliver dst snd). split; [split_and!; [done..|]|].
    + split_and!; [done| |done|done]. apply at_slot_insert; [done|apply Hj|]. by left.
    + unfold takes, deliver; simpl. by rewrite andb_false_r.
  - exists d. split; [split_and!; [done..|]|by apply Htakes].
    split_and!; [done| |done|done]. apply at_slot_insert; [done|apply Hj|]. by right.
Qed.

Lemma table_ok_deliver ps j dst snd : table_ok ps → at_slot ps j dst →
  table_ok (<[Z.to_nat j := deliver dst snd]> ps).
Proof. intros Hok [_ Hd]. apply table_ok_insert; [done|]. by apply slot_ok_deliver, Hok. Qed.

(** The slots of the table after a rendezvous. *)
Lemma at_slot_served ps i j snd dst k p : table_ok ps → pend ps i snd → pend ps j dst → i ≠ j →
  at_slot (served i j snd dst ps) k p ↔
  (k = i ∧ p = with_status PROC_RUNNABLE snd) ∨
  (k = j ∧ p = with_status PROC_RUNNABLE (deliver dst snd)) ∨
  (k ≠ i ∧ k ≠ j ∧ at_slot ps k p).
Proof.
  intros Hok Hi Hj Hij. pose proof (pend_pid _ _ _ Hok Hi) as [Hpi Hi0].
  pose proof (pend_pid _ _ _ Hok Hj) as [Hpj Hj0].
  pose proof (table_ok_deliver ps j dst snd Hok (proj1 Hj)) as Hok1.
  assert (0 < i < MAX_NPROCESS) by (destruct Hi as [[? _] _]; lia).
  assert (0 < j < MAX_NPROCESS) by (destruct Hj as [[? _] _]; lia).
  pose proof (table_ok_set_status _ j PROC_RUNNABLE Hok1 Hj0) as Hok2.
  unfold served. rewrite at_slot_status by done. setoid_rewrite at_slot_status; [|done..].
  setoid_rewrite at_slot_insert; [|done|lia]. split.
  - intros (q & (r & [[-> ->]|[Hk Hr]] & ->) & ->).
    + rewrite (decide_True (P := j = j ∧ _)) by done. right; left. split; [done|].
      rewrite decide_False; [done|]. intros [? _]. congruence.
    + rewrite (decide_False (P := k = j ∧ _)) by (intros [? _]; congruence).
      case_decide as Hd; [left; destruct Hd as [-> ?]; by rewrite (at_slot_fun _ _ _ _ Hr (proj1 Hi))|].
      right; right. split_and!; [|done..]. intros ->. apply Hd. split; [done|].
      by rewrite (at_slot_fun _ _ _ _ Hr (proj1 Hi)).
  - intros [[-> ->]|[[-> ->]|(Hki & Hkj & Hp)]].
    + exists snd. split; [exists snd; split; [right; split; [done|apply Hi]|]|].
      * rewrite decide_False; [done|]. intros [? _]. congruence.
      * by rewrite decide_True.
    + exists (with_status PROC_RUNNABLE (deliver dst snd)).
      split; [exists (deliver dst snd); split; [by left|]|].
      * by rewrite decide_True.
      * rewrite decide_False; [done|]. intros [? _]. congruence.
    + exists p. split; [exists p; split; [by right|]|]; rewrite decide_False; try done;
        intros [? _]; congruence.
Qed.

(** ** The rendezvous *)
Section rendezvous.
Context {E : Type} `{EarthLaws E}.
Implicit Type s : kstate E.

(** User memory after sender [i] and receiver [j] have completed: the
    receiver finds the whole message and DONE, the sender finds DONE. *)
Definition served_mem (e e' : E) (i j : Z) (sc : syscall) : Prop :=
  e_inv e' ∧ (∀ q, mapped e' q ↔ mapped e q) ∧
  smem e' i = splice (smem e i) SYSCALL_STATUS_OFF (le32 DONE) ∧
  smem e' j = encode_syscall sc ++ drop SYSCALL_SIZE (smem e j) ∧
  ∀ q, q ≠ i → q ≠ j → smem e' q = smem e q.

(** [s'] is [s] after [i] and [j] have completed. *)
Definition completed s (i j : Z) s' : Prop := ∃ snd dst e',
  pend (proc_set s) i snd ∧ pend (proc_set s) j dst ∧
  send_waits (proc_set s) snd dst ∧ sc_receiver (p_syscall snd) = j ∧ takes dst snd = true ∧
  s' = set_earth (set_procs s (served i j snd dst (proc_set s))) e' ∧
  served_mem (earth s) e' i j (p_syscall (deliver dst snd)).

Lemma parties_distinct s i j snd dst : pend (proc_set s) i snd → pend (proc_set s) j dst →
  send_waits (proc_set s) snd dst → takes dst snd = true → i ≠ j.
Proof.
  intros [Hi _] [Hj _] (Ht & _) [Ht' _]%takes_recv ->.
  rewrite (at_slot_fun _ _ _ _ Hi Hj), Ht' in Ht. done.
Qed.

Lemma served_quiet s j i snd dst : table_ok (proc_set s) → quiet_but j (proc_set s) →
  pend (proc_set s) i snd → pend (proc_set s) j dst → i ≠ j →
  quiet (served i j snd dst (proc_set s)).
Proof.
  intros Hok Hq Hi Hj Hij k p [Hp Hst].
  pose proof (pend_pid _ _ _ Hok Hi) as [_ Hi0]. pose proof (pend_pid _ _ _ Hok Hj) as [_ Hj0].
  pose proof (table_ok_deliver _ j dst snd Hok (proj1 Hj)) as Hok1.
  apply at_slot_served in Hp as [[_ ->]|[[_ ->]|(Hki & Hkj & Hp)]]; [done..| |done|done|done|done].
  destruct Hi as [[? _] _], Hj as [Hj Hjs]. unfold served.
  apply idle_status; [by apply table_ok_set_status|lia|].
  apply idle_status; [done|destruct Hj; lia|].
  apply (delivered_idle _ _ snd dst k p Hok Hq Hj); [|done].
  split; [|done]. apply at_slot_insert; [done|apply Hj|]. by right.
Qed.

Lemma served_kwf s i j s' : kwf s → completed s i j s' → kwf s'.
Proof.
  intros Hk (snd & dst & e' & Hi & Hj & Hw & Hr & Ht & -> & Hinv & Hmap & _).
  pose proof (parties_distinct s i j snd dst Hi Hj Hw Ht) as Hij.
  pose proof (k_table s Hk) as Hok.
  pose proof (pend_pid _ _ _ Hok Hi) as [_ Hi0]. pose proof (pend_pid _ _ _ Hok Hj) as [_ Hj0].
  constructor; simpl; [|done| | |].
  - apply table_ok_set_status; [|done]. apply table_ok_set_status; [|done].
    apply table_ok_deliver; [done|apply Hj].
  - intros k p [[-> ->]|[[-> ->]|(_ & _ & Hp)]]%at_slot_served Ha; try done; apply Hmap.
    + apply (k_mapped s Hk i snd (proj1 Hi)). by rewrite (proj2 Hi).
    + apply (k_mapped s Hk j dst (proj1 Hj)). by rewrite (proj2 Hj).
    + by apply (k_mapped s Hk k p).
  - intros k p [[[-> ->]|[[-> ->]|(_ & _ & Hp)]]%at_slot_served Hst]; try done.
    by apply (k_call s Hk k p).
  - intros k p [[-> ->]|[[-> ->]|(_ & _ & Hp)]]%at_slot_served [Ht1 Ht2]; try done.
    + destruct Hw as [Hw _]. simpl in Ht1. rewrite Hw in Ht1. done.
    + by apply (k_stale s Hk k p).
Qed.

(** [proc_try_syscall] on a sender whose receiver takes the message. *)
Definition delivered s (i j : Z) (snd dst : process) s1 : Prop := ∃ e1,
  s1 = set_earth (set_proc s j (deliver dst snd)) e1 ∧
  page_update (earth s) e1 i (splice (smem (earth s) i) SYSCALL_STATUS_OFF (le32 DONE)).

Lemma send_delivers s i snd dst : kwf s → pend (proc_set s) i snd →
  send_waits (proc_set s) snd dst → takes dst snd = true → ∃ s1,
  proc_try_syscall i s = Ret s1 ∧ delivered s i (sc_receiver (p_syscall snd)) snd dst s1 ∧
  pend (proc_set s) (sc_receiver (p_syscall snd)) dst.
Proof.
  intros Hk Hi Hw Ht. pose proof (k_table s Hk) as Hok.
  rewrite (proc_try_syscall_send s i snd dst Hok (proj1 Hi) Hw), Ht.
  destruct (pend_pid _ _ _ Hok Hi) as [Hpid _].
  set (j := sc_receiver (p_syscall snd)).
  destruct (user_done_spec (set_proc s j (deliver dst snd)) (p_pid snd)) as (e1 & Heq & Hup).
  - apply (k_inv s Hk).
  - rewrite Hpid. apply (k_mapped s Hk i snd (proj1 Hi)). by rewrite (proj2 Hi).
  - rewrite Heq. eexists. split; [done|]. split.
    + exists e1. split; [done|]. by rewrite <- Hpid.
    + destruct Hw as (_ & _ & _ & Hd & _). split; [done|].
      apply (k_stale s Hk j dst Hd). by eapply takes_recv.
Qed.

(** From a delivery on, the part of a sweep that passes [j] completes both
    parties and does nothing else. *)
Lemma sweep_completes s c i j snd dst s1 n a b pr : kwf s → curr_proc_idx s = Ret c →
  quiet_but j (proc_set s) → pend (proc_set s) i snd → pend (proc_set s) j dst →
  send_waits (proc_set s) snd dst → sc_receiver (p_syscall snd) = j → takes dst snd = true →
  delivered s i j snd dst s1 →
  a ≤ b < a + Z.of_nat n → Z.of_nat n ≤ MAX_NPROCESS → (c + b) `mod` MAX_NPROCESS = j →
  ∃ s', for_up n a visit (s1, pr) = Ret (s', pr + 1) ∧ completed s i j s' ∧ quiet (proc_set s').
Proof.
  intros Hk Hc Hq Hi Hj Hw Hr Ht (e1 & -> & Hinv1 & Hm1 & Hs1 & Ho1) Hab Hn Hb.
  pose proof (parties_distinct s i j snd dst Hi Hj Hw Ht) as Hij.
  pose proof (k_table s Hk) as Hok. pose proof (table_ok_deliver _ j dst snd Hok (proj1 Hj)) as Hok1.
  set (s1 := set_earth (set_proc s j (deliver dst snd)) e1).
  assert (at_slot (proc_set s1) j (deliver dst snd)) as Hj1.
  { apply at_slot_insert; [done|apply (proj1 Hj)|by left]. }
  assert (∀ b', a ≤ b' < a + Z.of_nat n → b' ≠ b → visit b' (s1, pr) = Ret (s1, pr)) as Hidle.
  { intros b' Hb' Hne. apply (visit_idle s1 c); [done..|]. intros p Hp.
    apply (delivered_idle _ j snd dst _ p Hok Hq (proj1 Hj) Hp).
    rewrite <- Hb. unfold MAX_NPROCESS in *. Z.div_mod_to_equations. lia. }
  destruct (pend_pid _ _ _ Hok Hj) as [Hpj Hj0]. destruct (pend_pid _ _ _ Hok Hi) as [Hpi Hi0].
  destruct (recv_complete s1 j (deliver dst snd)) as (e2 & Htry & Hinv2 & Hm2 & Hs2 & Ho2); try done.
  { apply Hm1, (k_mapped s Hk j dst (proj1 Hj)). by rewrite (proj2 Hj). }
  { by apply takes_recv in Ht as [? _]. }
  { destruct (k_call s Hk j dst Hj) as (? & _ & ? & _ & _).
    destruct (k_call s Hk i snd Hi) as (_ & _ & _ & ? & _).
    destruct Hi as [[? _] _]. unfold MAX_NPROCESS in *.
    split_and!; cbn [deliver with_syscall p_syscall sc_type sc_sender sc_receiver sc_content sc_status];
      unfold DONE; lia. }
  simpl in Htry. rewrite Hpi in Htry.
  set (s2 := set_earth (set_procs s (served i j snd dst (proc_set s))) e2).
  change (proc_try_syscall j s1 = Ret s2) in Htry.
  assert (completed s i j s2) as Hcomp.
  { exists snd, dst, e2. split_and!; [done..|]. split_and!; [done| | | |].
    - intros q. rewrite Hm2. apply Hm1.
    - rewrite Ho2 by done. exact Hs1.
    - rewrite Hs2. simpl. rewrite Ho1 by done. done.
    - intros q ? ?. rewrite Ho2 by done. by apply Ho1. }
  pose proof (served_quiet s j i snd dst Hok Hq Hi Hj Hij) as Hquiet.
  exists s2. split_and!; [|done|done].
  replace n with (Z.to_nat (b - a) + Datatypes.S (n - Z.to_nat (b - a) - 1))%nat by lia.
  rewrite for_up_app, for_up_noop by (intros; apply Hidle; lia). rewrite bind_ret. cbn [for_up].
  replace (a + Z.of_nat (Z.to_nat (b - a))) with b by lia.
  assert (visit b (s1, pr) = Ret (s2, pr + 1)) as ->.
  { unfold visit, nth_after. change (curr_proc_idx s1) with (curr_proc_idx s).
    rewrite Hc, !bind_ret, Hb, (get_proc_at s1 j _ Hj1), bind_ret.
    rewrite bool_decide_true by apply Hj. rewrite Htry, bind_ret.
    rewrite (get_proc_at s2 j (with_status PROC_RUNNABLE (deliver dst snd))); [done|].
    apply at_slot_served; [done..|]. right; by left. }
  rewrite bind_ret. apply for_up_noop. intros b' Hb'.
  apply (visit_idle s2 c); [apply (k_table _ (served_kwf s i j s2 Hk Hcomp))|done|].
  intros p Hp. by apply Hquiet in Hp.
Qed.
End rendezvous.

(** ** Specification of a system call *)

(** Slot [k] is blocked sending to [c], which takes the message. *)
Definition sends_to (ps : list process) (c : Z) (pc : process) (k : Z) : bool :=
  match ps !! Z.to_nat k with
  | Some p => bool_decide (p_status p = PROC_PENDING_SYSCALL) &&
      (sc_type (p_syscall p) =? SYS_SEND) && (sc_receiver (p_syscall p) =? c) && takes pc p
  | None => false
  end.

(** The rendezvous (sender, receiver) the call of process [c] enables: a send
    meets its receiver if that takes the message, a receive the nearest
    waiting sender in cyclic order. *)
Definition partner (ps : list process) (c : Z) (pc : process) : option (Z * Z) :=
  if sc_type (p_syscall pc) =? SYS_SEND then
    dst ← ps !! Z.to_nat (sc_receiver (p_syscall pc));
    if takes dst pc then Some (c, sc_receiver (p_syscall pc)) else None
  else
    i ← head (filter (sends_to ps c pc) ((λ i, (c + i) `mod` MAX_NPROCESS) <$> seqZ 1 MAX_NPROCESS));
    Some (i, c).

Section specification.
Context {E : Type} `{EarthLaws E}.
Implicit Type s : kstate E.

Lemma sends_to_spec ps c pc k : at_slot ps c pc → 0 ≤ k < MAX_NPROCESS → quiet_but c ps → k ≠ c →
  sends_to ps c pc k → ∃ p, pend ps k p ∧ send_waits ps p pc ∧
    sc_receiver (p_syscall p) = c ∧ takes pc p = true.
Proof.
  intros Hc Hk Hq Hne Hs. unfold sends_to in Hs. destruct (ps !! Z.to_nat k) as [p|] eqn:Hp; [|done].
  rewrite !Is_true_true, !andb_true_iff, bool_decide_eq_true, !Z.eqb_eq in Hs.
  destruct Hs as [[[Hst Ht] Hr] Htakes]. exists p.
  assert (pend ps k p) as Hpend by done.
  destruct (Hq k p Hpend Hne) as [[Ht' _]|(d & Hw & _)]; [by rewrite Ht' in Ht|].
  destruct Hw as (? & ? & Hrecv). rewrite Hr in Hrecv.
  pose proof (at_slot_fun _ _ _ _ (proj1 (proj2 Hrecv)) Hc) as ->.
  split_and!; [done..| |done|done]. split_and!; [done..|]. by rewrite Hr.
Qed.

(** A process that does not send to [c] successfully is idle. *)
Lemma idle_unless_sends ps c pc k p : quiet_but c ps → at_slot ps c pc → pend ps k p → k ≠ c →
  ¬ sends_to ps c pc k → idle ps p.
Proof.
  intros Hq Hc Hp Hne Hno. destruct (Hq k p Hp Hne) as [?|(d & Hw & Htakes)]; [by left|right].
  exists d. split; [done|]. destruct (decide (sc_receiver (p_syscall p) = c)) as [Hr|]; [|by apply Htakes].
  destruct Hw as (Ht & _ & Hd). rewrite Hr in Hd.
  rewrite (at_slot_fun _ _ _ _ (proj1 (proj2 Hd)) Hc).
  destruct (takes pc p) eqn:Etk; [|done]. exfalso. destruct Hp as [[Hk Hp] Hps].
  apply Hno. unfold sends_to. by rewrite Hp, bool_decide_true, Ht, Hr, !Z.eqb_refl, Etk by done.
Qed.

(** Without a sender for [c] everything is idle. *)
Lemma no_sender_quiet ps c pc : quiet_but c ps → pend ps c pc → recv_waits pc →
  (∀ k, 0 ≤ k < MAX_NPROCESS → k ≠ c → ¬ sends_to ps c pc k) → quiet ps.
Proof.
  intros Hq [Hc Hst] Hrecv Hno k p Hp. destruct (decide (k = c)) as [->|Hne].
  - left. by rewrite (at_slot_fun _ _ _ _ (proj1 Hp) Hc).
  - apply (idle_unless_sends ps c pc k); try done. apply Hno; [apply Hp|done].
Qed.

(** A caller that sends does not receive. *)
Lemma sender_quiet_but ps c pc dst : quiet_but c ps → pend ps c pc → send_waits ps pc dst →
  quiet_but (sc_receiver (p_syscall pc)) ps ∧ (takes dst pc = false → quiet ps).
Proof.
  intros Hq [Hc Hst] Hw.
  assert (∀ k p, pend ps k p → k ≠ c → idle ps p) as Hidle.
  { intros k p Hp Hne. destruct (Hq k p Hp Hne) as [?|(d & Hw' & Htakes)]; [by left|right].
    exists d. split; [done|]. destruct (decide (sc_receiver (p_syscall p) = c)) as [Hr|]; [|by apply Htakes].
    destruct Hw' as (_ & _ & Hd). rewrite Hr in Hd.
    rewrite (at_slot_fun _ _ _ _ (proj1 (proj2 Hd)) Hc). unfold takes. by rewrite (proj1 Hw). }
  split.
  - intros k p Hp Hne. destruct (decide (k = c)) as [->|Hkc].
    + right. rewrite (at_slot_fun _ _ _ _ (proj1 Hp) Hc). by exists dst.
    + destruct (Hidle k p Hp Hkc) as [?|(d & ? & ?)]; [by left|right]. by exists d.
  - intros Ht k p Hp. destruct (decide (k = c)) as [->|Hkc]; [|by eapply Hidle].
    right. rewrite (at_slot_fun _ _ _ _ (proj1 Hp) Hc). by exists dst.
Qed.

(** One sweep with progress, then a quiet one. *)
Lemma clear_after_sweep s c s' : sweep s = Ret (s', 1) → table_ok (proc_set s') →
  curr_proc_idx s' = Ret c → quiet (proc_set s') →
  clear_pending_syscalls SWEEPS s = Ret s'.
Proof.
  intros Hs Hok Hc Hq. unfold SWEEPS. cbn [clear_pending_syscalls]. rewrite Hs, bind_ret.
  exact (clear_quiet s' c 15 Hok Hc Hq).
Qed.

Lemma completed_curr s i j s' : completed s i j s' → curr_proc_idx s' = curr_proc_idx s.
Proof. by intros (snd & dst & e' & _ & _ & _ & _ & _ & -> & _). Qed.

Lemma send_call s c pc dst : kwf s → curr_proc_idx s = Ret c → 0 ≤ c →
  pend (proc_set s) c pc →
  quiet_but c (proc_set s) → send_waits (proc_set s) pc dst → takes dst pc = true → ∃ s1 s',
  proc_try_syscall c s = Ret s1 ∧ clear_pending_syscalls SWEEPS s1 = Ret s' ∧
  curr_proc_idx s1 = Ret c ∧ pend (proc_set s1) c pc ∧
  completed s c (sc_receiver (p_syscall pc)) s' ∧ quiet (proc_set s').
Proof.
  intros Hk Hcur Hc0 Hp Hq Hw Ht.
  destruct (sender_quiet_but _ _ _ _ Hq Hp Hw) as [Hqb _].
  destruct (send_delivers s c pc dst Hk Hp Hw Ht) as (s1 & Htry & Hd & Hj).
  destruct (nth_distance c (sc_receiver (p_syscall pc)) (proj1 (proj1 Hj))) as [Hnth Hdist].
  destruct (sweep_completes s c c _ pc dst s1 16 1 (distance c (sc_receiver (p_syscall pc)) + 1) 0
              Hk Hcur Hqb Hp Hj Hw eq_refl Ht Hd) as (s' & Hs & Hcomp & Hquiet);
    [unfold MAX_NPROCESS in *; lia|done|done|].
  exists s1, s'. pose proof (parties_distinct s c _ pc dst Hp Hj Hw Ht) as Hne.
  destruct Hd as (e1 & -> & _). split_and!; [done| |done| |done..].
  - apply (clear_after_sweep _ c s'); [done| |by erewrite completed_curr|done].
    by apply k_table, (served_kwf s c (sc_receiver (p_syscall pc)) s').
  - split; [|apply Hp]. apply at_slot_insert; [apply (k_table s Hk)|apply Hj|].
    right. split; [done|apply Hp].
Qed.

Lemma recv_call s c pc i : kwf s → curr_proc_idx s = Ret c →
  pend (proc_set s) c pc → quiet_but c (proc_set s) → recv_waits pc →
  partner (proc_set s) c pc = Some (i, c) → ∃ s',
  clear_pending_syscalls SWEEPS s = Ret s' ∧ completed s i c s' ∧ quiet (proc_set s').
Proof.
  intros Hk Hcur Hp Hq Hrecv Hpart. pose proof (k_table s Hk) as Hok.
  unfold partner in Hpart. rewrite (proj1 Hrecv) in Hpart. change (SYS_RECV =? SYS_SEND) with false in Hpart.
  cbn iota in Hpart.
  pose proof (first_seqZ (sends_to (proc_set s) c pc) (λ i, (c + i) `mod` MAX_NPROCESS) 1 16) as Hfirst.
  change (Z.of_nat 16) with MAX_NPROCESS in Hfirst.
  destruct (head _) as [x|]; [|done]. injection Hpart as ->.
  destruct Hfirst as (a & Ha & Hi & Hsend & Hbefore).
  assert (∀ b, 1 ≤ b < 16 → (c + b) `mod` MAX_NPROCESS ≠ c) as Hpos.
  { intros b Hb. destruct Hp as [[Hc _] _]. unfold MAX_NPROCESS in *. Z.div_mod_to_equations. lia. }
  assert (a ≠ 16) as Ha16.
  { intros ->. destruct Hp as [[Hc Hpc] _]. unfold sends_to in Hsend. revert Hsend.
    rewrite Hi. replace ((c + 16) `mod` MAX_NPROCESS) with c
      by (unfold MAX_NPROCESS in *; Z.div_mod_to_equations; lia).
    rewrite Hpc, (proj1 Hrecv). by rewrite andb_false_r. }
  unfold MAX_NPROCESS in Ha.
  destruct (sends_to_spec (proc_set s) c pc i (proj1 Hp)) as (snd & Hsnd & Hw & Hr & Htakes); try done.
  { rewrite Hi. by apply Z.mod_pos_bound. }
  { rewrite Hi. apply Hpos. lia. }
  destruct (send_delivers s i snd pc Hk Hsnd Hw Htakes) as (s1 & Htry & Hd & _). rewrite Hr in Hd.
  destruct (sweep_completes s c i c snd pc s1 (16 - Z.to_nat a) (a + 1) 16 0
              Hk Hcur Hq Hsnd Hp Hw Hr Htakes Hd) as (s' & Hs & Hcomp & Hquiet).
  { lia. } { unfold MAX_NPROCESS. lia. }
  { destruct Hp as [[Hc _] _]. unfold MAX_NPROCESS in *. Z.div_mod_to_equations. lia. }
  exists s'. split_and!; [|done..]. apply (clear_after_sweep s c s'); [|by apply k_table, (served_kwf s i c s')|by erewrite completed_curr|done].
  unfold sweep.
  replace (Z.to_nat MAX_NPROCESS) with (Z.to_nat (a - 1) + Datatypes.S (16 - Z.to_nat a))%nat
    by (unfold MAX_NPROCESS; lia).
  rewrite for_up_app, for_up_noop, bind_ret.
  - cbn [for_up]. replace (1 + Z.of_nat (Z.to_nat (a - 1))) with a by lia.
    assert (visit a (s, 0) = Ret (s1, 0)) as ->; [|by rewrite bind_ret].
    unfold visit, nth_after. rewrite Hcur, !bind_ret, <- Hi, (get_proc_at s i snd (proj1 Hsnd)), bind_ret.
    rewrite bool_decide_true by apply Hsnd. rewrite Htry, bind_ret.
    destruct Hd as (e1 & -> & _). rewrite (get_proc_at _ i snd), bind_ret.
    + by rewrite (proj1 (proj2 Hw)).
    + apply at_slot_insert; [done|apply Hp|]. right. split; [|apply Hsnd].
      rewrite Hi. apply Hpos. lia.
  - intros b Hb. apply (visit_idle s c); [done..|]. intros p Hpb.
    apply (idle_unless_sends _ c pc _ p Hq (proj1 Hp) Hpb); [apply Hpos; lia|].
    apply Hbefore. lia.
Qed.

(** A system call is one rendezvous or none.  In a well-formed kernel state
    where no other pending call can progress, handling the pending call of
    the current process ([proc_try_syscall] and then all the sweeps of
    [clear_pending_syscalls]) terminates without a fault.  If the call has a
    partner, both parties become RUNNABLE, the receiver's user memory holds
    the sender's id and message, both see DONE and no other process or page
    changes; otherwise nothing changes.  The result is well formed and again
    quiet. *)
Lemma call_rendezvous s c pc : kwf s → curr_proc_idx s = Ret c →
  pend (proc_set s) c pc → quiet_but c (proc_set s) →
  recv_waits pc ∨ (∃ dst, send_waits (proc_set s) pc dst) → ∃ s1 s',
  proc_try_syscall c s = Ret s1 ∧ clear_pending_syscalls SWEEPS s1 = Ret s' ∧
  curr_proc_idx s1 = Ret c ∧ pend (proc_set s1) c pc ∧
  kwf s' ∧ quiet (proc_set s') ∧
  match partner (proc_set s) c pc with
  | Some (i, j) => completed s i j s'
  | None => s' = s
  end.
Proof.
  intros Hk Hcur Hp Hq [Hrecv|[dst Hw]]; pose proof (k_table s Hk) as Hok.
  - pose proof (proc_try_syscall_idle s c pc Hok (proj1 Hp) (or_introl Hrecv)) as Htry.
    destruct (partner (proc_set s) c pc) as [[i j]|] eqn:Hpart.
    + assert (j = c) as ->.
      { unfold partner in Hpart. rewrite (proj1 Hrecv) in Hpart. cbn in Hpart.
        destruct (head _) in Hpart; [|done]. by injection Hpart. }
      destruct (recv_call s c pc i Hk Hcur Hp Hq Hrecv Hpart) as (s' & Hs & Hcomp & Hquiet).
      exists s, s'. split_and!; try done; by eapply served_kwf.
    + exists s, s. assert (quiet (proc_set s)); [|by rewrite (clear_quiet s c 16)].
      apply (no_sender_quiet _ c pc); [done..|]. intros k Hk' Hne.
      unfold partner in Hpart. rewrite (proj1 Hrecv) in Hpart.
      pose proof (first_seqZ (sends_to (proc_set s) c pc) (λ i, (c + i) `mod` MAX_NPROCESS) 1 16) as Hfirst.
      change (Z.of_nat 16) with MAX_NPROCESS in Hfirst. cbn -[seqZ] in Hpart.
      destruct (head _); [done|]. destruct (nth_distance c k Hk') as [Hnth Hd].
      rewrite <- Hnth. apply Hfirst. unfold MAX_NPROCESS in *. lia.
  - destruct Hw as (Ht & Hst & Hr). unfold partner. rewrite Ht.
    change (SYS_SEND =? SYS_SEND) with true. cbn iota.
    rewrite (proj2 (proj1 (proj2 Hr))). cbn [mbind option_bind].
    destruct (takes dst pc) eqn:Etk.
    + destruct (send_call s c pc dst) as (s1 & s' & Htry & Hs & Hc1 & Hp1 & Hcomp & Hquiet); try done.
      { apply Hp. }
      exists s1, s'. split_and!; try done; by eapply served_kwf.
    + exists s, s. rewrite (proc_try_syscall_send s c pc dst Hok (proj1 Hp)), Etk by done.
      destruct (sender_quiet_but (proc_set s) c pc dst Hq Hp) as [_ Hquiet]; [done|].
      rewrite (clear_quiet s c 16) by auto. auto 10.
Qed.
End specification.
