(* ===== verification/Kernel.v ===== *)
(** * The kernel (grass/kernel.c, grass/kernel.s)

    [kernel_entry] runs with the trap frame that trap_entry saved on the
    kernel stack: 32 words, the program counter in [mepc], [mcause] and
    [mhartid].  The invariant [kernel_inv] says that exactly the process of
    the core is RUNNING and that no pending system call can progress; the
    theorems show what each interrupt does and that it keeps the invariant. *)
From S2P Require Import Prelude MemAlloc Earth Process Ipc Scheduler Rendezvous.

(** ** Operations *)
Record trap := Trap { t_hartid : Z; t_mcause : Z; t_mepc : Z; t_frame : list Z }.

Definition INTR_ID_SOFT_M : Z := 3.
Definition INTR_ID_TIMER : Z := 7.

Section kernel.
Context {E : Type} `{Earth E}.
Implicit Type s : kstate E.

(** [proc_set[curr_proc_idx] = f(proc_set[curr_proc_idx])] *)
Definition upd_curr (f : process → process) s : outcome (kstate E) :=
  c ← curr_proc_idx s;
  p ← get_proc s c;
  Ret (set_proc s c (f p)).

Definition excp_entry (id : Z) s : outcome (kstate E) :=
  Fault (Fatal "excp_entry: kernel got exception %d").

(** ctrl+c: the character is read, whatever it is, when a user process runs
    and input is waiting. *)
Definition killed_by_interrupt s : outcome (bool * kstate E) :=
  p ← curr_proc s;
  if (GPID_USER_START <=? p_pid p) && negb (tty_input_empty (earth s)) then
    '(c, e) ← tty_read (earth s);
    Ret (c =? 0x03, set_earth s e)
  else Ret (false, s).

Definition copy_syscall s : outcome (kstate E) :=
  p ← curr_proc s;
  '(paddr, e) ← mmu_translate (p_pid p) SYSCALL_ARG (earth s);
  let sc := decode_syscall (ram_load paddr SYSCALL_SIZE e) in
  upd_curr (with_syscall (Syscall (sc_type sc) (sc_sender sc) (sc_receiver sc) (sc_content sc) PENDING))
           (set_earth s e).

Definition intr_entry (id hartid : Z) s : outcome (kstate E) :=
  if id =? INTR_ID_TIMER then
    '(kill, s) ← killed_by_interrupt s;
    if (kill : bool) then upd_curr (λ p, with_context (u32 (APPS_ENTRY + 0xC)) (p_saved p) p) s
    else proc_yield s
  else if id =? INTR_ID_SOFT_M then
    let s := set_earth s (msip_clear hartid (earth s)) in
    s ← copy_syscall s;
    p ← curr_proc s;
    let s := proc_set_pending s (p_pid p) in
    s ← upd_curr (λ p, with_context (u32 (p_mepc p + 4)) (p_saved p) p) s;
    c ← curr_proc_idx s;
    s ← proc_try_syscall c s;
    proc_yield s
  else Fault (Fatal "intr_entry: kernel got interrupt %d").

Definition kernel_entry (t : trap) s : outcome (Z * list Z * kstate E) :=
  let s := KState (t_hartid t) (core_to_proc_idx s) (proc_set s) (earth s) in
  (* Save the process context. *)
  s ← upd_curr (with_context (t_mepc t) (t_frame t)) s;
  s ← (if negb (Z.land (t_mcause t) (Z.shiftl 1 31) =? 0)
       then intr_entry (Z.land (t_mcause t) 0x3FF) (t_hartid t) s
       else excp_entry (t_mcause t) s);
  (* Restore the process context. *)
  p ← curr_proc s;
  Ret (p_mepc p, p_saved p, s).
End kernel.

(** ** The invariant *)
Record kernel_inv {E} `{EarthLaws E} (c : Z) (s : kstate E) : Prop := {
  ki_wf : kwf s;
  ki_curr : curr_proc_idx s = Ret c;
  ki_core : (Z.to_nat (core_in_kernel s) < length (core_to_proc_idx s))%nat;
  ki_quiet : quiet (proc_set s);
  ki_running : ∃ p, at_slot (proc_set s) c p ∧ p_status p = PROC_RUNNING;
  ki_only k p : at_slot (proc_set s) k p → p_status p = PROC_RUNNING → k = c
}.

(** What of it holds although processes are ended while they wait for a
    message or others wait for them: a blocked receiver has no message yet,
    and no blocked sender could hand its message to a blocked receiver. *)
Definition apart (ps : list process) : Prop := ∀ i snd j dst,
  pend ps i snd → sc_type (p_syscall snd) = SYS_SEND → sc_receiver (p_syscall snd) = j → pend ps j dst →
  takes dst snd = false.

Record kernel_ok {E} `{EarthLaws E} (c : Z) (s : kstate E) : Prop := {
  ko_base : kbase s;
  ko_curr : curr_proc_idx s = Ret c;
  ko_core : (Z.to_nat (core_in_kernel s) < length (core_to_proc_idx s))%nat;
  ko_pending k p : pend (proc_set s) k p → sc_status (p_syscall p) = PENDING;
  ko_apart : apart (proc_set s);
  ko_running : ∃ p, at_slot (proc_set s) c p ∧ p_status p = PROC_RUNNING;
  ko_only k p : at_slot (proc_set s) k p → p_status p = PROC_RUNNING → k = c
}.

Lemma inv_ok {E} `{EarthLaws E} c (s : kstate E) : kernel_inv c s → kernel_ok c s.
Proof.
  intros [Hk Hcur Hcore Hq Hrun Honly]. constructor; try done; [by apply kwf_base| |].
  - intros k p Hp. by destruct (Hq k p Hp) as [[_ ?]|(d & (_ & ? & _) & _)].
  - intros i snd j dst Hi Ht Hr [Hj Hst]. destruct (Hq i snd Hi) as [[Ht' _]|(d & (_ & _ & _ & Hd & _) & Htakes)].
    + by rewrite Ht in Ht'.
    + rewrite Hr in Hd. by rewrite (at_slot_fun _ _ _ _ Hj Hd).
Qed.

Section yield.
Context {E : Type} `{EarthLaws E}.
Implicit Type s : kstate E.

(** [proc_yield] after the sweeps. *)
Definition yield_tail s : outcome (kstate E) :=
  next_idx ← schedule s;
  ASSERT (next_idx <? MAX_NPROCESS) "proc_yield: no process to run";;
  let s := set_curr_idx s next_idx in
  p ← curr_proc s;
  e ← mmu_switch (p_pid p) (earth s);
  let s := set_earth s (mmu_flush_cache e) in
  let s := if bool_decide (p_status p = PROC_READY)
           then set_proc s next_idx (first_run p) else s in
  let s := proc_set_running s (p_pid p) in
  e ← timer_reset (core_in_kernel s) (earth s);
  Ret (set_earth s e).

Lemma proc_yield_eq s c p : curr_proc_idx s = Ret c → at_slot (proc_set s) c p →
  proc_yield s = (s ← clear_pending_syscalls SWEEPS
                       (if bool_decide (p_status p = PROC_RUNNING)
                        then proc_set_runnable s (p_pid p) else s); yield_tail s).
Proof.
  intros Hc Hp. unfold proc_yield, curr_proc. by rewrite Hc, bind_ret, (get_proc_at s c p Hp), bind_ret.
Qed.

(** The process that runs next, with its context. *)
Definition started (p : process) : process :=
  with_status PROC_RUNNING (if decide (p_status p = PROC_READY) then first_run p else p).

Lemma at_slot_runnable ps k : 0 ≤ k < MAX_NPROCESS → runnable_slot ps k → ∃ p,
  at_slot ps k p ∧ (p_status p = PROC_READY ∨ p_status p = PROC_RUNNABLE).
Proof.
  intros Hk Hr. unfold runnable_slot in Hr. destruct (ps !! Z.to_nat k) as [p|] eqn:Hp; [|done].
  injection Hr as Hr. exists p. split; [done|]. unfold is_ready in Hr.
  rewrite orb_true_iff, !bool_decide_eq_true in Hr. done.
Qed.

(** The table after the dispatch of [p] in slot [k]. *)
Definition dispatch_procs (k : Z) (p : process) (ps : list process) : list process :=
  set_status_in k PROC_RUNNING
    (if bool_decide (p_status p = PROC_READY) then <[Z.to_nat k := first_run p]> ps else ps).

Lemma dispatch_slots ps k p : table_ok ps → at_slot ps k p → p_pid p = k → 0 < k →
  table_ok (dispatch_procs k p ps) ∧
  ∀ k' q, at_slot (dispatch_procs k p ps) k' q ↔
    (k' = k ∧ q = started p) ∨ (k' ≠ k ∧ at_slot ps k' q).
Proof.
  intros Hok Hp Hpid Hk0. pose proof (proj1 Hp) as Hk.
  assert (table_ok (if bool_decide (p_status p = PROC_READY)
                    then <[Z.to_nat k := first_run p]> ps else ps)) as Hok2.
  { case_bool_decide; [|done]. apply table_ok_insert; [done|]. exact (proj2 Hok _ _ (proj2 Hp)). }
  split; [by apply table_ok_set_status|]. intros k' q. unfold dispatch_procs, started.
  rewrite at_slot_status by (done || lia).
  assert (∀ r, p_pid r = k → (if decide (k = k ∧ p_pid r = k) then with_status PROC_RUNNING r else r)
               = with_status PROC_RUNNING r) as Hd by (intros; by rewrite decide_True).
  assert (∀ r, k' ≠ k → (if decide (k' = k ∧ p_pid r = k) then with_status PROC_RUNNING r else r) = r)
    as Hd' by (intros; rewrite decide_False; [done|]; by intros [? _]).
  case_bool_decide as Hr; [rewrite decide_True by done|rewrite decide_False by done].
  - setoid_rewrite at_slot_insert; [|done|done]. split.
    + intros (r & [[-> ->]|[Hne Hr']] & ->); [left; split; [done|]; by apply Hd|right].
      by rewrite Hd'.
    + intros [[-> ->]|[Hne Hq]]; [exists (first_run p); split; [by left|]; symmetry; by apply Hd|].
      exists q. split; [by right|]. by rewrite Hd'.
  - split.
    + intros (r & Hr' & ->). destruct (decide (k' = k)) as [->|Hne]; [left|right; by rewrite Hd'].
      rewrite (at_slot_fun _ _ _ _ Hr' Hp). split; [done|]. by apply Hd.
    + intros [[-> ->]|[Hne Hq]]; [exists p; split; [done|]; symmetry; by apply Hd|].
      exists q. by rewrite Hd'.
Qed.

(** [s'] is [s] with process [k] dispatched: only its slot changes. *)
Definition dispatched s (k : Z) (p : process) s' : Prop :=
  at_slot (proc_set s) k p ∧ (p_status p = PROC_READY ∨ p_status p = PROC_RUNNABLE) ∧
  curr_proc_idx s' = Ret k ∧ core_in_kernel s' = core_in_kernel s ∧
  length (core_to_proc_idx s') = length (core_to_proc_idx s) ∧
  e_same (earth s) (earth s') ∧ proc_set s' = dispatch_procs k p (proc_set s).

Lemma yield_tail_spec s c : kbase s → curr_proc_idx s = Ret c →
  (Z.to_nat (core_in_kernel s) < length (core_to_proc_idx s))%nat →
  match spec_next (proc_set s) c with
  | None => yield_tail s = Fault (Fatal "proc_yield: no process to run")
  | Some k => ∃ p s', yield_tail s = Ret s' ∧ dispatched s k p s'
  end.
Proof.
  intros Hk Hc Hcore. pose proof (b_table s Hk) as Hok. pose proof (spec_next_spec (proc_set s) c) as Hnext.
  unfold yield_tail, schedule. rewrite (round_robin_ok s c (proj1 Hok) Hc), bind_ret.
  destruct (spec_next (proc_set s) c) as [k|]; [|done]. cbn [from_option id].
  destruct Hnext as (Hkr & Hrun & _). destruct (at_slot_runnable _ _ Hkr Hrun) as (p & Hp & Hst).
  unfold ASSERT. rewrite (proj2 (Z.ltb_lt _ _)) by lia. rewrite bind_ret.
  assert (curr_proc_idx (set_curr_idx s k) = Ret k) as Hck.
  { unfold curr_proc_idx, set_curr_idx; simpl. by rewrite list_lookup_insert_eq. }
  unfold curr_proc. rewrite Hck, bind_ret, (get_proc_at (set_curr_idx s k) k p Hp), bind_ret.
  destruct (at_slot_pid _ _ _ Hok Hp) as [Hpid Hk0]; [by destruct Hst; congruence|]. rewrite Hpid.
  destruct (mmu_switch_law (earth s) k (b_inv s Hk)) as (e1 & He1 & Hsame1 & _).
  { apply (b_mapped s Hk k p Hp). by destruct Hst as [-> | ->]. }
  change (earth (set_curr_idx s k)) with (earth s). rewrite He1, bind_ret.
  pose proof (mmu_flush_cache_law e1 (proj1 Hsame1)) as Hsame2.
  cbn zeta. set (s1 := set_earth (set_curr_idx s k) (mmu_flush_cache e1)).
  set (s2 := if bool_decide _ then set_proc s1 k (first_run p) else s1).
  assert (s2 = set_procs s1 (if bool_decide (p_status p = PROC_READY)
                             then <[Z.to_nat k := first_run p]> (proc_set s) else proc_set s)) as ->.
  { unfold s2. by case_bool_decide. }
  destruct (timer_reset_law (mmu_flush_cache e1) (core_in_kernel s) (proj1 Hsame2)) as (e3 & He3 & Hsame3).
  exists p. eexists. cbn [proc_set_running proc_set_status set_procs earth core_in_kernel s1 set_earth set_curr_idx].
  rewrite He3, bind_ret. split; [done|]. split_and!; try done; simpl.
  - apply length_insert.
  - eapply e_same_trans; [exact Hsame1|]. by eapply e_same_trans.
Qed.

End yield.

(** ** Keeping the invariant *)

(** [ps'] has every process of [ps], with the same id and system call. *)
Definition keeps_calls (ps ps' : list process) : Prop := ∀ r d, at_slot ps r d → ∃ d',
  at_slot ps' r d' ∧ p_pid d' = p_pid d ∧ p_syscall d' = p_syscall d ∧
  (p_status d ≠ PROC_UNUSED → p_status d' ≠ PROC_UNUSED).

Lemma idle_keeps ps ps' p : keeps_calls ps ps' → idle ps p → idle ps' p.
Proof.
  intros Hkeep [?|(d & (Ht & Hst & Hr & Hd & Hpid & Hu) & Htakes)]; [by left|right].
  destruct (Hkeep _ _ Hd) as (d' & Hd' & Hpid' & Hsc & Hu'). exists d'. split.
  - split_and!; [done..|]. split_and!; [done..|congruence|auto].
  - unfold takes. rewrite Hsc. exact Htakes.
Qed.

Section invariant.
Context {E : Type} `{EarthLaws E}.
Implicit Type s : kstate E.

Definition none_running (ps : list process) : Prop :=
  ∀ k p, at_slot ps k p → p_status p ≠ PROC_RUNNING.

Lemma dispatched_inv s k p s' : kwf s → quiet (proc_set s) → none_running (proc_set s) →
  (Z.to_nat (core_in_kernel s) < length (core_to_proc_idx s))%nat →
  dispatched s k p s' → kernel_inv k s'.
Proof.
  intros Hk Hq Hnone Hcore (Hp & Hst & Hcurr & Hcik & Hlen & [Hinv Hsame] & Hps).
  destruct (at_slot_pid _ _ _ (k_table s Hk) Hp) as [Hpid Hk0]; [by destruct Hst; congruence|].
  destruct (dispatch_slots (proc_set s) k p (k_table s Hk) Hp Hpid Hk0) as [Hok Hslots].
  rewrite <- Hps in Hok, Hslots.
  assert (p_pid (started p) = p_pid p ∧ p_syscall (started p) = p_syscall p) as [Hpid' Hsc'].
  { unfold started. by case_decide. }
  constructor; [constructor| | | | |].
  - done.
  - done.
  - intros k' q [[-> ->]|[_ Hq']]%Hslots Ha; apply Hsame.
    + apply (k_mapped s Hk k p Hp). by destruct Hst as [-> | ->].
    + by apply (k_mapped s Hk k' q).
  - intros k' q [[[-> ->]|[_ Hq']]%Hslots Hpend]; [done|]. by apply (k_call s Hk k' q).
  - intros k' q [[-> ->]|[_ Hq']]%Hslots Hrecv; [|by apply (k_stale s Hk k' q)].
    unfold recv_waits in Hrecv. rewrite Hsc' in Hrecv.
    pose proof (k_stale s Hk k p Hp Hrecv). destruct Hst; congruence.
  - done.
  - congruence.
  - intros k' q [[[-> ->]|[_ Hq']]%Hslots Hpend]; [done|].
    eapply idle_keeps; [|by apply (Hq k' q)]. intros r d Hd.
    destruct (decide (r = k)) as [->|Hne]; [|exists d; rewrite Hslots; auto].
    rewrite (at_slot_fun _ _ _ _ Hd Hp). exists (started p). rewrite Hslots. split_and!; auto.
  - exists (started p). rewrite Hslots. auto.
  - intros k' q [[-> ->]|[_ Hq']]%Hslots Hrun; [done|]. by apply Hnone in Hq'.
Qed.

(** Replacing the slot of the current process by [q]. *)
Lemma replace_slot_wf s c p q : kernel_inv c s → at_slot (proc_set s) c p →
  p_pid q = p_pid p → p_status q ≠ PROC_UNUSED →
  (p_status q = PROC_PENDING_SYSCALL → syscall_ok (p_syscall q)) →
  (recv_waits q → p_status q = PROC_PENDING_SYSCALL) → ∀ e, e_same (earth s) e →
  kwf (KState (core_in_kernel s) (core_to_proc_idx s) (<[Z.to_nat c := q]> (proc_set s)) e).
Proof.
  intros [Hk Hcurr Hcore Hq (p0 & Hp0 & Hst) Honly] Hp Hpid Hu Hsc Hstale e [Hinv Hsame].
  rewrite (at_slot_fun _ _ _ _ Hp0 Hp) in Hst. pose proof (k_table s Hk) as Hok.
  destruct (at_slot_pid _ _ _ Hok Hp) as [Hpc Hc0]; [congruence|].
  constructor; simpl; [| done | | |].
  - apply table_ok_insert; [done|]. destruct Hp as [? _]. unfold slot_ok. rewrite Z2Nat.id by lia.
    split_and!; [right; congruence|right; congruence|lia].
  - intros k r [[-> ->]|[_ Hr]]%at_slot_insert Ha; try done; [|by apply Hsame, (k_mapped s Hk k r)|apply Hp].
    apply Hsame, (k_mapped s Hk c p Hp). by rewrite Hst.
  - intros k r [[[-> ->]|[_ Hr]]%at_slot_insert Ha]; try done; [by apply Hsc|by apply (k_call s Hk k r)|apply Hp].
  - intros k r [[-> ->]|[_ Hr]]%at_slot_insert Hrecv; try done; [by apply Hstale|by apply (k_stale s Hk k r)|apply Hp].
Qed.

Lemma replace_slot_calls s c p q : kernel_inv c s → at_slot (proc_set s) c p →
  p_pid q = p_pid p → p_syscall q = p_syscall p → p_status q ≠ PROC_UNUSED →
  p_status q ≠ PROC_PENDING_SYSCALL → quiet (<[Z.to_nat c := q]> (proc_set s)).
Proof.
  intros [Hk _ _ Hq _ _] Hp Hpid Hsc Hu Hn k r [[[-> ->]|[Hne Hr]]%at_slot_insert Hst];
    try done; [|apply (k_table s Hk)|apply Hp].
  eapply idle_keeps; [|by apply (Hq k r)]. intros j d Hd.
  destruct (decide (j = c)) as [->|Hjc].
  - rewrite (at_slot_fun _ _ _ _ Hd Hp). exists q. split_and!; try done.
    apply at_slot_insert; [apply (k_table s Hk)|apply Hp|by left].
  - exists d. split_and!; try done. apply at_slot_insert; [apply (k_table s Hk)|apply Hp|by right].
Qed.

Lemma replace_slot_none s c q : kernel_inv c s → 0 ≤ c < MAX_NPROCESS →
  p_status q ≠ PROC_RUNNING → none_running (<[Z.to_nat c := q]> (proc_set s)).
Proof.
  intros Hki Hc Hn k r [[-> ->]|[Hne Hr]]%at_slot_insert; try done; [|apply (ki_wf c s Hki)].
  intros Hrun. by apply (ki_only c s Hki k r) in Hr.
Qed.

(** A status change of the process just stored. *)
Lemma set_status_insert ps c q st : table_ok ps → 0 < c < MAX_NPROCESS → p_pid q = c →
  set_status_in c st (<[Z.to_nat c := q]> ps) = <[Z.to_nat c := with_status st q]> ps.
Proof.
  intros [Hlen Hs] Hc Hq. unfold MAX_NPROCESS in *. apply list_eq. intros i. rewrite lookup_set_status.
  destruct (decide (i = Z.to_nat c)) as [->|Hne].
  - rewrite !list_lookup_insert_eq by lia. simpl. f_equal.
    rewrite Hq, Z.eqb_refl. unfold MAX_NPROCESS. by rewrite (proj2 (Z.ltb_lt _ _)) by lia.
  - rewrite !list_lookup_insert_ne by done. destruct (ps !! i) as [p|] eqn:Hp; [|done]. simpl. f_equal.
    destruct (Hs i p Hp) as (_ & Hpid & _).
    rewrite (proj2 (Z.eqb_neq (p_pid p) c)) by lia. by rewrite andb_false_r.
Qed.
End invariant.

(** ** What the interrupts do *)
Section interrupts.
Context {E : Type} `{EarthLaws E}.
Implicit Type s : kstate E.

Definition is_intr (t : trap) (id : Z) : Prop :=
  Z.land (t_mcause t) (Z.shiftl 1 31) ≠ 0 ∧ Z.land (t_mcause t) 0x3FF = id.

(** The current process with the context of the trap. *)
Definition interrupted (t : trap) (p : process) : process :=
  with_context (t_mepc t) (t_frame t) p.

Lemma upd_curr_spec s c p f : curr_proc_idx s = Ret c → at_slot (proc_set s) c p →
  upd_curr f s = Ret (set_proc s c (f p)).
Proof. intros Hc Hp. unfold upd_curr. by rewrite Hc, bind_ret, (get_proc_at s c p Hp), bind_ret. Qed.

Lemma at_slot_same ps c p q : table_ok ps → at_slot ps c p → at_slot (<[Z.to_nat c := q]> ps) c q.
Proof. intros Hok Hp. apply at_slot_insert; [done|apply Hp|by left]. Qed.

(** Entry and exit of the kernel around an interrupt handler. *)
Lemma ok_kernel_entry_intr t s c p id : kernel_ok c s → t_hartid t = core_in_kernel s →
  is_intr t id → at_slot (proc_set s) c p →
  kernel_entry t s =
  (s1 ← intr_entry id (core_in_kernel s) (set_proc s c (interrupted t p));
   q ← curr_proc s1; Ret (p_mepc q, p_saved q, s1)).
Proof.
  intros Hki Hh [Hm Hid] Hp. unfold kernel_entry. rewrite Hh.
  destruct s as [cik idx ps e]; cbn [core_in_kernel core_to_proc_idx proc_set earth].
  rewrite (upd_curr_spec _ c p _ (ko_curr c _ Hki) Hp), bind_ret.
  rewrite (proj2 (Z.eqb_neq _ _) Hm), Hid. done.
Qed.
Lemma kernel_entry_intr t s c p id : kernel_inv c s → t_hartid t = core_in_kernel s →
  is_intr t id → at_slot (proc_set s) c p →
  kernel_entry t s =
  (s1 ← intr_entry id (core_in_kernel s) (set_proc s c (interrupted t p));
   q ← curr_proc s1; Ret (p_mepc q, p_saved q, s1)).
Proof. intros Hki. by apply ok_kernel_entry_intr, inv_ok. Qed.

(** The exit of the kernel after a dispatch restores the dispatched
    process. *)
Lemma dispatched_exit s k p s' : kbase s → dispatched s k p s' →
  (q ← curr_proc s'; Ret (p_mepc q, p_saved q, s')) = Ret (p_mepc (started p), p_saved (started p), s').
Proof.
  intros Hk (Hp & Hst & Hcurr & _ & _ & _ & Hps). unfold curr_proc. rewrite Hcurr, bind_ret.
  destruct (at_slot_pid _ _ _ (b_table s Hk) Hp) as [Hpid Hk0]; [by destruct Hst; congruence|].
  destruct (dispatch_slots (proc_set s) k p (b_table s Hk) Hp Hpid Hk0) as [_ Hslots].
  rewrite (get_proc_at s' k (started p)); [done|]. rewrite Hps. apply Hslots. by left.
Qed.

Lemma ok_running_facts s c p : kernel_ok c s → at_slot (proc_set s) c p →
  p_status p = PROC_RUNNING ∧ p_pid p = c ∧ 0 < c < MAX_NPROCESS.
Proof.
  intros [Hk _ _ _ _ (p0 & Hp0 & Hst) _] Hp. rewrite (at_slot_fun _ _ _ _ Hp0 Hp) in Hst.
  destruct (at_slot_pid _ _ _ (b_table s Hk) Hp) as [Hpid Hc0]; [congruence|].
  split_and!; [done..|lia|]. destruct Hp as [? _]. lia.
Qed.
Lemma running_facts s c p : kernel_inv c s → at_slot (proc_set s) c p →
  p_status p = PROC_RUNNING ∧ p_pid p = c ∧ 0 < c < MAX_NPROCESS.
Proof. intros Hki. by apply ok_running_facts, inv_ok. Qed.

Lemma killed_spec s p c : e_inv (earth s) → curr_proc_idx s = Ret c → at_slot (proc_set s) c p →
  ∃ kill e, killed_by_interrupt s = Ret (kill, set_earth s e) ∧ e_same (earth s) e ∧
    (p_pid p < GPID_USER_START ∨ tty_input_empty (earth s) = true → kill = false ∧ e = earth s).
Proof.
  intros Hinv Hc Hp. unfold killed_by_interrupt, curr_proc.
  rewrite Hc, bind_ret, (get_proc_at s c p Hp), bind_ret.
  destruct (Z.leb_spec GPID_USER_START (p_pid p)), (tty_input_empty (earth s)) eqn:Htty; cbn [andb negb].
  2:{ destruct (tty_read_law (earth s) Hinv Htty) as (ch & e & -> & Hsame). rewrite bind_ret.
      exists (ch =? 3), e. split_and!; [done..|]. intros [?|?]; [lia|done]. }
  all: exists false, (earth s); destruct s; (split_and!; [done|by apply e_same_refl|done]).
Qed.

(** A process killed by ctrl+c: only its program counter changes. *)
Lemma killed_continues t s c p e1 : kernel_inv c s → at_slot (proc_set s) c p →
  e_same (earth s) e1 → ∃ s',
  (s2 ← upd_curr (λ p, with_context (u32 (APPS_ENTRY + 0xC)) (p_saved p) p)
          (set_earth (set_proc s c (interrupted t p)) e1);
   q ← curr_proc s2; Ret (p_mepc q, p_saved q, s2)) = Ret (APPS_ENTRY + 0xC, t_frame t, s') ∧
  kernel_inv c s' ∧ earth s' = e1 ∧
  proc_set s' = <[Z.to_nat c := with_context (APPS_ENTRY + 0xC) (t_frame t) p]> (proc_set s).
Proof.
  intros Hki Hp Hsame. destruct (running_facts s c p Hki Hp) as (Hst & Hpid & Hc).
  pose proof (ki_wf c s Hki) as Hk. pose proof (k_table s Hk) as Hok.
  rewrite (upd_curr_spec _ c (interrupted t p)) by
    (apply (ki_curr c s Hki) || by eapply at_slot_same).
  rewrite bind_ret. unfold curr_proc. set (p2 := with_context _ _ _). set (s2 := set_proc _ _ _).
  assert (s2 = KState (core_in_kernel s) (core_to_proc_idx s) (<[Z.to_nat c := p2]> (proc_set s)) e1) as Hs2.
  { unfold s2, set_proc, set_earth, set_procs; simpl. by rewrite list_insert_insert_eq. }
  rewrite Hs2. change (curr_proc_idx _) with (curr_proc_idx s). rewrite (ki_curr c s Hki), bind_ret.
  rewrite (get_proc_at _ c p2) by (by eapply at_slot_same). rewrite bind_ret.
  eexists. split; [done|]. split; [|done]. constructor; simpl.
  - apply (replace_slot_wf s c p p2 Hki Hp); try done; simpl; [congruence|congruence|].
    intros Hrecv. by apply (k_stale s Hk c p Hp).
  - apply (ki_curr c s Hki).
  - apply (ki_core c s Hki).
  - apply (replace_slot_calls s c p p2 Hki Hp); try done; simpl; congruence.
  - exists p2. split; [by eapply at_slot_same|done].
  - intros k r [[-> _]|[_ Hr]]%at_slot_insert; try done; [|apply Hp]. by apply (ki_only c s Hki).
Qed.

(** A process that yields the core while it could go on: there is always a
    next one, itself at the latest. *)
Lemma running_yields t s c p e1 : kernel_inv c s → at_slot (proc_set s) c p →
  e_same (earth s) e1 →
  let s1 := set_earth (set_proc s c (with_status PROC_RUNNABLE (interrupted t p))) e1 in
  kwf s1 ∧ ∃ k q s', spec_next (proc_set s1) c = Some k ∧ dispatched s1 k q s' ∧ kernel_inv k s' ∧
    proc_yield (set_earth (set_proc s c (interrupted t p)) e1) = Ret s'.
Proof.
  intros Hki Hp Hsame. destruct (running_facts s c p Hki Hp) as (Hst & Hpid & Hc).
  pose proof (ki_wf c s Hki) as Hk. pose proof (k_table s Hk) as Hok.
  rewrite (proc_yield_eq _ c (interrupted t p)) by (apply (ki_curr c s Hki) || by eapply at_slot_same).
  rewrite bool_decide_true by done. cbn zeta.
  set (q := with_status PROC_RUNNABLE (interrupted t p)).
  assert (proc_set_runnable (set_earth (set_proc s c (interrupted t p)) e1) (p_pid (interrupted t p))
          = set_earth (set_proc s c q) e1) as ->.
  { unfold proc_set_runnable, proc_set_status, set_proc, set_earth, set_procs; simpl.
    rewrite Hpid. by rewrite set_status_insert. }
  set (s1 := set_earth (set_proc s c q) e1).
  assert (kwf s1) as Hk1.
  { apply (replace_slot_wf s c p q Hki Hp); try done. intros Hrecv.
    pose proof (k_stale s Hk c p Hp Hrecv). congruence. }
  assert (quiet (proc_set s1)) as Hq1 by (by apply (replace_slot_calls s c p q Hki Hp)).
  rewrite (clear_quiet s1 c 16 (k_table s1 Hk1) (ki_curr c s Hki) Hq1), bind_ret.
  pose proof (yield_tail_spec s1 c (kwf_base s1 Hk1) (ki_curr c s Hki) (ki_core c s Hki)) as Htail.
  pose proof (spec_next_spec (proc_set s1) c) as Hnext. split; [done|].
  destruct (spec_next (proc_set s1) c) as [k|].
  - destruct Htail as (r & s' & -> & Hdisp). exists k, r, s'. split_and!; [done..| |done].
    apply (dispatched_inv s1 k r s'); try done; [|apply (ki_core c s Hki)].
    apply replace_slot_none; [done|lia|done].
  - exfalso. apply (Hnext c); [lia|]. unfold runnable_slot.
    change (proc_set s1) with (<[Z.to_nat c := q]> (proc_set s)).
    by rewrite (proj2 (at_slot_same _ c p q Hok Hp)).
Qed.

Lemma timer_step t s c p : kernel_inv c s → t_hartid t = core_in_kernel s →
  is_intr t INTR_ID_TIMER → at_slot (proc_set s) c p → ∃ (kill : bool) e1, e_same (earth s) e1 ∧
  (p_pid p < GPID_USER_START ∨ tty_input_empty (earth s) = true → kill = false ∧ e1 = earth s) ∧
  if kill then ∃ s', kernel_entry t s = Ret (APPS_ENTRY + 0xC, t_frame t, s') ∧ kernel_inv c s' ∧ earth s' = e1 ∧
    proc_set s' = <[Z.to_nat c := with_context (APPS_ENTRY + 0xC) (t_frame t) p]> (proc_set s)
  else
    let s1 := set_earth (set_proc s c (with_status PROC_RUNNABLE (interrupted t p))) e1 in
    ∃ k q s', spec_next (proc_set s1) c = Some k ∧ dispatched s1 k q s' ∧ kernel_inv k s' ∧
      kernel_entry t s = Ret (p_mepc (started q), p_saved (started q), s').
Proof.
  intros Hki Hh Hi Hp. pose proof (ki_wf c s Hki) as Hk. pose proof (k_table s Hk) as Hok.
  rewrite (kernel_entry_intr t s c p _ Hki Hh Hi Hp). unfold intr_entry. rewrite Z.eqb_refl.
  pose proof (at_slot_same _ c p (interrupted t p) Hok Hp) as Hp0.
  destruct (killed_spec (set_proc s c (interrupted t p)) (interrupted t p) c
              (k_inv s Hk) (ki_curr c s Hki) Hp0) as (kill & e1 & -> & Hsame & Hno).
  rewrite bind_ret. exists kill, e1. split; [exact Hsame|]. split; [exact Hno|]. destruct kill.
  - by apply killed_continues.
  - destruct (running_yields t s c p e1 Hki Hp Hsame) as (Hk1 & k & q & s' & Hnext & Hdisp & Hki' & ->).
    rewrite bind_ret. exists k, q, s'. split_and!; [done..|]. eapply dispatched_exit; [by apply kwf_base|done].
Qed.

(** C21: timer preemption.  When the timer interrupts process [c], the
    kernel saves its program counter and registers, and unless the process
    is killed by ctrl+c makes it RUNNABLE, dispatches the nearest process
    that can run, in cyclic order after [c], and returns with exactly that
    process' context (the entry point and the argument registers on its
    first run); no other slot changes, user memory is unchanged, and exactly
    one process is running again.  A killed process continues at the call of
    exit() in its start-up code. *)
Theorem timer_preempts t s c p : kernel_inv c s → t_hartid t = core_in_kernel s →
  is_intr t INTR_ID_TIMER → at_slot (proc_set s) c p → ∃ (kill : bool) e1, e_same (earth s) e1 ∧
  (p_pid p < GPID_USER_START ∨ tty_input_empty (earth s) = true → kill = false ∧ e1 = earth s) ∧
  if kill then ∃ s', kernel_entry t s = Ret (APPS_ENTRY + 0xC, t_frame t, s') ∧ kernel_inv c s' ∧ earth s' = e1 ∧
    proc_set s' = <[Z.to_nat c := with_context (APPS_ENTRY + 0xC) (t_frame t) p]> (proc_set s)
  else
    let s1 := set_earth (set_proc s c (with_status PROC_RUNNABLE (interrupted t p))) e1 in
    ∃ k q s', spec_next (proc_set s1) c = Some k ∧ dispatched s1 k q s' ∧ kernel_inv k s' ∧
      kernel_entry t s = Ret (p_mepc (started q), p_saved (started q), s').
Proof. apply timer_step. Qed.

(** *** System calls *)

(** The caller after the kernel has copied its arguments [sc]. *)
Definition user_call s (c : Z) : syscall :=
  let sc := decode_syscall (take SYSCALL_SIZE (smem (earth s) c)) in
  Syscall (sc_type sc) (sc_sender sc) (sc_receiver sc) (sc_content sc) PENDING.

Definition caller (t : trap) (sc : syscall) (p : process) : process :=
  Process (p_pid p) sc PROC_PENDING_SYSCALL (u32 (t_mepc t + 4)) (t_frame t).

(** The state in which the call is tried: the caller's slot and the earth
    layer [e1] apart, the state of the trap. *)
Definition called (t : trap) s (c : Z) (p : process) (e1 : E) : kstate E :=
  KState (core_in_kernel s) (core_to_proc_idx s)
         (<[Z.to_nat c := caller t (user_call s c) p]> (proc_set s)) e1.

Lemma ok_soft_intr_prefix t s c p : kernel_ok c s → at_slot (proc_set s) c p → ∃ e1,
  e_same (earth s) e1 ∧
  intr_entry INTR_ID_SOFT_M (core_in_kernel s) (set_proc s c (interrupted t p)) =
  (s1 ← proc_try_syscall c (called t s c p e1); proc_yield s1).
Proof.
  intros Hki Hp. destruct (ok_running_facts s c p Hki Hp) as (Hst & Hpid & Hc).
  pose proof (ko_base c s Hki) as Hk. pose proof (b_table s Hk) as Hok. pose proof (ko_curr c s Hki) as Hcur.
  unfold intr_entry. change (INTR_ID_SOFT_M =? INTR_ID_TIMER) with false. rewrite Z.eqb_refl. cbn iota zeta.
  set (p1 := interrupted t p). set (s0 := set_earth _ _).
  pose proof (msip_clear_law (earth s) (core_in_kernel s) (b_inv s Hk)) as Hsame0.
  assert (mapped (earth s0) c) as Hm.
  { apply Hsame0, (b_mapped s Hk c p Hp). by rewrite Hst. }
  destruct (mmu_translate_law (earth s0) c (proj1 Hsame0) Hm) as (e1 & Htr & Hsame1 & Hhere).
  pose proof (e_same_trans _ _ _ Hsame0 Hsame1) as Hsame. exists e1. split; [exact Hsame|].
  pose proof (at_slot_same _ c p p1 Hok Hp) as Hp1.
  unfold copy_syscall, curr_proc. change (curr_proc_idx s0) with (curr_proc_idx s).
  rewrite Hcur, !bind_ret, (get_proc_at s0 c p1 Hp1), bind_ret.
  change (p_pid p1) with (p_pid p). rewrite Hpid, Htr, bind_ret.
  assert (mapped e1 c) as Hm1 by (by apply Hsame1).
  assert (SYSCALL_SIZE ≤ SYSCALL_PAGE)%nat as Hsz by (apply (bool_decide_unpack _); vm_compute; done).
  rewrite (ram_load_law e1 c SYSCALL_SIZE (proj1 Hsame) Hm1 Hhere Hsz).
  rewrite (proj2 (proj2 Hsame c)).
  rewrite (upd_curr_spec _ c p1) by done. rewrite bind_ret.
  fold (user_call s c). set (p2 := with_syscall _ p1).
  assert (set_proc (set_earth s0 e1) c p2 =
          KState (core_in_kernel s) (core_to_proc_idx s) (<[Z.to_nat c := p2]> (proc_set s)) e1) as ->.
  { unfold s0, set_proc, set_earth, set_procs; simpl. by rewrite list_insert_insert_eq. }
  change (curr_proc_idx (KState _ _ _ _)) with (curr_proc_idx s). rewrite Hcur, bind_ret.
  rewrite (get_proc_at _ c p2) by (by eapply at_slot_same). rewrite bind_ret.
  unfold proc_set_pending, proc_set_status, set_procs; cbn [core_in_kernel core_to_proc_idx proc_set earth].
  change (p_pid p2) with (p_pid p). rewrite Hpid, set_status_insert by done.
  rewrite (upd_curr_spec _ c (with_status PROC_PENDING_SYSCALL p2)) by (done || by eapply at_slot_same).
  rewrite bind_ret. change (curr_proc_idx (set_proc _ _ _)) with (curr_proc_idx s). rewrite Hcur, bind_ret.
  unfold called, set_proc, set_procs; cbn [core_in_kernel core_to_proc_idx proc_set earth].
  by rewrite list_insert_insert_eq.
Qed.
Lemma soft_intr_prefix t s c p : kernel_inv c s → at_slot (proc_set s) c p → ∃ e1,
  e_same (earth s) e1 ∧
  intr_entry INTR_ID_SOFT_M (core_in_kernel s) (set_proc s c (interrupted t p)) =
  (s1 ← proc_try_syscall c (called t s c p e1); proc_yield s1).
Proof. intros Hki. by apply ok_soft_intr_prefix, inv_ok. Qed.

(** A call the kernel can handle: a receive, or a send to a process. *)
Definition valid_call s (c : Z) : Prop :=
  sc_type (user_call s c) = SYS_RECV ∨
  (sc_type (user_call s c) = SYS_SEND ∧
   ∃ dst, receiver_ok (proc_set s) (sc_receiver (user_call s c)) dst).

Lemma user_call_ok s c : kwf s → mapped (earth s) c → valid_call s c → syscall_ok (user_call s c).
Proof.
  intros Hk Hm Hv. pose proof (smem_len (earth s) c (k_inv s Hk) Hm) as Hlen.
  assert (0 ≤ sc_type (user_call s c) < 2 ^ 32) as Ht.
  { destruct Hv as [-> |[-> _]]; by vm_compute. }
  unfold syscall_ok. split; [exact Ht|]. unfold user_call; cbn [sc_sender sc_receiver sc_content sc_status].
  split_and!; try (apply i32_range); try done.
  unfold decode_syscall; cbn [sc_content]. rewrite length_take, length_drop, length_take, Hlen.
  by vm_compute.
Qed.

(** The state in which a valid call is tried. *)
Lemma called_ok t s c p e1 : kernel_inv c s → at_slot (proc_set s) c p → e_same (earth s) e1 →
  valid_call s c →
  let s1 := called t s c p e1 in let pc := caller t (user_call s c) p in
  kwf s1 ∧ curr_proc_idx s1 = Ret c ∧ pend (proc_set s1) c pc ∧ quiet_but c (proc_set s1) ∧
  (recv_waits pc ∨ ∃ dst, send_waits (proc_set s1) pc dst).
Proof.
  intros Hki Hp Hsame Hv. cbn zeta. destruct (running_facts s c p Hki Hp) as (Hst & Hpid & Hc).
  pose proof (ki_wf c s Hki) as Hk. pose proof (k_table s Hk) as Hok.
  set (pc := caller t (user_call s c) p). pose proof (at_slot_same _ c p pc Hok Hp) as Hpc.
  assert (∀ r d, receiver_ok (proc_set s) r d → ∃ d', receiver_ok (<[Z.to_nat c := pc]> (proc_set s)) r d' ∧
            (r ≠ c → d' = d)) as Hrecv.
  { intros r d (Hr & Hd & Hdp & Hu). destruct (decide (r = c)) as [->|Hne].
    - exists pc. by split_and!.
    - exists d. split; [|done]. split_and!; try done. apply at_slot_insert; [done|apply Hp|by right]. }
  split_and!.
  - apply (replace_slot_wf s c p pc Hki Hp); try done. intros _. apply user_call_ok; try done.
    apply (k_mapped s Hk c p Hp). by rewrite Hst.
  - apply (ki_curr c s Hki).
  - done.
  - intros k r [[[? _]|[_ Hr]]%at_slot_insert Hkst] Hne; try done; [|apply Hp].
    destruct (ki_quiet c s Hki k r) as [?|(d & (Ht & Hs & Hd) & Htakes)]; [done|by left|right].
    destruct (Hrecv _ _ Hd) as (d' & Hd' & Heq). exists d'. split; [done|].
    intros Hnc. by rewrite (Heq Hnc).
  - destruct Hv as [Ht|[Ht [d Hd]]]; [by left|right].
    destruct (Hrecv _ _ Hd) as (d' & Hd' & _). by exists d'.
Qed.

Lemma completed_none_running s i j s' : kwf s → none_running (proc_set s) → completed s i j s' →
  none_running (proc_set s').
Proof.
  intros Hk Hn (snd & dst & e' & Hi & Hj & Hw & _ & Ht & -> & _) k p.
  pose proof (parties_distinct s i j snd dst Hi Hj Hw Ht) as Hij.
  intros [[_ ->]|[[_ ->]|(_ & _ & Hp)]]%at_slot_served; try done; [|apply (k_table s Hk)].
  by apply (Hn k).
Qed.

Lemma syscall_step_quiet t s c p : kernel_inv c s → t_hartid t = core_in_kernel s →
  is_intr t INTR_ID_SOFT_M → at_slot (proc_set s) c p → valid_call s c →
  ∃ e1 s2, e_same (earth s) e1 ∧
  let s1 := called t s c p e1 in
  match partner (proc_set s1) c (caller t (user_call s c) p) with
  | Some (i, j) => completed s1 i j s2
  | None => s2 = s1
  end ∧ quiet (proc_set s2) ∧
  match spec_next (proc_set s2) c with
  | Some k => ∃ q s', dispatched s2 k q s' ∧ kernel_inv k s' ∧
      kernel_entry t s = Ret (p_mepc (started q), p_saved (started q), s')
  | None => kernel_entry t s = Fault (Fatal "proc_yield: no process to run")
  end.
Proof.
  intros Hki Hh Hi Hp Hv. destruct (running_facts s c p Hki Hp) as (Hst & Hpid & Hc).
  rewrite (kernel_entry_intr t s c p _ Hki Hh Hi Hp).
  destruct (soft_intr_prefix t s c p Hki Hp) as (e1 & Hsame & ->). cbn zeta.
  destruct (called_ok t s c p e1 Hki Hp Hsame Hv) as (Hk1 & Hcur1 & Hpc & Hqb & Hcall).
  assert (none_running (proc_set (called t s c p e1))) as Hnone by (apply replace_slot_none; try done; lia).
  set (s1 := called t s c p e1) in *. set (pc := caller t (user_call s c) p) in *.
  destruct (call_rendezvous s1 c pc Hk1 Hcur1 Hpc Hqb Hcall)
    as (s1' & s2 & Htry & Hclear & Hcur1' & Hpc' & Hk2 & Hq2 & Hpart).
  exists e1, s2. split; [done|]. split; [exact Hpart|]. split; [exact Hq2|].
  rewrite Htry, bind_ret, (proc_yield_eq s1' c pc Hcur1' (proj1 Hpc')), bool_decide_false by done.
  rewrite Hclear, bind_ret.
  assert (curr_proc_idx s2 = Ret c ∧ none_running (proc_set s2) ∧
          (Z.to_nat (core_in_kernel s2) < length (core_to_proc_idx s2))%nat) as (Hcur2 & Hnone2 & Hcore2).
  { pose proof (ki_core c s Hki) as Hcore. destruct (partner (proc_set s1) c pc) as [[i j]|]; [|by subst s2].
    pose proof (completed_none_running s1 i j s2 Hk1 Hnone Hpart) as Hn2.
    destruct Hpart as (snd & dst & e' & _ & _ & _ & _ & _ & -> & _). done. }
  pose proof (yield_tail_spec s2 c (kwf_base s2 Hk2) Hcur2 Hcore2) as Htail.
  destruct (spec_next (proc_set s2) c) as [k|]; [|by rewrite Htail].
  destruct Htail as (q & s' & -> & Hdisp). rewrite bind_ret.
  exists q, s'. split_and!; [done|by apply (dispatched_inv s2 k q s')|]. eapply dispatched_exit; [by apply kwf_base|done].
Qed.

Lemma syscall_step t s c p : kernel_inv c s → t_hartid t = core_in_kernel s →
  is_intr t INTR_ID_SOFT_M → at_slot (proc_set s) c p → valid_call s c →
  ∃ e1 s2, e_same (earth s) e1 ∧
  let s1 := called t s c p e1 in
  match partner (proc_set s1) c (caller t (user_call s c) p) with
  | Some (i, j) => completed s1 i j s2
  | None => s2 = s1
  end ∧
  match spec_next (proc_set s2) c with
  | Some k => ∃ q s', dispatched s2 k q s' ∧ kernel_inv k s' ∧
      kernel_entry t s = Ret (p_mepc (started q), p_saved (started q), s')
  | None => kernel_entry t s = Fault (Fatal "proc_yield: no process to run")
  end.
Proof.
  intros Hki Hh Hi Hp Hv. destruct (syscall_step_quiet t s c p Hki Hh Hi Hp Hv) as (e1 & s2 & Hsame & Hpart & _ & Hres).
  by exists e1, s2.
Qed.

(** A synchronous exception stops the kernel, whichever process caused it. *)
Lemma exception_stops t s c : kernel_ok c s → t_hartid t = core_in_kernel s → Z.land (t_mcause t) (Z.shiftl 1 31) = 0 →
  kernel_entry t s = Fault (Fatal "excp_entry: kernel got exception %d").
Proof.
  intros Hko Hh Hm. destruct (ko_running c s Hko) as (p & Hp & _). unfold kernel_entry. rewrite Hh.
  destruct s as [cik idx ps e]; cbn [core_in_kernel core_to_proc_idx proc_set earth].
  rewrite (upd_curr_spec _ c p _ (ko_curr c _ Hko) Hp), bind_ret. by rewrite Hm.
Qed.

(** C20: a system call interrupt.  The kernel copies the caller's arguments,
    blocks it, and performs the rendezvous with its partner when there is
    one: both become RUNNABLE, the receiver's memory gets the message and
    sender id, both calls are DONE in user memory, and nothing else changes.
    Then the nearest process that can run is dispatched with its saved
    context, and again exactly one process runs and no pending call can
    progress; the kernel stops with "no process to run" exactly when every
    process is blocked. *)
Theorem syscall_interrupt t s c p : kernel_inv c s → t_hartid t = core_in_kernel s →
  is_intr t INTR_ID_SOFT_M → at_slot (proc_set s) c p → valid_call s c →
  ∃ e1 s2, e_same (earth s) e1 ∧
  let s1 := called t s c p e1 in
  match partner (proc_set s1) c (caller t (user_call s c) p) with
  | Some (i, j) => completed s1 i j s2
  | None => s2 = s1
  end ∧
  match spec_next (proc_set s2) c with
  | Some k => ∃ q s', dispatched s2 k q s' ∧ kernel_inv k s' ∧
      kernel_entry t s = Ret (p_mepc (started q), p_saved (started q), s')
  | None => kernel_entry t s = Fault (Fatal "proc_yield: no process to run")
  end.
Proof. apply syscall_step. Qed.

Lemma bad_call_faults t s c p : kernel_inv c s → t_hartid t = core_in_kernel s →
  is_intr t INTR_ID_SOFT_M → at_slot (proc_set s) c p →
  (sc_type (user_call s c) ≠ SYS_RECV → sc_type (user_call s c) ≠ SYS_SEND →
   kernel_entry t s = Fault (Fatal "proc_try_syscall: unknown syscall type=%d")) ∧
  (sc_type (user_call s c) = SYS_SEND →
   (∀ k q, at_slot (proc_set s) k q → p_pid q = sc_receiver (user_call s c) → p_status q = PROC_UNUSED) →
   kernel_entry t s = Fault (Fatal "proc_try_send: unknown receiver pid=%d")).
Proof.
  intros Hki Hh Hi Hp. destruct (running_facts s c p Hki Hp) as (Hst & Hpid & Hc).
  rewrite (kernel_entry_intr t s c p _ Hki Hh Hi Hp).
  destruct (soft_intr_prefix t s c p Hki Hp) as (e1 & Hsame & ->).
  pose proof (k_table s (ki_wf c s Hki)) as Hok. set (pc := caller t (user_call s c) p).
  pose proof (at_slot_same _ c p pc Hok Hp) as Hpc.
  unfold proc_try_syscall, proc_try_send.
  rewrite !(get_proc_at (called t s c p e1) c pc Hpc), !bind_ret. cbn [p_syscall pc caller]. split.
  - intros H1 H2. by rewrite (proj2 (Z.eqb_neq _ _) H1), (proj2 (Z.eqb_neq _ _) H2).
  - intros Ht Hnone. rewrite Ht. change (SYS_SEND =? SYS_RECV) with false. rewrite Z.eqb_refl. cbn iota.
    assert (∀ n j, 0 ≤ j → j + Z.of_nat n ≤ MAX_NPROCESS →
      try_send_loop n j pc (called t s c p e1) = Fault (Fatal "proc_try_send: unknown receiver pid=%d")) as Hloop.
    { induction n as [|n IH]; intros j Hj Hn; [done|]. cbn [try_send_loop].
      destruct (get_proc_lt (called t s c p e1) j) as (q & -> & Hq);
        [simpl; rewrite length_insert; apply Hok|unfold MAX_NPROCESS in *; lia|].
      rewrite bind_ret. assert (at_slot (proc_set (called t s c p e1)) j q) as Hat.
      { split; [unfold MAX_NPROCESS in *; lia|done]. }
      apply at_slot_insert in Hat as [[-> ->]|[Hne Hat]]; [| |done|apply Hp].
      - cbn [pc caller p_pid p_status p_syscall].
        destruct (Z.eqb_spec (p_pid p) (sc_receiver (user_call s c))) as [Heq|]; [|apply IH; lia].
        rewrite (Hnone c p Hp Heq) in Hst. done.
      - cbn [pc caller p_syscall].
        destruct (Z.eqb_spec (p_pid q) (sc_receiver (user_call s c))) as [Heq|]; [|apply IH; lia].
        rewrite (bool_decide_true _ (Hnone j q Hat Heq)). cbn [andb negb]. apply IH; lia. }
    by rewrite Hloop.
Qed.

(** C29: a malformed system call stops the kernel: an unknown call type, or a
    send to a process id that no slot below MAX_NPROCESS holds, ends in the
    corresponding FATAL. *)
Theorem bad_syscall_panics t s c p : kernel_inv c s → t_hartid t = core_in_kernel s →
  is_intr t INTR_ID_SOFT_M → at_slot (proc_set s) c p →
  (sc_type (user_call s c) ≠ SYS_RECV → sc_type (user_call s c) ≠ SYS_SEND →
   kernel_entry t s = Fault (Fatal "proc_try_syscall: unknown syscall type=%d")) ∧
  (sc_type (user_call s c) = SYS_SEND →
   (∀ k q, at_slot (proc_set s) k q → p_pid q = sc_receiver (user_call s c) → p_status q = PROC_UNUSED) →
   kernel_entry t s = Fault (Fatal "proc_try_send: unknown receiver pid=%d")).
Proof. apply bad_call_faults. Qed.
End interrupts.
