(* ===== verification/KernelRuns.v ===== *)
(** * Runs of the kernel

    A run alternates between a process computing, calls of the process server
    that create and end processes, and traps into the kernel.  The invariant
    of Kernel.v holds along every run in which processes are ended in good
    order; KernelOk.v has what holds along all runs. *)
From stdpp Require Import relations.
From S2P Require Import Prelude MemAlloc Earth Process Ipc Scheduler Rendezvous Kernel.

Section runs.
Context {E : Type} `{EarthLaws E}.
Implicit Type s : kstate E.

(** ** Steps *)

(** Nobody is blocked in a send to process [pid]. *)
Definition no_sender_to (ps : list process) (pid : Z) : Prop :=
  ∀ k q, pend ps k q → sc_type (p_syscall q) = SYS_SEND → sc_receiver (p_syscall q) ≠ pid.

(** What happens between two traps: the running process computes (memory
    changes, pages are mapped, input arrives), or it is the process server and
    calls one of the functions of [struct grass], which are ordinary calls
    without a trap: it loads a process, ends one, or ends all user
    processes. *)
Inductive ustep : kstate E → kstate E → Prop :=
  | u_compute s e : e_inv e → (∀ q, mapped (earth s) q → mapped e q) → ustep s (set_earth s e)
  | u_alloc s pid s' : proc_alloc s = Ret (pid, s') → ustep s s'
  | u_ready s pid p : at_slot (proc_set s) pid p → p_status p = PROC_LOADING → mapped (earth s) pid →
      ustep s (proc_set_ready s pid)
  | u_free s pid p s' : at_slot (proc_set s) pid p → 0 < pid → p_status p ≠ PROC_RUNNING →
      proc_free pid s = Ret s' → ustep s s'
  | u_killall s c s' : curr_proc_idx s = Ret c → c < GPID_USER_START → proc_free GPID_ALL s = Ret s' → ustep s s'.

(** One step: the above, or a trap enters the kernel and returns to a
    process. *)
Inductive kstep : kstate E → kstate E → Prop :=
  | kstep_user s s' : ustep s s' → kstep s s'
  | kstep_trap t s r s' : t_hartid t = core_in_kernel s → kernel_entry t s = Ret (r, s') → kstep s s'.

(** The steps that end no process while it waits for a message and leave
    nobody blocked in a send to one that has ended.  An exit request is of
    this kind when nobody sends to the process that exits; killall need not
    be, and [stale_receiver] and [orphaned_sender] of KernelExample.v show
    what happens then. *)
Definition orderly s s' : Prop := ustep s s' ∧ ∀ k p, at_slot (proc_set s) k p → p_status p ≠ PROC_UNUSED →
  at_slot (proc_set s') k (with_status PROC_UNUSED p) → ¬ recv_waits p ∧ no_sender_to (proc_set s') k.

Inductive orderly_step : kstate E → kstate E → Prop :=
  | ostep_user s s' : orderly s s' → orderly_step s s'
  | ostep_trap t s r s' : t_hartid t = core_in_kernel s → kernel_entry t s = Ret (r, s') → orderly_step s s'.

(** ** Ending processes *)

(** [s'] is [s] with the processes in [D] ended. *)
Record ended (D : Z → Prop) s s' : Prop := {
  en_cores : core_in_kernel s' = core_in_kernel s ∧ core_to_proc_idx s' = core_to_proc_idx s;
  en_table : table_ok (proc_set s');
  en_slots k r : at_slot (proc_set s') k r ↔
    (¬ D k ∧ at_slot (proc_set s) k r) ∨ (D k ∧ ∃ p, at_slot (proc_set s) k p ∧ r = with_status PROC_UNUSED p);
  en_inv : e_inv (earth s');
  en_mapped k p : at_slot (proc_set s) k p → p_status p ≠ PROC_UNUSED → ¬ D k →
    mapped (earth s) k → mapped (earth s') k
}.

Lemma free_ended s pid p s' : table_ok (proc_set s) → e_inv (earth s) → at_slot (proc_set s) pid p → 0 < pid →
  proc_free pid s = Ret s' → ended (λ k, k = pid ∧ p_pid p = pid) s s'.
Proof.
  intros Hok Hinv Hp Hpos Hfree. pose proof (proj1 Hp) as Hr.
  destruct (proc_free_spec s pid Hok Hinv ltac:(lia)) as (e' & Heq & He & Hmap).
  rewrite Heq in Hfree. injection Hfree as <-. constructor; cbn [proc_set earth]; try done.
  - by apply table_ok_set_status.
  - intros k r. rewrite at_slot_status by (done || lia). split.
    + intros (q & Hq & ->). destruct (decide (k = pid ∧ p_pid q = pid)) as [[-> Hpid]|Hne].
      * rewrite (at_slot_fun _ _ _ _ Hp Hq). right. split; [done|]. by exists q.
      * left. split; [|done]. intros [-> Hpid]. apply Hne. by rewrite (at_slot_fun _ _ _ _ Hq Hp).
    + intros [[Hne Hq]|[[-> Hpid] (q & Hq & ->)]]; exists r || exists q.
      * split; [done|]. rewrite decide_False; [done|]. intros [-> Hpid]. apply Hne.
        by rewrite (at_slot_fun _ _ _ _ Hp Hq).
      * split; [done|]. rewrite (at_slot_fun _ _ _ _ Hq Hp). by rewrite decide_True.
  - intros k q Hq Hu Hne Hm. apply Hmap. split; [done|]. intros ->. apply Hne. split; [done|].
    rewrite (at_slot_fun _ _ _ _ Hp Hq). by eapply at_slot_pid.
Qed.

Lemma killall_ended s s' : table_ok (proc_set s) → e_inv (earth s) → proc_free GPID_ALL s = Ret s' →
  ended (λ k, GPID_USER_START ≤ k) s s'.
Proof.
  intros Hok Hinv Hfree. destruct (free_users_spec s Hok Hinv) as (s1 & Heq & He & Hlen & Hcores & Hslots & Hmap).
  rewrite Heq in Hfree. injection Hfree as <-.
  assert (∀ k p, at_slot (proc_set s) k p → at_slot (proc_set s1) k
    (if decide (GPID_USER_START ≤ k) then with_status PROC_UNUSED p else p)) as Hat.
  { intros k p [Hk Hp]. split; [done|]. rewrite (Hslots _ _ Hp). f_equal. destruct (proj2 Hok _ _ Hp) as (Hu & Hpid & _).
    destruct (decide (p_status p = PROC_UNUSED)) as [Hst|Hst].
    - rewrite decide_False by (unfold user_slot; tauto). assert (with_status PROC_UNUSED p = p) as -> by (destruct p; cbn in *; by subst).
      by destruct (decide _).
    - destruct Hu as [?|Hpk]; [done|]. apply decide_ext. unfold user_slot. rewrite Hpk, Z2Nat.id by lia. tauto. }
  constructor; try done.
  - split; [done|]. intros i r Hr. destruct (lookup_lt_is_Some_2 (proc_set s) i) as [p Hp].
    { rewrite (proj1 Hok). apply lookup_lt_Some in Hr. lia. }
    rewrite (Hslots _ _ Hp) in Hr. injection Hr as <-. destruct (proj2 Hok _ _ Hp) as (Hu & Hpid & Hzero).
    destruct (decide _); [|done]. split_and!; [by left|done|done].
  - intros k r. split.
    + intros Hr. destruct (lookup_lt_is_Some_2 (proc_set s) (Z.to_nat k)) as [p Hp].
      { rewrite (proj1 Hok). destruct Hr as [? _]. unfold MAX_NPROCESS in *. lia. }
      assert (at_slot (proc_set s) k p) as Hkp by (split; [apply Hr|done]).
      rewrite (at_slot_fun _ _ _ _ Hr (Hat k p Hkp)). destruct (decide _) as [Hd|Hd]; [right|by left].
      split; [done|]. by exists p.
    + intros [[Hd Hr]|[Hd (p & Hp & ->)]]; [apply Hat in Hr; by rewrite decide_False in Hr|].
      apply Hat in Hp. by rewrite decide_True in Hp.
  - intros k p Hp Hu Hd Hm. apply Hmap. split; [done|]. intros (i & q & Hq & (? & Hst & Hne) & Hpid).
    destruct (proj2 Hok _ _ Hq) as (_ & [?|?] & _); unfold GPID_USER_START in *; lia.
Qed.

(** A step of the process server that ends processes. *)
Lemma ustep_ended s s' : table_ok (proc_set s) → e_inv (earth s) → ustep s s' →
  (∃ e, s' = set_earth s e ∧ e_inv e ∧ ∀ q, mapped (earth s) q → mapped e q) ∨
  (∃ pid, proc_alloc s = Ret (pid, s')) ∨
  (∃ pid p, s' = proc_set_ready s pid ∧ at_slot (proc_set s) pid p ∧ p_status p = PROC_LOADING ∧ mapped (earth s) pid) ∨
  ∃ D, ended D s s' ∧ ∀ k p, at_slot (proc_set s) k p → D k → p_status p = PROC_RUNNING →
    ∃ c, curr_proc_idx s = Ret c ∧ c ≠ k.
Proof.
  intros Hok Hinv Hu. destruct Hu as [s e He Hm|s pid s' Ha|s pid p Hp Hst Hm|s pid p s' Hp Hpos Hnr Hfree|s c s' Hc Hlt Hfree].
  - left. by exists e.
  - right. left. by exists pid.
  - right. right. left. by exists pid, p.
  - right. right. right. eexists. split; [by eapply free_ended|]. intros k q Hq [-> _] Hrun.
    by rewrite (at_slot_fun _ _ _ _ Hp Hq) in Hnr.
  - right. right. right. eexists. split; [by apply killall_ended|]. intros k q _ Hk _. exists c. split; [done|]. cbn in Hk. lia.
Qed.

(** ** The invariant *)

(** The table with slot [j] replaced by [q]. *)
Definition replaced (j : Z) (q : process) (ps ps' : list process) : Prop :=
  table_ok ps' ∧ ∀ k r, at_slot ps' k r ↔ (k = j ∧ r = q) ∨ (k ≠ j ∧ at_slot ps k r).

(** Changing another slot than that of the running process. *)
Lemma other_slot_inv c s j p q ps' e : kernel_inv c s → at_slot (proc_set s) j p → replaced j q (proc_set s) ps' →
  p_status p ≠ PROC_RUNNING → p_status q ≠ PROC_RUNNING → p_status q ≠ PROC_PENDING_SYSCALL →
  p_status q ≠ PROC_UNUSED → p_syscall q = p_syscall p → ¬ recv_waits p →
  (p_status p ≠ PROC_UNUSED → p_pid q = p_pid p) →
  e_inv e → (awake (p_status q) → mapped e j) → (∀ k, k ≠ j → mapped (earth s) k → mapped e k) →
  kernel_inv c (KState (core_in_kernel s) (core_to_proc_idx s) ps' e).
Proof.
  intros [[Hok Hinv Hmap Hcall Hstale] Hcur Hcore Hq (p0 & Hp0 & Hrun) Honly] Hp [Hok' Hslots] Hnr Hnr' Hnp Hqu Hsc Hnrecv
    Hpid He Hqm Hem.
  assert (c ≠ j) as Hcj by (intros ->; rewrite (at_slot_fun _ _ _ _ Hp0 Hp) in Hrun; done).
  constructor; [constructor| | | | |]; cbn [proc_set earth core_in_kernel core_to_proc_idx]; try done.
  - intros k r [[-> ->]|[Hk Hr]]%Hslots Ha; [by apply Hqm|]. by apply Hem, (Hmap k r).
  - intros k r [[[-> ->]|[Hk Hr]]%Hslots Hst]; [done|]. by apply (Hcall k r).
  - intros k r [[-> ->]|[Hk Hr]]%Hslots Hw; [|by apply (Hstale k r)]. destruct Hnrecv. unfold recv_waits in *. congruence.
  - intros k r [[[-> ->]|[Hk Hr]]%Hslots Hst]; [done|].
    destruct (Hq k r (conj Hr Hst)) as [?|(d & (Ht & Hs & Hpos & Hd & Hdp & Hu) & Htakes)]; [by left|right].
    destruct (decide (sc_receiver (p_syscall r) = j)) as [Hj|Hj].
    + exists q. assert (d = p) as -> by (eapply at_slot_fun; [exact Hd|]; by rewrite Hj).
      split; [|unfold takes in *; by rewrite Hsc]. split_and!; [done..|]. split_and!; try done.
      * apply Hslots. left. by split.
      * rewrite Hpid by done. congruence.
    + exists d. split; [|done]. split_and!; [done..|]. split_and!; try done. apply Hslots. by right.
  - exists p0. split; [|done]. apply Hslots. right. by split.
  - intros k r [[-> ->]|[Hk Hr]]%Hslots Hst; [done|]. by apply (Honly k r).
Qed.

Lemma status_replaced ps pid p st : table_ok ps → at_slot ps pid p → p_pid p = pid → 0 < pid →
  replaced pid (with_status st p) ps (set_status_in pid st ps).
Proof.
  intros Hok Hp Hpid Hpos. split; [by apply table_ok_set_status|]. intros k r.
  rewrite at_slot_status by (done || (split; [lia|apply Hp])). split.
  - intros (q & Hq & ->). destruct (decide (k = pid)) as [->|Hne]; [left|right].
    + rewrite (at_slot_fun _ _ _ _ Hq Hp), decide_True by done. done.
    + rewrite decide_False by tauto. done.
  - intros [[-> ->]|[Hne Hr]]; [exists p; by rewrite decide_True|]. exists r. by rewrite decide_False by tauto.
Qed.

Lemma compute_inv c s e : kernel_inv c s → e_inv e → (∀ q, mapped (earth s) q → mapped e q) →
  kernel_inv c (set_earth s e).
Proof.
  intros [[Hok Hinv Hmap Hcall Hstale] Hcur Hcore Hq Hrun Honly] He Hm.
  constructor; [constructor| | | | |]; try done. intros k p Hp Ha. apply Hm. by apply (Hmap k p).
Qed.

Lemma alloc_inv c s pid s' : kernel_inv c s → proc_alloc s = Ret (pid, s') → kernel_inv c s'.
Proof.
  intros Hki Ha. pose proof (ki_wf c s Hki) as Hwf. pose proof (k_table s Hwf) as Hok.
  pose proof (proc_alloc_loop_spec 16 1 s (proj1 Hok) ltac:(lia) ltac:(lia)) as Hspec.
  change (proc_alloc_loop 16 1 s) with (proc_alloc s) in Hspec.
  destruct (head _) as [j|]; [|by rewrite Hspec in Ha]. destruct Hspec as (Hj & p & Hp & Hu & Heq).
  rewrite Heq in Ha. injection Ha as <- <-.
  assert (table_ok (<[Z.to_nat j := loaded j p]> (proc_set s))) as Hok'.
  { apply table_ok_insert; [done|]. replace j with (Z.of_nat (Z.to_nat j)) at 2 by lia. apply slot_ok_loaded. lia. }
  destruct (decide (j = MAX_NPROCESS)) as [->|Hne].
  - assert (∀ k r, at_slot (<[Z.to_nat MAX_NPROCESS := loaded MAX_NPROCESS p]> (proc_set s)) k r ↔ at_slot (proc_set s) k r)
      as Hslots.
    { intros k r. unfold at_slot, MAX_NPROCESS. split; intros [Hk Hr]; (split; [done|]).
      - by rewrite list_lookup_insert_ne in Hr by lia.
      - by rewrite list_lookup_insert_ne by lia. }
    destruct Hki as [[_ Hinv Hmap Hcall Hstale] Hcur Hcore Hq Hrun Honly].
    constructor; [constructor| | | | |]; cbn [set_proc set_procs proc_set earth core_in_kernel core_to_proc_idx]; try done.
    all: unfold pend, no_stale, quiet; try setoid_rewrite Hslots; try done.
    intros k r [Hr%Hslots Hst]. eapply idle_keeps; [|by apply (Hq k r)].
    intros x d Hd. exists d. split_and!; try done. by apply Hslots.
  - assert (at_slot (proc_set s) j p) as Hat by (unfold at_slot, MAX_NPROCESS in *; split; [lia|done]).
    apply (other_slot_inv c s j p (loaded j p)); try done; try congruence.
    + split; [done|]. intros k r. apply at_slot_insert; [done|apply Hat].
    + intros Hw. pose proof (k_stale s Hwf j p Hat Hw). congruence.
    + apply Hwf.
    + by intros [_ []].
Qed.

Lemma ready_inv c s pid p : kernel_inv c s → at_slot (proc_set s) pid p → p_status p = PROC_LOADING →
  mapped (earth s) pid → kernel_inv c (proc_set_ready s pid).
Proof.
  intros Hki Hp Hst Hm. pose proof (ki_wf c s Hki) as Hwf. pose proof (k_table s Hwf) as Hok.
  destruct (at_slot_pid _ _ _ Hok Hp) as [Hpid Hpos]; [congruence|].
  apply (other_slot_inv c s pid p (with_status PROC_READY p)); try done; try congruence.
  - by apply status_replaced.
  - intros Hw. pose proof (k_stale s Hwf pid p Hp Hw). congruence.
  - apply Hwf.
Qed.

Lemma ended_inv (D : Z → Prop) c s s' : kernel_inv c s → ended D s s' → ¬ D c →
  (∀ k p, at_slot (proc_set s) k p → D k → p_status p ≠ PROC_UNUSED → ¬ recv_waits p ∧ no_sender_to (proc_set s') k) →
  kernel_inv c s'.
Proof.
  intros [[Hok Hinv Hmap Hcall Hstale] Hcur Hcore Hq (p0 & Hp0 & Hrun) Honly] [[Hc1 Hc2] Hok' Hslots He Hm] Hc Hord.
  constructor; [constructor| | | | |]; try done.
  - intros k r [[Hd Hr]|[Hd (p & Hp & ->)]]%Hslots Ha; [|by destruct Ha]. apply (Hm k r); [done|apply Ha|done|]. by apply (Hmap k r).
  - intros k r [[[Hd Hr]|[Hd (p & Hp & ->)]]%Hslots Hst]; [|done]. by apply (Hcall k r).
  - intros k r [[Hd Hr]|[Hd (p & Hp & ->)]]%Hslots Hw; [by apply (Hstale k r)|].
    pose proof (Hstale k p Hp Hw) as Hst. destruct (Hord k p Hp Hd) as [Hnw _]; [congruence|done].
  - unfold curr_proc_idx in *. by rewrite Hc1, Hc2.
  - by rewrite Hc1, Hc2.
  - intros k r Hkr. pose proof Hkr as [[[Hd Hr]|[Hd (p & Hp & ->)]]%Hslots Hst]; [|done].
    destruct (Hq k r (conj Hr Hst)) as [?|(d & (Ht & Hs & Hpos & Hd' & Hdp & Hu) & Htakes)]; [by left|right].
    exists d. split; [|done]. split_and!; [done..|]. split_and!; try done. apply Hslots. left. split; [|done].
    intros HD. destruct (Hord _ d Hd' HD Hu) as [_ Hno]. by apply (Hno k r Hkr Ht).
  - exists p0. split; [|done]. apply Hslots. by left.
  - intros k r [[Hd Hr]|[Hd (p & Hp & ->)]]%Hslots Hst; [|done]. by apply (Honly k r).
Qed.

Lemma orderly_inv c s s' : kernel_inv c s → orderly s s' → kernel_inv c s'.
Proof.
  intros Hki [Hu Hord]. pose proof (ki_wf c s Hki) as Hwf. pose proof (k_table s Hwf) as Hok.
  destruct (ustep_ended s s' Hok (k_inv s Hwf) Hu)
    as [(e & -> & He & Hm)|[(pid & Ha)|[(pid & p & -> & Hp & Hst & Hm)|(D & Hend & Hcur)]]].
  - by apply compute_inv.
  - by eapply alloc_inv.
  - by eapply ready_inv.
  - apply (ended_inv D c s s' Hki Hend).
    + intros Hd. destruct (ki_running c s Hki) as (p & Hp & Hrun). destruct (Hcur c p Hp Hd Hrun) as (c' & Hc' & Hne).
      rewrite (ki_curr c s Hki) in Hc'. congruence.
    + intros k p Hp Hd Hst. apply (Hord k p Hp Hst), (en_slots D s s' Hend). right. split; [done|]. by exists p.
Qed.

(** A trap returns only for a timer interrupt or a call the kernel can
    handle. *)
Lemma entry_is_intr t s r : kernel_entry t s = Ret r →
  is_intr t INTR_ID_TIMER ∨ is_intr t INTR_ID_SOFT_M.
Proof.
  unfold kernel_entry. intros Hret. apply bind_ret_inv in Hret as (s1 & _ & Hret).
  apply bind_ret_inv in Hret as (s2 & Hs2 & _). destruct (negb _) eqn:Hm; [|discriminate].
  apply negb_true_iff, Z.eqb_neq in Hm. unfold intr_entry in Hs2.
  destruct (Z.eqb_spec (Z.land (t_mcause t) 0x3FF) INTR_ID_TIMER) as [Ht|]; [by left|].
  destruct (Z.eqb_spec (Z.land (t_mcause t) 0x3FF) INTR_ID_SOFT_M) as [Ht|]; [by right|discriminate].
Qed.

Lemma returned_call_valid t s c p r : kernel_inv c s → t_hartid t = core_in_kernel s →
  is_intr t INTR_ID_SOFT_M → at_slot (proc_set s) c p → kernel_entry t s = Ret r → valid_call s c.
Proof.
  intros Hki Hh Hi Hp Hret. destruct (bad_call_faults t s c p Hki Hh Hi Hp) as [Htype Hrecv].
  destruct (decide (sc_type (user_call s c) = SYS_RECV)) as [Hr|Hr]; [by left|].
  destruct (decide (sc_type (user_call s c) = SYS_SEND)) as [Hs|Hs]; [|by rewrite Htype in Hret].
  right. split; [done|]. set (r0 := sc_receiver (user_call s c)) in *.
  assert (¬ (∀ k q, at_slot (proc_set s) k q → p_pid q = r0 → p_status q = PROC_UNUSED)) as Hex.
  { intros Hall. by rewrite (Hrecv Hs Hall) in Hret. }
  destruct (decide (0 < r0 < MAX_NPROCESS)) as [Hrange|Hrange].
  - destruct (lookup_lt_is_Some_2 (proc_set s) (Z.to_nat r0)) as [q Hq].
    { rewrite (proj1 (k_table s (ki_wf c s Hki))). unfold MAX_NPROCESS in *. lia. }
    destruct (decide (p_status q = PROC_UNUSED)) as [Hu|Hu].
    + exfalso. apply Hex. intros k q' Hq' Hpid. destruct (decide (p_status q' = PROC_UNUSED)) as [|Hu']; [done|].
      destruct (at_slot_pid _ _ _ (k_table s (ki_wf c s Hki)) Hq' Hu') as [Hk _].
      assert (k = r0) as -> by congruence. destruct Hq' as [_ Hq']. congruence.
    + exists q. assert (at_slot (proc_set s) r0 q) as Hat by (split; [lia|done]).
      destruct (at_slot_pid _ _ _ (k_table s (ki_wf c s Hki)) Hat Hu) as [? ?]. by split_and!.
  - exfalso. apply Hex. intros k q Hq Hpid. destruct (decide (p_status q = PROC_UNUSED)) as [|Hu]; [done|].
    destruct (at_slot_pid _ _ _ (k_table s (ki_wf c s Hki)) Hq Hu) as [? ?]. destruct Hq as [? _]. lia.
Qed.

(** Every trap that returns keeps the invariant. *)
Lemma trap_inv t s c r s' : kernel_inv c s → t_hartid t = core_in_kernel s → kernel_entry t s = Ret (r, s') →
  ∃ k, kernel_inv k s'.
Proof.
  intros Hki Hh Hret. destruct (ki_running c s Hki) as (p & Hp & _).
  destruct (entry_is_intr t s _ Hret) as [Hi|Hi].
  - destruct (timer_step t s c p Hki Hh Hi Hp) as (kill & e1 & _ & _ & Hres). destruct kill.
    + destruct Hres as (s2 & Heq & Hki' & _). rewrite Heq in Hret. injection Hret as _ <-. eauto.
    + destruct Hres as (k & q & s2 & _ & _ & Hki' & Heq). rewrite Heq in Hret. injection Hret as _ <-. eauto.
  - pose proof (returned_call_valid t s c p _ Hki Hh Hi Hp Hret) as Hv.
    destruct (syscall_step t s c p Hki Hh Hi Hp Hv) as (e1 & s2 & _ & _ & Hres).
    destruct (spec_next (proc_set s2) c) as [k|]; [|by rewrite Hres in Hret].
    destruct Hres as (q & s3 & _ & Hki' & Heq). rewrite Heq in Hret. injection Hret as _ <-. eauto.
Qed.
End runs.
