(* ===== verification/Messages.v ===== *)
(** * Sending and receiving a message (library/syscall/syscall.c)

    [sys_send] and [sys_recv] of an application fill in the [struct syscall]
    in their page at SYSCALL_ARG, raise a software interrupt and wait until
    the status in that page is no longer PENDING.  The theorems compose them
    with the kernel: the receiver finds the bytes the sender passed. *)
From S2P Require Import Prelude MemAlloc Earth Process Ipc Scheduler Rendezvous Kernel.

(** ** The application's side *)

(** The stores of [sys_send(receiver, msg, size)] into the page. *)
Definition sys_send (receiver : Z) (msg page : list Z) : list Z :=
  let page := splice page 0 (le32 SYS_SEND) in
  let page := splice page 8 (le32 (u32 receiver)) in
  let page := splice page SYSCALL_STATUS_OFF (le32 PENDING) in
  splice page 12 msg.

(** The stores of [sys_recv(from, sender, buf, size)] before the trap ... *)
Definition sys_recv (from : Z) (page : list Z) : list Z :=
  let page := splice page 0 (le32 SYS_RECV) in
  let page := splice page 4 (le32 (u32 from)) in
  splice page SYSCALL_STATUS_OFF (le32 PENDING).

(** ... and what it hands to its caller afterwards: [buf] and [*sender]. *)
Definition sys_recv_result (size : nat) (page : list Z) : list Z * Z :=
  (take size (drop 12 page), i32 (get32 page 4)).

(** [while (sc->status == PENDING)] in [trap] goes on. *)
Definition spins (page : list Z) : bool := get32 page SYSCALL_STATUS_OFF =? PENDING.

(** ** Reading back what was stored *)
Lemma get32_splice_eq page off v : (off + 4 ≤ length page)%nat → 0 ≤ v < 2 ^ 32 →
  get32 (splice page off (le32 v)) off = v.
Proof.
  intros Hlen Hv. unfold splice. rewrite get32_app_r by (rewrite length_take; lia).
  rewrite length_take, Nat.min_l, Nat.sub_diag by lia. by rewrite get32_le32, u32_small.
Qed.

Lemma byte_at_splice_ne page off bs i : (off + length bs ≤ length page)%nat →
  (i < off ∨ off + length bs ≤ i)%nat → byte_at (splice page off bs) i = byte_at page i.
Proof.
  intros Hlen Hi. unfold byte_at, splice. f_equal. destruct Hi as [Hi|Hi].
  - rewrite lookup_app_l by (rewrite length_take; lia). by apply lookup_take_lt.
  - rewrite lookup_app_r by (rewrite length_take; lia). rewrite lookup_app_r by (rewrite length_take; lia).
    rewrite lookup_drop. f_equal. rewrite length_take. lia.
Qed.

Lemma get32_splice_ne page off bs i : (off + length bs ≤ length page)%nat →
  (i + 4 ≤ off ∨ off + length bs ≤ i)%nat → get32 (splice page off bs) i = get32 page i.
Proof. intros Hlen Hi. unfold get32. rewrite !byte_at_splice_ne by lia. done. Qed.

Lemma drop_splice page off bs i : (off + length bs ≤ length page)%nat → i = off →
  ∃ rest, drop i (splice page off bs) = bs ++ rest.
Proof. intros Hlen ->. unfold splice. rewrite drop_app_length' by (rewrite length_take; lia). eauto. Qed.

Section messages.
Context {E : Type} `{EarthLaws E}.
Implicit Type s : kstate E.

(** The call the kernel copies after [sys_send]. *)
Lemma send_call_fields s c j msg page : length page = SYSCALL_PAGE → (length msg ≤ SYSCALL_MSG_LEN)%nat →
  - 2 ^ 31 ≤ j < 2 ^ 31 → smem (earth s) c = sys_send j msg page →
  sc_type (user_call s c) = SYS_SEND ∧ sc_receiver (user_call s c) = j ∧
  take (length msg) (sc_content (user_call s c)) = msg.
Proof.
  intros Hpage Hmsg Hj Hmem. unfold user_call. rewrite Hmem. unfold decode_syscall.
  cbn [sc_type sc_receiver sc_content].
  change SYSCALL_PAGE with 4096%nat in Hpage. unfold SYSCALL_MSG_LEN in *.
  assert (∀ i, (i + 4 ≤ SYSCALL_SIZE)%nat → get32 (take SYSCALL_SIZE (sys_send j msg page)) i = get32 (sys_send j msg page) i) as Htake.
  { intros i Hi. unfold get32, byte_at. by rewrite !lookup_take_lt by lia. }
  rewrite !Htake by (unfold SYSCALL_SIZE; lia). clear Htake. unfold sys_send, SYSCALL_STATUS_OFF. cbv zeta.
  set (p1 := splice page 0 _). assert (length p1 = 4096%nat) as H1 by (unfold p1; rewrite length_splice; rewrite ?length_le32; lia).
  set (p2 := splice p1 8 _). assert (length p2 = 4096%nat) as H2 by (unfold p2; rewrite length_splice; rewrite ?length_le32; lia).
  set (p3 := splice p2 1036 _). assert (length p3 = 4096%nat) as H3 by (unfold p3; rewrite length_splice; rewrite ?length_le32; lia).
  split_and!.
  - rewrite get32_splice_ne by lia. unfold p3. rewrite get32_splice_ne by (rewrite ?length_le32; lia).
    unfold p2. rewrite get32_splice_ne by (rewrite ?length_le32; lia).
    unfold p1. by rewrite get32_splice_eq by (lia || by vm_compute).
  - rewrite get32_splice_ne by lia. unfold p3. rewrite get32_splice_ne by (rewrite ?length_le32; lia).
    unfold p2. rewrite get32_splice_eq by (lia || apply u32_range). by apply i32_u32.
  - rewrite take_take, Nat.min_l by lia. rewrite skipn_firstn_comm, take_take, Nat.min_l by (unfold SYSCALL_SIZE; lia).
    destruct (drop_splice p3 12 msg 12 ltac:(lia) eq_refl) as [rest ->]. by apply take_app_length'.
Qed.

(** What the two sides find in their pages after the rendezvous. *)
Lemma served_mem_pages (e e' : E) i j sc : syscall_ok sc → sc_status sc = DONE → e_inv e → mapped e i →
  served_mem e e' i j sc →
  spins (smem e' i) = false ∧ spins (smem e' j) = false ∧
  ∀ size, (size ≤ SYSCALL_MSG_LEN)%nat → sys_recv_result size (smem e' j) = (take size (sc_content sc), sc_sender sc).
Proof.
  intros Hok Hst Hinv Hm (_ & _ & Hi & Hj & _). rewrite Hi, Hj. pose proof Hok as (_ & Hs & _ & Hlen & _).
  pose proof (smem_len e i Hinv Hm) as Hpl. change SYSCALL_PAGE with 4096%nat in Hpl.
  assert (decode_syscall (encode_syscall sc ++ drop SYSCALL_SIZE (smem e j)) = sc) as Hdec by (by apply decode_encode).
  pose proof (f_equal sc_status Hdec) as Hds. pose proof (f_equal sc_sender Hdec) as Hdn.
  pose proof (f_equal sc_content Hdec) as Hdc. cbn [decode_syscall sc_status sc_sender sc_content] in Hds, Hdn, Hdc.
  split_and!.
  - unfold spins. rewrite get32_splice_eq; [done|rewrite Hpl; unfold SYSCALL_STATUS_OFF; lia|by vm_compute].
  - unfold spins. rewrite Hds, Hst. done.
  - intros size Hsize. unfold sys_recv_result. f_equal; [|exact Hdn]. rewrite <- Hdc, take_take, Nat.min_l by done. done.
Qed.

(** The partner of a send is the receiver that waits for it. *)
Lemma send_partner t s c p e1 j dst : at_slot (proc_set s) c p → p_pid p = c → pend (proc_set s) j dst → j ≠ c →
  0 ≤ c → sc_type (user_call s c) = SYS_SEND → sc_receiver (user_call s c) = j → recv_waits dst →
  sc_sender (p_syscall dst) = GPID_ALL ∨ sc_sender (p_syscall dst) = c →
  partner (proc_set (called t s c p e1)) c (caller t (user_call s c) p) = Some (c, j).
Proof.
  intros Hp Hpid [[Hjr Hd] _] Hjc Hc0 Hty Hrc [Hrt Hrs] Hfrom. unfold partner. cbn [caller p_syscall].
  rewrite Hty, Hrc, Z.eqb_refl. cbn [called proc_set].
  rewrite list_lookup_insert_ne, Hd by lia. cbn. unfold takes. cbn [caller p_pid].
  rewrite Hrt, Hrs, Hpid, !Z.eqb_refl. cbn [andb].
  destruct Hfrom as [-> | ->]; [by rewrite Z.eqb_refl|by rewrite Z.eqb_refl, orb_true_r].
Qed.

Lemma deliver_ok dst snd : syscall_ok (p_syscall dst) → syscall_ok (p_syscall snd) → 0 ≤ p_pid snd < 2 ^ 31 →
  syscall_ok (p_syscall (deliver dst snd)).
Proof.
  intros (H1 & _ & H3 & _ & _) (_ & _ & _ & Hlen & _) Hpid. unfold syscall_ok.
  cbn [deliver with_syscall p_syscall sc_type sc_sender sc_receiver sc_content sc_status].
  split_and!; try done; try lia; by vm_compute.
Qed.

(** Two processes that were served can run after the next dispatch. *)
Lemma served_can_run s2 k q s' i p : table_ok (proc_set s2) → dispatched s2 k q s' → at_slot (proc_set s2) i p →
  p_status p = PROC_RUNNABLE →
  ∃ p', at_slot (proc_set s') i p' ∧ (p_status p' = PROC_RUNNABLE ∨ p_status p' = PROC_RUNNING).
Proof.
  intros Hok (Hq & Hst & _ & _ & _ & _ & Hps) Hp Hpst.
  destruct (at_slot_pid _ _ _ Hok Hq) as [Hpid Hpos]; [by destruct Hst; congruence|].
  destruct (dispatch_slots (proc_set s2) k q Hok Hq Hpid Hpos) as [_ Hslots]. rewrite Hps.
  destruct (decide (i = k)) as [->|Hne].
  - exists (started q). split; [apply Hslots; by left|by right].
  - exists p. split; [apply Hslots; by right|by left].
Qed.

(** After a rendezvous there is a process to run. *)
Lemma completed_next s1 i j s2 c : kwf s1 → completed s1 i j s2 → spec_next (proc_set s2) c ≠ None.
Proof.
  intros Hk1 (snd & dst & e' & Hsnd & Hdst & Hw & Hr & Htk & -> & _) Hnone.
  pose proof (parties_distinct _ i j snd dst Hsnd Hdst Hw Htk) as Hij.
  pose proof (spec_next_spec (served i j snd dst (proc_set s1)) c) as Hspec. cbn in Hnone. rewrite Hnone in Hspec.
  apply (Hspec i); [apply Hsnd|]. unfold runnable_slot.
  assert (at_slot (served i j snd dst (proc_set s1)) i (with_status PROC_RUNNABLE snd)) as [_ ->]; [|done].
  apply at_slot_served; try done; [apply (k_table _ Hk1)|by left].
Qed.

(** Process [i] handed its message to [j], and both go on. *)
Definition handed_over (i j : Z) (content : list Z) s' : Prop :=
  (∀ size, (size ≤ SYSCALL_MSG_LEN)%nat → sys_recv_result size (smem (earth s') j) = (take size content, i)) ∧
  spins (smem (earth s') i) = false ∧ spins (smem (earth s') j) = false ∧
  ∀ q, q = i ∨ q = j → ∃ p', at_slot (proc_set s') q p' ∧ (p_status p' = PROC_RUNNABLE ∨ p_status p' = PROC_RUNNING).

(** A rendezvous and the dispatch after it. *)
Lemma completed_handover s1 i j s2 k q s' : kwf s1 → completed s1 i j s2 → dispatched s2 k q s' → ∃ snd dst,
  pend (proc_set s1) i snd ∧ pend (proc_set s1) j dst ∧ sc_type (p_syscall snd) = SYS_SEND ∧
  sc_receiver (p_syscall snd) = j ∧ takes dst snd = true ∧
  handed_over i j (sc_content (p_syscall snd)) s' ∧
  ∀ x, x ≠ i → x ≠ j → smem (earth s') x = smem (earth s1) x.
Proof.
  intros Hk1 Hcomp Hdisp. pose proof (k_table s2 (served_kwf _ i j s2 Hk1 Hcomp)) as Hok2.
  destruct Hcomp as (snd & dst & e' & Hsnd & Hdst & Hw & Hr & Htk & -> & Hmem).
  exists snd, dst. pose proof Hw as (Hty & _).
  pose proof (parties_distinct _ i j snd dst Hsnd Hdst Hw Htk) as Hij.
  destruct (pend_pid _ _ _ (k_table s1 Hk1) Hsnd) as [Hpid Hi0]. pose proof (proj1 (proj1 Hsnd)) as Hir.
  pose proof Hdisp as (_ & _ & _ & _ & _ & [_ Hsame'] & _).
  assert (∀ x, smem (earth s') x = smem e' x) as Hs' by (intros x; apply (Hsame' x)).
  destruct (served_mem_pages (earth s1) e' i j (p_syscall (deliver dst snd))) as (Hsp1 & Hsp2 & Hres).
  - apply deliver_ok; [by apply (k_call _ Hk1 j)|by apply (k_call _ Hk1 i)|]. unfold MAX_NPROCESS in *. lia.
  - done.
  - apply Hk1.
  - apply (k_mapped s1 Hk1 i snd); [apply Hsnd|]. by rewrite (proj2 Hsnd).
  - exact Hmem.
  - split_and!; [done..| |].
    + unfold handed_over. rewrite !Hs'. split_and!; [|done..|].
      * intros size Hsize. rewrite Hres by done. cbn [deliver with_syscall p_syscall sc_content sc_sender].
        by rewrite Hpid.
      * intros x [-> | ->]; (eapply served_can_run; [exact Hok2|exact Hdisp| |]).
        1,3: apply at_slot_served; try done; [apply (k_table _ Hk1)|]. 1: by left. 1: right; by left. all: done.
    + intros x Hx1 Hx2. rewrite Hs'. destruct Hmem as (_ & _ & _ & _ & Hothers). by apply Hothers.
Qed.

(** C12: a message arrives.  When a process executes [sys_send(j, msg, size)]
    and process [j] waits in [sys_recv] for it or for anybody, the software
    interrupt returns, and then the receiver's [sys_recv] gives its caller
    exactly the bytes of [msg] and the sender's id; neither of the two waits
    any longer, both can run, and the pages of all other processes are
    unchanged. *)
Theorem message_arrives t s c p j dst msg page : kernel_inv c s → t_hartid t = core_in_kernel s →
  is_intr t INTR_ID_SOFT_M → at_slot (proc_set s) c p → length page = SYSCALL_PAGE →
  (length msg ≤ SYSCALL_MSG_LEN)%nat → smem (earth s) c = sys_send j msg page →
  pend (proc_set s) j dst → recv_waits dst →
  sc_sender (p_syscall dst) = GPID_ALL ∨ sc_sender (p_syscall dst) = c → ∃ r s',
  kernel_entry t s = Ret (r, s') ∧
  (∀ size, (size ≤ length msg)%nat → sys_recv_result size (smem (earth s') j) = (take size msg, c)) ∧
  spins (smem (earth s') c) = false ∧ spins (smem (earth s') j) = false ∧
  (∀ q, q = c ∨ q = j → ∃ p', at_slot (proc_set s') q p' ∧ (p_status p' = PROC_RUNNABLE ∨ p_status p' = PROC_RUNNING)) ∧
  (∀ q, q ≠ c → q ≠ j → smem (earth s') q = smem (earth s) q).
Proof.
  intros Hki Hh Hi Hp Hpage Hmsg Hmem Hdst Hrecv Hfrom.
  destruct (running_facts s c p Hki Hp) as (Hst & Hpid & Hc).
  pose proof (ki_wf c s Hki) as Hwf. pose proof (k_table s Hwf) as Hok.
  destruct (pend_pid _ _ _ Hok Hdst) as [Hdpid Hj0]. pose proof (proj1 (proj1 Hdst)) as Hjr.
  assert (j ≠ c) as Hjc. { intros ->. destruct Hdst as [Hd Hds]. rewrite (at_slot_fun _ _ _ _ Hd Hp) in Hds. congruence. }
  destruct (send_call_fields s c j msg page Hpage Hmsg) as (Hty & Hrc & Hct); [unfold MAX_NPROCESS in *; lia|done|].
  assert (valid_call s c) as Hv.
  { right. split; [done|]. rewrite Hrc. exists dst. destruct Hdst as [Hd Hds]. split_and!; [done..|congruence]. }
  destruct (syscall_step t s c p Hki Hh Hi Hp Hv) as (e1 & s2 & Hsame & Hpart & Hres). cbn zeta in Hpart.
  destruct (called_ok t s c p e1 Hki Hp Hsame Hv) as (Hk1 & _ & Hpc & _ & _).
  rewrite (send_partner t s c p e1 j dst) in Hpart by (done || lia).
  destruct (spec_next (proc_set s2) c) as [k|] eqn:Hnext; [|by destruct (completed_next _ c j s2 c Hk1 Hpart)].
  destruct Hres as (q & s' & Hdisp & _ & Heq). eexists _, s'. split; [exact Heq|].
  destruct (completed_handover _ c j s2 k q s' Hk1 Hpart Hdisp) as (snd & _ & Hsnd & _ & _ & _ & _ & (Hgot & Hs1 & Hs2 & Hrun) & Hothers).
  rewrite (at_slot_fun _ _ _ _ (proj1 Hsnd) (proj1 Hpc)) in Hgot. split_and!; try done.
  - intros size Hsize. rewrite Hgot by lia. f_equal.
    transitivity (take size (take (length msg) (sc_content (user_call s c)))); [by rewrite take_take, Nat.min_l by lia|by rewrite Hct].
  - intros x Hx1 Hx2. rewrite Hothers by done. apply Hsame.
Qed.
End messages.
