(* ===== verification/Sweeps.v ===== *)
(** * The sweeps of clear_pending_syscalls in any state

    Rendezvous.v shows what the sweeps do when every blocked sender has a
    receiver and only blocked processes look like receivers.  A process that
    is ended while it waits, or while others wait for it, leaves neither true:
    then a send may find no receiver, which is a FATAL, or be stored in a slot
    that does not wait.  Here the sweeps are followed one visit at a time
    from any state; as far as the processes that are blocked are concerned
    there is again at most one rendezvous. *)
From S2P Require Import Prelude MemAlloc Earth Process Ipc Scheduler Rendezvous Kernel KernelRuns Messages.

Section sweeps.
Context {E : Type} `{EarthLaws E}.
Implicit Type s : kstate E.

(** ** One call of [proc_try_syscall] *)

(** What it does for the blocked process [p] in slot [k] when it returns. *)
Inductive tried s (k : Z) (p : process) : kstate E → Prop :=
  | tried_wait : sc_type (p_syscall p) = SYS_RECV → sc_status (p_syscall p) = PENDING → tried s k p s
  | tried_idle dst : sc_type (p_syscall p) = SYS_SEND → receiver_ok (proc_set s) (sc_receiver (p_syscall p)) dst →
      takes dst p = false → tried s k p s
  | tried_deliver dst e : sc_type (p_syscall p) = SYS_SEND → receiver_ok (proc_set s) (sc_receiver (p_syscall p)) dst →
      takes dst p = true →
      page_update (earth s) e k (splice (smem (earth s) k) SYSCALL_STATUS_OFF (le32 DONE)) →
      tried s k p (set_earth (set_proc s (sc_receiver (p_syscall p)) (deliver dst p)) e)
  | tried_complete e : sc_type (p_syscall p) = SYS_RECV → sc_status (p_syscall p) = DONE →
      page_update (earth s) e k (encode_syscall (p_syscall p) ++ drop SYSCALL_SIZE (smem (earth s) k)) →
      tried s k p (set_earth (set_procs s (set_status_in (sc_sender (p_syscall p)) PROC_RUNNABLE
                                             (set_status_in k PROC_RUNNABLE (proc_set s)))) e).

Lemma try_send_inv n j p s s' : table_ok (proc_set s) → 0 ≤ j → j + Z.of_nat n ≤ MAX_NPROCESS →
  try_send_loop n j p s = Ret s' → ∃ dst, receiver_ok (proc_set s) (sc_receiver (p_syscall p)) dst ∧
  (takes dst p = true ∧ user_done (p_pid p) (set_proc s (sc_receiver (p_syscall p)) (deliver dst p)) = Ret s' ∨
   takes dst p = false ∧ s' = s).
Proof.
  intros Hok. revert j. induction n as [|n IH]; intros j Hj Hn Hret; [done|]. cbn [try_send_loop] in Hret.
  destruct (get_proc_lt s j (proj1 Hok)) as (dst & Hg & Hdst); [unfold MAX_NPROCESS in *; lia|].
  rewrite Hg, bind_ret in Hret. destruct (_ && _) eqn:Hfound; [|exact (IH (j + 1) ltac:(lia) ltac:(lia) Hret)].
  apply andb_true_iff in Hfound as [Hpid%Z.eqb_eq Hu%negb_true_iff%bool_decide_eq_false].
  assert (at_slot (proc_set s) j dst) as Hat by (split; [lia|done]).
  destruct (at_slot_pid _ _ _ Hok Hat Hu) as [Hpj Hpos]. assert (sc_receiver (p_syscall p) = j) as -> by congruence.
  exists dst. split; [done|]. destruct (takes dst p); [by left|right]. by injection Hret.
Qed.

Lemma try_tried s k p s' : kbase s → pend (proc_set s) k p →
  sc_status (p_syscall p) = PENDING ∨ sc_status (p_syscall p) = DONE → proc_try_syscall k s = Ret s' → tried s k p s'.
Proof.
  intros Hb Hp Hst Htry. pose proof (b_table s Hb) as Hok. destruct (pend_pid _ _ _ Hok Hp) as [Hpid Hpos].
  assert (mapped (earth s) k) as Hm by (apply (b_mapped s Hb k p (proj1 Hp)); by rewrite (proj2 Hp)).
  destruct (decide (sc_type (p_syscall p) = SYS_RECV)) as [Hr|Hr].
  - destruct Hst as [Hst|Hst].
    + rewrite (proc_try_syscall_idle s k p Hok (proj1 Hp)) in Htry by (by left). injection Htry as <-. by apply tried_wait.
    + destruct (recv_complete s k p Hok (b_inv s Hb) Hm (proj1 Hp) Hpid Hr Hst (b_call s Hb k p Hp)) as (e & Heq & Hup).
      rewrite Heq in Htry. injection Htry as <-. by apply tried_complete.
  - unfold proc_try_syscall in Htry. rewrite (get_proc_at s k p (proj1 Hp)), bind_ret in Htry.
    rewrite (proj2 (Z.eqb_neq _ _) Hr) in Htry. destruct (Z.eqb_spec (sc_type (p_syscall p)) SYS_SEND) as [Hs|]; [|done].
    unfold proc_try_send in Htry. rewrite (get_proc_at s k p (proj1 Hp)), bind_ret in Htry.
    destruct (try_send_inv (Z.to_nat MAX_NPROCESS) 0 p s s' Hok ltac:(lia) ltac:(unfold MAX_NPROCESS; lia) Htry)
      as (dst & Hd & [[Htk Hdone]|[Htk ->]]); [|by eapply tried_idle].
    rewrite Hpid in Hdone.
    destruct (user_done_spec (set_proc s (sc_receiver (p_syscall p)) (deliver dst p)) k (b_inv s Hb) Hm) as (e & Heq & Hup).
    rewrite Heq in Hdone. injection Hdone as <-. by eapply tried_deliver.
Qed.

(** ** What every visit keeps *)

Record along s s' : Prop := {
  al_base : kbase s';
  al_cores : core_in_kernel s' = core_in_kernel s ∧ core_to_proc_idx s' = core_to_proc_idx s;
  al_mapped q : mapped (earth s') q ↔ mapped (earth s) q;
  al_slots k p : at_slot (proc_set s) k p → ∃ p', at_slot (proc_set s') k p' ∧
    p_pid p' = p_pid p ∧ p_mepc p' = p_mepc p ∧ p_saved p' = p_saved p ∧
    (p_status p' = p_status p ∨ p_status p = PROC_PENDING_SYSCALL ∧ p_status p' = PROC_RUNNABLE)
}.

Lemma along_refl s : kbase s → along s s.
Proof. intros Hb. constructor; try done. intros k p Hp. exists p. split_and!; try done. by left. Qed.

Lemma along_trans s s' s'' : along s s' → along s' s'' → along s s''.
Proof.
  intros [_ [Hc1 Hc2] Hm1 Hs1] [Hb [Hc3 Hc4] Hm2 Hs2]. constructor; [done|split; congruence| |].
  - intros q. by rewrite Hm2.
  - intros k p (p' & Hp' & ? & ? & ? & Hst)%Hs1. destruct (Hs2 k p' Hp') as (p'' & ? & ? & ? & ? & Hst').
    exists p''. split_and!; [done|congruence..|].
    destruct Hst as [Hst|[Hst Hst1]], Hst' as [Hst'|[Hst' Hst2]]; [left; congruence|right; split; congruence|right; split; congruence|congruence].
Qed.

Lemma al_back s s' k p' : table_ok (proc_set s) → along s s' → at_slot (proc_set s') k p' →
  ∃ p, at_slot (proc_set s) k p ∧ p_pid p' = p_pid p ∧ p_mepc p' = p_mepc p ∧ p_saved p' = p_saved p ∧
    (p_status p' = p_status p ∨ p_status p = PROC_PENDING_SYSCALL ∧ p_status p' = PROC_RUNNABLE).
Proof.
  intros Hok Hal Hp'. destruct (lookup_lt_is_Some_2 (proc_set s) (Z.to_nat k)) as [p Hp].
  { rewrite (proj1 Hok). destruct Hp' as [? _]. unfold MAX_NPROCESS in *. lia. }
  assert (at_slot (proc_set s) k p) as Hat by (split; [apply Hp'|done]).
  exists p. split; [done|]. destruct (al_slots s s' Hal k p Hat) as (q & Hq & Hrest). by rewrite (at_slot_fun _ _ _ _ Hp' Hq).
Qed.

(** A delivery. *)
Lemma deliver_along s k p r dst e m : kbase s → pend (proc_set s) k p → receiver_ok (proc_set s) r dst →
  takes dst p = true → page_update (earth s) e k m → along s (set_earth (set_proc s r (deliver dst p)) e).
Proof.
  intros Hb Hp (Hr0 & Hd & Hdp & Hu) Htk (He & Hm & _). pose proof (b_table s Hb) as Hok.
  destruct (pend_pid _ _ _ Hok Hp) as [Hpid Hpos]. pose proof (proj1 (proj1 Hp)) as Hk.
  assert (∀ x q, at_slot (<[Z.to_nat r := deliver dst p]> (proc_set s)) x q ↔
    (x = r ∧ q = deliver dst p) ∨ (x ≠ r ∧ at_slot (proc_set s) x q)) as Hslots by (intros; apply at_slot_insert; [done|apply Hd]).
  constructor; [constructor| | |]; cbn [set_earth set_proc set_procs proc_set earth]; try done.
  - by apply table_ok_deliver.
  - intros x q [[-> ->]|[_ Hq]]%Hslots Ha; apply Hm; [by apply (b_mapped s Hb r dst)|by apply (b_mapped s Hb x q)].
  - intros x q [[[-> ->]|[_ Hq]]%Hslots Hst]; [|by apply (b_call s Hb x q)].
    apply deliver_ok; [by apply (b_call s Hb r)|by apply (b_call s Hb k)|]. unfold MAX_NPROCESS in *. lia.
  - intros x q Hq. destruct (decide (x = r)) as [->|Hne].
    + exists (deliver dst p). split; [apply Hslots; by left|]. rewrite (at_slot_fun _ _ _ _ Hq Hd). split_and!; try done. by left.
    + exists q. split; [apply Hslots; by right|]. split_and!; try done. by left.
Qed.

(** A delivery to a process that is not blocked changes no blocked one. *)
Lemma stale_pend ps r dst p : table_ok ps → at_slot ps r dst → p_status dst ≠ PROC_PENDING_SYSCALL →
  ∀ x q, pend (<[Z.to_nat r := deliver dst p]> ps) x q ↔ pend ps x q.
Proof.
  intros Hok Hd Hst x q. unfold pend. rewrite at_slot_insert by (done || apply Hd). split.
  - intros [[[-> ->]|[_ Hq]] Hq']; [done|done].
  - intros [Hq Hq']. split; [|done]. right. split; [|done]. intros ->. by rewrite (at_slot_fun _ _ _ _ Hq Hd) in Hq'.
Qed.

(** ** The phases of the sweeps *)

(** Two blocked processes of which one could hand its message to the
    other. *)
Definition matches (ps : list process) (i : Z) (snd : process) (j : Z) (dst : process) : Prop :=
  pend ps i snd ∧ sc_type (p_syscall snd) = SYS_SEND ∧ sc_receiver (p_syscall snd) = j ∧ pend ps j dst ∧
  takes dst snd = true.

Definition still_pending (ps : list process) : Prop := ∀ k p, pend ps k p → sc_status (p_syscall p) = PENDING.

(** No rendezvous yet.  Only the current process [c], which has just called,
    may have a partner, and none in the [b - 1] slots visited. *)
Record searching (c b : Z) s s' : Prop := {
  se_pend k p : pend (proc_set s) k p ↔ pend (proc_set s') k p;
  se_still : still_pending (proc_set s');
  se_only i snd j dst : matches (proc_set s') i snd j dst → j = c;
  se_none b' snd dst : 1 ≤ b' < b → ¬ matches (proc_set s') ((c + b') `mod` MAX_NPROCESS) snd c dst
}.

(** The message of [i] is in the slot of [j], which comes in the rest of the
    sweep. *)
Record handing (c b : Z) (i j : Z) (snd dst : process) s s' : Prop := {
  ha_match : matches (proc_set s) i snd j dst;
  ha_snd : pend (proc_set s') i snd;
  ha_dst : pend (proc_set s') j (deliver dst snd);
  ha_others k p : k ≠ j → pend (proc_set s) k p ↔ pend (proc_set s') k p;
  ha_still k p : k ≠ j → pend (proc_set s') k p → sc_status (p_syscall p) = PENDING;
  ha_apart : apart (proc_set s');
  ha_done : spins (smem (earth s') i) = false;
  ha_pos : ∃ b', b ≤ b' ≤ MAX_NPROCESS ∧ (c + b') `mod` MAX_NPROCESS = j
}.

(** Both have been released. *)
Record handed (i j : Z) (snd dst : process) s s' : Prop := {
  hd_match : matches (proc_set s) i snd j dst;
  hd_parties x : x = i ∨ x = j → ∃ p, at_slot (proc_set s') x p ∧ p_status p = PROC_RUNNABLE;
  hd_others k p : pend (proc_set s') k p ↔ pend (proc_set s) k p ∧ k ≠ i ∧ k ≠ j;
  hd_still : still_pending (proc_set s');
  hd_apart : apart (proc_set s');
  hd_done : spins (smem (earth s') i) = false ∧ spins (smem (earth s') j) = false;
  hd_got size : (size ≤ SYSCALL_MSG_LEN)%nat →
    sys_recv_result size (smem (earth s') j) = (take size (sc_content (p_syscall snd)), i)
}.

Definition phase (c b : Z) s s' : Prop := along s s' ∧
  (searching c b s s' ∨ (∃ i j snd dst, handing c b i j snd dst s s') ∨ ∃ i j snd dst, handed i j snd dst s s').

Lemma apart_iff ps : apart ps ↔ ∀ i snd j dst, ¬ matches ps i snd j dst.
Proof.
  split.
  - intros Ha i snd j dst (Hi & Ht & Hr & Hj & Htk). by rewrite (Ha i snd j dst Hi Ht Hr Hj) in Htk.
  - intros Hno i snd j dst Hi Ht Hr Hj. destruct (takes dst snd) eqn:Htk; [|done]. by destruct (Hno i snd j dst).
Qed.

(** The blocked processes are what the phases are about. *)
Lemma pend_matches ps ps' i snd j dst : (∀ k p, pend ps k p ↔ pend ps' k p) → matches ps i snd j dst → matches ps' i snd j dst.
Proof. intros Hpp (Hi & Ht & Hr & Hj & Htk). split_and!; try done; by apply Hpp. Qed.

Lemma pend_apart ps ps' : (∀ k p, pend ps k p ↔ pend ps' k p) → apart ps → apart ps'.
Proof. rewrite !apart_iff. intros Hpp Ha i snd j dst Hm. eapply Ha, pend_matches; [|exact Hm]. intros. by symmetry. Qed.

Lemma matches_distinct ps i snd j dst : matches ps i snd j dst → i ≠ j.
Proof.
  intros ([Hi _] & Ht & _ & [Hj _] & [Ht' _]%takes_recv) ->. rewrite (at_slot_fun _ _ _ _ Hi Hj) in Ht. by rewrite Ht in Ht'.
Qed.

(** ** One visit *)

(** The slot visited has no partner. *)
Lemma phase_stay c b s0 s : phase c b s0 s →
  (∀ p, pend (proc_set s) ((c + b) `mod` MAX_NPROCESS) p → sc_status (p_syscall p) = PENDING ∧
    ∀ dst, ¬ matches (proc_set s) ((c + b) `mod` MAX_NPROCESS) p c dst) → phase c (b + 1) s0 s.
Proof.
  intros [Hal Hph] Hno. split; [done|]. destruct Hph as [[Hp Hs Ho Hn]|[(i & j & snd & dst & Hh)|Hh]]; [left|right; left|by right; right].
  - constructor; try done. intros b' snd dst Hb'. destruct (decide (b' = b)) as [->|]; [|apply Hn; lia].
    intros Hm. by apply (Hno snd (proj1 Hm)) in Hm.
  - exists i, j, snd, dst. destruct Hh as [? ? Hd ? ? ? ? (b' & Hb' & Hj)]. constructor; try done. exists b'. split; [|done].
    destruct (decide (b' = b)) as [->|]; [|lia]. rewrite Hj in Hno. by destruct (Hno _ Hd).
Qed.

(** A message delivered to a process that does not wait. *)
Lemma phase_stale c b s0 s k p dst e : phase c b s0 s → pend (proc_set s) k p →
  receiver_ok (proc_set s) (sc_receiver (p_syscall p)) dst → takes dst p = true → p_status dst ≠ PROC_PENDING_SYSCALL →
  page_update (earth s) e k (splice (smem (earth s) k) SYSCALL_STATUS_OFF (le32 DONE)) →
  phase c b s0 (set_earth (set_proc s (sc_receiver (p_syscall p)) (deliver dst p)) e).
Proof.
  intros [Hal Hph] Hp Hd Htk Hst Hup. pose proof (al_base _ _ Hal) as Hb.
  pose proof (stale_pend _ _ _ p (b_table s Hb) (proj1 (proj2 Hd)) Hst) as Hsame.
  set (s' := set_earth _ e). change (∀ x q, pend (proc_set s') x q ↔ pend (proc_set s) x q) in Hsame.
  assert (∀ i snd j d, matches (proc_set s') i snd j d → matches (proc_set s) i snd j d) as Hmat.
  { intros i snd j d. by apply pend_matches. }
  assert (∀ x, (∀ q, pend (proc_set s) x q → x ≠ k) ∨ x ≠ k → smem (earth s') x = smem (earth s) x) as Hmem.
  { intros x Hx. apply Hup. destruct Hx as [Hx|Hx]; [|done]. intros ->. by apply (Hx p Hp). }
  split; [by eapply along_trans; [exact Hal|eapply deliver_along]|].
  destruct Hph as [[Hpp Hs Ho Hn]|[(i & j & snd & d & Hh)|(i & j & snd & d & Hh)]]; [left|right; left|right; right].
  - constructor.
    + intros x q. by rewrite Hsame, Hpp.
    + intros x q Hq%Hsame. by apply (Hs x).
    + intros i snd j d Hm%Hmat. by apply (Ho i snd j d).
    + intros b' snd d Hb' Hm%Hmat. by apply (Hn b' snd d Hb').
  - exists i, j, snd, d. destruct Hh as [Hm Hi Hj Hot Hsp Hap Hdn Hpos]. constructor; try done.
    + by apply Hsame.
    + by apply Hsame.
    + intros x q Hne. by rewrite Hsame, Hot.
    + intros x q Hne Hq%Hsame. by apply (Hsp x).
    + eapply pend_apart; [|exact Hap]. intros. by rewrite Hsame.
    + rewrite Hmem; [done|]. right. intros ->. rewrite (at_slot_fun _ _ _ _ (proj1 Hp) (proj1 Hi)) in Hd.
      destruct Hm as (_ & _ & Hr & _). rewrite Hr in Hd.
      rewrite (at_slot_fun _ _ _ _ (proj1 (proj2 Hd)) (proj1 Hj)) in Hst. by apply Hst, (proj2 Hj).
  - exists i, j, snd, d. destruct Hh as [Hm Hpa Hot Hsp Hap [Hd1 Hd2] Hgot].
    assert (∀ x, x = i ∨ x = j → smem (earth s') x = smem (earth s) x) as Hmem2.
    { intros x Hx. apply Hmem. right. intros ->. destruct (Hpa k Hx) as (q & Hq & Hqs).
      rewrite (at_slot_fun _ _ _ _ Hq (proj1 Hp)), (proj2 Hp) in Hqs. done. }
    constructor; try done.
    + intros x Hx. destruct (Hpa x Hx) as (q & Hq & Hqs). destruct (decide (x = sc_receiver (p_syscall p))) as [->|Hne].
      * exists (deliver dst p). split; [apply at_slot_insert; [apply Hb|apply Hq|by left]|].
        change (p_status dst = PROC_RUNNABLE). by rewrite (at_slot_fun _ _ _ _ (proj1 (proj2 Hd)) Hq).
      * exists q. split; [|done]. apply at_slot_insert; [apply Hb|apply Hd|by right].
    + intros x q. by rewrite Hsame, Hot.
    + intros x q Hq%Hsame. by apply (Hsp x).
    + eapply pend_apart; [|exact Hap]. intros. by rewrite Hsame.
    + rewrite !Hmem2 by auto. done.
    + intros size Hsize. rewrite Hmem2 by auto. by apply Hgot.
Qed.

(** A rendezvous begins: the message of [k] is put into the slot of [j], and
    there was no other. *)
Lemma begin_handing c b s0 s k j p dst e : along s0 s → (∀ x q, pend (proc_set s0) x q ↔ pend (proc_set s) x q) →
  still_pending (proc_set s) → (∀ i snd j' d, matches (proc_set s) i snd j' d → j' = j ∨ i = k) →
  matches (proc_set s) k p j dst →
  page_update (earth s) e k (splice (smem (earth s) k) SYSCALL_STATUS_OFF (le32 DONE)) →
  (∃ b', b ≤ b' ≤ MAX_NPROCESS ∧ (c + b') `mod` MAX_NPROCESS = j) →
  handing c b k j p dst s0 (set_earth (set_proc s j (deliver dst p)) e).
Proof.
  intros Hal Hpp Hsp Honly Hm (He & _ & Hk & _) Hpos. pose proof (al_base _ _ Hal) as Hb. pose proof (b_table s Hb) as Hok.
  pose proof Hm as (Hp & Ht & Hr & Hd & Htk). pose proof (matches_distinct _ _ _ _ _ Hm) as Hkj.
  set (s' := set_earth _ e).
  assert (∀ x q, pend (proc_set s') x q ↔ (x = j ∧ q = deliver dst p) ∨ (x ≠ j ∧ pend (proc_set s) x q)) as Hslots.
  { intros x q. unfold pend. cbn [s' set_earth set_proc set_procs proc_set]. rewrite at_slot_insert by (done || apply (proj1 Hd)).
    split; [tauto|]. intros [[-> ->]|[? [? ?]]]; [|tauto]. split; [by left|apply Hd]. }
  constructor; try done.
  - eapply pend_matches; [|exact Hm]. intros. by rewrite Hpp.
  - apply Hslots. by right.
  - apply Hslots. by left.
  - intros x q Hne. rewrite Hslots, Hpp. tauto.
  - intros x q Hne [[? _]|[_ Hq]]%Hslots; [done|]. by apply (Hsp x).
  - apply apart_iff. intros i snd j' d (Hi' & Ht' & Hr' & Hj' & Htk'). apply Hslots in Hi' as [[-> ->]|[Hi Hi']].
    { apply takes_recv in Htk as [Htk _]. cbn [deliver with_syscall p_syscall sc_type] in Ht'. by rewrite Htk in Ht'. }
    apply Hslots in Hj' as [[-> ->]|[Hj Hj']].
    { unfold takes, deliver in Htk'; simpl in Htk'. by rewrite andb_false_r in Htk'. }
    destruct (Honly i snd j' d) as [?| ->]; [by split_and!|done|].
    rewrite (at_slot_fun _ _ _ _ (proj1 Hi') (proj1 Hp)) in Hr'. congruence.
  - unfold spins. cbn [s' earth set_earth]. rewrite Hk, get32_splice_eq; [done| |by vm_compute].
    rewrite (smem_len (earth s) k (b_inv s Hb)); [by apply (bool_decide_unpack _); vm_compute|].
    apply (b_mapped s Hb k p (proj1 Hp)). by rewrite (proj2 Hp).
Qed.

(** What a completed receiver finds in its page. *)
Lemma encoded_spins sc rest : syscall_ok sc → sc_status sc = DONE → spins (encode_syscall sc ++ rest) = false.
Proof.
  intros Hok Hst. pose proof (f_equal sc_status (decode_encode sc rest Hok)) as Hd. unfold decode_syscall in Hd. cbn [sc_status] in Hd.
  unfold spins. by rewrite Hd, Hst.
Qed.

Lemma encoded_result size sc rest : syscall_ok sc → (size ≤ SYSCALL_MSG_LEN)%nat →
  sys_recv_result size (encode_syscall sc ++ rest) = (take size (sc_content sc), sc_sender sc).
Proof.
  intros Hok Hsize. pose proof (f_equal sc_content (decode_encode sc rest Hok)) as Hc.
  pose proof (f_equal sc_sender (decode_encode sc rest Hok)) as Hs. unfold decode_syscall in Hc, Hs.
  cbn [sc_content sc_sender] in Hc, Hs. unfold sys_recv_result. f_equal; [|done]. by rewrite <- Hc, take_take, Nat.min_l.
Qed.

(** The table after the receiver [j] of a delivered message was visited. *)
Lemma complete_slots ps i j snd q : table_ok ps → pend ps i snd → pend ps j q → i ≠ j →
  let ps' := set_status_in i PROC_RUNNABLE (set_status_in j PROC_RUNNABLE ps) in table_ok ps' ∧ ∀ x r,
  at_slot ps' x r ↔ (x = i ∧ r = with_status PROC_RUNNABLE snd) ∨ (x = j ∧ r = with_status PROC_RUNNABLE q) ∨
    (x ≠ i ∧ x ≠ j ∧ at_slot ps x r).
Proof.
  intros Hok Hi Hj Hij. destruct (pend_pid _ _ _ Hok Hi) as [Hpi Hi0]. destruct (pend_pid _ _ _ Hok Hj) as [Hpj Hj0].
  destruct (status_replaced ps j q PROC_RUNNABLE Hok (proj1 Hj) Hpj Hj0) as [Hok1 Hs1].
  destruct (status_replaced _ i snd PROC_RUNNABLE Hok1) as [Hok2 Hs2]; [apply Hs1; right; by split; [|apply Hi]|done..|].
  split; [done|]. intros x r. rewrite Hs2, Hs1. assert (j ≠ i) by congruence. split.
  - intros [[-> ->]|[? [[-> ->]|[? ?]]]]; tauto.
  - intros [[-> ->]|[[-> ->]|(? & ? & ?)]]; tauto.
Qed.

Lemma phase_complete c b i j snd dst s0 s e : handing c b i j snd dst s0 s → along s0 s → kbase s0 →
  page_update (earth s) e j (encode_syscall (p_syscall (deliver dst snd)) ++ drop SYSCALL_SIZE (smem (earth s) j)) →
  let s' := set_earth (set_procs s (set_status_in i PROC_RUNNABLE (set_status_in j PROC_RUNNABLE (proc_set s)))) e in
  along s s' ∧ handed i j snd dst s0 s'.
Proof.
  intros [Hm Hi Hj Hot Hsp Hap Hdn _] Hal Hb0 (He & Hmap & Hpj & Hmo) s'. pose proof (al_base _ _ Hal) as Hb.
  pose proof (matches_distinct _ _ _ _ _ Hm) as Hij. pose proof Hm as (Hi0 & Ht & Hr & Hj0 & Htk).
  destruct (complete_slots _ i j snd _ (b_table s Hb) Hi Hj Hij) as [Hok' Hslots]. fold (proc_set s') in *.
  assert (∀ k p, pend (proc_set s') k p ↔ pend (proc_set s) k p ∧ k ≠ i ∧ k ≠ j) as Hpend.
  { intros k p. unfold pend. change (proc_set s') with (set_status_in i PROC_RUNNABLE (set_status_in j PROC_RUNNABLE (proc_set s))).
    rewrite Hslots. split; [|tauto]. intros [[[-> ->]|[[-> ->]|(? & ? & ?)]] ?]; [done..|done]. }
  split; [constructor|constructor]; try done.
  - constructor; [done|done| |].
    + intros k p Hk Ha. apply Hmap. apply Hslots in Hk as [[-> ->]|[[-> ->]|(_ & _ & Hk)]].
      * apply (b_mapped s Hb i snd (proj1 Hi)). by rewrite (proj2 Hi).
      * apply (b_mapped s Hb j _ (proj1 Hj)). by rewrite (proj2 Hj).
      * by apply (b_mapped s Hb k p).
    + intros k p [Hk _]%Hpend. by apply (b_call s Hb k p).
  - intros k p Hk. destruct (decide (k = i)) as [->|Hki]; [|destruct (decide (k = j)) as [->|Hkj]].
    + rewrite (at_slot_fun _ _ _ _ Hk (proj1 Hi)). eexists. split; [apply Hslots; by left|]. split_and!; try done.
      right. split; [apply Hi|done].
    + rewrite (at_slot_fun _ _ _ _ Hk (proj1 Hj)). eexists. split; [apply Hslots; by right; left|]. split_and!; try done.
      right. split; [apply Hj|done].
    + exists p. split; [apply Hslots; by right; right|]. split_and!; try done. by left.
  - intros x [-> | ->]; eexists; (split; [apply Hslots|]).
    1: by left. 2: by right; left. all: done.
  - intros k p. rewrite Hpend. split; [intros (Hk & ? & ?)|intros (Hk & ? & ?)]; (split; [|done]); by apply (Hot k).
  - intros k p (Hk & ? & Hkj)%Hpend. by apply (Hsp k).
  - apply apart_iff. intros x p y q (Hx & ? & ? & Hy & ?). apply Hpend in Hx as [Hx _]. apply Hpend in Hy as [Hy _].
    by apply (proj1 (apart_iff _) Hap x p y q).
  - assert (smem (earth s') i = smem (earth s) i) as -> by (by apply Hmo). split; [done|].
    change (smem (earth s') j) with (smem e j). rewrite Hpj. apply encoded_spins; [by apply (b_call s Hb j)|done].
  - intros size Hsize. change (smem (earth s') j) with (smem e j). rewrite Hpj, encoded_result by (done || by apply (b_call s Hb j)).
    cbn [deliver with_syscall p_syscall sc_content sc_sender]. by rewrite (proj1 (pend_pid _ _ _ (b_table s Hb) Hi)).
Qed.

(** What a blocked process looks like when it is visited. *)
Lemma phase_status c b s0 s k p : phase c b s0 s → pend (proc_set s) k p →
  sc_status (p_syscall p) = PENDING ∨ ∃ i snd dst, handing c b i k snd dst s0 s ∧ p = deliver dst snd.
Proof.
  intros [_ [[_ Hs _ _]|[(i & j & snd & dst & Hh)|(i & j & snd & dst & [])]]] Hp; [left; by apply (Hs k)| |left; eauto].
  destruct (decide (k = j)) as [->|Hne]; [right|left; by apply (ha_still _ _ _ _ _ _ _ _ Hh k)].
  exists i, snd, dst. split; [done|]. apply (at_slot_fun (proc_set s) j); [apply Hp|apply (ha_dst _ _ _ _ _ _ _ _ Hh)].
Qed.

(** A rendezvous is possible only while none has begun. *)
Lemma phase_matches c b s0 s i snd j dst : phase c b s0 s → matches (proc_set s) i snd j dst → searching c b s0 s ∧ j = c.
Proof.
  intros [_ Hph] Hm. assert (∀ ps, apart ps → matches ps i snd j dst → False) as Hno.
  { intros ps Ha. by apply (proj1 (apart_iff ps) Ha). }
  destruct Hph as [Hs|[(i' & j' & p & q & Hh)|(i' & j' & p & q & Hh)]]; [|by destruct (Hno _ (ha_apart _ _ _ _ _ _ _ _ Hh))..|
    by destruct (Hno _ (hd_apart _ _ _ _ _ _ Hh))].
  split; [done|]. by apply (se_only _ _ _ _ Hs i snd j dst).
Qed.

Lemma visit_phase c b s0 s pr s' pr' : kbase s0 → curr_proc_idx s0 = Ret c → 0 ≤ c < MAX_NPROCESS →
  1 ≤ b ≤ MAX_NPROCESS → phase c b s0 s → visit b (s, pr) = Ret (s', pr') → phase c (b + 1) s0 s'.
Proof.
  intros Hb0 Hc Hcr Hb Hph Hv. pose proof (proj1 Hph) as Hal. pose proof (al_base _ _ Hal) as Hbs.
  unfold visit, nth_after in Hv. assert (curr_proc_idx s = Ret c) as Hcs.
  { unfold curr_proc_idx in *. destruct (al_cores _ _ Hal) as [-> ->]. done. }
  rewrite Hcs, !bind_ret in Hv. set (k := (c + b) `mod` MAX_NPROCESS) in *.
  destruct (get_proc_lt s k (proj1 (b_table s Hbs)) (nth_after_range c b)) as (p & Hg & Hp).
  assert (at_slot (proc_set s) k p) as Hat by (split; [by apply Z.mod_pos_bound|done]).
  rewrite Hg, bind_ret in Hv. case_bool_decide as Hst.
  2: { injection Hv as <- _. apply phase_stay; [done|]. fold k. intros q Hq.
       rewrite (at_slot_fun _ _ _ _ Hat (proj1 Hq)) in Hst. by destruct Hst, Hq. }
  assert (pend (proc_set s) k p) as Hpk by done.
  apply bind_ret_inv in Hv as (s1 & Htry & Hv). apply bind_ret_inv in Hv as (p1 & _ & Hv). injection Hv as <- _.
  assert (tried s k p s1) as Htried.
  { apply try_tried; [done..| |done]. destruct (phase_status _ _ _ _ _ _ Hph Hpk) as [?|(i & snd & dst & _ & ->)]; [by left|by right]. }
  assert (sc_status (p_syscall p) = PENDING → (∀ dst, ¬ matches (proc_set s) k p c dst) → phase c (b + 1) s0 s) as Hstay.
  { intros Hpp Hno. apply phase_stay; [done|]. fold k. intros q Hq.
    by rewrite (at_slot_fun _ _ _ _ (proj1 Hq) Hat). }
  assert (sc_type (p_syscall p) = SYS_SEND → sc_status (p_syscall p) = PENDING) as Hsend.
  { intros Ht. destruct (phase_status _ _ _ _ _ _ Hph Hpk) as [?|(i & snd & dst & Hh & ->)]; [done|].
    destruct (ha_match _ _ _ _ _ _ _ _ Hh) as (_ & _ & _ & _ & [Ht' _]%takes_recv).
    cbn [deliver with_syscall p_syscall sc_type] in Ht. by rewrite Ht in Ht'. }
  destruct Htried as [Ht Hpp|dst Ht Hd Htk|dst e Ht Hd Htk Hup|e Ht Hpp Hup].
  - apply Hstay; [done|]. intros dst (_ & Ht' & _). by rewrite Ht in Ht'.
  - apply Hstay; [by apply Hsend|]. intros d (_ & _ & Hr & Hd' & Htk'). rewrite Hr in Hd.
    rewrite (at_slot_fun _ _ _ _ (proj1 (proj2 Hd)) (proj1 Hd')) in Htk. congruence.
  - destruct (decide (p_status dst = PROC_PENDING_SYSCALL)) as [Hds|Hds].
    + assert (matches (proc_set s) k p (sc_receiver (p_syscall p)) dst) as Hm.
      { split_and!; try done. split; [apply Hd|done]. }
      destruct (phase_matches _ _ _ _ _ _ _ _ Hph Hm) as [Hs Hr]. rewrite Hr in *.
      assert (b < MAX_NPROCESS) as Hb16.
      { destruct (decide (b = MAX_NPROCESS)) as [->|]; [|lia]. destruct (matches_distinct _ _ _ _ _ Hm).
        unfold k, MAX_NPROCESS in *. Z.div_mod_to_equations. lia. }
      split; [by eapply along_trans; [exact Hal|eapply deliver_along]|]. right. left. exists k, c, p, dst.
      apply begin_handing; try done; [by apply Hs|by apply Hs| |].
      * intros i snd j' d Hm'. left. by apply (se_only _ _ _ _ Hs i snd j' d).
      * exists MAX_NPROCESS. split; [lia|]. unfold MAX_NPROCESS in *. Z.div_mod_to_equations. lia.
    + apply (phase_stale c (b + 1) s0 s k p dst e); [|done..]. apply Hstay; [by apply Hsend|].
      intros d (_ & _ & Hr & [Hd' Hd''] & _). rewrite Hr in Hd. by rewrite (at_slot_fun _ _ _ _ (proj1 (proj2 Hd)) Hd') in Hds.
  - destruct (phase_status _ _ _ _ _ _ Hph Hpk) as [Hpp'|(i & snd & dst & Hh & ->)]; [by rewrite Hpp in Hpp'|].
    change (sc_sender (p_syscall (deliver dst snd))) with (p_pid snd).
    rewrite (proj1 (pend_pid _ _ _ (b_table s Hbs) (ha_snd _ _ _ _ _ _ _ _ Hh))).
    destruct (phase_complete c b i k snd dst s0 s e Hh Hal Hb0 Hup) as [Hal' Hhd].
    split; [by eapply along_trans|]. right. right. by exists i, k, snd, dst.
Qed.

(** ** All the sweeps *)
Lemma visits_phase c s0 n b s pr s' pr' : kbase s0 → curr_proc_idx s0 = Ret c → 0 ≤ c < MAX_NPROCESS →
  1 ≤ b → b + Z.of_nat n ≤ MAX_NPROCESS + 1 → phase c b s0 s → for_up n b visit (s, pr) = Ret (s', pr') →
  phase c (b + Z.of_nat n) s0 s'.
Proof.
  intros Hb0 Hc Hcr. revert b s pr. induction n as [|n IH]; intros b s pr Hb Hbn Hph Hret; cbn [for_up] in Hret.
  - injection Hret as <- _. by rewrite Z.add_0_r.
  - apply bind_ret_inv in Hret as ([s1 pr1] & Hv & Hret). replace (b + Z.of_nat (Datatypes.S n)) with (b + 1 + Z.of_nat n) by lia.
    apply (IH (b + 1) s1 pr1); [lia..| |done]. eapply visit_phase; [done..| |exact Hph|exact Hv]. lia.
Qed.

(** The end of a sweep. *)
Definition settled s s' : Prop := along s s' ∧ still_pending (proc_set s') ∧ apart (proc_set s') ∧
  ((∀ k p, pend (proc_set s) k p ↔ pend (proc_set s') k p) ∨ ∃ i j snd dst, handed i j snd dst s s').

Lemma phase_settled c s s' : 0 ≤ c < MAX_NPROCESS → phase c (MAX_NPROCESS + 1) s s' → settled s s'.
Proof.
  intros Hc [Hal [[Hp Hs Ho Hn]|[(i & j & snd & dst & Hh)|(i & j & snd & dst & Hh)]]]; (split; [done|]).
  - split; [done|]. split; [|by left]. apply apart_iff. intros i snd j dst Hm. pose proof (Ho _ _ _ _ Hm) as ->.
    destruct (nth_distance c i (proj1 (proj1 (proj1 Hm)))) as [Hi Hd]. rewrite <- Hi in Hm. apply Hn in Hm; [done|]. lia.
  - destruct (ha_pos _ _ _ _ _ _ _ _ Hh) as (b & Hb & _). lia.
  - split; [apply Hh|]. split; [apply Hh|]. right. by exists i, j, snd, dst.
Qed.

Lemma settled_phase c s s' : settled s s' → phase c 1 s s'.
Proof.
  intros (Hal & Hs & Ha & [Hp|Hh]); (split; [done|]); [left|by right; right]. constructor; try done.
  - intros i snd j dst Hm. by destruct (proj1 (apart_iff _) Ha i snd j dst).
  - intros b' snd dst ?. lia.
Qed.

Lemma clear_settled c s0 fuel s s' : kbase s0 → curr_proc_idx s0 = Ret c → 0 ≤ c < MAX_NPROCESS → phase c 1 s0 s →
  clear_pending_syscalls fuel s = Ret s' → settled s0 s'.
Proof.
  intros Hb0 Hc Hcr. revert s. induction fuel as [|fuel IH]; intros s Hph Hret; [done|]. cbn [clear_pending_syscalls] in Hret.
  apply bind_ret_inv in Hret as ([s1 pr] & Hsw & Hret). unfold sweep in Hsw.
  apply (visits_phase c s0) in Hsw; [|done..|lia|by vm_compute|done]. apply phase_settled in Hsw; [|done].
  destruct (pr =? 0); [by injection Hret as <-|]. by apply (IH s1); [apply settled_phase|].
Qed.

(** The call of process [c]: only it may have a partner before. *)
Lemma call_phase c s pc s1 : kbase s → pend (proc_set s) c pc →
  still_pending (proc_set s) → (∀ i snd j dst, matches (proc_set s) i snd j dst → i = c ∨ j = c) →
  proc_try_syscall c s = Ret s1 → pend (proc_set s1) c pc ∧ phase c 1 s s1.
Proof.
  intros Hb Hp Hs Honly Htry.
  assert ((∀ dst, ¬ matches (proc_set s) c pc (sc_receiver (p_syscall pc)) dst) → phase c 1 s s) as Hstart.
  { intros Hno. split; [by apply along_refl|]. left. constructor; try done; [|intros; lia].
    intros i snd j dst Hm. destruct (Honly i snd j dst Hm) as [->|]; [|done].
    pose proof Hm as (Hi & _ & Hr & _). rewrite (at_slot_fun _ _ _ _ (proj1 Hi) (proj1 Hp)) in Hm, Hr.
    rewrite <- Hr in Hm. by destruct (Hno dst). }
  assert (tried s c pc s1) as Htried by (apply try_tried; [done..|left; by apply (Hs c)|done]).
  destruct Htried as [Ht Hpp|dst Ht Hd Htk|dst e Ht Hd Htk Hup|e Ht Hpp Hup].
  - split; [done|]. apply Hstart. intros dst (_ & Ht' & _). by rewrite Ht in Ht'.
  - split; [done|]. apply Hstart. intros d (_ & _ & _ & Hd' & Htk').
    rewrite (at_slot_fun _ _ _ _ (proj1 (proj2 Hd)) (proj1 Hd')) in Htk. congruence.
  - assert (along s (set_earth (set_proc s (sc_receiver (p_syscall pc)) (deliver dst pc)) e)) as Hal by (by eapply deliver_along).
    destruct (decide (p_status dst = PROC_PENDING_SYSCALL)) as [Hds|Hds].
    + assert (matches (proc_set s) c pc (sc_receiver (p_syscall pc)) dst) as Hm.
      { split_and!; try done. split; [apply Hd|done]. }
      pose proof (matches_distinct _ _ _ _ _ Hm) as Hne. split.
      { split; [|apply Hp]. apply at_slot_insert; [apply Hb|apply Hd|]. right. split; [done|apply Hp]. }
      split; [done|]. right. left. eexists c, _, pc, dst. apply begin_handing; try done.
      * by apply along_refl.
      * intros i snd j' d Hm'. destruct (Honly i snd j' d Hm') as [| ->]; [by right|]. exfalso.
        destruct Hm' as (_ & _ & _ & [Hj _] & [Ht' _]%takes_recv). rewrite (at_slot_fun _ _ _ _ Hj (proj1 Hp)) in Ht'.
        by rewrite Ht in Ht'.
      * destruct (nth_distance c (sc_receiver (p_syscall pc)) (proj1 (proj1 (proj2 Hd)))) as [Hn Hdist].
        eexists. split; [|exact Hn]. lia.
    + split; [by apply (stale_pend (proc_set s) _ dst); [apply Hb|apply Hd|..]|].
      apply (phase_stale c 1 s s c pc dst e); [|done..]. apply Hstart. intros d (_ & _ & _ & [Hd' Hd''] & _).
      by rewrite (at_slot_fun _ _ _ _ (proj1 (proj2 Hd)) Hd') in Hds.
  - rewrite (Hs c pc Hp) in Hpp. done.
Qed.
End sweeps.
