(* ===== verification/KernelOk.v ===== *)
(** * The kernel in every run

    Processes may be ended at any moment: while they wait for a message,
    while others are blocked in a send to them, or all at once by killall.
    What of the kernel's invariant survives, [kernel_ok], holds along every
    run; the second part shows that the round-robin scheduler is fair in every
    run. *)
From stdpp Require Import relations.
From S2P Require Import Prelude MemAlloc Earth Process Ipc Scheduler Rendezvous Kernel KernelRuns Messages Sweeps.

Section ok.
Context {E : Type} `{EarthLaws E}.
Implicit Type s : kstate E.

(** ** Steps of processes *)

(** Fewer blocked processes, and the same process runs. *)
Lemma ok_shrink c s s' : kernel_ok c s → kbase s' →
  core_in_kernel s' = core_in_kernel s → core_to_proc_idx s' = core_to_proc_idx s →
  (∀ k p, pend (proc_set s') k p → pend (proc_set s) k p) →
  (∀ k p, p_status p = PROC_RUNNING → at_slot (proc_set s') k p → at_slot (proc_set s) k p) →
  (∀ p, p_status p = PROC_RUNNING → at_slot (proc_set s) c p → at_slot (proc_set s') c p) → kernel_ok c s'.
Proof.
  intros [Hb Hcur Hcore Hpend Hap (p0 & Hp0 & Hst) Honly] Hb' H1 H2 Hpp Hback Hrun. constructor; try done.
  - unfold curr_proc_idx in *. by rewrite H1, H2.
  - by rewrite H1, H2.
  - intros k p Hp. by apply (Hpend k), Hpp.
  - intros i snd j dst Hi Ht Hr Hj. by apply (Hap i snd j dst); [apply Hpp|..|apply Hpp].
  - exists p0. split; [by apply Hrun|done].
  - intros k p Hp Hr. by apply (Honly k p); [apply Hback|].
Qed.

(** Another slot [j] than that of the running process holds [q]. *)
Lemma ok_replaced c s j p q ps' : kernel_ok c s → at_slot (proc_set s) j p → replaced j q (proc_set s) ps' →
  p_status p ≠ PROC_RUNNING → p_status q ≠ PROC_RUNNING → p_status q ≠ PROC_PENDING_SYSCALL →
  (awake (p_status q) → mapped (earth s) j) → kernel_ok c (set_procs s ps').
Proof.
  intros Hko Hp [Hok' Hslots] Hnr Hnr' Hnp Hm. pose proof (ko_base c s Hko) as Hb.
  apply (ok_shrink c s); try done; cbn [set_procs proc_set].
  - constructor; cbn [set_procs proc_set earth]; [done|apply Hb| |].
    + intros k r [[-> ->]|[_ Hr]]%Hslots Ha; [by apply Hm|by apply (b_mapped s Hb k r)].
    + intros k r [[[-> ->]|[_ Hr]]%Hslots Hst]; [done|by apply (b_call s Hb k r)].
  - intros k r [[[-> ->]|[_ Hr]]%Hslots Hst]; [done|by split].
  - by intros k r Hst [[-> ->]|[_ Hr]]%Hslots.
  - intros r Hst Hr. apply Hslots. right. split; [|done]. intros ->. by rewrite (at_slot_fun _ _ _ _ Hp Hr) in Hnr.
Qed.

Lemma alloc_ok c s pid s' : kernel_ok c s → proc_alloc s = Ret (pid, s') → kernel_ok c s'.
Proof.
  intros Hko Ha. pose proof (b_table s (ko_base c s Hko)) as Hok.
  pose proof (proc_alloc_loop_spec 16 1 s (proj1 Hok) ltac:(lia) ltac:(lia)) as Hspec.
  change (proc_alloc_loop 16 1 s) with (proc_alloc s) in Hspec.
  destruct (head _) as [j|]; [|by rewrite Hspec in Ha]. destruct Hspec as (Hj & p & Hp & Hu & Heq).
  rewrite Heq in Ha. injection Ha as _ <-.
  assert (table_ok (<[Z.to_nat j := loaded j p]> (proc_set s))) as Hok'.
  { apply table_ok_insert; [done|]. replace j with (Z.of_nat (Z.to_nat j)) at 2 by lia. apply slot_ok_loaded. lia. }
  destruct (decide (j < MAX_NPROCESS)) as [Hlt|Hge].
  - assert (at_slot (proc_set s) j p) as Hat by (split; [lia|done]).
    apply (ok_replaced c s j p (loaded j p)); try done; [|congruence|by intros [_ []]].
    split; [done|]. intros k r. apply at_slot_insert; [done|apply Hat].
  - assert (∀ k r, at_slot (<[Z.to_nat j := loaded j p]> (proc_set s)) k r ↔ at_slot (proc_set s) k r) as Hslots.
    { intros k r. unfold at_slot. split; intros [Hk Hr]; (split; [done|]).
      - by rewrite list_lookup_insert_ne in Hr by lia.
      - by rewrite list_lookup_insert_ne by lia. }
    apply (ok_shrink c s); try done; cbn [set_proc set_procs proc_set].
    + pose proof (ko_base c s Hko) as Hb. constructor; cbn [set_proc set_procs proc_set earth]; [done|apply Hb| |].
      * intros k r Hr%Hslots. by apply (b_mapped s Hb k r).
      * intros k r [Hr%Hslots Hst]. by apply (b_call s Hb k r).
    + intros k r [Hr%Hslots Hst]. by split.
    + by intros k r _ Hr%Hslots.
    + intros r _ Hr. by apply Hslots.
Qed.

Lemma ended_ok (D : Z → Prop) c s s' : kernel_ok c s → ended D s s' → ¬ D c → kernel_ok c s'.
Proof.
  intros Hko [[Hc1 Hc2] Hok' Hslots He Hm] Hc. pose proof (ko_base c s Hko) as Hb. apply (ok_shrink c s); try done.
  - constructor; [done|done| |].
    + intros k r [[Hd Hr]|[Hd (p & Hp & ->)]]%Hslots Ha; [|by destruct Ha].
      apply (Hm k r); [done|apply Ha|done|]. by apply (b_mapped s Hb k r).
    + intros k r [[[Hd Hr]|[Hd (p & Hp & ->)]]%Hslots Hst]; [|done]. by apply (b_call s Hb k r).
  - intros k r [[[Hd Hr]|[Hd (p & Hp & ->)]]%Hslots Hst]; [by split|done].
  - by intros k r Hst [[Hd Hr]|[Hd (p & Hp & ->)]]%Hslots.
  - intros r _ Hr. apply Hslots. by left.
Qed.

Lemma ustep_ok c s s' : kernel_ok c s → ustep s s' → kernel_ok c s'.
Proof.
  intros Hko Hu. pose proof (ko_base c s Hko) as Hb. pose proof (b_table s Hb) as Hok.
  destruct (ustep_ended s s' Hok (b_inv s Hb) Hu)
    as [(e & -> & He & Hm)|[(pid & Ha)|[(pid & p & -> & Hp & Hst & Hm)|(D & Hend & Hcur)]]].
  - apply (ok_shrink c s); try done. destruct Hb as [? ? Hmap ?]. constructor; try done. intros k p Hp Ha. by apply Hm, (Hmap k p).
  - by eapply alloc_ok.
  - destruct (at_slot_pid _ _ _ Hok Hp) as [Hpid Hpos]; [congruence|].
    apply (ok_replaced c s pid p (with_status PROC_READY p)); try done; [by apply status_replaced|congruence].
  - apply (ended_ok D c s s' Hko Hend). intros Hd. destruct (ko_running c s Hko) as (p & Hp & Hrun).
    destruct (Hcur c p Hp Hd Hrun) as (c' & Hc' & Hne). rewrite (ko_curr c s Hko) in Hc'. congruence.
Qed.

(** What a step of a process does to another slot. *)
Lemma ustep_slot s s' k p : table_ok (proc_set s) → e_inv (earth s) → ustep s s' → at_slot (proc_set s) k p →
  p_status p ≠ PROC_UNUSED → p_status p ≠ PROC_LOADING →
  at_slot (proc_set s') k p ∨ at_slot (proc_set s') k (with_status PROC_UNUSED p).
Proof.
  intros Hok Hinv Hu Hp Hnu Hnl.
  destruct (ustep_ended s s' Hok Hinv Hu)
    as [(e & -> & He & Hm)|[(pid & Ha)|[(pid & p1 & -> & Hp1 & Hst & Hm)|(D & Hend & Hcur)]]].
  - by left.
  - left. pose proof (proc_alloc_loop_spec 16 1 s (proj1 Hok) ltac:(lia) ltac:(lia)) as Hspec.
    change (proc_alloc_loop 16 1 s) with (proc_alloc s) in Hspec.
    destruct (head _) as [j|]; [|by rewrite Hspec in Ha]. destruct Hspec as (Hj & q & Hq & Hqu & Heq).
    rewrite Heq in Ha. injection Ha as _ <-. destruct Hp as [Hk Hp]. split; [done|]. cbn [set_proc set_procs proc_set].
    destruct (decide (Z.to_nat j = Z.to_nat k)) as [Hjk|Hjk]; [|by rewrite list_lookup_insert_ne].
    rewrite Hjk, Hp in Hq. congruence.
  - left. destruct (at_slot_pid _ _ _ Hok Hp1) as [Hpid Hpos]; [congruence|].
    destruct (status_replaced _ pid p1 PROC_READY Hok Hp1 Hpid Hpos) as [_ Hslots]. apply Hslots. right.
    split; [|done]. intros ->. rewrite (at_slot_fun _ _ _ _ Hp Hp1) in Hnl. done.
  - destruct (lookup_lt_is_Some_2 (proc_set s') (Z.to_nat k)) as [r Hr].
    { rewrite (proj1 (en_table D s s' Hend)). destruct Hp as [? _]. unfold MAX_NPROCESS in *. lia. }
    assert (at_slot (proc_set s') k r) as Hat by (split; [apply Hp|done]).
    pose proof Hat as [[_ Hr']|[_ (p0 & Hp0 & ->)]]%(en_slots D s s' Hend).
    + left. by rewrite (at_slot_fun _ _ _ _ Hp Hr').
    + right. by rewrite (at_slot_fun _ _ _ _ Hp Hp0).
Qed.

(** ** Traps *)

(** The kernel when the handler of a call or, for the timer, the sweeps begin:
    the context of [c] is saved in its slot, which holds [q] now, runnable or
    blocked in the call it made. *)
Definition context_saved (t : trap) s (c : Z) (p q : process) s1 : Prop := (∃ e1, e_same (earth s) e1 ∧
    s1 = KState (core_in_kernel s) (core_to_proc_idx s) (<[Z.to_nat c := q]> (proc_set s)) e1) ∧
  (is_intr t INTR_ID_TIMER ∧ q = with_status PROC_RUNNABLE (interrupted t p) ∨
   is_intr t INTR_ID_SOFT_M ∧ q = caller t (user_call s c) p ∧
   (sc_type (user_call s c) = SYS_RECV ∨ sc_type (user_call s c) = SYS_SEND)).

(** Storing the context of the running process. *)
Lemma store_base s c p q e : kernel_ok c s → at_slot (proc_set s) c p → p_pid q = p_pid p → e_same (earth s) e →
  (p_status q = PROC_PENDING_SYSCALL → syscall_ok (p_syscall q)) →
  kbase (KState (core_in_kernel s) (core_to_proc_idx s) (<[Z.to_nat c := q]> (proc_set s)) e).
Proof.
  intros Hko Hp Hpid [Hinv Hsame] Hsc. destruct (ok_running_facts s c p Hko Hp) as (Hst & Hpc & Hc).
  pose proof (ko_base c s Hko) as Hb. pose proof (b_table s Hb) as Hok. constructor; cbn [proc_set earth]; [|done| |].
  - apply table_ok_insert; [done|]. unfold slot_ok. rewrite Z2Nat.id by lia. split_and!; [right; congruence|right; congruence|lia].
  - intros k r [[-> ->]|[_ Hr]]%at_slot_insert Ha; try done; [|by apply Hsame, (b_mapped s Hb k r)|apply Hp].
    apply Hsame, (b_mapped s Hb c p Hp). by rewrite Hst.
  - intros k r [[[-> ->]|[_ Hr]]%at_slot_insert Hk]; try done; [by apply Hsc|by apply (b_call s Hb k r)|apply Hp].
Qed.

Lemma call_ok s c : e_inv (earth s) → mapped (earth s) c →
  sc_type (user_call s c) = SYS_RECV ∨ sc_type (user_call s c) = SYS_SEND → syscall_ok (user_call s c).
Proof.
  intros Hinv Hm Ht. pose proof (smem_len (earth s) c Hinv Hm) as Hlen.
  assert (0 ≤ sc_type (user_call s c) < 2 ^ 32) as Hty by (destruct Ht as [-> | ->]; by vm_compute).
  unfold syscall_ok. split; [exact Hty|]. unfold user_call; cbn [sc_sender sc_receiver sc_content sc_status].
  split_and!; try (apply i32_range); try done.
  unfold decode_syscall; cbn [sc_content]. rewrite length_take, length_drop, length_take, Hlen. by vm_compute.
Qed.

Lemma saved_facts t s c p q s1 : kernel_ok c s → at_slot (proc_set s) c p → context_saved t s c p q s1 →
  kbase s1 ∧ curr_proc_idx s1 = Ret c ∧ at_slot (proc_set s1) c q ∧
  (Z.to_nat (core_in_kernel s1) < length (core_to_proc_idx s1))%nat ∧ none_running (proc_set s1) ∧
  still_pending (proc_set s1) ∧
  (∀ i snd j dst, matches (proc_set s1) i snd j dst → pend (proc_set s1) c q ∧ (i = c ∨ j = c)).
Proof.
  intros Hko Hp [(e1 & Hsame & ->) Hq]. destruct (ok_running_facts s c p Hko Hp) as (Hst & Hpid & Hc).
  pose proof (ko_base c s Hko) as Hb. pose proof (b_table s Hb) as Hok. cbn [proc_set core_in_kernel core_to_proc_idx].
  assert (∀ k r, pend (<[Z.to_nat c := q]> (proc_set s)) k r →
    (k = c ∧ r = q ∧ p_status q = PROC_PENDING_SYSCALL) ∨ (k ≠ c ∧ pend (proc_set s) k r)) as Hpend.
  { intros k r [[[-> ->]|[Hk Hr]]%at_slot_insert Hs]; [by left|by right|done|apply Hp]. }
  split_and!.
  - apply (store_base s c p q e1 Hko Hp); [by destruct Hq as [(_ & ->)|(_ & -> & _)]|done|].
    intros Hps. destruct Hq as [(_ & ->)|(_ & -> & Ht)]; [done|]. apply call_ok; [apply Hb| |done].
    apply (b_mapped s Hb c p Hp). by rewrite Hst.
  - apply (ko_curr c s Hko).
  - by eapply at_slot_same.
  - apply (ko_core c s Hko).
  - intros k r [[-> ->]|[Hne Hr]]%at_slot_insert; [|intros Hrun|done|apply Hp].
    + by destruct Hq as [(_ & ->)|(_ & -> & _)].
    + by apply (ko_only c s Hko k r) in Hr.
  - intros k r [(-> & -> & Hs)|[_ Hr]]%Hpend; [|by apply (ko_pending c s Hko k)].
    by destruct Hq as [(_ & ->)|(_ & -> & _)].
  - intros i snd j dst (Hi & Ht & Hr & Hj & Htk).
    apply Hpend in Hi as [(-> & -> & Hs)|[Hic Hi]]; [split; [|by left]; split; [by eapply at_slot_same|done]|].
    apply Hpend in Hj as [(-> & -> & Hs)|[Hjc Hj]]; [split; [|by right]; split; [by eapply at_slot_same|done]|].
    by rewrite (ko_apart c s Hko i snd j dst) in Htk.
Qed.

(** A dispatch keeps the blocked processes and makes one process run. *)
Lemma dispatched_ok s k p s' : kbase s → still_pending (proc_set s) → apart (proc_set s) → none_running (proc_set s) →
  (Z.to_nat (core_in_kernel s) < length (core_to_proc_idx s))%nat → dispatched s k p s' →
  kernel_ok k s' ∧ ∀ x r, pend (proc_set s') x r ↔ pend (proc_set s) x r.
Proof.
  intros Hb Hs Ha Hnone Hcore (Hp & Hst & Hcurr & Hcik & Hlen & [Hinv Hsame] & Hps). pose proof (b_table s Hb) as Hok0.
  destruct (at_slot_pid _ _ _ Hok0 Hp) as [Hpid Hk0]; [by destruct Hst; congruence|].
  destruct (dispatch_slots (proc_set s) k p Hok0 Hp Hpid Hk0) as [Hok Hslots]. rewrite <- Hps in Hok, Hslots.
  assert (∀ x r, pend (proc_set s') x r ↔ pend (proc_set s) x r) as Hpp.
  { intros x r. unfold pend. rewrite Hslots. split; [intros [[[-> ->]|[_ Hr]] Hr']; done|].
    intros [Hr Hr']. split; [|done]. right. split; [|done]. intros ->. rewrite (at_slot_fun _ _ _ _ Hr Hp) in Hr'.
    destruct Hst; congruence. }
  split; [|done]. constructor; [constructor| | | | | |]; try done.
  - intros x r [[-> ->]|[_ Hr]]%Hslots Haw; apply Hsame; [|by apply (b_mapped s Hb x r)].
    apply (b_mapped s Hb k p Hp). by destruct Hst as [-> | ->].
  - intros x r Hr%Hpp. by apply (b_call s Hb x r).
  - congruence.
  - intros x r Hr%Hpp. by apply (Hs x).
  - eapply pend_apart; [|exact Ha]. intros. by rewrite Hpp.
  - exists (started p). rewrite Hslots. auto.
  - intros x r [[-> ->]|[_ Hr]]%Hslots Hrun; [done|]. by apply Hnone in Hr.
Qed.

(** What the kernel does in a trap from which it returns: it has the process
    go on to its exit, killed by ctrl+c, or it settles the blocked processes
    and dispatches the next one. *)
Definition killed (t : trap) s (c : Z) (p : process) s' : Prop :=
  is_intr t INTR_ID_TIMER ∧ ¬ (p_pid p < GPID_USER_START ∨ tty_input_empty (earth s) = true) ∧ ∃ e1,
  e_same (earth s) e1 ∧
  s' = KState (core_in_kernel s) (core_to_proc_idx s)
              (<[Z.to_nat c := with_context (APPS_ENTRY + 0xC) (t_frame t) p]> (proc_set s)) e1.

Definition switched (t : trap) s (c : Z) (p : process) s' : Prop := ∃ q s1 s2 k p',
  context_saved t s c p q s1 ∧ settled s1 s2 ∧ spec_next (proc_set s2) c = Some k ∧ dispatched s2 k p' s'.

(** [proc_yield] once the sweeps have settled. *)
Lemma yield_settled s1 s2 c s' : settled s1 s2 → curr_proc_idx s1 = Ret c →
  (Z.to_nat (core_in_kernel s1) < length (core_to_proc_idx s1))%nat → yield_tail s2 = Ret s' →
  ∃ k p', spec_next (proc_set s2) c = Some k ∧ dispatched s2 k p' s'.
Proof.
  intros (Hal & _) Hc Hcore Hret. destruct (al_cores _ _ Hal) as [H1 H2].
  pose proof (yield_tail_spec s2 c (al_base _ _ Hal)) as Hspec. unfold curr_proc_idx in *. rewrite H1, H2 in Hspec.
  specialize (Hspec Hc Hcore). destruct (spec_next (proc_set s2) c) as [k|]; [|by rewrite Hspec in Hret].
  destruct Hspec as (p' & s3 & Heq & Hd). rewrite Heq in Hret. injection Hret as ->. by exists k, p'.
Qed.

Lemma trap_timer t s c p r s' : kernel_ok c s → t_hartid t = core_in_kernel s → is_intr t INTR_ID_TIMER →
  at_slot (proc_set s) c p → kernel_entry t s = Ret (r, s') → killed t s c p s' ∨ switched t s c p s'.
Proof.
  intros Hko Hh Hi Hp Hret. destruct (ok_running_facts s c p Hko Hp) as (Hst & Hpid & Hc).
  pose proof (ko_base c s Hko) as Hb. pose proof (b_table s Hb) as Hok.
  rewrite (ok_kernel_entry_intr t s c p _ Hko Hh Hi Hp) in Hret. unfold intr_entry in Hret. rewrite Z.eqb_refl in Hret.
  pose proof (at_slot_same _ c p (interrupted t p) Hok Hp) as Hp0.
  destruct (killed_spec (set_proc s c (interrupted t p)) (interrupted t p) c (b_inv s Hb) (ko_curr c s Hko) Hp0)
    as (kill & e1 & Hkill & Hsame & Hno). rewrite Hkill, bind_ret in Hret.
  apply bind_ret_inv in Hret as (s3 & Hrun & Hret). apply bind_ret_inv in Hret as (q3 & _ & Hret). injection Hret as _ ->.
  destruct kill; [left|right].
  - rewrite (upd_curr_spec _ c (interrupted t p)) in Hrun by (apply (ko_curr c s Hko) || exact Hp0). injection Hrun as <-.
    split; [done|]. split; [by intros Hq%Hno; destruct Hq|]. exists e1. split; [done|].
    unfold set_proc, set_earth, set_procs; simpl. by rewrite list_insert_insert_eq.
  - set (q := with_status PROC_RUNNABLE (interrupted t p)).
    rewrite (proc_yield_eq _ c (interrupted t p)), bool_decide_true in Hrun by (apply (ko_curr c s Hko) || exact Hp0 || done).
    apply bind_ret_inv in Hrun as (s2 & Hclear & Htail).
    set (s1 := KState (core_in_kernel s) (core_to_proc_idx s) (<[Z.to_nat c := q]> (proc_set s)) e1).
    assert (proc_set_runnable (set_earth (set_proc s c (interrupted t p)) e1) (p_pid (interrupted t p)) = s1) as Hs1.
    { unfold s1, proc_set_runnable, proc_set_status, set_proc, set_earth, set_procs; simpl.
      rewrite Hpid. by rewrite set_status_insert. }
    rewrite Hs1 in Hclear. assert (context_saved t s c p q s1) as Hprep by (split; [by exists e1|by left]).
    destruct (saved_facts t s c p q s1 Hko Hp Hprep) as (Hb1 & Hc1 & Hq1 & Hcore1 & _ & Hs & Honly).
    assert (settled s1 s2) as Hset.
    { eapply clear_settled; [done|exact Hc1|lia| |exact Hclear]. split; [by apply along_refl|]. left.
      constructor; try done; [|intros; lia]. intros i snd j dst [[_ Hq] _]%Honly. done. }
    destruct (yield_settled s1 s2 c s' Hset Hc1 Hcore1 Htail) as (k & p' & Hn & Hd). by exists q, s1, s2, k, p'.
Qed.

Lemma trap_call t s c p r s' : kernel_ok c s → t_hartid t = core_in_kernel s → is_intr t INTR_ID_SOFT_M →
  at_slot (proc_set s) c p → kernel_entry t s = Ret (r, s') → switched t s c p s'.
Proof.
  intros Hko Hh Hi Hp Hret. destruct (ok_running_facts s c p Hko Hp) as (Hst & Hpid & Hc).
  rewrite (ok_kernel_entry_intr t s c p _ Hko Hh Hi Hp) in Hret.
  apply bind_ret_inv in Hret as (s3 & Hrun & Hret). apply bind_ret_inv in Hret as (q3 & _ & Hret). injection Hret as _ ->.
  destruct (ok_soft_intr_prefix t s c p Hko Hp) as (e1 & Hsame & Heq). rewrite Heq in Hrun.
  apply bind_ret_inv in Hrun as (s1' & Htry & Hrun). set (s1 := called t s c p e1) in *.
  set (q := caller t (user_call s c) p).
  assert (sc_type (user_call s c) = SYS_RECV ∨ sc_type (user_call s c) = SYS_SEND) as Hty.
  { pose proof (at_slot_same _ c p q (b_table s (ko_base c s Hko)) Hp) as Hq. unfold proc_try_syscall in Htry.
    rewrite (get_proc_at s1 c q Hq), bind_ret in Htry. change (p_syscall q) with (user_call s c) in Htry.
    destruct (Z.eqb_spec (sc_type (user_call s c)) SYS_RECV); [by left|].
    destruct (Z.eqb_spec (sc_type (user_call s c)) SYS_SEND); [by right|done]. }
  assert (context_saved t s c p q s1) as Hprep by (split; [by exists e1|by right]).
  destruct (saved_facts t s c p q s1 Hko Hp Hprep) as (Hb1 & Hc1 & Hq1 & Hcore1 & _ & Hs & Honly).
  assert (pend (proc_set s1) c q) as Hpq by done.
  destruct (call_phase c s1 q s1' Hb1 Hpq Hs) as [Hpq' Hph]; [by intros ???? []%Honly|done|].
  assert (curr_proc_idx s1' = Ret c) as Hc2.
  { unfold curr_proc_idx in *. by destruct (al_cores _ _ (proj1 Hph)) as [-> ->]. }
  rewrite (proc_yield_eq s1' c q Hc2 (proj1 Hpq')), bool_decide_false in Hrun by done.
  apply bind_ret_inv in Hrun as (s2 & Hclear & Htail).
  assert (settled s1 s2) as Hset by (eapply clear_settled; [done|exact Hc1|lia|exact Hph|exact Hclear]).
  destruct (yield_settled s1 s2 c s' Hset Hc1 Hcore1 Htail) as (k & p' & Hn & Hd). by exists q, s1, s2, k, p'.
Qed.
Lemma trap_cases t s c p r s' : kernel_ok c s → t_hartid t = core_in_kernel s → at_slot (proc_set s) c p →
  kernel_entry t s = Ret (r, s') → killed t s c p s' ∨ switched t s c p s'.
Proof.
  intros Hko Hh Hp Hret. destruct (entry_is_intr t s _ Hret) as [Hi|Hi]; [by eapply trap_timer|right; by eapply trap_call].
Qed.

(** The kernel after the sweeps, before the dispatch. *)
Lemma saved_settled t s c p q s1 s2 : kernel_ok c s → at_slot (proc_set s) c p → context_saved t s c p q s1 → settled s1 s2 →
  kbase s2 ∧ still_pending (proc_set s2) ∧ apart (proc_set s2) ∧ none_running (proc_set s2) ∧
  (Z.to_nat (core_in_kernel s2) < length (core_to_proc_idx s2))%nat.
Proof.
  intros Hko Hp Hprep (Hal & Hs & Ha & _).
  destruct (saved_facts t s c p q s1 Hko Hp Hprep) as (Hb1 & _ & _ & Hcore & Hnone & _).
  split_and!; [apply Hal|done|done| |by destruct (al_cores _ _ Hal) as [-> ->]].
  intros k r Hr Hrun. destruct (al_back s1 s2 k r (b_table s1 Hb1) Hal Hr) as (r0 & Hr0 & _ & _ & _ & [Hst|[_ Hst]]); [|congruence].
  apply (Hnone k r0 Hr0). congruence.
Qed.

Lemma killed_ok t s c p s' : kernel_ok c s → at_slot (proc_set s) c p → killed t s c p s' →
  kernel_ok c s' ∧ ∀ k r, pend (proc_set s') k r ↔ pend (proc_set s) k r.
Proof.
  intros Hko Hp (_ & _ & e1 & Hsame & ->). destruct (ok_running_facts s c p Hko Hp) as (Hst & _ & _).
  pose proof (b_table s (ko_base c s Hko)) as Hok. set (q := with_context _ _ p). cbn [proc_set].
  assert (∀ k r, pend (<[Z.to_nat c := q]> (proc_set s)) k r ↔ pend (proc_set s) k r) as Hpp.
  { intros k r. unfold pend. rewrite at_slot_insert by (done || apply Hp). split.
    - intros [[[-> ->]|[_ ?]] Hs]; [|done]. cbn in Hs. congruence.
    - intros [Hr Hs]. split; [|done]. right. split; [|done]. intros ->. rewrite (at_slot_fun _ _ _ _ Hr Hp) in Hs. congruence. }
  split; [|done]. constructor; try done; cbn [proc_set core_in_kernel core_to_proc_idx].
  - apply (store_base s c p q e1); try done. cbn. congruence.
  - apply (ko_curr c s Hko).
  - apply (ko_core c s Hko).
  - intros k r Hr%Hpp. by apply (ko_pending c s Hko k).
  - eapply pend_apart; [|apply (ko_apart c s Hko)]. intros. by rewrite Hpp.
  - exists q. split; [by eapply at_slot_same|done].
  - intros k r [[-> _]|[_ Hr]]%at_slot_insert; try done; [|apply Hp]. by apply (ko_only c s Hko).
Qed.

Lemma trap_ok t s c r s' : kernel_ok c s → t_hartid t = core_in_kernel s → kernel_entry t s = Ret (r, s') →
  ∃ k, kernel_ok k s'.
Proof.
  intros Hko Hh Hret. destruct (ko_running c s Hko) as (p & Hp & Hst).
  destruct (trap_cases t s c p r s' Hko Hh Hp Hret)
    as [Hkill|(q & s1 & s2 & k & p' & Hprep & Hset & _ & Hdisp)].
  - exists c. by apply (killed_ok t s c p s').
  - destruct (saved_settled t s c p q s1 s2 Hko Hp Hprep Hset) as (Hb2 & Hs & Ha & Hnone & Hcore).
    exists k. by apply (dispatched_ok s2 k p').
Qed.

Lemma kstep_ok c s s' : kernel_ok c s → kstep s s' → ∃ k, kernel_ok k s'.
Proof. intros Hko Hk. destruct Hk as [s s' Hu|t s r s' Hh Hret]; [exists c; by eapply ustep_ok|by eapply trap_ok]. Qed.

(** C14: the kernel's invariants hold in every reachable state.  Whatever
    the processes store in their memory, whatever input arrives, whenever
    processes are created and in whatever state they are ended, alone or by
    killall: the table stays well formed, every process that is not unused
    or loading has its memory, exactly one process is RUNNING and it is the
    one of the core, every blocked process has its call still to be done, and
    no two of them could complete a message.  Along runs in which no process
    is ended while it waits for a message or while another sends to it, it
    also holds that only blocked processes look like receivers and that every
    blocked sender has a receiver. *)
Theorem kernel_ok_always c s s' : kernel_ok c s →
  (rtc kstep s s' → ∃ c', kernel_ok c' s') ∧
  (kernel_inv c s → rtc orderly_step s s' → ∃ c', kernel_inv c' s').
Proof.
  intros Hko. split.
  - intros Hruns. revert c Hko. induction Hruns as [s|s s1 s2 Hstep _ IH]; intros c Hko; [eauto|].
    destruct (kstep_ok c s s1 Hko Hstep) as [k Hk]. by apply (IH k).
  - intros Hki Hruns. clear Hko. revert c Hki. induction Hruns as [s|s s1 s2 Hstep _ IH]; intros c Hki; [eauto|].
    destruct Hstep as [s s1 Hu|t s r s1 Hh Hret]; [by apply (IH c), (orderly_inv c s)|].
    destruct (trap_inv t s c r s1 Hki Hh Hret) as [k Hk]. by apply (IH k).
Qed.
(** ** Fairness *)

(** A trap is a turn unless all it does is to send the running process to
    its exit because of ctrl+c; then the process keeps the core. *)
Definition turn s s' : Prop := ∃ t r, t_hartid t = core_in_kernel s ∧ kernel_entry t s = Ret (r, s') ∧
  ∀ c p, curr_proc_idx s = Ret c → at_slot (proc_set s) c p → ¬ killed t s c p s'.

(** [n] turns, with other steps in between, none of which dispatches or
    ends [k]. *)
Inductive passes (k : Z) : nat → kstate E → kstate E → Prop :=
  | passes_done s : passes k 0 s s
  | passes_user n s s1 s' : ustep s s1 → (∀ p, at_slot (proc_set s1) k p → p_status p ≠ PROC_UNUSED) →
      passes k n s1 s' → passes k n s s'
  | passes_killed n t s c p s1 s' : curr_proc_idx s = Ret c → at_slot (proc_set s) c p → killed t s c p s1 →
      passes k n s1 s' → passes k n s s'
  | passes_turn n s s1 s' : turn s s1 → curr_proc_idx s1 ≠ Ret k → passes k n s1 s' → passes k (S n) s s'.

(** Passing the core on brings everybody else closer. *)
Lemma distance_closer c k k' : 0 ≤ k < MAX_NPROCESS → 0 ≤ k' < MAX_NPROCESS → 0 ≤ c < MAX_NPROCESS → k ≠ k' →
  distance c k' ≤ distance c k → distance k' k < distance c k.
Proof. unfold distance, MAX_NPROCESS. intros. Z.div_mod_to_equations. lia. Qed.

Lemma runnable_at ps k : 0 ≤ k < MAX_NPROCESS →
  runnable_slot ps k ↔ ∃ p, at_slot ps k p ∧ (p_status p = PROC_READY ∨ p_status p = PROC_RUNNABLE).
Proof.
  intros Hk. split; [by apply at_slot_runnable|]. intros (p & [_ Hp] & Hst). unfold runnable_slot. rewrite Hp. cbn.
  f_equal. unfold is_ready. rewrite orb_true_iff, !bool_decide_eq_true. tauto.
Qed.

(** After a dispatch [k] runs or is closer to the core. *)
Lemma dispatch_closer s2 c c' q s' k : table_ok (proc_set s2) → 0 ≤ c < MAX_NPROCESS → 0 ≤ k < MAX_NPROCESS →
  runnable_slot (proc_set s2) k → spec_next (proc_set s2) c = Some c' → dispatched s2 c' q s' →
  c' = k ∨ (runnable_slot (proc_set s') k ∧ distance c' k < distance c k).
Proof.
  intros Hok Hc Hk Hrun Hnext (Hq & Hst & _ & _ & _ & _ & Hps).
  destruct (decide (c' = k)) as [|Hne]; [by left|right].
  pose proof (spec_next_spec (proc_set s2) c) as Hspec. rewrite Hnext in Hspec. destruct Hspec as (Hc' & _ & Hnear).
  destruct (at_slot_pid _ _ _ Hok Hq) as [Hpid Hpos]; [by destruct Hst; congruence|].
  destruct (dispatch_slots (proc_set s2) c' q Hok Hq Hpid Hpos) as [_ Hslots]. split.
  - apply runnable_at; [done|]. apply runnable_at in Hrun as (p & Hp & Hpst); [|done].
    exists p. split; [|done]. rewrite Hps. apply Hslots. right. split; [congruence|done].
  - apply distance_closer; [done..|congruence|]. by apply Hnear.
Qed.

Lemma other_runnable ps c p q k : table_ok ps → at_slot ps c p → p_status p = PROC_RUNNING →
  0 ≤ k < MAX_NPROCESS → runnable_slot ps k → runnable_slot (<[Z.to_nat c := q]> ps) k.
Proof.
  intros Hok Hp Hst Hk Hrun. apply runnable_at in Hrun as (r & Hr & Hrst); [|done].
  apply runnable_at; [done|]. exists r. split; [|done]. apply at_slot_insert; [done|apply Hp|]. right. split; [|done].
  intros ->. rewrite (at_slot_fun _ _ _ _ Hr Hp) in Hrst. destruct Hrst; congruence.
Qed.

(** The sweeps leave a process that can run as it is. *)
Lemma along_runnable s1 s2 k : along s1 s2 → 0 ≤ k < MAX_NPROCESS → runnable_slot (proc_set s1) k →
  runnable_slot (proc_set s2) k.
Proof.
  intros Hal Hk Hrun. apply runnable_at in Hrun as (r & Hr & Hst); [|done]. apply runnable_at; [done|].
  destruct (al_slots _ _ Hal k r Hr) as (r' & Hr' & _ & _ & _ & [Heq|[Hp _]]); [|destruct Hst; congruence].
  exists r'. split; [done|]. by rewrite Heq.
Qed.

Lemma turn_closer c s s' k : kernel_ok c s → turn s s' → 0 ≤ k < MAX_NPROCESS → runnable_slot (proc_set s) k →
  ∃ c', kernel_ok c' s' ∧ (c' = k ∨ (runnable_slot (proc_set s') k ∧ distance c' k < distance c k)).
Proof.
  intros Hko (t & r & Hh & Hret & Hkind) Hk Hrun. destruct (ko_running c s Hko) as (p & Hp & Hst).
  destruct (ok_running_facts s c p Hko Hp) as (_ & Hpid & Hc). pose proof (b_table s (ko_base c s Hko)) as Hok.
  destruct (trap_cases t s c p r s' Hko Hh Hp Hret)
    as [Hkill|(q & s1 & s2 & k' & p' & Hprep & Hset & Hnext & Hdisp)].
  - by destruct (Hkind c p (ko_curr c s Hko) Hp).
  - destruct (saved_settled t s c p q s1 s2 Hko Hp Hprep Hset) as (Hb2 & Hs & Ha & Hnone & Hcore).
    exists k'. split; [by apply (dispatched_ok s2 k' p')|].
    eapply (dispatch_closer s2 c k' p' s' k); [apply Hb2|lia|done| |done|done].
    apply (along_runnable s1 s2 k (proj1 Hset) Hk). destruct Hprep as [(e1 & _ & ->) _]. by apply (other_runnable _ c p).
Qed.

Lemma ustep_runnable c s s' k : kernel_ok c s → ustep s s' → 0 ≤ k < MAX_NPROCESS →
  (∀ p, at_slot (proc_set s') k p → p_status p ≠ PROC_UNUSED) → runnable_slot (proc_set s) k →
  runnable_slot (proc_set s') k.
Proof.
  intros Hko Hu Hk Hlive Hrun. apply runnable_at in Hrun as (p & Hp & Hst); [|done]. apply runnable_at; [done|].
  exists p. split; [|done]. pose proof (ko_base c s Hko) as Hb.
  destruct (ustep_slot s s' k p (b_table s Hb) (b_inv s Hb) Hu Hp) as [?|Hfreed]; [by destruct Hst as [-> | ->]..|done|].
  by destruct (Hlive _ Hfreed).
Qed.

(** C15: round robin is fair.  A process that can run stays runnable while
    others get the core, whatever they do short of ending it, and is passed over at most
    [distance c k] times, less than MAX_NPROCESS: a run of MAX_NPROCESS turns
    that never dispatches it is impossible. *)
Theorem round_robin_fair c k n s s' : kernel_ok c s → 0 ≤ k < MAX_NPROCESS → runnable_slot (proc_set s) k →
  passes k n s s' → Z.of_nat n ≤ distance c k < MAX_NPROCESS ∧ runnable_slot (proc_set s') k.
Proof.
  intros Hko Hk Hrun Hp. revert c Hko Hrun.
  induction Hp as [s|n s s1 s' Hu Hlive _ IH|n t s c0 p s1 s' Hcur Hp Hkill _ IH|n s s1 s' Hturn Hne _ IH]; intros c Hko Hrun.
  - destruct (nth_distance c k Hk). split; [lia|done].
  - apply (IH c); [by apply (ustep_ok c s)|]. by apply (ustep_runnable c s).
  - rewrite (ko_curr c s Hko) in Hcur. injection Hcur as <-. apply (IH c); [by apply (killed_ok t s c p s1)|].
    destruct Hkill as (_ & _ & e1 & _ & ->). destruct (ok_running_facts s c p Hko Hp) as (Hst & _).
    by apply (other_runnable _ c p); [apply (ko_base c s Hko)|..].
  - destruct (turn_closer c s s1 k Hko Hturn Hk Hrun) as (c' & Hko' & [->|[Hrun' Hlt]]).
    + by rewrite (ko_curr k s1 Hko') in Hne.
    + destruct (IH c' Hko' Hrun') as [Hn Hrs]. destruct (nth_distance c k Hk). split; [lia|done].
Qed.
End ok.
