(* ===== verification/Blocking.v ===== *)
(** * Blocked processes

    A process that is blocked in a send or a receive stays exactly as it is,
    through any number of interrupts, messages between other processes and
    changes of the process table, until a matching call of its partner
    releases both and hands over the message, or it is ended. *)
From stdpp Require Import relations.
From S2P Require Import Prelude MemAlloc Earth Process Ipc Scheduler Rendezvous Kernel KernelRuns Messages Sweeps KernelOk.

Section blocking.
Context {E : Type} `{EarthLaws E}.
Implicit Type s : kstate E.

(** The call that [c] makes in state [s] releases the blocked process [p] in
    slot [k]: one of the two sends to the other, the receiver takes messages
    from it, and after the trap it has the message. *)
Definition released (c k : Z) (p : process) s s' : Prop :=
  (sc_type (user_call s c) = SYS_SEND ∧ sc_receiver (user_call s c) = k ∧ recv_waits p ∧
   (sc_sender (p_syscall p) = GPID_ALL ∨ sc_sender (p_syscall p) = c) ∧
   handed_over c k (sc_content (user_call s c)) s') ∨
  (sc_type (user_call s c) = SYS_RECV ∧ (sc_sender (user_call s c) = GPID_ALL ∨ sc_sender (user_call s c) = k) ∧
   sc_type (p_syscall p) = SYS_SEND ∧ sc_receiver (p_syscall p) = c ∧
   handed_over k c (sc_content (p_syscall p)) s').

(** A dispatch leaves blocked processes alone. *)
Lemma dispatched_pend s2 j q s' k p : table_ok (proc_set s2) → dispatched s2 j q s' → pend (proc_set s2) k p →
  pend (proc_set s') k p.
Proof.
  intros Hok (Hq & Hst & _ & _ & _ & _ & Hps) [Hp Hpend].
  destruct (at_slot_pid _ _ _ Hok Hq) as [Hpid Hpos]; [by destruct Hst; congruence|].
  destruct (dispatch_slots (proc_set s2) j q Hok Hq Hpid Hpos) as [_ Hslots]. split; [|done].
  rewrite Hps. apply Hslots. right. split; [|done]. intros ->. rewrite (at_slot_fun _ _ _ _ Hp Hq) in Hpend.
  destruct Hst; congruence.
Qed.

Lemma replaced_pend ps c p q k r : table_ok ps → at_slot ps c p → p_status p = PROC_RUNNING → pend ps k r →
  k ≠ c ∧ pend (<[Z.to_nat c := q]> ps) k r.
Proof.
  intros Hok Hp Hst [Hr Hpend].
  assert (k ≠ c) as Hne by (intros ->; rewrite (at_slot_fun _ _ _ _ Hr Hp) in Hpend; congruence).
  split; [done|]. split; [|done]. apply at_slot_insert; [done|apply Hp|by right].
Qed.

Lemma takes_sender dst snd : takes dst snd = true →
  sc_sender (p_syscall dst) = GPID_ALL ∨ sc_sender (p_syscall dst) = p_pid snd.
Proof. unfold takes. rewrite !andb_true_iff, orb_true_iff, !Z.eqb_eq. tauto. Qed.

(** The rendezvous of a call is with the caller. *)
Lemma partner_caller ps c pc i j : partner ps c pc = Some (i, j) → i = c ∨ (j = c ∧ sc_type (p_syscall pc) ≠ SYS_SEND).
Proof.
  unfold partner. destruct (Z.eqb_spec (sc_type (p_syscall pc)) SYS_SEND).
  - destruct (ps !! _) as [d|]; [|done]. cbn. destruct (takes d pc); [|done]. intros [= <- _]. by left.
  - destruct (head _) as [x|]; [|done]. cbn. intros [= _ <-]. by right.
Qed.

(** A rendezvous with the caller leaves the blocked process alone or
    releases it. *)
Lemma served_blocked t s c pc e1 i j s2 j2 q s' k p : kwf (called t s c pc e1) → at_slot (proc_set s) c pc → p_pid pc = c →
  pend (proc_set (called t s c pc e1)) c (caller t (user_call s c) pc) →
  partner (proc_set (called t s c pc e1)) c (caller t (user_call s c) pc) = Some (i, j) →
  completed (called t s c pc e1) i j s2 → dispatched s2 j2 q s' → valid_call s c →
  k ≠ c → pend (proc_set (called t s c pc e1)) k p → pend (proc_set s') k p ∨ released c k p s s'.
Proof.
  intros Hk1 Hpc Hpid Hcall Hpart Hcomp Hdisp Hv Hkc Hp. pose proof (served_kwf _ i j s2 Hk1 Hcomp) as Hk2.
  destruct (completed_handover _ i j s2 j2 q s' Hk1 Hcomp Hdisp) as (snd & dst & Hsnd & Hdst & Hty & Hr & Htk & Hover & _).
  destruct (decide (k = i)) as [->|Hki]; [right; right|destruct (decide (k = j)) as [->|Hkj]; [right; left|left]].
  - destruct (partner_caller _ _ _ _ _ Hpart) as [?|[-> Hns]]; [done|].
    rewrite (at_slot_fun _ _ _ _ (proj1 Hsnd) (proj1 Hp)) in Hty, Hr, Hover.
    rewrite (at_slot_fun _ _ _ _ (proj1 Hdst) (proj1 Hcall)) in Htk.
    destruct Hv as [Hrv|[? _]]; [|done]. split_and!; try done. apply takes_sender in Htk as [?|Heq]; [by left|right].
    destruct (pend_pid _ _ _ (k_table _ Hk1) Hsnd) as [Hsp _]. cbn [caller p_syscall] in Heq. congruence.
  - destruct (partner_caller _ _ _ _ _ Hpart) as [->|[-> _]]; [|done].
    rewrite (at_slot_fun _ _ _ _ (proj1 Hdst) (proj1 Hp)) in Htk.
    rewrite (at_slot_fun _ _ _ _ (proj1 Hsnd) (proj1 Hcall)) in Hty, Hr, Htk, Hover. cbn [caller p_syscall] in *.
    split_and!; try done; [by apply takes_recv in Htk|]. apply takes_sender in Htk. cbn [caller p_pid] in Htk. by rewrite Hpid in Htk.
  - eapply dispatched_pend; [apply (k_table _ Hk2)|exact Hdisp|].
    destruct Hcomp as (snd' & dst' & e' & Hi & Hj & Hw & _ & Ht & -> & _).
    pose proof (parties_distinct _ i j snd' dst' Hi Hj Hw Ht) as Hij. split; [|apply Hp].
    apply at_slot_served; try done; [apply (k_table _ Hk1)|]. right. right. split_and!; try done. apply Hp.
Qed.

(** What the two parties of a completed message find, after the dispatch. *)
Lemma handed_handover i j snd dst s1 s2 k q s' : table_ok (proc_set s2) → handed i j snd dst s1 s2 → dispatched s2 k q s' →
  handed_over i j (sc_content (p_syscall snd)) s'.
Proof.
  intros Hok [_ Hpa _ _ _ [Hd1 Hd2] Hgot] Hdisp. pose proof Hdisp as (_ & _ & _ & _ & _ & [_ Hsame] & _).
  unfold handed_over. rewrite !(proj2 (Hsame _)). split_and!; try done.
  intros x Hx. destruct (Hpa x Hx) as (p & Hp & Hst). by eapply served_can_run.
Qed.

(** A trap in which the kernel settles the blocked processes leaves each of
    them alone or releases it. *)
Lemma switched_blocked t s c pc s' k p : kernel_ok c s → at_slot (proc_set s) c pc → switched t s c pc s' →
  pend (proc_set s) k p → pend (proc_set s') k p ∨ is_intr t INTR_ID_SOFT_M ∧ released c k p s s'.
Proof.
  intros Hko Hpc (q & s1 & s2 & k' & p' & Hprep & Hset & _ & Hdisp) Hp.
  destruct (ok_running_facts s c pc Hko Hpc) as (Hst & Hpid & _). pose proof (b_table s (ko_base c s Hko)) as Hok.
  destruct (saved_settled t s c pc q s1 s2 Hko Hpc Hprep Hset) as (Hb2 & Hs2 & Ha2 & Hn2 & Hc2).
  destruct (dispatched_ok s2 k' p' s' Hb2 Hs2 Ha2 Hn2 Hc2 Hdisp) as [_ Hpp].
  destruct (saved_facts t s c pc q s1 Hko Hpc Hprep) as (Hb1 & _ & Hq1 & _ & _ & _ & Honly).
  destruct (replaced_pend _ c pc q k p Hok Hpc Hst Hp) as [Hkc Hp1].
  assert (pend (proc_set s1) k p) as Hp1' by (destruct Hprep as [(e1 & _ & ->) _]; exact Hp1).
  destruct Hset as (_ & _ & _ & [Hsame|(i & j & snd & dst & Hh)]); [left; by apply Hpp, Hsame|].
  pose proof Hh as [Hm _ Hoth _ _ _ _]. pose proof (handed_handover i j snd dst s1 s2 k' p' s' (b_table s2 Hb2) Hh Hdisp) as Hover.
  destruct (Honly i snd j dst Hm) as [Hpq Hcc]. destruct Hm as (Hi & Ht & Hr & Hj & Htk).
  destruct Hprep as [_ [(_ & ->)|(Hint & -> & _)]]; [by destruct Hpq|].
  destruct (decide (k = i)) as [->|Hki]; [right; split; [done|right]|destruct (decide (k = j)) as [->|Hkj];
    [right; split; [done|left]|left; apply Hpp, Hoth; by split]].
  - destruct Hcc as [->| ->]; [done|]. rewrite (at_slot_fun _ _ _ _ (proj1 Hi) (proj1 Hp1')) in *.
    rewrite (at_slot_fun _ _ _ _ (proj1 Hj) Hq1) in Htk. pose proof (takes_recv _ _ Htk) as [Hrt _].
    split_and!; try done. apply takes_sender in Htk as [?|Heq]; [by left|right].
    rewrite (proj1 (pend_pid _ _ _ Hok Hp)) in Heq. exact Heq.
  - destruct Hcc as [->| ->]; [|done]. rewrite (at_slot_fun _ _ _ _ (proj1 Hj) (proj1 Hp1')) in *.
    rewrite (at_slot_fun _ _ _ _ (proj1 Hi) Hq1) in *. pose proof (takes_recv _ _ Htk) as Hrw.
    split_and!; try done. apply takes_sender in Htk. cbn [caller p_pid] in Htk. by rewrite Hpid in Htk.
Qed.

(** What a trap does to a blocked process. *)
Lemma trap_blocked t s c r s' k p : kernel_ok c s → t_hartid t = core_in_kernel s →
  kernel_entry t s = Ret (r, s') → pend (proc_set s) k p →
  pend (proc_set s') k p ∨ is_intr t INTR_ID_SOFT_M ∧ released c k p s s'.
Proof.
  intros Hko Hh Hret Hp. destruct (ko_running c s Hko) as (pc & Hpc & _).
  destruct (trap_cases t s c pc r s' Hko Hh Hpc Hret) as [Hkill|Hsw]; [left|by apply (switched_blocked t s c pc)].
  by apply (killed_ok t s c pc s' Hko Hpc Hkill).
Qed.

(** C13: a blocked process waits for its partner and for nothing else.  Along
    any run of the kernel, in which processes may also be ended at any
    moment, a process blocked in a send or receive keeps its call unchanged
    until a trap in which a process makes the matching call (a send to it
    from a process it receives from, or a receive from it by the process it
    sends to); that trap hands over exactly the message of the send with the
    sender's id, and both can run again.  The only other way out is that it
    is ended itself, by the process server's proc_free of it or of all user
    processes. *)
Theorem blocked_until_released c s s' k p : kernel_ok c s → pend (proc_set s) k p → rtc kstep s s' →
  pend (proc_set s') k p ∨
  ∃ c1 s1 s2, rtc kstep s s1 ∧ rtc kstep s2 s' ∧ kernel_ok c1 s1 ∧ pend (proc_set s1) k p ∧
    ((∃ t r, kernel_entry t s1 = Ret (r, s2)) ∧ released c1 k p s1 s2 ∨
     ustep s1 s2 ∧ at_slot (proc_set s2) k (with_status PROC_UNUSED p)).
Proof.
  intros Hko Hp Hruns. revert c Hko Hp. induction Hruns as [s|s s1 s2 Hstep Hrest IH]; intros c Hko Hp; [by left|].
  assert (pend (proc_set s1) k p ∨ (∃ t r, kernel_entry t s = Ret (r, s1)) ∧ released c k p s s1 ∨
    ustep s s1 ∧ at_slot (proc_set s1) k (with_status PROC_UNUSED p)) as [Hp1|Hout].
  { destruct Hstep as [s s1 Hu|t s r s1 Hh Hret].
    - pose proof (ko_base c s Hko) as Hb.
      destruct (ustep_slot s s1 k p (b_table s Hb) (b_inv s Hb) Hu (proj1 Hp)) as [?|?]; [by rewrite (proj2 Hp)..| |by right; right].
      left. by split; [|apply Hp].
    - destruct (trap_blocked t s c r s1 k p Hko Hh Hret Hp) as [?|[_ ?]]; [by left|]. right. left. eauto. }
  - destruct (kstep_ok c s s1 Hko Hstep) as [c1 Hko1].
    destruct (IH c1 Hko1 Hp1) as [?|(c2 & s3 & s4 & Hr1 & Hr2)]; [by left|right].
    exists c2, s3, s4. split; [by eapply rtc_l|done].
  - right. exists c, s, s1. split_and!; try done; try apply Hp.
Qed.
End blocking.
