(* ===== verification/Timer.v ===== *)
(** * The timer (earth/cpu_timer.c, grass/init.c)

    [mtime] is a free-running 64-bit counter read through two 32-bit
    registers; [clock n] is its value at the [n]-th register access.  What the
    driver relies on is that the counter never decreases and that few
    accesses do not take 2^32 ticks (seven minutes at 10 MHz); both are
    hypotheses of the section.  [mtimecmp] is a pair of 32-bit registers per
    core. *)
From S2P Require Import Prelude.

Definition QUANTUM : Z := 1000000.

(** Number of register accesses so far, and the [mtimecmp] words (low and
    high word of core 0, of core 1, ...). *)
Record timer := Timer { accesses : nat; mtimecmp : list Z }.

Section timer.
Context (clock : nat → Z).

(** [REGW(MTIME_BASE, 0)] and [REGW(MTIME_BASE, 4)] *)
Definition read_low (s : timer) : Z * timer :=
  (clock (accesses s) `mod` 2 ^ 32, Timer (S (accesses s)) (mtimecmp s)).
Definition read_high (s : timer) : Z * timer :=
  (clock (accesses s) / 2 ^ 32, Timer (S (accesses s)) (mtimecmp s)).

Fixpoint mtime_get (fuel : nat) (s : timer) : outcome (Z * timer) :=
  match fuel with
  | O => Fault OutOfFuel
  | S fuel =>
      let '(high, s) := read_high s in
      let '(low, s) := read_low s in
      let '(again, s) := read_high s in
      if negb (again =? high) then mtime_get fuel s
      else Ret (Z.lor (Z.shiftl high 32) low, s)
  end.

(** The writes of [mtimecmp_set], in order: word index and value. *)
Definition mtimecmp_writes (time : Z) (core_id : Z) : list (nat * Z) :=
  [(Z.to_nat (core_id * 2 + 1), 0xFFFFFFFF);
   (Z.to_nat (core_id * 2), u32 time);
   (Z.to_nat (core_id * 2 + 1), u32 (Z.shiftr time 32))].

Definition write_words (ws : list (nat * Z)) (cmp : list Z) : list Z :=
  foldl (λ cmp '(i, v), <[i := v]> cmp) cmp ws.

Definition mtimecmp_set (time core_id : Z) (s : timer) : timer :=
  Timer (accesses s) (write_words (mtimecmp_writes time core_id) (mtimecmp s)).

(** Two attempts are enough, see [mtime_get_spec]. *)
Definition MTIME_FUEL : nat := 2.

Definition timer_reset (core_id : Z) (s : timer) : outcome timer :=
  '(t, s) ← mtime_get MTIME_FUEL s;
  Ret (mtimecmp_set (u64 (t + QUANTUM)) core_id s).

Definition timer_init (core_id : Z) (s : timer) : timer :=
  mtimecmp_set 0x0FFFFFFFFFFFFFFF core_id s.

(** ** [mtime_get] reads a consistent time *)
Context (Hclock : ∀ n, 0 ≤ clock n < 2 ^ 64).
Context (Hmono : ∀ n, clock n ≤ clock (S n)).
Context (Hslow : ∀ n, clock (n + 5)%nat - clock n < 2 ^ 32).

Lemma clock_le n k : clock n ≤ clock (n + k)%nat.
Proof using Hmono.
  induction k as [|k IH]; [by rewrite Nat.add_0_r|].
  rewrite Nat.add_succ_r. pose proof (Hmono (n + k)). lia.
Qed.

Lemma lor_words h l : 0 ≤ h → 0 ≤ l < 2 ^ 32 → Z.lor (Z.shiftl h 32) l = 2 ^ 32 * h + l.
Proof using.
  intros Hh Hl. pose proof (Z.add_lor_land (Z.shiftl h 32) l) as Hadd.
  rewrite !Z.shiftl_mul_pow2 in * by lia.
  assert (Z.land (h * 2 ^ 32) l = 0) as Hland; [|lia].
  apply Z.bits_inj'. intros n Hn. rewrite Z.land_spec, Z.bits_0.
  destruct (decide (n < 32)).
  - by rewrite Z.mul_pow2_bits_low.
  - destruct (decide (l = 0)) as [->|]; [by rewrite Z.bits_0, andb_false_r|].
    rewrite (Z.bits_above_log2 l n), andb_false_r; [done|lia|].
    apply Z.log2_lt_pow2; [lia|]. apply (Z.lt_le_trans _ (2 ^ 32)); [lia|].
    apply Z.pow_le_mono_r; lia.
Qed.

(** One attempt: when both reads of the high word agree, the result is the
    time of the middle access. *)
Lemma attempt_exact n : clock (n + 2)%nat / 2 ^ 32 = clock n / 2 ^ 32 →
  Z.lor (Z.shiftl (clock n / 2 ^ 32) 32) (clock (n + 1)%nat `mod` 2 ^ 32) = clock (n + 1)%nat.
Proof using Hclock Hmono.
  intros H. pose proof (clock_le n 1). pose proof (Hmono (n + 1)) as H2.
  replace (S (n + 1)) with (n + 2)%nat in H2 by lia. pose proof (Hclock n).
  rewrite lor_words.
  - Z.div_mod_to_equations. lia.
  - Z.div_mod_to_equations. lia.
  - apply Z.mod_pos_bound. lia.
Qed.

Lemma mtime_get_spec s : ∃ k s', mtime_get MTIME_FUEL s = Ret (clock k, s') ∧
  (accesses s < k < accesses s')%nat ∧ (accesses s' ≤ accesses s + 6)%nat ∧
  mtimecmp s' = mtimecmp s.
Proof using Hclock Hmono Hslow.
  destruct s as [n cmp]. unfold MTIME_FUEL, mtime_get, read_high, read_low; cbn [accesses mtimecmp].
  replace (S (S n)) with (n + 2)%nat by lia. replace (S n) with (n + 1)%nat by lia.
  destruct (Z.eqb_spec (clock (n + 2)%nat / 2 ^ 32) (clock n / 2 ^ 32)) as [E|E]; cbn [negb].
  - rewrite attempt_exact by done. exists (n + 1)%nat. eexists. split; [done|]. simpl. split_and!; (lia || done).
  - replace (S (n + 2)) with (n + 3)%nat by lia. replace (S (S (n + 3))) with (n + 3 + 2)%nat by lia.
    replace (S (n + 3)) with (n + 3 + 1)%nat by lia.
    assert (clock (n + 3 + 2)%nat / 2 ^ 32 = clock (n + 3)%nat / 2 ^ 32) as E2.
    { pose proof (Hslow n) as H1. pose proof (clock_le n 2) as H2. pose proof (clock_le (n + 2) 1) as H3.
      pose proof (clock_le (n + 3) 2) as H4. replace (n + 2 + 1)%nat with (n + 3)%nat in H3 by lia.
      replace (n + 3 + 2)%nat with (n + 5)%nat in * by lia. Z.div_mod_to_equations. lia. }
    rewrite E2, Z.eqb_refl. cbn [negb]. rewrite attempt_exact by done.
    exists (n + 3 + 1)%nat. eexists. split; [done|]. simpl. split_and!; (lia || done).
Qed.

(** ** [mtimecmp_set] *)

(** The 64-bit value the hardware compares with, for one core. *)
Definition deadline (cmp : list Z) (core_id : Z) : Z :=
  byte_at cmp (Z.to_nat (core_id * 2)) + 2 ^ 32 * byte_at cmp (Z.to_nat (core_id * 2 + 1)).

Definition core_ok (cmp : list Z) (core_id : Z) : Prop :=
  0 ≤ core_id ∧ (Z.to_nat (core_id * 2 + 1) < length cmp)%nat.

Lemma deadline_set s time core_id : core_ok (mtimecmp s) core_id → 0 ≤ time < 2 ^ 64 →
  deadline (mtimecmp (mtimecmp_set time core_id s)) core_id = time.
Proof using.
  intros [Hc Hlen] Ht. unfold deadline, mtimecmp_set, mtimecmp_writes, write_words; cbn [mtimecmp foldl].
  rewrite byte_at_insert_ne, byte_at_insert_eq, byte_at_insert_eq by (rewrite ?length_insert; lia).
  unfold u32. rewrite Z.shiftr_div_pow2 by lia. Z.div_mod_to_equations. lia.
Qed.

Lemma deadline_other s time core_id c : c ≠ core_id → 0 ≤ c → 0 ≤ core_id →
  deadline (mtimecmp (mtimecmp_set time core_id s)) c = deadline (mtimecmp s) c.
Proof using.
  intros Hne Hc Hc'. unfold deadline, mtimecmp_set, mtimecmp_writes, write_words; cbn [mtimecmp foldl].
  by rewrite !byte_at_insert_ne by lia.
Qed.

(** [timer_reset] sets the deadline of its core to one quantum after a
    time the counter really showed during the call (never a torn mix of the
    two register halves), and leaves the other cores alone; the retry loop
    terminates. *)
Theorem timer_reset_deadline s core_id : core_ok (mtimecmp s) core_id → ∃ k s',
  timer_reset core_id s = Ret s' ∧ (accesses s < k < accesses s')%nat ∧
  deadline (mtimecmp s') core_id = u64 (clock k + QUANTUM) ∧
  ∀ c, 0 ≤ c → c ≠ core_id → deadline (mtimecmp s') c = deadline (mtimecmp s) c.
Proof using Hclock Hmono Hslow.
  intros Hc. destruct (mtime_get_spec s) as (k & s1 & Hget & Hk & _ & Hcmp).
  unfold timer_reset. rewrite Hget, bind_ret. exists k. eexists. split; [done|]. split; [done|].
  split; [|intros c ? ?; rewrite deadline_other, Hcmp by (done || apply Hc); done].
  apply deadline_set; [by rewrite Hcmp|apply u64_range].
Qed.

(** C38: re-arming never fires early: between the three register writes of
    [mtimecmp_set] the deadline the hardware sees is never before the new
    one, whatever the registers held. *)
Theorem mtimecmp_no_glitch cmp time core_id m : core_ok cmp core_id →
  Forall (λ w, 0 ≤ w < 2 ^ 32) cmp → 0 ≤ time < 0xFFFFFFFF * 2 ^ 32 → (1 ≤ m ≤ 3)%nat →
  time ≤ deadline (write_words (take m (mtimecmp_writes time core_id)) cmp) core_id.
Proof using.
  intros [Hc Hlen] Hw Ht Hm. unfold deadline, mtimecmp_writes, write_words.
  assert (0 ≤ byte_at cmp (Z.to_nat (core_id * 2))) as Hlow.
  { unfold byte_at. destruct (cmp !! _) as [w|] eqn:E; simpl; [|lia].
    eapply Forall_lookup_1 in Hw; [|exact E]. lia. }
  pose proof (u32_range time).
  destruct m as [|[|[|[|m]]]]; [lia| | | |lia]; cbn [take foldl].
  - rewrite byte_at_insert_ne, byte_at_insert_eq by lia. lia.
  - rewrite byte_at_insert_eq, byte_at_insert_ne, byte_at_insert_eq by (rewrite ?length_insert; lia). lia.
  - rewrite byte_at_insert_ne, byte_at_insert_eq, byte_at_insert_eq by (rewrite ?length_insert; lia).
    unfold u32. rewrite Z.shiftr_div_pow2 by lia. Z.div_mod_to_equations. lia.
Qed.
End timer.

(** A counter that ticks at every access. *)
Definition demo_clock (n : nat) : Z := Z.min (2 ^ 32 - 1 + Z.of_nat n) (2 ^ 64 - 1).

Lemma timer_reset_deadline_witness : ∃ k s',
  timer_reset demo_clock 1 (Timer 0 (replicate 8 0)) = Ret s' ∧ (0 < k < accesses s')%nat ∧
  deadline (mtimecmp s') 1 = u64 (demo_clock k + QUANTUM) ∧
  ∀ c, 0 ≤ c → c ≠ 1 → deadline (mtimecmp s') c = deadline (replicate 8 0) c.
Proof.
  apply (timer_reset_deadline demo_clock); unfold demo_clock; try (intros; lia).
  split; [lia|apply (bool_decide_unpack _); reflexivity].
Defined.

Lemma mtimecmp_no_glitch_witness :
  5000000000 ≤ deadline (write_words (take 1 (mtimecmp_writes 5000000000 1)) (replicate 8 7)) 1.
Proof.
  apply mtimecmp_no_glitch; try lia.
  - split; [lia|apply (bool_decide_unpack _); reflexivity].
  - apply (bool_decide_unpack _). reflexivity.
Defined.

(** ** The timer example of grass/init.c *)
Module TimerExample.
Section example.
Context (clock : nat → Z).

Record state := State { reads : nat; last_time : Z; compare : list Z }.

Definition i64 (z : Z) : Z := let w := u64 z in if w <? 2 ^ 63 then w else w - 2 ^ 64.

(** [local_mtime_get]: both halves are read as [int]; the low half is read
    first and converted to [long long]. *)
Definition local_mtime_get (s : state) : Z * state :=
  let low := i32 (clock (reads s)) in
  let high := i32 (clock (S (reads s)) / 2 ^ 32) in
  (Z.lor (i64 (Z.shiftl high 32)) low, State (S (S (reads s))) (last_time s) (compare s)).

Definition mtimecmp_set (time : Z) (s : state) : state :=
  State (reads s) (last_time s)
    (<[1%nat := i32 (Z.shiftr time 32)]> (<[0%nat := i32 time]> (compare s))).

(** The report of an overflow is printed with [%llx], which [format_to_str]
    does not support ([print_llx] of Print.v): its FATAL stops the core before
    that of the handler. *)
Definition handler (s : state) : outcome state :=
  let '(t, s) := local_mtime_get s in
  if t <? last_time s then Fault (Fatal "printf cannot parse the format: '%%%s'") else
  let '(t, s) := local_mtime_get s in
  let s := State (reads s) t (compare s) in
  let '(t, s) := local_mtime_get s in
  Ret (mtimecmp_set (i64 (t + QUANTUM)) s).
End example.

Lemma lor_neg_low h l : - 2 ^ 32 ≤ l < 0 → Z.lor (Z.shiftl h 32) l = l.
Proof.
  intros Hl. apply Z.bits_inj'. intros n Hn. rewrite Z.lor_spec.
  destruct (decide (n < 32)).
  - rewrite Z.shiftl_spec_low by lia. done.
  - assert (Z.testbit l n = true) as ->; [|apply orb_true_r].
    rewrite <- (Z.lnot_involutive l), Z.lnot_spec by lia.
    destruct (decide (Z.lnot l = 0)) as [->|]; [by rewrite Z.bits_0|].
    unfold Z.lnot in *. rewrite Z.bits_above_log2; [done|lia|].
    apply Z.log2_lt_pow2; [lia|]. apply (Z.lt_le_trans _ (2 ^ 32)); [lia|].
    apply Z.pow_le_mono_r; lia.
Qed.

(** The example's clock breaks when bit 31 of the counter is set: the
    sign of the low half spreads over the high half, the time read is
    negative, and the handler stops the core because of a timer overflow
    although the counter only went forward. *)
Theorem handler_false_overflow t s : 0 ≤ t < 2 ^ 63 → 2 ^ 31 ≤ t `mod` 2 ^ 32 →
  0 ≤ last_time s → (local_mtime_get (λ _, t) s).1 < 0 ∧
  handler (λ _, t) s = Fault (Fatal "printf cannot parse the format: '%%%s'").
Proof.
  intros Ht Hbit Hlast.
  assert ((local_mtime_get (λ _, t) s).1 < 0) as Hneg.
  { unfold local_mtime_get; cbn [fst]. assert (- 2 ^ 32 ≤ i32 t < 0) as Hl.
    { unfold i32, u32. destruct (Z.ltb_spec (t `mod` 2 ^ 32) (2 ^ 31)); Z.div_mod_to_equations; lia. }
    assert (0 ≤ t / 2 ^ 32 < 2 ^ 31) as Hh by (Z.div_mod_to_equations; lia).
    rewrite (i32_small (t / 2 ^ 32)) by lia.
    assert (i64 (Z.shiftl (t / 2 ^ 32) 32) = Z.shiftl (t / 2 ^ 32) 32) as ->.
    { rewrite Z.shiftl_mul_pow2 by lia. unfold i64, u64. rewrite Z.mod_small by lia.
      destruct (Z.ltb_spec (t / 2 ^ 32 * 2 ^ 32) (2 ^ 63)); lia. }
    rewrite lor_neg_low; lia. }
  split; [done|]. unfold handler. destruct (local_mtime_get _ s) as [x s'] eqn:E.
  assert (last_time s' = last_time s) as ->.
  { unfold local_mtime_get in E. by injection E as _ <-. }
  simpl in Hneg. by rewrite (proj2 (Z.ltb_lt _ _)) by lia.
Qed.

Lemma handler_false_overflow_witness :
  (local_mtime_get (λ _, 2 ^ 31) (State 0 5 [0; 0])).1 < 0 ∧
  handler (λ _, 2 ^ 31) (State 0 5 [0; 0]) = Fault (Fatal "printf cannot parse the format: '%%%s'").
Proof. apply handler_false_overflow; simpl; vm_compute; (split; congruence) || congruence. Defined.
End TimerExample.
