(* ===== verification/Terminal.v ===== *)
(** * The terminal (earth/dev_tty.c and the kernel half of servers.c)

    The UART is modelled by its receive queue, the bytes transmitted so far
    and the number of polls until the transmitter is ready again; bits 0 and
    5 of the line status register report the two.  [term_read] is the line
    editor of the kernel: its specification is [edit]. *)
From S2P Require Import Prelude.

Record uart := Uart { rx : list Z; tx : list Z; tx_busy : nat }.

(** [REGB(UART_BASE, VIRT_LINE_STATUS)]; a poll brings the transmitter one
    step closer to being ready. *)
Definition line_status (d : uart) : Z :=
  Z.lor (if bool_decide (rx d = []) then 0 else 1) (if (tx_busy d =? 0)%nat then 32 else 0).
Definition poll (d : uart) : uart := Uart (rx d) (tx d) (pred (tx_busy d)).

Definition uart_rx_empty (d : uart) : bool := Z.land (line_status d) (Z.shiftl 1 0) =? 0.

(** [while (uart_rx_empty())] spins for ever when no input arrives. *)
Definition uart_getc (d : uart) : outcome (Z * uart) :=
  if uart_rx_empty d then Fault OutOfFuel else
  match rx d with
  | c :: rest => Ret (Z.land c 0xFF, Uart rest (tx d) (tx_busy d))
  | [] => Fault (Undef "UART receive register")
  end.

Fixpoint uart_putc (fuel : nat) (c : Z) (d : uart) : outcome uart :=
  match fuel with
  | O => Fault OutOfFuel
  | S fuel =>
      if Z.land (line_status d) (Z.shiftl 1 5) =? 0 then uart_putc fuel c (poll d)
      else Ret (Uart (rx d) (tx d ++ [c]) (tx_busy d))
  end.

(** The transmitter is ready after [tx_busy] polls. *)
Definition tty_write (c : Z) (d : uart) : outcome uart := uart_putc (S (tx_busy d)) c d.

(** ** Terminal operations of the kernel (servers.c) *)
Definition term_write (str : list Z) (d : uart) : outcome uart :=
  foldl (λ d c, d ← d; tty_write c d) (Ret d) str.

Definition ENTER : Z := 0x0d.
Definition BACKSPACE : Z := 0x7f.

(** [buf[i] = v] *)
Definition buf_set (buf : list Z) (i v : Z) : outcome (list Z) :=
  if bool_decide (0 ≤ i < Z.of_nat (length buf)) then Ret (<[Z.to_nat i := v]> buf)
  else Fault (Undef "write outside the buffer").

(** The loop of [term_read]: [i] is the [int] loop variable, compared as
    unsigned with [len - 1]. *)
Fixpoint term_read_loop (fuel : nat) (i len : Z) (buf : list Z) (d : uart)
    : outcome (Z * list Z * uart) :=
  match fuel with
  | O => Fault OutOfFuel
  | S fuel =>
      if u32 i <? u32 (len - 1) then
        '(c, d) ← uart_getc d;
        buf ← buf_set buf i c;
        if c =? ENTER then
          buf ← buf_set buf i 0;
          d ← term_write [0x0a; 0x0d] d;
          Ret (if i =? 0 then 0 else i + 1, buf, d)
        else if c =? BACKSPACE then
          d ← (if negb (i =? 0) then term_write [0x08; 0x20; 0x08] d else Ret d);
          term_read_loop fuel ((if negb (i =? 0) then i - 2 else i - 1) + 1) len buf d
        else
          d ← (if negb (c =? 0) then term_write [c] d else Ret d);
          term_read_loop fuel (i + 1) len buf d
      else
        buf ← buf_set buf (u32 (len - 1)) 0;
        Ret (len, buf, d)
  end.

(** One more iteration than there are characters is enough. *)
Definition term_read (buf : list Z) (len : Z) (d : uart) : outcome (Z * list Z * uart) :=
  term_read_loop (S (length (rx d))) 0 len buf d.

(** ** The device *)
Lemma uart_rx_empty_spec d : uart_rx_empty d = bool_decide (rx d = []).
Proof. unfold uart_rx_empty, line_status. destruct (bool_decide _), (tx_busy d =? 0)%nat; done. Qed.

Lemma uart_getc_cons d c rest : rx d = c :: rest →
  uart_getc d = Ret (Z.land c 0xFF, Uart rest (tx d) (tx_busy d)).
Proof. intros H. unfold uart_getc. by rewrite uart_rx_empty_spec, H. Qed.

Lemma tty_write_spec c d : tty_write c d = Ret (Uart (rx d) (tx d ++ [c]) 0).
Proof.
  unfold tty_write. destruct d as [r t n]; simpl tx_busy. revert r t.
  induction n as [|n IH]; intros r t.
  - unfold uart_putc, line_status; simpl. by destruct (bool_decide _).
  - cbn [uart_putc]. replace (Z.land _ _ =? 0) with true; [apply IH|].
    unfold line_status; simpl. by destruct (bool_decide _).
Qed.

Lemma term_write_spec str d :
  ∃ n, term_write str d = Ret (Uart (rx d) (tx d ++ str) n).
Proof.
  unfold term_write. revert d. induction str as [|c str IH]; intros d; simpl.
  - exists (tx_busy d). by destruct d; rewrite app_nil_r.
  - rewrite tty_write_spec. destruct (IH (Uart (rx d) (tx d ++ [c]) 0)) as [n ->].
    exists n. simpl. by rewrite <- (assoc_L (++)).
Qed.

(** ** Line editing *)

(** Specification: a line of typed characters, last one first. *)
Definition edit_step (acc : list Z) (c : Z) : list Z :=
  if c =? BACKSPACE then tail acc else c :: acc.

(** The characters echoed for [c] when the line holds [acc]. *)
Definition echo_step (acc : list Z) (c : Z) : list Z :=
  if c =? BACKSPACE then (if decide (acc = []) then [] else [0x08; 0x20; 0x08])
  else if c =? 0 then [] else [c].

Fixpoint echoes (acc : list Z) (cs : list Z) : list Z :=
  match cs with [] => [] | c :: cs => echo_step acc c ++ echoes (edit_step acc c) cs end.

(** The line never exceeds [n] characters while [cs] is typed. *)
Fixpoint fits (n : nat) (acc cs : list Z) : Prop :=
  match cs with
  | [] => (length acc < n)%nat
  | c :: cs => (length acc < n)%nat ∧ fits n (edit_step acc c) cs
  end.

Definition is_char (c : Z) : Prop := 0 ≤ c < 2 ^ 8.
#[global] Instance is_char_dec c : Decision (is_char c).
Proof. unfold is_char. apply _. Defined.

Lemma is_char_mask c : is_char c → Z.land c 0xFF = c.
Proof. intros. change 0xFF with (Z.ones 8). rewrite Z.land_ones by lia. by apply Z.mod_small. Qed.

(** [buf] starts with the line [acc] (reversed). *)
Definition holds (buf acc : list Z) : Prop := take (length acc) buf = reverse acc.

Lemma holds_set buf acc c : (length acc < length buf)%nat → holds buf acc →
  holds (<[length acc := c]> buf) (c :: acc).
Proof.
  unfold holds. intros Hlt H. rewrite reverse_cons, <- H. cbn [length].
  rewrite (take_S_r _ _ c) by (by apply list_lookup_insert_eq).
  by rewrite take_insert_ge by lia.
Qed.

Lemma holds_tail buf acc c : holds buf acc → holds (<[length acc := c]> buf) (tail acc).
Proof.
  unfold holds. intros H. destruct acc as [|a acc]; [done|]. cbn [tail length] in *.
  rewrite take_insert_ge by lia. rewrite reverse_cons in H.
  apply (f_equal (take (length acc))) in H. rewrite take_take in H.
  rewrite Nat.min_l in H by lia. rewrite H. apply take_app_length'. by rewrite length_reverse.
Qed.

Lemma buf_set_ok buf i v : (i < length buf)%nat →
  buf_set buf (Z.of_nat i) v = Ret (<[i := v]> buf).
Proof.
  intros. unfold buf_set. rewrite bool_decide_true by lia. by rewrite Nat2Z.id.
Qed.

Lemma eqb_length_nil (acc : list Z) : (Z.of_nat (length acc) =? 0) = bool_decide (acc = []).
Proof. destruct acc; [done|]. by rewrite bool_decide_false, (proj2 (Z.eqb_neq _ _)) by (done || simpl; lia). Qed.

(** One character that is not Enter. *)
Lemma term_read_char fuel c cs acc len buf d : is_char c → c ≠ ENTER → rx d = c :: cs →
  1 ≤ len ≤ Z.of_nat (length buf) → len < 2 ^ 31 → Z.of_nat (length acc) < len - 1 → ∃ n,
  term_read_loop (S fuel) (Z.of_nat (length acc)) len buf d =
  term_read_loop fuel (Z.of_nat (length (edit_step acc c))) len (<[length acc := c]> buf)
    (Uart cs (tx d ++ echo_step acc c) n).
Proof.
  intros Hc Hne Hrx Hlen Hsmall Hacc. cbn [term_read_loop].
  rewrite !u32_small, (proj2 (Z.ltb_lt _ _)) by lia.
  rewrite (uart_getc_cons d c cs Hrx), bind_ret, is_char_mask by done.
  rewrite buf_set_ok, bind_ret, (proj2 (Z.eqb_neq c ENTER)) by (done || lia).
  rewrite eqb_length_nil. unfold edit_step, echo_step.
  destruct (Z.eqb_spec c BACKSPACE) as [->|Hb].
  - destruct acc as [|a acc].
    + rewrite decide_True by done. exists (tx_busy d). cbn. by rewrite app_nil_r.
    + rewrite bool_decide_false, decide_False by done. cbn [negb].
      destruct (term_write_spec [8; 32; 8] (Uart cs (tx d) (tx_busy d))) as [n ->].
      exists n. rewrite bind_ret. cbn [rx tx tail length]. f_equal. lia.
  - destruct (Z.eqb_spec c 0) as [->|H0]; cbn [negb].
    + exists (tx_busy d). rewrite bind_ret, app_nil_r. cbn [length]. f_equal. lia.
    + destruct (term_write_spec [c] (Uart cs (tx d) (tx_busy d))) as [n ->].
      exists n. rewrite bind_ret. cbn [rx tx length]. f_equal. lia.
Qed.

Lemma term_read_loop_spec cs rest len : 1 ≤ len < 2 ^ 31 → Forall is_char cs →
  Forall (λ c, c ≠ ENTER) cs → ∀ fuel acc buf d, (length cs < fuel)%nat →
  rx d = cs ++ ENTER :: rest → fits (Z.to_nat (len - 1)) acc cs → holds buf acc →
  len ≤ Z.of_nat (length buf) →
  let line := foldl edit_step acc cs in
  ∃ buf' n, term_read_loop fuel (Z.of_nat (length acc)) len buf d =
    Ret (if decide (line = []) then 0 else Z.of_nat (length line) + 1, buf',
         Uart rest (tx d ++ echoes acc cs ++ [0x0a; 0x0d]) n) ∧
  holds buf' line ∧ buf' !! length line = Some 0 ∧ length buf' = length buf.
Proof.
  intros Hlen Hchars Hne. induction cs as [|c cs IH]; intros fuel acc buf d Hfuel Hrx Hfits Hholds Hbuf; cbn zeta.
  - destruct fuel as [|fuel]; [simpl in Hfuel; lia|]. cbn [term_read_loop fits foldl app] in *.
    rewrite !u32_small, (proj2 (Z.ltb_lt _ _)) by lia.
    rewrite (uart_getc_cons d ENTER rest Hrx), bind_ret. change (Z.land ENTER 255) with ENTER.
    rewrite buf_set_ok, bind_ret by lia. rewrite Z.eqb_refl, buf_set_ok, bind_ret by len.
    destruct (term_write_spec [10; 13] (Uart rest (tx d) (tx_busy d))) as [n ->]. rewrite bind_ret.
    exists (<[length acc := 0]> (<[length acc := ENTER]> buf)), n. rewrite list_insert_insert_eq.
    rewrite eqb_length_nil. split_and!.
    + case_decide; [by rewrite bool_decide_true by done|by rewrite bool_decide_false by done].
    + unfold holds. by rewrite take_insert_ge by lia.
    + apply list_lookup_insert_eq. lia.
    + by rewrite length_insert.
  - destruct fuel as [|fuel]; [simpl in Hfuel; lia|]. cbn [length] in Hfuel.
    apply Forall_cons in Hchars as [Hc Hchars]. apply Forall_cons in Hne as [Hcne Hne].
    destruct Hfits as [Hacc Hfits].
    destruct (term_read_char fuel c (cs ++ ENTER :: rest) acc len buf d) as [n ->]; try (done || lia).
    destruct (IH Hchars Hne fuel (edit_step acc c) (<[length acc := c]> buf)
                (Uart (cs ++ ENTER :: rest) (tx d ++ echo_step acc c) n))
      as (buf' & n' & -> & Hh & H0 & Hl); try done; try (len).
    + unfold edit_step. destruct (c =? BACKSPACE); [by apply holds_tail|apply holds_set; [lia|done]].
    + exists buf', n'. cbn [tx echoes foldl]. rewrite <- !(assoc_L (++)). by split_and!.
Qed.

Lemma term_read_line cs rest buf len d : Forall is_char cs → Forall (λ c, c ≠ ENTER) cs →
  rx d = cs ++ ENTER :: rest → 1 ≤ len < 2 ^ 31 → len ≤ Z.of_nat (length buf) →
  fits (Z.to_nat (len - 1)) [] cs →
  let line := reverse (foldl edit_step [] cs) in
  ∃ buf' n, term_read buf len d =
    Ret (if decide (line = []) then 0 else Z.of_nat (length line) + 1, buf',
         Uart rest (tx d ++ echoes [] cs ++ [0x0a; 0x0d]) n) ∧
  take (length line) buf' = line ∧ buf' !! length line = Some 0 ∧ length buf' = length buf.
Proof.
  intros Hc Hne Hrx Hlen Hbuf Hfits. cbn zeta. unfold term_read.
  destruct (term_read_loop_spec cs rest len Hlen Hc Hne (S (length (rx d))) [] buf d)
    as (buf' & n & Hr & Hh & H0 & Hl); try done; [rewrite Hrx; len|].
  exists buf', n. rewrite length_reverse. split_and!; try done.
  change (Z.of_nat (length [])) with 0 in Hr. rewrite Hr. do 3 f_equal.
  destruct (foldl edit_step [] cs) as [|x l]; [done|].
  rewrite !decide_False; [done| |done]. rewrite reverse_cons. by destruct (reverse l).
Qed.

(** C30: the line editor of [term_read]: characters typed before Enter, with
    backspace deleting the last one, end up in the buffer as a terminated
    string; the return value is the size of that string with its terminator
    (0 for an empty line), input after Enter is left for the next read, and
    the screen shows the echo of every key. *)
Theorem term_read_edits cs rest buf len d : Forall is_char cs → Forall (λ c, c ≠ ENTER) cs →
  rx d = cs ++ ENTER :: rest → 1 ≤ len < 2 ^ 31 → len ≤ Z.of_nat (length buf) →
  fits (Z.to_nat (len - 1)) [] cs →
  let line := reverse (foldl edit_step [] cs) in
  ∃ buf' n, term_read buf len d =
    Ret (if decide (line = []) then 0 else Z.of_nat (length line) + 1, buf',
         Uart rest (tx d ++ echoes [] cs ++ [0x0a; 0x0d]) n) ∧
  take (length line) buf' = line ∧ buf' !! length line = Some 0 ∧ length buf' = length buf.
Proof. apply term_read_line. Qed.

(** Typing "lx", backspace, "s", Enter. *)
Lemma term_read_edits_witness : ∃ buf' n,
  term_read (zeros 16) 16 (Uart [0x6c; 0x78; 0x7f; 0x73; 0x0d; 0x61] [] 3) =
    Ret (3, buf', Uart [0x61] ([0x6c; 0x78; 0x08; 0x20; 0x08; 0x73; 0x0a; 0x0d]) n) ∧
  take 2 buf' = [0x6c; 0x73] ∧ buf' !! 2%nat = Some 0 ∧ length buf' = 16%nat.
Proof.
  apply (term_read_edits [0x6c; 0x78; 0x7f; 0x73] [0x61] (zeros 16) 16
           (Uart [0x6c; 0x78; 0x7f; 0x73; 0x0d; 0x61] [] 3)); try reflexivity; try lia.
  - apply (bool_decide_unpack _). reflexivity.
  - apply (bool_decide_unpack _). reflexivity.
  - vm_compute. lia.
Defined.

(** [len - 1] wraps for [len = 0]: the loop runs past the end of the buffer
    (here 4 bytes). *)
Example term_read_len_zero :
  term_read (zeros 4) 0 (Uart [0x61; 0x62; 0x63; 0x64; 0x65; 0x0d] [] 0)
  = Fault (Undef "write outside the buffer").
Proof. vm_compute. reflexivity. Qed.
