(* ===== verification/EarthImpl.v ===== *)
(** * The earth layer as the kernel's interface

    The state of the layer is the software TLB with the physical memory, the
    timer, the UART and the software-interrupt registers.  The instance
    [earth_impl] fills [struct earth] the way [mmu_init], [timer_init] and
    [tty_init] do; [earth_laws] proves what the kernel relies on. *)
From S2P Require Import Prelude MemAlloc SoftTlb Timer Terminal Earth.

Record earth_state := EarthState {
  es_mmu : mmu;
  es_timer : timer;
  es_uart : uart;
  es_msip : list Z
}.

Definition with_mmu (e : earth_state) (m : mmu) : earth_state :=
  EarthState m (es_timer e) (es_uart e) (es_msip e).

#[global] Instance page_info_eq_dec : EqDecision page_info.
Proof. solve_decision. Defined.

Section impl.
Context (clock : nat → Z).

#[global] Instance earth_impl : Earth earth_state := {|
  mmu_free pid e := m ← soft_tlb_free pid (es_mmu e); Ret (with_mmu e m);
  mmu_translate pid vaddr e :=
    '(paddr, m) ← soft_tlb_translate pid vaddr (es_mmu e); Ret (paddr, with_mmu e m);
  mmu_switch pid e := m ← soft_tlb_switch pid (es_mmu e); Ret (with_mmu e m);
  (* nothing to flush without page tables *)
  mmu_flush_cache e := e;
  Earth.timer_reset core e :=
    t ← Timer.timer_reset clock core (es_timer e);
    Ret (EarthState (es_mmu e) t (es_uart e) (es_msip e));
  tty_input_empty e := uart_rx_empty (es_uart e);
  tty_read e := '(c, d) ← uart_getc (es_uart e);
    Ret (c, EarthState (es_mmu e) (es_timer e) d (es_msip e));
  ram_load addr n e := page_load addr n (es_mmu e);
  ram_store addr bs e := with_mmu e (page_store addr bs (es_mmu e));
  msip_clear hartid e :=
    EarthState (es_mmu e) (es_timer e) (es_uart e) (<[Z.to_nat hartid := 0]> (es_msip e))
|}.

(** ** The laws *)
Definition VP : Z := SYSCALL_ARG / PAGE_SIZE.

Definition find_page (m : mmu) (pid : Z) : option Z :=
  head (filter (λ i, page_info_table m !! Z.to_nat i = Some (PageInfo pid VP)) page_ids).

Definition call_page (m : mmu) (pid : Z) : list Z :=
  if pid =? 0 then [] else
  match find_page m pid with
  | Some i => page_at (ram (mem m)) (home m pid VP i)
  | None => []
  end.

Definition has_page (m : mmu) (pid : Z) : Prop := ∃ i, owns m pid VP i.

Definition mmu_ok (m : mmu) : Prop :=
  tlb_wf m ∧ ∀ pid pg, sees m pid VP pg → length pg = SYSCALL_PAGE.

Lemma user_page_VP : user_page VP.
Proof. split; vm_compute; congruence. Qed.

Lemma find_page_owns m pid i : tlb_wf m → owns m pid VP i → find_page m pid = Some i.
Proof.
  intros Hwf Ho. unfold find_page.
  destruct (filter _ page_ids) as [|j l] eqn:Ef.
  - exfalso. assert (i ∈ filter (λ i, page_info_table m !! Z.to_nat i = Some (PageInfo pid VP)) page_ids) as Hin.
    { apply list_elem_of_filter. destruct Ho as (Hi & _ & ?). split; [done|]. by apply elem_of_page_ids. }
    rewrite Ef in Hin. by apply not_elem_of_nil in Hin.
  - simpl. f_equal. assert (j ∈ filter (λ i, page_info_table m !! Z.to_nat i = Some (PageInfo pid VP)) page_ids) as Hin.
    { rewrite Ef. left. }
    apply list_elem_of_filter in Hin as [Hj Hj'%elem_of_page_ids].
    apply (wf_inj m Hwf pid VP); [|done]. split_and!; [lia|lia|apply Ho|done].
Qed.

Lemma call_page_owns m pid i : tlb_wf m → owns m pid VP i →
  call_page m pid = page_at (ram (mem m)) (home m pid VP i).
Proof.
  intros Hwf Ho. unfold call_page. rewrite (find_page_owns m pid i) by done.
  by rewrite (proj2 (Z.eqb_neq _ _)) by apply Ho.
Qed.

Lemma call_page_none m pid : ¬ has_page m pid → call_page m pid = [].
Proof.
  intros Hn. unfold call_page. destruct (Z.eqb_spec pid 0) as [|H0]; [done|].
  destruct (find_page m pid) as [i|] eqn:Hf; [|done]. exfalso. apply Hn. exists i.
  apply seqZ_filter_head in Hf as [Hi Ht]; [|lia]. by split_and!; [lia..|].
Qed.

Lemma has_page_em m pid : has_page m pid ∨ ¬ has_page m pid.
Proof.
  destruct (decide (pid = 0)) as [->|H0]; [right; intros (i & _ & ? & _); done|].
  destruct (find_page m pid) as [i|] eqn:Hf.
  - left. exists i. apply seqZ_filter_head in Hf as [Hi Ht]; [|lia]. by split_and!; [lia..|].
  - right. intros (i & Hi & _ & Ht). unfold find_page in Hf.
    assert (i ∈ filter (λ i, page_info_table m !! Z.to_nat i = Some (PageInfo pid VP)) page_ids) as Hin.
    { apply list_elem_of_filter. split; [done|]. by apply elem_of_page_ids. }
    destruct (filter _ page_ids); [by apply not_elem_of_nil in Hin|done].
Qed.

Lemma sees_call_page m pid pg : tlb_wf m → sees m pid VP pg → call_page m pid = pg.
Proof. intros Hwf (i & Ho & <-). by apply call_page_owns. Qed.

Lemma has_page_sees m pid : tlb_wf m → has_page m pid ↔ sees m pid VP (call_page m pid).
Proof.
  intros Hwf. split; [|intros (i & Ho & _); by exists i].
  intros [i Ho]. exists i. split; [done|]. symmetry. by apply call_page_owns.
Qed.

(** [m'] sees for process [q] what [m] sees. *)
Lemma same_page m m' q : tlb_wf m → tlb_wf m' → (∀ pg, sees m' q VP pg ↔ sees m q VP pg) →
  (has_page m' q ↔ has_page m q) ∧ call_page m' q = call_page m q.
Proof.
  intros Hwf Hwf' Hs.
  assert (has_page m' q ↔ has_page m q) as Hiff.
  { split; intros [i Ho].
    - assert (sees m' q VP (page_at (ram (mem m')) (home m' q VP i))) as (j & Hj & _)%Hs by (by exists i).
      by exists j.
    - assert (sees m q VP (page_at (ram (mem m)) (home m q VP i))) as (j & Hj & _)%Hs by (by exists i).
      by exists j. }
  split; [done|]. destruct (has_page_em m q) as [Hp|Hn].
  - apply sees_call_page; [done|]. apply Hs. by apply has_page_sees.
  - rewrite !call_page_none; [done|done|]. by rewrite Hiff.
Qed.

(** Two MMU states in which every process sees the same memory. *)
Definition mmu_same (m m' : mmu) : Prop :=
  mmu_ok m' ∧ ∀ q, (has_page m' q ↔ has_page m q) ∧ call_page m' q = call_page m q.

Lemma switch_same m pid : mmu_ok m → pid ≠ 0 → ∃ m', soft_tlb_switch pid m = Ret m' ∧
  mmu_same m m' ∧ curr_vm_pid m' = pid.
Proof.
  intros [Hwf Hlen] Hpid. destruct (switch_spec m pid Hwf Hpid) as (m' & Heq & Hwf' & Hc & Hs).
  exists m'. split_and!; [done| |done]. split; [split; [done|]|].
  - intros q pg Hp. apply (Hlen q), Hs, Hp.
  - intros q. by apply same_page.
Qed.

Context (Hclock : ∀ n, 0 ≤ clock n < 2 ^ 64).
Context (Hmono : ∀ n, clock n ≤ clock (S n)).
Context (Hslow : ∀ n, clock (n + 5)%nat - clock n < 2 ^ 32).

Lemma syscall_arg_page off : (off < SYSCALL_PAGE)%nat →
  (SYSCALL_ARG + Z.of_nat off) / PAGE_SIZE = VP ∧
  Z.to_nat ((SYSCALL_ARG + Z.of_nat off) `mod` PAGE_SIZE) = off.
Proof using.
  intros Hoff. change SYSCALL_PAGE with 4096%nat in Hoff. unfold VP, PAGE_SIZE, SYSCALL_ARG.
  change (0x80301000 / 4096) with 525057. split; Z.div_mod_to_equations; lia.
Qed.

Lemma page_load_law m pid n : mmu_ok m → has_page m pid → curr_vm_pid m = pid →
  page_load SYSCALL_ARG n m = take n (call_page m pid).
Proof using.
  intros [Hwf _] [i Ho] Hc. rewrite (call_page_owns m pid i) by done. unfold page_load, home.
  rewrite Hc, Z.eqb_refl. f_equal.
Qed.

Lemma page_store_law m pid off bs : mmu_ok m → has_page m pid → curr_vm_pid m = pid →
  (off < SYSCALL_PAGE)%nat → (off + length bs ≤ SYSCALL_PAGE)%nat →
  let m' := page_store (SYSCALL_ARG + Z.of_nat off) bs m in
  mmu_ok m' ∧ curr_vm_pid m' = pid ∧ (∀ q, has_page m' q ↔ has_page m q) ∧
  call_page m' pid = splice (call_page m pid) off bs ∧
  ∀ q, q ≠ pid → call_page m' q = call_page m q.
Proof using.
  intros [Hwf Hlen] [i Ho] Hc Hlt Hoff. cbn zeta. unfold page_store.
  destruct (syscall_arg_page off Hlt) as [-> ->].
  assert (call_page m pid = page_at (ram (mem m)) VP) as Hcp.
  { rewrite (call_page_owns m pid i) by done. unfold home. by rewrite Hc, Z.eqb_refl. }
  rewrite <- Hcp. set (pg := splice _ _ _).
  destruct (user_store_spec m VP pg Hwf user_page_VP) as [Hwf' Hs]. rewrite Hc in Hs.
  assert (length (call_page m pid) = SYSCALL_PAGE) as Hpl.
  { apply (Hlen pid). apply has_page_sees; [done|by exists i]. }
  split_and!; [split; [done|]|done|done| |].
  - intros q p' Hp. apply Hs in Hp. case_decide; [|by apply (Hlen q)].
    destruct Hp as [-> _]. unfold pg. by rewrite length_splice by lia.
  - apply sees_call_page; [done|]. apply Hs. rewrite decide_True by done. split; [done|by exists i].
  - intros q Hq. apply same_page; [done..|]. intros pg'. rewrite Hs, decide_False; [done|congruence].
Qed.

#[global] Instance earth_laws : EarthLaws earth_state.
Proof.
  unshelve refine {|
    e_inv e := mmu_ok (es_mmu e);
    mapped e pid := has_page (es_mmu e) pid;
    smem e pid := call_page (es_mmu e) pid;
    here e pid := curr_vm_pid (es_mmu e) = pid
  |}.
  - intros e pid [Hwf Hlen] Hp. apply (Hlen pid). by apply has_page_sees.
  - intros e pid Hok Hp. assert (pid ≠ 0) as H0 by (by destruct Hp as (i & _ & ? & _)).
    destruct (switch_same (es_mmu e) pid Hok H0) as (m' & Heq & Hsame & Hc).
    exists (with_mmu e m'). cbn. unfold soft_tlb_translate. rewrite Heq. done.
  - intros e pid Hok Hp. assert (pid ≠ 0) as H0 by (by destruct Hp as (i & _ & ? & _)).
    destruct (switch_same (es_mmu e) pid Hok H0) as (m' & Heq & Hsame & Hc).
    exists (with_mmu e m'). cbn. rewrite Heq. done.
  - done.
  - intros e core Hok. destruct (mtime_get_spec clock Hclock Hmono Hslow (es_timer e))
      as (k & t' & Ht & _).
    unfold Earth.timer_reset, earth_impl, Timer.timer_reset. rewrite Ht. eexists. by split.
  - done.
  - intros e Hok Hempty. cbn in *. rewrite uart_rx_empty_spec in Hempty.
    destruct (rx (es_uart e)) as [|c rest] eqn:Hrx; [done|].
    rewrite (uart_getc_cons _ c rest Hrx). eexists _, _. by split.
  - intros e pid n Hok Hp Hc _. by apply page_load_law.
  - intros e pid off bs Hok Hp Hc Hlt Hlen. by apply page_store_law.
  - intros e pid Hok H0. cbn. destruct Hok as [Hwf Hlen].
    destruct (free_spec (es_mmu e) Hwf pid H0) as (m' & -> & Hwf' & _ & _ & Hs).
    exists (with_mmu e m'). split; [done|]. split; [split; [done|]|].
    + intros q pg [Hp _]%Hs. by apply (Hlen q).
    + intros q. destruct (decide (q = pid)) as [->|Hq].
      * split; [|done]. split; [|by intros [_ ?]]. intros [i Ho].
        assert (sees m' pid VP (page_at (ram (mem m')) (home m' pid VP i))) as [_ ?]%Hs by (by exists i). done.
      * destruct (same_page (es_mmu e) m' q) as [Hiff Heq]; [done..| |].
        { intros pg. rewrite Hs. tauto. }
        split; [|done]. cbn. rewrite Hiff. tauto.
Defined.
End impl.
