(* ===== verification/KernelExample.v ===== *)
(** * A concrete kernel state

    Process 1 runs and is about to send a message to process 2, which waits
    for one.  The state is built with the operations of the earth layer; it
    shows that the hypotheses of the kernel theorems can hold together. *)
From S2P Require Import Prelude MemAlloc SoftTlb Timer Terminal Earth EarthImpl.
From S2P Require Import Process Ipc Scheduler Rendezvous Kernel KernelRuns Messages Sweeps KernelOk Blocking.

(** The clock ticks at every access. *)
Lemma demo_clock_range n : 0 ≤ demo_clock n < 2 ^ 64.
Proof. unfold demo_clock. lia. Qed.
Lemma demo_clock_mono n : demo_clock n ≤ demo_clock (S n).
Proof. unfold demo_clock. lia. Qed.
Lemma demo_clock_slow n : demo_clock (n + 5)%nat - demo_clock n < 2 ^ 32.
Proof. unfold demo_clock. lia. Qed.

#[local] Instance demo_earth : Earth earth_state := earth_impl demo_clock.
#[local] Instance demo_laws : EarthLaws earth_state :=
  earth_laws demo_clock demo_clock_range demo_clock_mono demo_clock_slow.

(** ** Memory: both processes have a system call page *)
Definition hello_page : list Z :=
  encode_syscall (Syscall SYS_SEND 0 2 (104 :: 105 :: zeros 1022) PENDING)
  ++ zeros (SYSCALL_PAGE - SYSCALL_SIZE).

Definition demo_ops : list TlbSpec.op :=
  [TlbSpec.OMap 1 VP; TlbSpec.OMap 2 VP; TlbSpec.OSwitch 1; TlbSpec.OStore VP hello_page].

Definition demo_mem : gmap (Z * Z) page_t :=
  alter (λ _, hello_page) (1, VP) (<[(2, VP) := zero_page]> (<[(1, VP) := zero_page]> ∅)).

Lemma demo_mem_runs : TlbSpec.aruns (TlbSpec.AState ∅ (-1)) demo_ops (TlbSpec.AState demo_mem 1).
Proof.
  pose proof user_page_VP.
  repeat first [apply TlbSpec.aruns_nil | eapply TlbSpec.aruns_cons; [constructor; try done|]].
Qed.

Lemma length_hello_page : length hello_page = SYSCALL_PAGE.
Proof. vm_compute. reflexivity. Qed.

Lemma demo_mem_pages q pg : demo_mem !! (q, VP) = Some pg ↔
  (q = 1 ∧ pg = hello_page) ∨ (q = 2 ∧ pg = zero_page).
Proof.
  unfold demo_mem. destruct (decide (q = 1)) as [->|H1].
  - rewrite lookup_alter_eq, lookup_insert_ne, lookup_insert_eq by done. simpl. split.
    + intros [= <-]. by left.
    + intros [[_ ->]|[? _]]; done.
  - rewrite lookup_alter_ne by congruence. destruct (decide (q = 2)) as [->|H2].
    + rewrite lookup_insert_eq. split; [intros [= <-]; by right|]. intros [[? _]|[_ ->]]; done.
    + rewrite !lookup_insert_ne by congruence. rewrite lookup_empty. split; [done|].
      intros [[? _]|[? _]]; done.
Qed.

Lemma demo_mmu : ∃ m, TlbSpec.execs demo_ops mmu_boot = Ret m ∧ mmu_ok m ∧
  has_page m 1 ∧ has_page m 2 ∧ call_page m 1 = hello_page.
Proof.
  assert ((m ← TlbSpec.execs demo_ops mmu_boot; Ret ()) = Ret ()) as Hval by (vm_compute; reflexivity).
  pose proof (TlbSpec.execs_refines demo_ops mmu_boot _ _ TlbSpec.R_boot demo_mem_runs) as Href.
  revert Hval Href. generalize (TlbSpec.execs demo_ops mmu_boot) as r.
  intros r Hval [(m & -> & Hwf & _ & Hsees)| ->]; [|discriminate Hval]. exists m.
  assert (∀ q pg, sees m q VP pg ↔ (q = 1 ∧ pg = hello_page) ∨ (q = 2 ∧ pg = zero_page)) as Hs.
  { intros q pg. rewrite <- demo_mem_pages. symmetry. apply Hsees. }
  assert (sees m 1 VP hello_page) as H1 by (apply Hs; by left).
  assert (sees m 2 VP zero_page) as H2 by (apply Hs; by right).
  split_and!; [done|split; [done|]| | |by apply sees_call_page].
  - intros q pg [[_ ->]|[_ ->]]%Hs; [apply length_hello_page|apply length_zeros].
  - destruct H1 as (i & ? & _). by exists i.
  - destruct H2 as (i & ? & _). by exists i.
Qed.

(** ** The process table *)
Definition proc1 : process := Process 1 (Syscall 0 0 0 (zeros 1024) 0) PROC_RUNNING 0 (zeros 32).
Definition proc2 : process :=
  Process 2 (Syscall SYS_RECV GPID_ALL 0 (zeros 1024) PENDING) PROC_PENDING_SYSCALL 0x80200040 (zeros 32).
Definition demo_table : list process := idle_process :: proc1 :: proc2 :: replicate 14 idle_process.

Definition demo_state (m : mmu) : kstate earth_state :=
  KState 0 [1; 0; 0; 0] demo_table (EarthState m (Timer 0 (replicate 8 0)) (Uart [] [] 0) (replicate 4 0)).

Lemma demo_slots k p : at_slot demo_table k p →
  (k = 1 ∧ p = proc1) ∨ (k = 2 ∧ p = proc2) ∨ p = idle_process.
Proof.
  intros [Hk Hp]. unfold demo_table in Hp.
  destruct (Z.to_nat k) as [|[|[|n]]] eqn:Ek.
  - right; right. by injection Hp.
  - left. split; [lia|by injection Hp].
  - right; left. split; [lia|by injection Hp].
  - right; right. by apply (lookup_replicate 14 idle_process p n) in Hp as [-> _].
Qed.

Lemma demo_table_ok : table_ok demo_table.
Proof.
  split; [done|]. intros i p Hp. destruct i as [|[|[|i]]].
  1-3: injection Hp as <-; split_and!; vm_compute; first [by left|by right|done].
  apply (lookup_replicate 14 idle_process p i) in Hp as [-> _]. split_and!; vm_compute; first [by left|by right|done].
Qed.

Lemma demo_inv m : mmu_ok m → has_page m 1 → has_page m 2 → kernel_inv 1 (demo_state m).
Proof.
  intros Hok H1 H2. constructor; [constructor| | | | |]; try done.
  - apply demo_table_ok.
  - intros k p [[-> ->]|[[-> ->]| ->]]%demo_slots [Ha _]; done.
  - intros k p [[[-> ->]|[[-> ->]| ->]]%demo_slots Hst]; done.
  - intros k p [[-> ->]|[[-> ->]| ->]]%demo_slots [Ht _]; done.
  - simpl. lia.
  - intros k p [[[-> ->]|[[-> ->]| ->]]%demo_slots Hst]; try done. by left.
  - exists proc1. done.
  - intros k p [[-> ->]|[[-> ->]| ->]]%demo_slots Hst; done.
Qed.

(** ** The theorems at this state *)
Definition timer_trap : trap := Trap 0 (2 ^ 31 + 7) 0x80200100 (replicate 32 5).
Definition soft_trap : trap := Trap 0 (2 ^ 31 + 3) 0x80200100 (replicate 32 5).

Lemma timer_trap_intr : is_intr timer_trap INTR_ID_TIMER.
Proof. split; [vm_compute; discriminate|reflexivity]. Qed.
Lemma soft_trap_intr : is_intr soft_trap INTR_ID_SOFT_M.
Proof. split; [vm_compute; discriminate|reflexivity]. Qed.
Lemma demo_at1 m : at_slot (proc_set (demo_state m)) 1 proc1.
Proof. done. Qed.

Lemma demo_call m : call_page m 1 = hello_page →
  sc_type (user_call (demo_state m) 1) = SYS_SEND ∧ sc_receiver (user_call (demo_state m) 1) = 2.
Proof. intros H. unfold user_call; simpl. rewrite H. vm_compute. done. Qed.

Lemma demo_valid m : call_page m 1 = hello_page → valid_call (demo_state m) 1.
Proof.
  intros H. destruct (demo_call m H) as [Ht Hr]. right. split; [done|]. rewrite Hr.
  exists proc2. done.
Qed.

Lemma timer_preempts_witness : ∃ s, kernel_inv 1 s ∧ ∃ (kill : bool) e1, e_same (earth s) e1 ∧
  (p_pid proc1 < GPID_USER_START ∨ tty_input_empty (earth s) = true → kill = false ∧ e1 = earth s) ∧
  if kill then ∃ s', kernel_entry timer_trap s = Ret (APPS_ENTRY + 0xC, t_frame timer_trap, s') ∧ kernel_inv 1 s' ∧
    earth s' = e1 ∧ proc_set s' = <[Z.to_nat 1 := with_context (APPS_ENTRY + 0xC) (t_frame timer_trap) proc1]> (proc_set s)
  else
    let s1 := set_earth (set_proc s 1 (with_status PROC_RUNNABLE (interrupted timer_trap proc1))) e1 in
    ∃ k q s', spec_next (proc_set s1) 1 = Some k ∧ dispatched s1 k q s' ∧ kernel_inv k s' ∧
      kernel_entry timer_trap s = Ret (p_mepc (started q), p_saved (started q), s').
Proof.
  destruct demo_mmu as (m & _ & Hok & H1 & H2 & _). exists (demo_state m).
  pose proof (demo_inv m Hok H1 H2) as Hki. split; [exact Hki|].
  exact (timer_preempts timer_trap (demo_state m) 1 proc1 Hki eq_refl
           timer_trap_intr (demo_at1 m)).
Defined.

Lemma syscall_interrupt_witness : ∃ s, kernel_inv 1 s ∧ valid_call s 1 ∧
  ∃ e1 s2, e_same (earth s) e1 ∧
  let s1 := called soft_trap s 1 proc1 e1 in
  match partner (proc_set s1) 1 (caller soft_trap (user_call s 1) proc1) with
  | Some (i, j) => completed s1 i j s2
  | None => s2 = s1
  end ∧
  match spec_next (proc_set s2) 1 with
  | Some k => ∃ q s', dispatched s2 k q s' ∧ kernel_inv k s' ∧
      kernel_entry soft_trap s = Ret (p_mepc (started q), p_saved (started q), s')
  | None => kernel_entry soft_trap s = Fault (Fatal "proc_yield: no process to run")
  end.
Proof.
  destruct demo_mmu as (m & _ & Hok & H1 & H2 & Hpg). exists (demo_state m).
  pose proof (demo_inv m Hok H1 H2) as Hki. split; [exact Hki|].
  split; [exact (demo_valid m Hpg)|].
  exact (syscall_interrupt soft_trap (demo_state m) 1 proc1 Hki eq_refl
           soft_trap_intr (demo_at1 m)
           (demo_valid m Hpg)).
Defined.

Lemma bad_syscall_panics_witness : ∃ s, kernel_inv 1 s ∧
  (sc_type (user_call s 1) ≠ SYS_RECV → sc_type (user_call s 1) ≠ SYS_SEND →
   kernel_entry soft_trap s = Fault (Fatal "proc_try_syscall: unknown syscall type=%d")) ∧
  (sc_type (user_call s 1) = SYS_SEND →
   (∀ k q, at_slot (proc_set s) k q → p_pid q = sc_receiver (user_call s 1) → p_status q = PROC_UNUSED) →
   kernel_entry soft_trap s = Fault (Fatal "proc_try_send: unknown receiver pid=%d")).
Proof.
  destruct demo_mmu as (m & _ & Hok & H1 & H2 & _). exists (demo_state m).
  pose proof (demo_inv m Hok H1 H2) as Hki. split; [exact Hki|].
  exact (bad_syscall_panics soft_trap (demo_state m) 1 proc1 Hki eq_refl
           soft_trap_intr (demo_at1 m)).
Defined.

(** Process 1 sends "hi" to process 2. *)
Lemma message_arrives_witness : ∃ s r s', kernel_entry soft_trap s = Ret (r, s') ∧
  sys_recv_result 2 (smem (earth s') 2) = ([104; 105], 1) ∧ spins (smem (earth s') 2) = false.
Proof.
  destruct demo_mmu as (m & _ & Hok & H1 & H2 & Hpg). exists (demo_state m).
  destruct (message_arrives soft_trap (demo_state m) 1 proc1 2 proc2 [104; 105] zero_page) as (r & s' & E & Hmsg & _ & Hspin & _).
  - exact (demo_inv m Hok H1 H2).
  - reflexivity.
  - exact soft_trap_intr.
  - exact (demo_at1 m).
  - apply length_zeros.
  - simpl. unfold SYSCALL_MSG_LEN. lia.
  - etrans; [exact Hpg|]. vm_compute. reflexivity.
  - done.
  - done.
  - by left.
  - exists r, s'. split; [exact E|]. split; [apply (Hmsg 2%nat); simpl; lia|exact Hspin].
Defined.

(** All user processes of the example (there are none) and of one with a
    user process in slot 5 are freed. *)
Definition user_table : list process :=
  <[5%nat := Process 5 (p_syscall proc1) PROC_RUNNABLE 0 (zeros 32)]> demo_table.

Lemma proc_free_all_witness : ∃ s s', proc_set s = user_table ∧
  proc_free GPID_ALL s = Ret s' ∧ e_inv (earth s') ∧ length (proc_set s') = 17%nat ∧
  (core_in_kernel s' = core_in_kernel s ∧ core_to_proc_idx s' = core_to_proc_idx s) ∧
  (∀ i p, proc_set s !! i = Some p → proc_set s' !! i =
     Some (if decide (user_slot i p) then with_status PROC_UNUSED p else p)) ∧
  (∀ q, mapped (earth s') q ↔ mapped (earth s) q ∧
     ¬ ∃ i p, proc_set s !! i = Some p ∧ user_slot i p ∧ p_pid p = q).
Proof.
  destruct demo_mmu as (m & _ & Hok & _). exists (set_procs (demo_state m) user_table).
  destruct (proc_free_all (set_procs (demo_state m) user_table)) as (s' & H); [|exact Hok|].
  - apply table_ok_insert; [exact demo_table_ok|]. split_and!; [right|right|]; easy.
  - exists s'. split; [reflexivity|exact H].
Defined.

(** ** Three processes that take turns *)
Definition trio_ops : list TlbSpec.op :=
  [TlbSpec.OMap 1 VP; TlbSpec.OMap 2 VP; TlbSpec.OMap 3 VP; TlbSpec.OSwitch 1].
Definition trio_mem : gmap (Z * Z) page_t :=
  <[(3, VP) := zero_page]> (<[(2, VP) := zero_page]> (<[(1, VP) := zero_page]> ∅)).

Lemma trio_mem_runs : TlbSpec.aruns (TlbSpec.AState ∅ (-1)) trio_ops (TlbSpec.AState trio_mem 1).
Proof.
  pose proof user_page_VP.
  repeat first [apply TlbSpec.aruns_nil | eapply TlbSpec.aruns_cons; [constructor; try done|]].
Qed.

Lemma trio_mem_pages q pg : trio_mem !! (q, VP) = Some pg ↔ 1 ≤ q ≤ 3 ∧ pg = zero_page.
Proof.
  unfold trio_mem. destruct (decide (q = 3)) as [->|H3]; [rewrite lookup_insert_eq; split; [intros [= <-]; split; [lia|done]|by intros [_ ->]]|].
  rewrite lookup_insert_ne by congruence.
  destruct (decide (q = 2)) as [->|H2]; [rewrite lookup_insert_eq; split; [intros [= <-]; split; [lia|done]|by intros [_ ->]]|].
  rewrite lookup_insert_ne by congruence.
  destruct (decide (q = 1)) as [->|H1]; [rewrite lookup_insert_eq; split; [intros [= <-]; split; [lia|done]|by intros [_ ->]]|].
  rewrite lookup_insert_ne, lookup_empty by congruence. split; [done|]. intros [? _]. lia.
Qed.

Lemma trio_mmu : ∃ m, mmu_ok m ∧ ∀ q, 1 ≤ q ≤ 3 → has_page m q.
Proof.
  assert ((m ← TlbSpec.execs trio_ops mmu_boot; Ret ()) = Ret ()) as Hval by (vm_compute; reflexivity).
  pose proof (TlbSpec.execs_refines trio_ops mmu_boot _ _ TlbSpec.R_boot trio_mem_runs) as Href.
  revert Hval Href. generalize (TlbSpec.execs trio_ops mmu_boot) as r.
  intros r Hval [(m & -> & Hwf & _ & Hsees)| ->]; [|discriminate Hval]. exists m.
  assert (∀ q pg, sees m q VP pg ↔ 1 ≤ q ≤ 3 ∧ pg = zero_page) as Hs.
  { intros q pg. rewrite <- trio_mem_pages. symmetry. apply Hsees. }
  split; [split; [exact Hwf|]|].
  - intros q pg [_ ->]%Hs. apply length_zeros.
  - intros q Hq. destruct (proj2 (Hs q zero_page) (conj Hq eq_refl)) as (i & ? & _). by exists i.
Qed.

Definition trio_proc (pid : Z) (st : proc_status) : process :=
  Process pid (Syscall 0 0 0 (zeros 1024) 0) st 0x80200000 (zeros 32).
Definition trio_table : list process :=
  idle_process :: trio_proc 1 PROC_RUNNING :: trio_proc 2 PROC_RUNNABLE :: trio_proc 3 PROC_RUNNABLE
  :: replicate 13 idle_process.
Definition trio_state (m : mmu) : kstate earth_state :=
  KState 0 [1; 0; 0; 0] trio_table (EarthState m (Timer 0 (replicate 8 0)) (Uart [] [] 0) (replicate 4 0)).

Lemma trio_slots k p : at_slot trio_table k p →
  (1 ≤ k ≤ 3 ∧ p = trio_proc k (if decide (k = 1) then PROC_RUNNING else PROC_RUNNABLE)) ∨ p = idle_process.
Proof.
  intros [Hk Hp]. unfold trio_table in Hp. destruct (Z.to_nat k) as [|[|[|[|n]]]] eqn:Ek.
  - right. by injection Hp.
  - left. assert (k = 1) as -> by lia. split; [lia|by injection Hp].
  - left. assert (k = 2) as -> by lia. split; [lia|by injection Hp].
  - left. assert (k = 3) as -> by lia. split; [lia|by injection Hp].
  - right. by apply (lookup_replicate 13 idle_process p n) in Hp as [-> _].
Qed.

Lemma trio_inv m : mmu_ok m → (∀ q, 1 ≤ q ≤ 3 → has_page m q) → kernel_inv 1 (trio_state m).
Proof.
  intros Hok Hpages. constructor; [constructor| | | | |]; try done.
  - split; [done|]. intros i p Hp. do 17 (destruct i as [|i];
      [injection Hp as <-; split_and!; vm_compute; first [by left|by right|done]|]). done.
  - intros k p [[Hk ->]| ->]%trio_slots Ha; [exact (Hpages k Hk)|]. by destruct Ha.
  - intros k p [[[Hk ->]| ->]%trio_slots Hst]; [|done]. by destruct (decide (k = 1)).
  - by intros k p [[Hk ->]| ->]%trio_slots [Ht _].
  - simpl. lia.
  - intros k p [[[Hk ->]| ->]%trio_slots Hst]; [|done]. by destruct (decide (k = 1)).
  - exists (trio_proc 1 PROC_RUNNING). done.
  - intros k p [[Hk ->]| ->]%trio_slots Hst; [|done]. by destruct (decide (k = 1)).
Qed.

(** A timer interrupt passes the core from process 1 to process 2. *)
Lemma trio_turn m : kernel_inv 1 (trio_state m) → ∃ r s',
  kernel_entry timer_trap (trio_state m) = Ret (r, s') ∧ curr_proc_idx s' = Ret 2.
Proof.
  intros Hki. destruct (timer_step timer_trap (trio_state m) 1 (trio_proc 1 PROC_RUNNING) Hki eq_refl timer_trap_intr)
    as (kill & e1 & _ & Hkill & Hres); [done|].
  destruct Hkill as [-> _]; [left; done|]. destruct Hres as (k & q & s' & Hnext & (_ & _ & Hcur & _) & _ & Heq).
  assert (spec_next (proc_set (set_earth (set_proc (trio_state m) 1 (with_status PROC_RUNNABLE
    (interrupted timer_trap (trio_proc 1 PROC_RUNNING)))) e1)) 1 = Some 2) as H2 by (vm_compute; reflexivity).
  rewrite H2 in Hnext. injection Hnext as <-. eexists _, s'. split; [exact Heq|exact Hcur].
Qed.

Lemma kernel_ok_always_witness : ∃ s s', kernel_inv 1 s ∧ rtc kstep s s' ∧ rtc orderly_step s s' ∧
  curr_proc_idx s' = Ret 2 ∧ (∃ c', kernel_ok c' s') ∧ ∃ c', kernel_inv c' s'.
Proof.
  destruct trio_mmu as (m & Hok & Hpages). pose proof (trio_inv m Hok Hpages) as Hki.
  destruct (trio_turn m Hki) as (r & s' & Heq & Hcur). exists (trio_state m), s'. split; [exact Hki|].
  assert (rtc kstep (trio_state m) s') as Hruns.
  { apply rtc_once. by apply (kstep_trap timer_trap _ r). }
  assert (rtc orderly_step (trio_state m) s') as Hord.
  { apply rtc_once. by apply (ostep_trap timer_trap _ r). }
  destruct (kernel_ok_always 1 (trio_state m) s' (inv_ok 1 (trio_state m) Hki)) as [Hk Hi].
  split; [exact Hruns|]. split; [exact Hord|]. split; [exact Hcur|]. split; [exact (Hk Hruns)|exact (Hi Hki Hord)].
Defined.

(** Process 3 is passed over once. *)
Lemma round_robin_fair_witness : ∃ s s', kernel_ok 1 s ∧ passes 3 1 s s' ∧
  Z.of_nat 1 ≤ distance 1 3 < MAX_NPROCESS ∧ runnable_slot (proc_set s') 3.
Proof.
  destruct trio_mmu as (m & Hok & Hpages). pose proof (trio_inv m Hok Hpages) as Hki.
  destruct (trio_turn m Hki) as (r & s' & Heq & Hcur). exists (trio_state m), s'.
  pose proof (inv_ok 1 (trio_state m) Hki) as Hko. split; [exact Hko|].
  assert (passes 3 1 (trio_state m) s') as Hpass.
  { eapply passes_turn; [|rewrite Hcur; discriminate|apply passes_done].
    exists timer_trap, r. split; [reflexivity|]. split; [exact Heq|]. intros c p Hc Hp (_ & Hno & _).
    apply Hno. left. injection Hc as <-. by destruct (trio_slots 1 p Hp) as [[_ ->]| ->]. }
  split; [exact Hpass|].
  apply (round_robin_fair 1 3 1 (trio_state m) s' Hko); [unfold MAX_NPROCESS; lia|reflexivity|exact Hpass].
Defined.

(** Process 2 waits for a message from anybody, and process 1 sends it one. *)
Lemma message_step m : kernel_inv 1 (demo_state m) → call_page m 1 = hello_page → ∃ r s',
  kernel_entry soft_trap (demo_state m) = Ret (r, s').
Proof.
  intros Hki Hpg. destruct (demo_call m Hpg) as [Ht Hr]. pose proof (demo_valid m Hpg) as Hv.
  destruct (syscall_step soft_trap (demo_state m) 1 proc1 Hki eq_refl soft_trap_intr (demo_at1 m) Hv)
    as (e1 & s2 & Hsame & Hpart & Hres).
  destruct (called_ok soft_trap (demo_state m) 1 proc1 e1 Hki (demo_at1 m) Hsame Hv) as (Hk1 & _).
  rewrite (send_partner soft_trap (demo_state m) 1 proc1 e1 2 proc2) in Hpart by (done || by left).
  destruct (spec_next (proc_set s2) 1) as [k|] eqn:Hnext; [|by destruct (completed_next _ 1 2 s2 1 Hk1 Hpart)].
  destruct Hres as (q & s' & _ & _ & Heq). eauto.
Qed.

Lemma blocked_until_released_witness : ∃ s s', kernel_ok 1 s ∧ pend (proc_set s) 2 proc2 ∧ rtc kstep s s' ∧
  (pend (proc_set s') 2 proc2 ∨
   ∃ c1 s1 s2, rtc kstep s s1 ∧ rtc kstep s2 s' ∧ kernel_ok c1 s1 ∧ pend (proc_set s1) 2 proc2 ∧
     ((∃ t r, kernel_entry t s1 = Ret (r, s2)) ∧ released c1 2 proc2 s1 s2 ∨
      ustep s1 s2 ∧ at_slot (proc_set s2) 2 (with_status PROC_UNUSED proc2))).
Proof.
  destruct demo_mmu as (m & _ & Hok & H1 & H2 & Hpg). pose proof (demo_inv m Hok H1 H2) as Hki.
  destruct (message_step m Hki Hpg) as (r & s' & Heq).
  pose proof (inv_ok 1 (demo_state m) Hki) as Hko.
  assert (pend (proc_set (demo_state m)) 2 proc2) as Hp by done.
  exists (demo_state m), s'. split; [exact Hko|]. split; [exact Hp|].
  assert (rtc kstep (demo_state m) s') as Hruns.
  { apply rtc_once. by apply (kstep_trap soft_trap _ r). }
  split; [exact Hruns|]. exact (blocked_until_released 1 (demo_state m) s' 2 proc2 Hko Hp Hruns).
Defined.

(** A process that is freed while another is blocked in a send to it: the
    next interrupt retries the send, finds no receiver and stops the
    kernel. *)
Definition sender_table : list process :=
  <[2%nat := Process 2 (Syscall SYS_SEND 0 5 (zeros 1024) PENDING) PROC_PENDING_SYSCALL 0x80200040 (zeros 32)]> user_table.

Example orphaned_sender :
  let s ps := KState 0 [1; 0; 0; 0] ps (EarthState mmu_boot (Timer 0 (replicate 8 0)) (Uart [] [] 0) (replicate 4 0)) in
  clear_pending_syscalls SWEEPS (s sender_table) = Ret (s sender_table) ∧
  clear_pending_syscalls SWEEPS (s (set_status_in 5 PROC_UNUSED sender_table)) =
    Fault (Fatal "proc_try_send: unknown receiver pid=%d").
Proof. vm_compute. done. Qed.

(** A process that is freed while it waits for a message leaves its call in
    the slot: the next process allocated there looks like a waiting receiver
    before it has ever run. *)
Example stale_receiver :
  let s := proc_set_status (KState 0 [1; 0; 0; 0] demo_table ()) 2 PROC_UNUSED in
  match proc_alloc s with
  | Ret (pid, s') => pid = 2 ∧
      (λ p, (p_status p, takes p proc1)) <$> proc_set s' !! 2%nat = Some (PROC_LOADING, true)
  | Fault _ => False
  end.
Proof. vm_compute. done. Qed.
