(* ===== verification/Riscv.v ===== *)
(** * The machine below the assembly files

    Registers, memory by words and the few instructions that kernel.s, app.S
    and thread.s use between their jumps, with an interpreter. *)
From S2P Require Import Prelude.

(** ** The machine *)
Inductive reg :=
  | a0 | a1 | a2 | a3 | a4 | a5 | a6 | a7 | t0 | t1 | t2 | t3 | t4 | t5 | t6
  | s0 | s1 | s2 | s3 | s4 | s5 | s6 | s7 | s8 | s9 | s10 | s11 | ra | gp | tp | sp.
#[global] Instance reg_eq_dec : EqDecision reg.
Proof. solve_decision. Defined.

(** Memory by words: [words a] is the word at the aligned address [a]. *)
Record cpu := Cpu { regs : reg → Z; mscratch : Z; mepc : Z; words : Z → Z }.

Definition upd {A} `{EqDecision A} (k : A) (v : Z) (f : A → Z) : A → Z := λ x, if decide (x = k) then v else f x.
Definition set_reg (r : reg) (v : Z) (m : cpu) : cpu := Cpu (upd r v (regs m)) (mscratch m) (mepc m) (words m).
Definition set_word (a v : Z) (m : cpu) : cpu := Cpu (regs m) (mscratch m) (mepc m) (upd a v (words m)).

(** The instructions of the assembly files, jumps and [mret] apart. *)
Inductive instr :=
  | CSRW_mscratch (r : reg)
  | CSRR_mscratch (r : reg)
  | LI (r : reg) (v : Z)
  | ADDI (r r' : reg) (v : Z)
  | MV (r r' : reg)
  | SW (r : reg) (off : Z) (base : reg)    (** [sw r, off(base)] *)
  | LW (r : reg) (off : Z) (base : reg).   (** [lw r, off(base)] *)

Definition exec1 (m : cpu) (i : instr) : cpu :=
  match i with
  | CSRW_mscratch r => Cpu (regs m) (regs m r) (mepc m) (words m)
  | CSRR_mscratch r => set_reg r (mscratch m) m
  | LI r v => set_reg r v m
  | ADDI r r' v => set_reg r (u32 (regs m r' + v)) m
  | MV r r' => set_reg r (regs m r') m
  | SW r off base => set_word (u32 (regs m base + off)) (regs m r) m
  | LW r off base => set_reg r (words m (u32 (regs m base + off))) m
  end.
Definition exec (l : list instr) (m : cpu) : cpu := foldl exec1 m l.

Lemma exec_app l l' m : exec (l ++ l') m = exec l' (exec l m).
Proof. apply foldl_app. Qed.

(** No instruction here changes [mepc]. *)
Lemma exec_mepc l m : mepc (exec l m) = mepc m.
Proof.
  revert m. induction l as [|i l IH]; intros m; [done|].
  change (exec (i :: l) m) with (exec l (exec1 m i)). rewrite IH. by destruct i.
Qed.
