(* ===== verification/ThreadSwitch.v ===== *)
(** * Switching between user-level threads (apps/user/thread.s)

    [ctx_start] and [ctx_switch] push the callee-saved registers on the stack
    of the thread that gives up the core and store its stack pointer; a later
    [ctx_switch] to that stack pointer pops them.  The theorem is what a
    thread package on top of them relies on: the call returns, to the thread
    that made it, as an ordinary C function does. *)
From S2P Require Import Prelude Riscv.

(** ** thread.s *)
Definition SAVE_REGISTERS : list instr :=
  [SW s0 4 sp; SW s1 8 sp; SW s2 12 sp; SW s3 16 sp; SW s4 20 sp; SW s5 24 sp; SW s6 28 sp; SW s7 32 sp;
   SW s8 36 sp; SW s9 40 sp; SW s10 44 sp; SW s11 48 sp; SW ra 52 sp].
Definition RESTORE_REGISTERS : list instr :=
  [LW s0 4 sp; LW s1 8 sp; LW s2 12 sp; LW s3 16 sp; LW s4 20 sp; LW s5 24 sp; LW s6 28 sp; LW s7 32 sp;
   LW s8 36 sp; LW s9 40 sp; LW s10 44 sp; LW s11 48 sp; LW ra 52 sp].

(** Up to the call of [ctx_entry]. *)
Definition ctx_start : list instr :=
  [ADDI sp sp (-64)] ++ SAVE_REGISTERS ++ [SW sp 0 a0; MV sp a1].
(** Up to [ret], which jumps to [ra]. *)
Definition ctx_switch : list instr :=
  [ADDI sp sp (-64)] ++ SAVE_REGISTERS ++ [SW sp 0 a0; MV sp a1] ++ RESTORE_REGISTERS ++ [ADDI sp sp 64].

(** ** Stores and loads in a frame *)
Definition stores (l : list (reg * Z)) : list instr := (λ '(r, o), SW r o sp) <$> l.
Definition loads (l : list (reg * Z)) : list instr := (λ '(r, o), LW r o sp) <$> l.

Lemma stores_keep l m a : (∀ r o, (r, o) ∈ l → u32 (regs m sp + o) ≠ a) →
  regs (exec (stores l) m) = regs m ∧ words (exec (stores l) m) a = words m a.
Proof.
  revert m. induction l as [|[r o] l IH]; intros m Hl; [done|].
  change (exec (stores ((r, o) :: l)) m) with (exec (stores l) (exec1 m (SW r o sp))).
  destruct (IH (exec1 m (SW r o sp))) as [-> ->]; [intros r' o' Hin; apply (Hl r'); by right|].
  split; [done|]. cbn. unfold upd. rewrite decide_False; [done|]. intros ->. by eapply Hl; [left|].
Qed.

Lemma stores_regs l m : regs (exec (stores l) m) = regs m.
Proof.
  revert m. induction l as [|[r o] l IH]; intros m; [done|].
  change (exec (stores ((r, o) :: l)) m) with (exec (stores l) (exec1 m (SW r o sp))). by rewrite IH.
Qed.

Lemma stored_at l m r o : NoDup ((λ x, u32 (regs m sp + x.2)) <$> l) → (r, o) ∈ l →
  words (exec (stores l) m) (u32 (regs m sp + o)) = regs m r.
Proof.
  revert m. induction l as [|[r' o'] l IH]; intros m Hnd Hin; [by apply elem_of_nil in Hin|].
  change (exec (stores ((r', o') :: l)) m) with (exec (stores l) (exec1 m (SW r' o' sp))).
  rewrite fmap_cons, NoDup_cons in Hnd. destruct Hnd as [Hout Hnd].
  apply elem_of_cons in Hin as [[= -> ->]|Hin]; [|by apply (IH (exec1 m (SW r' o' sp)))].
  edestruct (stores_keep l (exec1 m (SW r' o' sp)) (u32 (regs m sp + o'))) as [_ ->].
  - intros r2 o2 Hin Heq. apply Hout, list_elem_of_fmap. exists (r2, o2). by split; [symmetry; exact Heq|].
  - cbn. unfold upd. by rewrite decide_True.
Qed.

Lemma loads_keep l m r : r ∉ l.*1 → regs (exec (loads l) m) r = regs m r.
Proof.
  revert m. induction l as [|[r' o'] l IH]; intros m Hr; [done|]. rewrite fmap_cons, not_elem_of_cons in Hr.
  change (exec (loads ((r', o') :: l)) m) with (exec (loads l) (exec1 m (LW r' o' sp))).
  destruct Hr as [Hne Hr]. rewrite (IH (exec1 m (LW r' o' sp))) by done. cbn. unfold upd. by rewrite decide_False.
Qed.

Lemma loaded_at l m r o : NoDup l.*1 → sp ∉ l.*1 → (r, o) ∈ l →
  regs (exec (loads l) m) r = words m (u32 (regs m sp + o)).
Proof.
  revert m. induction l as [|[r' o'] l IH]; intros m Hnd Hsp Hin; [by apply elem_of_nil in Hin|].
  rewrite fmap_cons, NoDup_cons in Hnd. rewrite fmap_cons, not_elem_of_cons in Hsp. destruct Hnd as [Hout Hnd], Hsp as [Hne Hsp].
  change (exec (loads ((r', o') :: l)) m) with (exec (loads l) (exec1 m (LW r' o' sp))).
  assert (regs (exec1 m (LW r' o' sp)) sp = regs m sp) as Hkeep by (cbn; unfold upd; by rewrite decide_False).
  apply elem_of_cons in Hin as [[= -> ->]|Hin].
  - rewrite (loads_keep l (exec1 m (LW r' o' sp)) r' Hout). cbn. unfold upd. by rewrite decide_True.
  - rewrite (IH (exec1 m (LW r' o' sp))) by done. by rewrite Hkeep.
Qed.

Lemma loads_words l m : words (exec (loads l) m) = words m.
Proof.
  revert m. induction l as [|[r o] l IH]; intros m; [done|].
  change (exec (loads ((r, o) :: l)) m) with (exec (loads l) (exec1 m (LW r o sp))). by rewrite IH.
Qed.

(** ** The frame of a thread *)

(** What is saved, and where in the frame. *)
Definition saved : list (reg * Z) :=
  [(s0, 4); (s1, 8); (s2, 12); (s3, 16); (s4, 20); (s5, 24); (s6, 28); (s7, 32); (s8, 36); (s9, 40); (s10, 44);
   (s11, 48); (ra, 52)].

(** The registers a C function preserves, and the address it returns to. *)
Definition preserved : list reg := sp :: saved.*1.

(** The call [ctx_switch(old_sp, new_sp)] or [ctx_start(old_sp, new_sp)] has
    room on its stack, and [old_sp] does not point into that room. *)
Record switch_ok (m : cpu) : Prop := {
  so_stack : 64 ≤ regs m sp < 2 ^ 32 ∧ regs m sp mod 4 = 0;
  so_old : 0 ≤ regs m a0 < 2 ^ 32 ∧ regs m a0 mod 4 = 0;
  so_apart : regs m a0 < regs m sp - 64 ∨ regs m sp ≤ regs m a0
}.

Lemma saved_offset r o : (r, o) ∈ saved → 4 ≤ o ≤ 52.
Proof. intros Hin. repeat (apply elem_of_cons in Hin as [[= -> ->]|Hin]; [lia|]). by apply elem_of_nil in Hin. Qed.

Lemma saved_NoDup p : 0 ≤ p < 2 ^ 32 - 63 → NoDup ((λ x : reg * Z, u32 (p + x.2)) <$> saved).
Proof.
  intros Hp. assert ((λ x : reg * Z, u32 (p + x.2)) <$> saved = Z.add p <$> saved.*2) as ->.
  { rewrite <- list_fmap_compose. apply list_fmap_ext. intros i [r o] Hi. cbn. apply list_elem_of_lookup_2, saved_offset in Hi.
    unfold u32. rewrite Z.mod_small; [done|lia]. }
  assert (Inj (=) (=) (Z.add p)) by (intros x y; lia). apply (NoDup_fmap_2 _), (bool_decide_unpack _). by vm_compute.
Qed.

Lemma saved_regs : NoDup saved.*1 ∧ sp ∉ saved.*1.
Proof. split; apply (bool_decide_unpack _); by vm_compute. Qed.

Lemma old_sp_words m a : words (exec [SW sp 0 a0; MV sp a1] m) a = if decide (a = u32 (regs m a0)) then regs m sp else words m a.
Proof. cbn. unfold upd. by rewrite Z.add_0_r. Qed.

(** Both functions begin with the same instructions. *)
Lemma parked m : switch_ok m → let m1 := exec ctx_start m in let p := regs m sp - 64 in
  regs m1 sp = regs m a1 ∧ words m1 (regs m a0) = p ∧ (∀ r o, (r, o) ∈ saved → words m1 (p + o) = regs m r) ∧
  (∀ a, a < p ∨ regs m sp ≤ a → a ≠ regs m a0 → words m1 a = words m a).
Proof.
  intros [[Hsp _] [Ha0 _] Hap] m1 p. set (m0 := exec1 m (ADDI sp sp (-64))).
  assert (regs m0 sp = p) as Hp.
  { unfold m0. cbn. unfold upd, p. rewrite decide_True by done. unfold u32. rewrite Z.mod_small; lia. }
  assert (∀ r, r ≠ sp → regs m0 r = regs m r) as Hr0 by (intros r Hr; unfold m0; cbn; unfold upd; by rewrite decide_False).
  assert (m1 = exec [SW sp 0 a0; MV sp a1] (exec (stores saved) m0)) as -> by reflexivity.
  set (m2 := exec (stores saved) m0). pose proof (stores_regs saved m0) as Hr2. fold m2 in Hr2.
  assert (∀ a, a ≠ regs m a0 → words (exec [SW sp 0 a0; MV sp a1] m2) a = words m2 a) as Hw.
  { intros a Ha. rewrite old_sp_words, decide_False; [done|]. rewrite Hr2, Hr0 by done. unfold u32. rewrite Z.mod_small; lia. }
  split_and!.
  - change (regs m2 a1 = regs m a1). rewrite Hr2. by apply Hr0.
  - rewrite old_sp_words, decide_True; [by rewrite Hr2|]. rewrite Hr2, Hr0 by done. unfold u32. rewrite Z.mod_small; lia.
  - intros r o Hin. pose proof (saved_offset r o Hin). rewrite Hw by lia.
    assert (u32 (regs m0 sp + o) = p + o) as <- by (rewrite Hp; unfold u32; rewrite Z.mod_small; lia).
    unfold m2. rewrite (stored_at saved m0 r o); [|rewrite Hp; apply saved_NoDup; lia|done].
    apply Hr0. intros ->. apply (proj2 saved_regs), list_elem_of_fmap. by exists (sp, o).
  - intros a Ha Hne. rewrite Hw by done. apply (stores_keep saved m0 a). intros r o Hin. pose proof (saved_offset r o Hin).
    rewrite Hp. unfold u32. rewrite Z.mod_small; lia.
Qed.

Lemma switch_start m : exec ctx_switch m = exec1 (exec (loads saved) (exec ctx_start m)) (ADDI sp sp 64).
Proof.
  assert (ctx_switch = ctx_start ++ loads saved ++ [ADDI sp sp 64]) as -> by reflexivity. rewrite 2!exec_app. reflexivity.
Qed.

Lemma addi_words m r r' v : words (exec1 m (ADDI r r' v)) = words m.
Proof. reflexivity. Qed.
Lemma addi_regs m r r' v q : regs (exec1 m (ADDI r r' v)) q = if decide (q = r) then u32 (regs m r' + v) else regs m q.
Proof. reflexivity. Qed.

Lemma switch_words m : words (exec ctx_switch m) = words (exec ctx_start m).
Proof. rewrite switch_start, addi_words, loads_words. reflexivity. Qed.

(** C34: a switch returns.  A thread calls [ctx_switch] (or [ctx_start]); other
    code runs, which leaves the 64 bytes below the thread's stack pointer
    alone, on other stacks; when it calls [ctx_switch] with the stack pointer
    that the first call has stored, execution goes on at the return address of
    the first call, with the stack pointer and all callee-saved registers of
    the first thread, and nothing outside the second frame and the second
    [*old_sp] is changed by that call. *)
Theorem ctx_switch_returns (code : list instr) m m2 : code = ctx_switch ∨ code = ctx_start →
  let m1 := exec code m in let m3 := exec ctx_switch m2 in
  switch_ok m → switch_ok m2 → regs m2 a1 = words m1 (regs m a0) →
  (∀ a, regs m sp - 64 ≤ a < regs m sp → words m2 a = words m1 a) →
  regs m2 sp ≤ regs m sp - 64 ∨ regs m sp ≤ regs m2 sp - 64 →
  ¬ (regs m sp - 64 ≤ regs m2 a0 < regs m sp) →
  (∀ r, r ∈ preserved → regs m3 r = regs m r) ∧
  (∀ a, a < regs m2 sp - 64 ∨ regs m2 sp ≤ a → a ≠ regs m2 a0 → words m3 a = words m2 a).
Proof.
  intros Hcode m1 m3 Hok Hok2 Ha1 Hkeep Hapart Hold.
  assert (words m1 = words (exec ctx_start m)) as Hw1 by (unfold m1; destruct Hcode as [-> | ->]; [apply switch_words|reflexivity]).
  destruct (parked m Hok) as (_ & Hptr & Hsaved & _), (parked m2 Hok2) as (Hsp2 & _ & _ & Hother2).
  rewrite Hw1, Hptr in Ha1. rewrite Ha1 in Hsp2. destruct Hok as [[Hsp _] _ _], Hok2 as [[Hspr2 _] _ _].
  set (x := exec (loads saved) (exec ctx_start m2)).
  assert (regs x sp = regs m sp - 64) as Hx by (unfold x; by rewrite (loads_keep _ _ _ (proj2 saved_regs))).
  assert (regs m3 sp = regs m sp) as Hsp3.
  { unfold m3. rewrite switch_start. fold x. rewrite addi_regs, decide_True, Hx by done. unfold u32. rewrite Z.mod_small; lia. }
  split; [|intros a; unfold m3; rewrite switch_words; apply Hother2].
  intros r [->|Hr]%elem_of_cons; [done|]. apply list_elem_of_fmap in Hr as ([r' o] & -> & Hin). cbn [fst].
  pose proof (saved_offset _ _ Hin). assert (r' ≠ sp) as Hne.
  { intros ->. apply (proj2 saved_regs), list_elem_of_fmap. by exists (sp, o). }
  assert (regs m3 r' = regs x r') as ->.
  { unfold m3. rewrite switch_start. fold x. by rewrite addi_regs, decide_False. }
  unfold x. rewrite (loaded_at saved _ r' o (proj1 saved_regs) (proj2 saved_regs) Hin), Hsp2.
  assert (u32 (regs m sp - 64 + o) = regs m sp - 64 + o) as -> by (unfold u32; rewrite Z.mod_small; lia).
  rewrite Hother2 by lia. rewrite Hkeep by lia. rewrite Hw1. by apply Hsaved.
Qed.

(** Two threads with stacks that end at 0x80300000 and 0x80310000. *)
Definition thread1 : cpu := Cpu (upd sp 0x80300000 (upd a0 0x80208000 (upd a1 0x80310000 (λ _, 7)))) 0 0 (λ _, 0).
Definition thread2 (ws : Z → Z) : cpu := Cpu (upd sp 0x80310000 (upd a0 0x80208004 (upd a1 (0x80300000 - 64) (λ _, 9)))) 0 0 ws.
Lemma thread2_words ws a : words (thread2 ws) a = ws a.
Proof. reflexivity. Qed.

Lemma ctx_switch_returns_witness : let m3 := exec ctx_switch (thread2 (words (exec ctx_start thread1))) in
  (∀ r, r ∈ preserved → regs m3 r = regs thread1 r) ∧ regs m3 s5 = 7.
Proof.
  destruct (ctx_switch_returns ctx_start thread1 (thread2 (words (exec ctx_start thread1)))) as [Hregs _].
  - by right.
  - split; vm_compute; [split; [split; [discriminate|reflexivity]|reflexivity]..|by left].
  - split; vm_compute; [split; [split; [discriminate|reflexivity]|reflexivity]..|by left].
  - by vm_compute.
  - intros a _. apply thread2_words.
  - right. vm_compute. discriminate.
  - vm_compute. intros [Hlow _]. by apply Hlow.
  - split; [exact Hregs|]. rewrite Hregs; [reflexivity|]. apply (bool_decide_unpack _). by vm_compute.
Defined.
