(* ===== verification/TrapEntry.v ===== *)
(** * Entering and leaving the kernel (grass/kernel.s)

    [trap_entry] switches to the kernel's stack, stores the registers of the
    interrupted process below EGOS_STACK_TOP, calls [kernel_entry], loads the
    registers from the same place and returns to [mepc].  The assembly is
    executed by a small interpreter; composed with the C code it shows that a
    process does not notice that it has been interrupted: when it gets the
    core back, every register has its old value. *)
From S2P Require Import Prelude Riscv MemAlloc Earth Process Ipc Scheduler Rendezvous Kernel KernelRuns Messages Sweeps KernelOk Blocking KernelExample.

(** ** kernel.s *)

(** Steps 2 and 3. *)
Definition trap_prologue : list instr :=
  [CSRW_mscratch sp; LI sp 0x80200000;
   ADDI sp sp (-128);
   SW a0 0 sp; SW a1 4 sp; SW a2 8 sp; SW a3 12 sp; SW a4 16 sp; SW a5 20 sp; SW a6 24 sp; SW a7 28 sp;
   SW t0 32 sp; SW t1 36 sp; SW t2 40 sp; SW t3 44 sp; SW t4 48 sp; SW t5 52 sp; SW t6 56 sp;
   SW s0 60 sp; SW s1 64 sp; SW s2 68 sp; SW s3 72 sp; SW s4 76 sp; SW s5 80 sp; SW s6 84 sp; SW s7 88 sp;
   SW s8 92 sp; SW s9 96 sp; SW s10 100 sp; SW s11 104 sp; SW ra 108 sp; SW gp 112 sp; SW tp 116 sp;
   CSRR_mscratch t0; SW t0 120 sp].

(** Steps 5 and 6. *)
Definition trap_epilogue : list instr :=
  [LW a0 0 sp; LW a1 4 sp; LW a2 8 sp; LW a3 12 sp; LW a4 16 sp; LW a5 20 sp; LW a6 24 sp; LW a7 28 sp;
   LW t0 32 sp; LW t1 36 sp; LW t2 40 sp; LW t3 44 sp; LW t4 48 sp; LW t5 52 sp; LW t6 56 sp;
   LW s0 60 sp; LW s1 64 sp; LW s2 68 sp; LW s3 72 sp; LW s4 76 sp; LW s5 80 sp; LW s6 84 sp; LW s7 88 sp;
   LW s8 92 sp; LW s9 96 sp; LW s10 100 sp; LW s11 104 sp; LW ra 108 sp; LW gp 112 sp; LW tp 116 sp;
   LW sp 120 sp].

(** The 32 words that [kernel_entry] copies from and to the stack. *)
Definition FRAME : Z := EGOS_STACK_TOP - 32 * 4.
Definition frame_of (m : cpu) : list Z := (λ i, words m (FRAME + 4 * i)) <$> seqZ 0 32.
Definition write_frame (ws : list Z) (m : cpu) : cpu :=
  foldl (λ m '(i, v), set_word (FRAME + 4 * i) v m) m (zip (seqZ 0 32) ws).

Section trap_entry.
Context {E : Type} `{Earth E}.

(** [trap_entry] up to [mret]: the register file afterwards and [mepc].
    [clobbered] is what the C code leaves in the registers, of which it
    preserves [sp].  Of the memory only the frame is in [cpu]: what
    [kernel_entry] does to the rest is part of the kernel's state. *)
Definition trap_entry (hartid mcause : Z) (clobbered : reg → Z) (m : cpu) (s : kstate E) : outcome (cpu * kstate E) :=
  let m := exec trap_prologue m in
  '(pc, frame, s) ← kernel_entry (Trap hartid mcause (mepc m) (frame_of m)) s;
  let m := write_frame frame (Cpu (upd sp (regs m sp) clobbered) (mscratch m) pc (words m)) in
  Ret (exec trap_epilogue m, s).
End trap_entry.

(** ** The frame *)

(** The registers in the order of the frame. *)
Definition frame_order : list reg :=
  [a0; a1; a2; a3; a4; a5; a6; a7; t0; t1; t2; t3; t4; t5; t6;
   s0; s1; s2; s3; s4; s5; s6; s7; s8; s9; s10; s11; ra; gp; tp; sp].

Lemma prologue_frame m : frame_of (exec trap_prologue m) = (regs m <$> frame_order) ++ [words m (FRAME + 124)] ∧
  regs (exec trap_prologue m) sp = FRAME ∧ mepc (exec trap_prologue m) = mepc m.
Proof. split_and!; [vm_compute; reflexivity..|]. vm_compute. reflexivity. Qed.

Lemma epilogue_regs rs w clobbered ms pc ws r :
  regs (exec trap_epilogue (write_frame ((rs <$> frame_order) ++ [w]) (Cpu (upd sp FRAME clobbered) ms pc ws))) r = rs r.
Proof. destruct r; vm_compute; reflexivity. Qed.

Lemma epilogue_mepc frame clobbered ms pc ws :
  mepc (exec trap_epilogue (write_frame frame (Cpu clobbered ms pc ws))) = pc.
Proof.
  rewrite exec_mepc. unfold write_frame. generalize (zip (seqZ 0 32) frame). intros l.
  assert (∀ m, mepc (foldl (λ m '(i, v), set_word (FRAME + 4 * i) v m) m l) = mepc m) as Hw; [|by rewrite Hw].
  induction l as [|[i v] l IH]; intros m; [done|]. cbn [foldl]. by rewrite IH.
Qed.

(** ** The saved context of a process that does not run *)
Section contexts.
Context {E : Type} `{EarthLaws E}.
Implicit Type s : kstate E.

Definition context (p : process) : Z * list Z := (p_mepc p, p_saved p).

(** Process [x] waits for the core or for a message with context [cx]; a
    process that has not run yet has the context that [proc_yield] sets up. *)
Definition suspended s (x : Z) (cx : Z * list Z) : Prop :=
  ∃ p, at_slot (proc_set s) x p ∧
  ((p_status p = PROC_RUNNABLE ∨ p_status p = PROC_PENDING_SYSCALL) ∧ context p = cx ∨
   p_status p = PROC_READY ∧ context (first_run p) = cx).

(** [x] is suspended with [cx], or it has just been given the core with it. *)
Definition keeps_context (x : Z) (cx : Z * list Z) (r : Z * list Z) s' : Prop :=
  curr_proc_idx s' = Ret x ∧ r = cx ∨ curr_proc_idx s' ≠ Ret x ∧ suspended s' x cx.

Lemma dispatch_context s2 k q s' x cx : kbase s2 → dispatched s2 k q s' → suspended s2 x cx →
  keeps_context x cx (p_mepc (started q), p_saved (started q)) s'.
Proof.
  intros Hk (Hq & Hst & Hcur & _ & _ & _ & Hps) (p & Hp & Hpst). pose proof (b_table s2 Hk) as Hok.
  destruct (at_slot_pid _ _ _ Hok Hq) as [Hpid Hpos]; [by destruct Hst; congruence|].
  destruct (dispatch_slots (proc_set s2) k q Hok Hq Hpid Hpos) as [_ Hslots].
  destruct (decide (x = k)) as [->|Hne].
  - left. split; [done|]. rewrite (at_slot_fun _ _ _ _ Hq Hp) in *. unfold started.
    destruct Hpst as [[Hpst <-]|[Hpst <-]]; [rewrite decide_False by (destruct Hpst; congruence)|rewrite decide_True by done]; done.
  - right. split; [congruence|]. exists p. split; [|done]. rewrite Hps. apply Hslots. by right.
Qed.

(** The sweeps change no context. *)
Lemma along_suspended s1 s2 x cx : along s1 s2 → suspended s1 x cx → suspended s2 x cx.
Proof.
  intros Hal (p & Hp & Hst). destruct (al_slots _ _ Hal x p Hp) as (p' & Hp' & _ & Hpc & Hfr & Hs). exists p'. split; [done|].
  assert (context p' = context p ∧ (p_status p = PROC_READY → context (first_run p') = context (first_run p))) as [Hc Hc'].
  { unfold context, first_run. cbn. by rewrite Hpc, Hfr. }
  destruct Hst as [[Hst <-]|[Hst <-]].
  - left. split; [|done]. destruct Hs as [->|[_ ->]]; [done|by left].
  - right. split; [|by apply Hc']. destruct Hs as [->|[Hs _]]; [done|congruence].
Qed.

(** The context with which a trap leaves the interrupted process. *)
Definition resume_pc (t : trap) : Z :=
  if bool_decide (Z.land (t_mcause t) 0x3FF = INTR_ID_SOFT_M) then u32 (t_mepc t + 4) else t_mepc t.

Lemma kernel_entry_result t s r s' : kernel_entry t s = Ret (r, s') → ∃ q, curr_proc s' = Ret q ∧ r = context q.
Proof.
  unfold kernel_entry. intros Hret. apply bind_ret_inv in Hret as (s1 & _ & Hret). apply bind_ret_inv in Hret as (s2 & _ & Hret).
  apply bind_ret_inv in Hret as (q & Hq & Hret). injection Hret as <- <-. by exists q.
Qed.

(** Any trap, seen by the process that runs, unless ctrl+c ends it, and by
    the others. *)
Lemma trap_context t s c p r s' x cx : kernel_ok c s → t_hartid t = core_in_kernel s → at_slot (proc_set s) c p →
  kernel_entry t s = Ret (r, s') →
  (x = c ∧ cx = (resume_pc t, t_frame t) ∧ ¬ killed t s c p s') ∨ (x ≠ c ∧ suspended s x cx) → keeps_context x cx r s'.
Proof.
  intros Hko Hh Hp Hret Hx. pose proof (b_table s (ko_base c s Hko)) as Hok.
  destruct (kernel_entry_result t s r s' Hret) as (q0 & Hq0 & ->).
  destruct (trap_cases t s c p _ s' Hko Hh Hp Hret) as [Hkill|(q & s1 & s2 & k & p' & Hsaved & Hset & _ & Hdisp)].
  - destruct Hx as [(_ & _ & Hno)|[Hxc (y & Hy & Hys)]]; [done|]. right.
    destruct (killed_ok t s c p s' Hko Hp Hkill) as [Hko' _]. rewrite (ko_curr c s' Hko').
    split; [congruence|]. exists y. split; [|done]. destruct Hkill as (_ & _ & e1 & _ & ->).
    apply at_slot_insert; [done|apply Hp|by right].
  - destruct (saved_settled t s c p q s1 s2 Hko Hp Hsaved Hset) as (Hb2 & _).
    assert (suspended s1 x cx) as Hsus.
    { destruct Hsaved as [(e1 & _ & ->) Hq]. destruct Hx as [(-> & -> & _)|[Hxc (y & Hy & Hys)]].
      - exists q. split; [by eapply at_slot_same|]. left. unfold resume_pc.
        destruct Hq as [([_ Hi] & ->)|([_ Hi] & -> & _)]; rewrite Hi; split; first [by left|by right|done].
      - exists y. split; [|done]. apply at_slot_insert; [done|apply Hp|by right]. }
    pose proof (dispatched_exit s2 k p' s' Hb2 Hdisp) as Hexit. rewrite Hq0, bind_ret in Hexit.
    assert (context q0 = (p_mepc (started p'), p_saved (started p'))) as -> by (unfold context; congruence).
    eapply dispatch_context; [done|exact Hdisp|]. by eapply along_suspended; [apply Hset|].
Qed.

(** Runs in which [x] does not get the core and is not ended. *)
Inductive away (x : Z) : kstate E → kstate E → Prop :=
  | away_refl s : away x s s
  | away_user s s1 s' : ustep s s1 → proc_set s1 !! Z.to_nat x = proc_set s !! Z.to_nat x → away x s1 s' → away x s s'
  | away_trap t s r s1 s' : t_hartid t = core_in_kernel s → kernel_entry t s = Ret (r, s1) → curr_proc_idx s1 ≠ Ret x →
      away x s1 s' → away x s s'.

Lemma away_suspended c x s s' cx : kernel_ok c s → away x s s' → curr_proc_idx s ≠ Ret x → suspended s x cx →
  ∃ c', kernel_ok c' s' ∧ x ≠ c' ∧ suspended s' x cx.
Proof.
  intros Hko Hrun. revert c Hko. induction Hrun as [s|s s1 s' Hu Hkeep _ IH|t s r s1 s' Hh Hret Hne _ IH]; intros c Hko Hcur Hx.
  - exists c. split_and!; [done| |done]. intros ->. by rewrite (ko_curr c s Hko) in Hcur.
  - pose proof (ustep_ok c s s1 Hko Hu) as Hko1. apply (IH c Hko1).
    + rewrite (ko_curr c s1 Hko1). by rewrite (ko_curr c s Hko) in Hcur.
    + destruct Hx as (p & [Hr Hp] & Hst). exists p. split; [|done]. split; [done|by rewrite Hkeep].
  - destruct (trap_ok t s c r s1 Hko Hh Hret) as [k Hk]. destruct (ko_running c s Hko) as (p & Hp & _). apply (IH k Hk Hne).
    destruct (trap_context t s c p r s1 x cx Hko Hh Hp Hret) as [[? _]|[_ ?]]; try done.
    right. split; [|done]. intros ->. by rewrite (ko_curr c s Hko) in Hcur.
Qed.

(** ** Composed with the assembly *)

Lemma ret_pair {A B} (x x' : A) (y y' : B) : Ret (x, y) = Ret (x', y') → x = x' ∧ y = y'.
Proof. by intros [= -> ->]. Qed.

(** What [trap_entry] makes of the result of [kernel_entry]. *)
Lemma trap_entry_inv hartid mcause clobbered m s m' s' : trap_entry hartid mcause clobbered m s = Ret (m', s') →
  ∃ w pc frame, kernel_entry (Trap hartid mcause (mepc m) ((regs m <$> frame_order) ++ [w])) s = Ret (pc, frame, s') ∧
  mepc m' = pc ∧ ∀ rs w', frame = (rs <$> frame_order) ++ [w'] → ∀ r, regs m' r = rs r.
Proof.
  unfold trap_entry. destruct (prologue_frame m) as (Hframe & Hsp & Hpc). rewrite Hframe, Hsp, Hpc. intros Hret.
  apply bind_ret_inv in Hret as ([[pc frame] s2] & Hke & Hret). apply ret_pair in Hret as [<- <-].
  exists (words m (FRAME + 124)), pc, frame. split; [done|]. split; [apply epilogue_mepc|].
  intros rs w' -> r. apply epilogue_regs.
Qed.

Lemma trap_entry_returns hartid mcause clobbered m s :
  (∀ pc fr, ∃ r s', kernel_entry (Trap hartid mcause pc fr) s = Ret (r, s')) →
  ∃ m' s', trap_entry hartid mcause clobbered m s = Ret (m', s').
Proof.
  intros Hke. unfold trap_entry. destruct (Hke (mepc (exec trap_prologue m)) (frame_of (exec trap_prologue m))) as ([pc fr] & s' & ->).
  rewrite bind_ret. eauto.
Qed.

(** [m'] continues the process that was interrupted in [m], at [pc]. *)
Definition continues (m : cpu) (pc : Z) (m' : cpu) : Prop := (∀ r, regs m' r = regs m r) ∧ mepc m' = pc.

(** A trap that gives the core to a process suspended with the context that
    the assembly has saved. *)
Lemma resume_continues hartid mcause clobbered m2 s2 m3 s3 c x m w pc : kernel_ok c s2 → hartid = core_in_kernel s2 →
  trap_entry hartid mcause clobbered m2 s2 = Ret (m3, s3) → x ≠ c →
  suspended s2 x (pc, (regs m <$> frame_order) ++ [w]) → curr_proc_idx s3 = Ret x → continues m pc m3.
Proof.
  intros Hko Hh Htrap Hxc Hsus Hcur. destruct (trap_entry_inv _ _ _ _ _ _ _ Htrap) as (w' & pc' & fr & Hke & Hpc & Hregs).
  destruct (ko_running c s2 Hko) as (p & Hp & _). set (t := Trap hartid mcause (mepc m2) ((regs m2 <$> frame_order) ++ [w'])) in Hke.
  destruct (trap_context t s2 c p _ s3 x _ Hko Hh Hp Hke (or_intror (conj Hxc Hsus))) as [[_ Heq]|[? _]]; [|done]. injection Heq as -> ->.
  split; [|done]. by eapply Hregs.
Qed.

(** C18: interrupts are transparent.  When an interrupt enters the kernel
    while process [c] runs with the registers of [m], and the kernel gives
    the core to [c] again, at once or after any run of other processes, traps
    and messages, then all 31 registers have the values they had, and
    execution goes on at the interrupted instruction after a timer interrupt,
    and four bytes after it after a system call.  A timer interrupt always
    returns.  (The exception is ctrl+c typed while a user process runs.) *)
Theorem interrupt_transparent hartid mcause clobbered m s c p :
  let t := Trap hartid mcause (mepc m) [] in
  kernel_inv c s → hartid = core_in_kernel s → at_slot (proc_set s) c p →
  is_intr t INTR_ID_TIMER ∧ (p_pid p < GPID_USER_START ∨ tty_input_empty (earth s) = true) ∨ is_intr t INTR_ID_SOFT_M →
  (is_intr t INTR_ID_TIMER → ∃ m' s', trap_entry hartid mcause clobbered m s = Ret (m', s')) ∧
  ∀ m1 s1, trap_entry hartid mcause clobbered m s = Ret (m1, s1) →
    curr_proc_idx s1 = Ret c ∧ continues m (resume_pc t) m1 ∨
    curr_proc_idx s1 ≠ Ret c ∧ ∀ s2 mcause2 clobbered2 m2 m3 s3, away c s1 s2 →
      trap_entry (core_in_kernel s2) mcause2 clobbered2 m2 s2 = Ret (m3, s3) → curr_proc_idx s3 = Ret c →
      continues m (resume_pc t) m3.
Proof.
  intros t Hki Hh Hp Hi. split.
  - intros Ht. apply trap_entry_returns. intros pc fr.
    destruct (timer_step (Trap hartid mcause pc fr) s c p Hki Hh Ht Hp) as (kill & e1 & _ & _ & Hres).
    destruct kill; [destruct Hres as (s' & -> & _)|destruct Hres as (k & q & s' & _ & _ & _ & ->)]; eauto.
  - intros m1 s1 Htrap. destruct (trap_entry_inv _ _ _ _ _ _ _ Htrap) as (w & pc & fr & Hke & Hpc & Hregs).
    set (t' := Trap hartid mcause (mepc m) ((regs m <$> frame_order) ++ [w])) in Hke. pose proof (inv_ok c s Hki) as Hko.
    destruct (trap_ok t' s c _ s1 Hko Hh Hke) as [k1 Hk1].
    assert (keeps_context c (resume_pc t, (regs m <$> frame_order) ++ [w]) (pc, fr) s1) as Hkeep.
    { apply (trap_context t' s c p _ s1 c _ Hko Hh Hp Hke). left. split_and!; [done..|].
      intros ([_ Hi1] & Hno1 & _). destruct Hi as [[_ Hno]|[_ Hi]]; [by apply Hno1|]. cbn in Hi, Hi1. by rewrite Hi in Hi1. }
    destruct Hkeep as [[Hcur Heq]|[Hcur Hsus]]; [left|right]; (split; [done|]).
    + injection Heq as -> ->. split; [by eapply Hregs|done].
    + intros s2 mcause2 clobbered2 m2 m3 s3 Haway Htrap2 Hcur3.
      destruct (away_suspended k1 c s1 s2 _ Hk1 Haway Hcur Hsus) as (c2 & Hki2 & Hne & Hsus2).
      by eapply resume_continues.
Qed.
End contexts.

(** Process 1 of the example is preempted with 5 in every register; it is the
    only process that can run and continues at once. *)
#[local] Existing Instance demo_earth.
#[local] Existing Instance demo_laws.
Definition demo_cpu : cpu := Cpu (λ _, 5) 0 0x80200100 (λ _, 0).

Lemma interrupt_transparent_witness : ∃ s, kernel_inv 1 s ∧
  (∃ m' s', trap_entry 0 (2 ^ 31 + 7) (λ _, 0) demo_cpu s = Ret (m', s')) ∧
  ∀ m1 s1, trap_entry 0 (2 ^ 31 + 7) (λ _, 0) demo_cpu s = Ret (m1, s1) →
    curr_proc_idx s1 = Ret 1 ∧ continues demo_cpu 0x80200100 m1 ∨
    curr_proc_idx s1 ≠ Ret 1 ∧ ∀ s2 mcause2 clobbered2 m2 m3 s3, away 1 s1 s2 →
      trap_entry (core_in_kernel s2) mcause2 clobbered2 m2 s2 = Ret (m3, s3) → curr_proc_idx s3 = Ret 1 →
      continues demo_cpu 0x80200100 m3.
Proof.
  destruct demo_mmu as (m & _ & Hok & H1 & H2 & _). exists (demo_state m).
  pose proof (demo_inv m Hok H1 H2) as Hki. split; [exact Hki|].
  destruct (interrupt_transparent 0 (2 ^ 31 + 7) (λ _, 0) demo_cpu (demo_state m) 1 proc1 Hki eq_refl (demo_at1 m)) as [Hret Hcont].
  - left. split; [split; [vm_compute; discriminate|reflexivity]|]. left. vm_compute. reflexivity.
  - split; [|exact Hcont]. apply Hret. split; [vm_compute; discriminate|reflexivity].
Defined.
