(* ===== verification/AppEntry.v ===== *)
(** * Where an application begins and ends (apps/app.S)

    A process that runs for the first time enters [app_entry] with the
    registers that [proc_yield] has put into its context; it loads argc, sets
    its stack pointer, calls [main] and then [exit].  A process that is ended
    by ctrl+c continues at the fourth of the four instructions. *)
From S2P Require Import Prelude Riscv MemAlloc SoftTlb Earth EarthImpl Process Ipc Scheduler Rendezvous Kernel KernelRuns KernelExample TrapEntry.

(** Every instruction has four bytes: a [call] is one [jal], since the code of
    an application is smaller than the range of a jump (app.lds). *)
Inductive code := Ins (i : instr) | Call (f : string).

Definition app_entry : list code :=
  [Ins (LW a0 0 a0); Ins (LI sp 0x80400000); Call "main"; Call "exit"].

(** Execute up to the next call: the machine, the function and the address to
    which it returns. *)
Fixpoint run_to_call (l : list code) (pc : Z) (m : cpu) : option (cpu * string * Z) :=
  match l with
  | Ins i :: l => run_to_call l (pc + 4) (exec1 m i)
  | Call f :: _ => Some (m, f, pc + 4)
  | [] => None
  end.

(** [app_entry] entered at address [pc] with memory [ws]. *)
Definition enter_app (pc : Z) (ws : Z → Z) (m : cpu) : option (cpu * string * Z) :=
  run_to_call (drop (Z.to_nat ((pc - APPS_ENTRY) / 4)) app_entry) pc (Cpu (regs m) (mscratch m) (mepc m) ws).

(** A frame of 32 words in terms of the registers. *)
Lemma frame_regs (ws : list Z) : length ws = 32%nat → ∃ rs w,
  ws = (rs <$> frame_order) ++ [w] ∧ ∀ i r, frame_order !! i = Some r → ws !! i = Some (rs r).
Proof.
  intros Hlen. destruct (last ws) as [w|] eqn:Hw; [|by apply last_None in Hw as ->].
  pose (rs := λ r, match list_find (λ x, x = r) frame_order with Some (i, _) => nth i ws 0 | None => 0 end).
  exists rs, w. do 32 (destruct ws as [|? ws]; [done|]). destruct ws; [|done]. injection Hw as <-.
  split; [reflexivity|]. intros i r Hi. do 31 (destruct i as [|i]; [by injection Hi as <-|]). done.
Qed.

Section app.
Context {E : Type} `{EarthLaws E}.
Implicit Type s : kstate E.

(** C19: an application starts with its arguments.  A process that has been
    made ready and has not run, while any other processes run, is entered at
    [app_entry] when it gets the core for the first time, and calls [main]
    with argc as the word at APPS_ARG, argv as the address after it and the
    stack pointer at the end of its stack; [main] returns to the call of
    [exit], which is the instruction at which the kernel resumes a process
    that is ended by ctrl+c. *)
Theorem app_starts c x p s s2 mcause clobbered m2 m3 s3 ws : kernel_ok c s → x ≠ c →
  at_slot (proc_set s) x p → p_status p = PROC_READY → length (p_saved p) = 32%nat → away x s s2 →
  trap_entry (core_in_kernel s2) mcause clobbered m2 s2 = Ret (m3, s3) → curr_proc_idx s3 = Ret x →
  mepc m3 = APPS_ENTRY ∧ ∃ m4, enter_app (mepc m3) ws m3 = Some (m4, "main"%string, APPS_ENTRY + 0xC) ∧
  regs m4 a0 = ws APPS_ARG ∧ regs m4 a1 = APPS_ARG + 4 ∧ regs m4 sp = APPS_STACK_TOP ∧
  enter_app (APPS_ENTRY + 0xC) ws m4 = Some (Cpu (regs m4) (mscratch m4) (mepc m4) ws, "exit"%string, APPS_ENTRY + 0x10).
Proof.
  intros Hko Hxc Hp Hst Hlen Haway Htrap Hcur.
  set (fr := <[0%nat := APPS_ARG]> (<[1%nat := APPS_ARG + 4]> (p_saved p))).
  assert (suspended s x (APPS_ENTRY, fr)) as Hsus by (exists p; split; [done|by right]).
  destruct (away_suspended c x s s2 (APPS_ENTRY, fr) Hko Haway) as (c2 & Hko2 & Hne & Hsus2); [|done|].
  { rewrite (ko_curr c s Hko). congruence. }
  destruct (frame_regs fr) as (rs & w & Hfr & Hat); [unfold fr; by rewrite !length_insert|].
  rewrite Hfr in Hsus2.
  destruct (resume_continues _ mcause clobbered m2 s2 m3 s3 c2 x (Cpu rs 0 0 ws) w APPS_ENTRY Hko2 eq_refl Htrap Hne Hsus2 Hcur) as [Hregs Hpc].
  split; [exact Hpc|]. rewrite Hpc.
  assert (rs a0 = APPS_ARG) as Ha0.
  { specialize (Hat 0%nat a0 eq_refl). unfold fr in Hat. rewrite list_lookup_insert_eq in Hat; [congruence|]. rewrite length_insert. lia. }
  assert (rs a1 = APPS_ARG + 4) as Ha1.
  { specialize (Hat 1%nat a1 eq_refl). unfold fr in Hat. rewrite list_lookup_insert_ne, list_lookup_insert_eq in Hat by lia. congruence. }
  eexists. split; [reflexivity|]. split_and!; [| |reflexivity..].
  - change (ws (u32 (regs m3 a0 + 0)) = ws APPS_ARG). rewrite (Hregs a0). cbn [regs]. by rewrite Ha0.
  - change (regs m3 a1 = APPS_ARG + 4). by rewrite (Hregs a1).
Qed.
End app.

(** The state of KernelExample.v with process 2 loaded and not yet run; a timer
    interrupt gives it the core. *)
#[local] Existing Instance demo_earth.
#[local] Existing Instance demo_laws.
Definition ready2 : process := Process 2 (Syscall 0 0 0 (zeros 1024) 0) PROC_READY 0 (zeros 32).
Definition ready_table : list process := idle_process :: proc1 :: ready2 :: replicate 14 idle_process.
Definition ready_state (s : kstate earth_state) : kstate earth_state := KState 0 [1; 0; 0; 0] ready_table (earth s).

Lemma ready_slots k p : at_slot ready_table k p → (k = 1 ∧ p = proc1) ∨ (k = 2 ∧ p = ready2) ∨ p = idle_process.
Proof.
  intros [Hk Hp]. unfold ready_table in Hp. destruct (Z.to_nat k) as [|[|[|n]]] eqn:Ek.
  - right; right. by injection Hp.
  - left. split; [lia|by injection Hp].
  - right; left. split; [lia|by injection Hp].
  - right; right. by apply (lookup_replicate 14 idle_process p n) in Hp as [-> _].
Qed.

Lemma ready_kernel_inv m : mmu_ok m → has_page m 1 → has_page m 2 → kernel_inv 1 (ready_state (demo_state m)).
Proof.
  intros Hok H1 H2. constructor; [constructor| | | | |]; try done.
  - split; [done|]. intros i p Hp. destruct i as [|[|[|i]]].
    1-3: injection Hp as <-; split_and!; vm_compute; first [by left|by right|done].
    apply (lookup_replicate 14 idle_process p i) in Hp as [-> _]. split_and!; vm_compute; first [by left|by right|done].
  - intros k p [[-> ->]|[[-> ->]| ->]]%ready_slots [Ha _]; done.
  - intros k p [[[-> ->]|[[-> ->]| ->]]%ready_slots Hst]; done.
  - intros k p [[-> ->]|[[-> ->]| ->]]%ready_slots [Ht _]; done.
  - simpl. lia.
  - intros k p [[[-> ->]|[[-> ->]| ->]]%ready_slots Hst]; done.
  - exists proc1. done.
  - intros k p [[-> ->]|[[-> ->]| ->]]%ready_slots Hst; done.
Qed.

Lemma app_starts_witness : ∃ m3 m4 (s3 : kstate earth_state), curr_proc_idx s3 = Ret 2 ∧ mepc m3 = APPS_ENTRY ∧
  enter_app (mepc m3) (λ a, a + 1) m3 = Some (m4, "main"%string, APPS_ENTRY + 0xC) ∧
  regs m4 a0 = APPS_ARG + 1 ∧ regs m4 a1 = APPS_ARG + 4 ∧ regs m4 sp = APPS_STACK_TOP.
Proof.
  destruct demo_mmu as (m & _ & Hok & H1 & H2 & _). pose proof (ready_kernel_inv m Hok H1 H2) as Hki.
  set (s := ready_state (demo_state m)) in Hki.
  set (t := Trap 0 (2 ^ 31 + 7) (mepc (exec trap_prologue demo_cpu)) (frame_of (exec trap_prologue demo_cpu))).
  destruct (timer_step t s 1 proc1 Hki eq_refl) as ([] & e1 & _ & Hno & Hres).
  - split; [vm_compute; discriminate|reflexivity].
  - done.
  - destruct Hno as [? _]; [by left|done].
  - destruct Hres as (k & q & s3 & Hk & Hdisp & _ & Hke).
    assert (k = 2) as -> by (vm_compute in Hk; congruence). destruct Hdisp as (_ & _ & Hcur & _).
    assert (∃ m3, trap_entry 0 (2 ^ 31 + 7) (λ _, 0) demo_cpu s = Ret (m3, s3)) as [m3 Htrap].
    { unfold trap_entry. fold t. rewrite Hke, bind_ret. by eexists. }
    destruct (app_starts 1 2 ready2 s s (2 ^ 31 + 7) (λ _, 0) demo_cpu m3 s3 (λ a, a + 1) (inv_ok 1 s Hki)) as (Hpc & m4 & Hrun & Ha0 & Ha1 & Hsp & _);
      [done..|apply away_refl|exact Htrap|exact Hcur|].
    by exists m3, m4, s3.
Defined.
