(* ===== verification/FileServer.v ===== *)
(** * The file server and its client (apps/system/sys_file.c, servers.c)

    A request and its reply travel as message contents of
    [SYSCALL_MSG_LEN] bytes; [sys_send] copies only the size of the structure
    and leaves the rest of the content as it was.  [file_rpc] is [file_read]
    with the server's handler on the other side. *)
From S2P Require Import Prelude InodeStore Earth Process Ipc.

(** ** Message contents (library/syscall/syscall.c) *)

(** [memcpy(sc->content, msg, size)]: the bytes after the message are stale. *)
Definition send_content (stale msg : list Z) : list Z := msg ++ drop (length msg) stale.

(** ** Requests and replies (servers.h) *)
Definition FILE_READ : Z := 1.
Definition FILE_WRITE : Z := 2.
Definition FILE_OK : Z := 0.
Definition FILE_ERROR : Z := 1.

(** [struct file_request]: the block of a read request is not initialised. *)
Definition file_request (type ino offset : Z) (block : block_t) : list Z :=
  le32 type ++ le32 ino ++ le32 offset ++ block.

Section server.
Context {S : Type} (fs : inode_store S).

(** One round of the server loop: the message in [buf] is handled in place
    and the reply (the first [sizeof(struct file_reply)] bytes) is sent. *)
Definition file_serve (s : S) (buf : list Z) : outcome (list Z * list Z) :=
  let type := get32 buf 0 in
  if type =? FILE_READ then
    '(r, block) ← read fs s (get32 buf 4) (get32 buf 8) (take 512 (drop 4 buf));
    let buf := splice buf 4 block in
    let buf := splice buf 0 (le32 (if r =? 0 then FILE_OK else FILE_ERROR)) in
    Ret (take 516 buf, buf)
  else if type =? FILE_WRITE then Fault (Fatal "File write is not implemented")
  else Fault (Fatal "sys_file: invalid request %d").

(** [file_read(file_ino, offset, block)] of servers.c: [junk] is the
    uninitialised block of the request, [stale] and [stale'] the previous
    contents of the two system call areas. *)
Definition file_rpc (s : S) (file_ino offset : Z) (junk stale stale' : list Z)
    : outcome (Z * block_t) :=
  let req := file_request FILE_READ (u32 file_ino) (u32 offset) junk in
  '(reply, _) ← file_serve s (send_content stale req);
  let buf := send_content stale' reply in
  Ret (if get32 buf 0 =? FILE_OK then 0 else -1, take 512 (drop 4 buf)).
End server.

(** ** Correctness *)
Lemma length_file_request t i o b : length b = 512%nat → length (file_request t i o b) = 524%nat.
Proof. intros. unfold file_request. len. Qed.

Lemma request_fields stale t i o b : 0 ≤ t < 2 ^ 32 → 0 ≤ i < 2 ^ 32 → 0 ≤ o < 2 ^ 32 →
  let buf := send_content stale (file_request t i o b) in
  get32 buf 0 = t ∧ get32 buf 4 = i ∧ get32 buf 8 = o.
Proof.
  intros Ht Hi Ho. unfold send_content, file_request; cbn zeta. rewrite <- !(assoc_L (++)).
  split_and!.
  - by rewrite get32_le32, u32_small.
  - rewrite get32_app_r, length_le32 by (by rewrite length_le32).
    rewrite (get32_le32 i). by rewrite u32_small.
  - rewrite (assoc_L (++)), get32_app_r by len.
    replace (8 - _)%nat with 0%nat by len. rewrite (get32_le32 o). by rewrite u32_small.
Qed.

(** The reply put together by the server, as the client takes it apart. *)
Lemma reply_fields buf st block stale : (516 ≤ length buf)%nat → length block = 512%nat →
  0 ≤ st < 2 ^ 32 →
  let reply := take 516 (splice (splice buf 4 block) 0 (le32 st)) in
  get32 (send_content stale reply) 0 = st ∧ take 512 (drop 4 (send_content stale reply)) = block.
Proof.
  intros Hlen Hb Hst. cbn zeta.
  assert (take 516 (splice (splice buf 4 block) 0 (le32 st)) = le32 st ++ block) as ->.
  { unfold splice. rewrite take_0, length_le32, Hb. cbn [app Nat.add].
    rewrite drop_app_length' by (rewrite length_take; lia).
    rewrite (assoc_L (++)). apply take_app_length'. rewrite length_app, length_le32, Hb. done. }
  unfold send_content. rewrite <- (assoc_L (++)). split; [by rewrite get32_le32, u32_small|].
  rewrite drop_app_length' by (by rewrite length_le32). by apply take_app_length'.
Qed.

Lemma file_rpc_read {S} (fs : inode_store S) s ino off junk stale stale' r block :
  0 ≤ ino < 2 ^ 32 → 0 ≤ off < 2 ^ 32 → length junk = 512%nat → length stale = SYSCALL_MSG_LEN →
  read fs s ino off (take 512 (drop 4 (send_content stale (file_request FILE_READ ino off junk))))
    = Ret (r, block) → length block = 512%nat →
  file_rpc fs s ino off junk stale stale' = Ret (if r =? 0 then 0 else -1, block).
Proof.
  intros Hi Ho Hj Hs Hr Hb. unfold file_rpc, file_serve. rewrite !u32_small by done.
  destruct (request_fields stale FILE_READ ino off junk) as (-> & -> & ->); [by vm_compute|done..|].
  rewrite Z.eqb_refl, Hr, !bind_ret.
  assert (0 ≤ (if r =? 0 then FILE_OK else FILE_ERROR) < 2 ^ 32) as Hst by (by destruct (r =? 0)).
  destruct (reply_fields (send_content stale (file_request FILE_READ ino off junk)) _ block stale'
              ltac:(unfold send_content; len; rewrite length_file_request; lia) Hb Hst) as [H1 H2].
  cbn zeta in H1, H2. rewrite H1, H2. by destruct (r =? 0).
Qed.

(** [file_read] is a remote [fs->read]: for any request the client gets
    exactly the result code (0 or -1) and, on success, exactly the block the
    file system below the server returns. *)
Theorem file_read_rpc {S} (fs : inode_store S) s ino off junk stale stale' r block :
  0 ≤ ino < 2 ^ 32 → 0 ≤ off < 2 ^ 32 → length junk = 512%nat → length stale = SYSCALL_MSG_LEN →
  read fs s ino off (take 512 (drop 4 (send_content stale (file_request FILE_READ ino off junk))))
    = Ret (r, block) → length block = 512%nat →
  file_rpc fs s ino off junk stale stale' = Ret (if r =? 0 then 0 else -1, block).
Proof. apply file_rpc_read. Qed.

Lemma file_read_rpc_witness :
  file_rpc Ramdisk.ramdisk [zeros 512; replicate 512 7] 3 1 (zeros 512) (zeros 1024) (zeros 1024)
  = Ret (0, replicate 512 7).
Proof.
  apply (file_read_rpc Ramdisk.ramdisk [zeros 512; replicate 512 7] 3 1 (zeros 512) (zeros 1024)
           (zeros 1024) 0 (replicate 512 7)); try reflexivity; lia.
Defined.
