(* ===== verification/Rpc.v ===== *)
(** * A request to a server and its reply (servers.c and sys_file.c over the
    kernel)

    [file_read] sends a request to the file server and waits for the reply;
    the server waits for requests from anybody and answers the sender.  In
    FileServer.v this exchange is a function call, [file_rpc].  Here it is
    carried out by the kernel: three system calls, the client's receive and
    the server's answer in either order, with any number of other traps and
    process steps in between.  These are in good order ([orderly]): no process
    is ended while it waits for a message or while another sends to it.  The
    result is the function call's. *)
From stdpp Require Import relations.
From S2P Require Import Prelude MemAlloc InodeStore Earth Process Ipc Scheduler Rendezvous Kernel KernelRuns Messages Blocking FileServer KernelExample.

(** [sc->content] in a system call page. *)
Definition page_content (page : list Z) : list Z := take SYSCALL_MSG_LEN (drop 12 page).

(** The server's side of an exchange: [sys_recv] has returned, the answer is
    computed from [buf] and sent to [sender]. *)
Definition serve (answer : list Z → list Z) (page : list Z) : list Z :=
  let '(buf, sender) := sys_recv_result SYSCALL_MSG_LEN page in sys_send sender (answer buf) page.

(** ** Pages after the stores of a call *)
Lemma length_sys_send y msg page : length page = SYSCALL_PAGE → (length msg ≤ SYSCALL_MSG_LEN)%nat →
  length (sys_send y msg page) = SYSCALL_PAGE.
Proof.
  intros Hp Hm. unfold sys_send, SYSCALL_STATUS_OFF, SYSCALL_MSG_LEN in *. change SYSCALL_PAGE with 4096%nat in *. cbv zeta.
  repeat (rewrite length_splice; rewrite ?length_le32; try lia).
Qed.
Lemma length_sys_recv y page : length page = SYSCALL_PAGE → length (sys_recv y page) = SYSCALL_PAGE.
Proof.
  intros Hp. unfold sys_recv, SYSCALL_STATUS_OFF in *. change SYSCALL_PAGE with 4096%nat in *. cbv zeta.
  repeat (rewrite length_splice; rewrite ?length_le32; try lia).
Qed.

Lemma lookup_splice_ne page off bs i : (off + length bs ≤ length page)%nat →
  (i < off ∨ off + length bs ≤ i)%nat → splice page off bs !! i = page !! i.
Proof.
  intros Hlen Hi. unfold splice. destruct Hi as [Hi|Hi].
  - rewrite lookup_app_l by (rewrite length_take; lia). by apply lookup_take_lt.
  - rewrite lookup_app_r by (rewrite length_take; lia). rewrite lookup_app_r by (rewrite length_take; lia).
    rewrite lookup_drop. f_equal. rewrite length_take. lia.
Qed.
Lemma lookup_splice_in page off bs i : (off + length bs ≤ length page)%nat → (off ≤ i < off + length bs)%nat →
  splice page off bs !! i = bs !! (i - off)%nat.
Proof.
  intros Hlen Hi. unfold splice. rewrite lookup_app_r by (rewrite length_take; lia).
  rewrite length_take, Nat.min_l by lia. by rewrite lookup_app_l by lia.
Qed.

Lemma sys_send_content y msg page : length page = SYSCALL_PAGE → (length msg ≤ SYSCALL_MSG_LEN)%nat →
  page_content (sys_send y msg page) = send_content (page_content page) msg.
Proof.
  intros Hp Hm. unfold page_content, sys_send, send_content, SYSCALL_STATUS_OFF, SYSCALL_MSG_LEN in *.
  change SYSCALL_PAGE with 4096%nat in *. cbv zeta.
  set (p1 := splice page 0 _). assert (length p1 = 4096%nat) as H1 by (unfold p1; rewrite length_splice; rewrite ?length_le32; lia).
  set (p2 := splice p1 8 _). assert (length p2 = 4096%nat) as H2 by (unfold p2; rewrite length_splice; rewrite ?length_le32; lia).
  set (p3 := splice p2 1036 _). assert (length p3 = 4096%nat) as H3 by (unfold p3; rewrite length_splice; rewrite ?length_le32; lia).
  assert (∀ i, (12 ≤ i < 1036)%nat → p3 !! i = page !! i) as Hsame.
  { intros i Hi. unfold p3, p2, p1. by rewrite !lookup_splice_ne by (rewrite ?length_le32; fold p1 p2; lia). }
  apply list_eq. intros i. destruct (decide (i < 1024)%nat) as [Hi|Hi].
  2: { rewrite !lookup_ge_None_2; [done| |]; rewrite ?length_app, ?length_drop, ?length_take, ?length_drop; lia. }
  rewrite lookup_take_lt, lookup_drop by lia. destruct (decide (i < length msg)%nat) as [Him|Him].
  - rewrite lookup_splice_in, lookup_app_l by lia. f_equal. lia.
  - rewrite lookup_splice_ne, Hsame, lookup_app_r, lookup_drop by lia.
    rewrite lookup_take_lt, lookup_drop by lia. f_equal. lia.
Qed.

Lemma page_content_result page : page_content page = (sys_recv_result SYSCALL_MSG_LEN page).1.
Proof. done. Qed.

Section exchange.
Context {E : Type} `{EarthLaws E}.
Implicit Type s : kstate E.

(** ** The calls as the kernel reads them *)
Lemma content_of_call s x : sc_content (user_call s x) = page_content (smem (earth s) x).
Proof.
  unfold user_call, decode_syscall, page_content. cbn [sc_content].
  by rewrite skipn_firstn_comm, take_take.
Qed.

Lemma recv_call_fields s x y page : length page = SYSCALL_PAGE → - 2 ^ 31 ≤ y < 2 ^ 31 →
  smem (earth s) x = sys_recv y page →
  sc_type (user_call s x) = SYS_RECV ∧ sc_sender (user_call s x) = y.
Proof.
  intros Hp Hy Hmem. unfold user_call. rewrite Hmem. unfold decode_syscall. cbn [sc_type sc_sender].
  change SYSCALL_PAGE with 4096%nat in Hp.
  assert (∀ i, (i + 4 ≤ SYSCALL_SIZE)%nat → get32 (take SYSCALL_SIZE (sys_recv y page)) i = get32 (sys_recv y page) i) as Htake.
  { intros i Hi. unfold get32, byte_at. by rewrite !lookup_take_lt by lia. }
  rewrite !Htake by (unfold SYSCALL_SIZE; lia). clear Htake. unfold sys_recv, SYSCALL_STATUS_OFF. cbv zeta.
  set (p1 := splice page 0 _). assert (length p1 = 4096%nat) as H1 by (unfold p1; rewrite length_splice; rewrite ?length_le32; lia).
  set (p2 := splice p1 4 _). assert (length p2 = 4096%nat) as H2 by (unfold p2; rewrite length_splice; rewrite ?length_le32; lia).
  rewrite !(get32_splice_ne p2) by (rewrite ?length_le32; lia). unfold p2. split.
  - rewrite get32_splice_ne by (rewrite ?length_le32; lia). unfold p1. by rewrite get32_splice_eq by (lia || by vm_compute).
  - rewrite get32_splice_eq by (lia || apply u32_range). by apply i32_u32.
Qed.

(** ** What a trap leaves alone *)

(** The process can run. *)
Definition alive s (x : Z) : Prop :=
  ∃ p, at_slot (proc_set s) x p ∧ (p_status p = PROC_RUNNABLE ∨ p_status p = PROC_RUNNING).

Lemma alive_not_pend s x p : alive s x → ¬ pend (proc_set s) x p.
Proof. intros (q & Hq & Hst) [Hp Hpend]. rewrite (at_slot_fun _ _ _ _ Hq Hp) in Hst. destruct Hst; congruence. Qed.

Lemma alive_other c s x : kernel_inv c s → alive s x → x ≠ c →
  ∃ p, at_slot (proc_set s) x p ∧ p_status p = PROC_RUNNABLE.
Proof. intros Hki (p & Hp & [Hst|Hst]) Hx; [eauto|]. destruct Hx. by apply (ki_only c s Hki x p). Qed.

Lemma insert_other s c q x p : kernel_inv c s → at_slot (proc_set s) x p → x ≠ c →
  at_slot (<[Z.to_nat c := q]> (proc_set s)) x p.
Proof.
  intros Hki Hp Hx. destruct (ki_running c s Hki) as (pc & Hpc & _).
  apply at_slot_insert; [apply (ki_wf c s Hki)|apply Hpc|by right].
Qed.

(** The timer. *)
Lemma timer_alive t s c r s' x : kernel_inv c s → t_hartid t = core_in_kernel s → is_intr t INTR_ID_TIMER →
  kernel_entry t s = Ret (r, s') → alive s x → alive s' x.
Proof.
  intros Hki Hh Hi Hret Hx. destruct (ki_running c s Hki) as (pc & Hpc & Hst).
  pose proof (k_table s (ki_wf c s Hki)) as Hok.
  destruct (timer_step t s c pc Hki Hh Hi Hpc) as (kill & e1 & Hsame & _ & Hres). destruct kill.
  - destruct Hres as (s2 & Heq & _ & _ & Hps). rewrite Heq in Hret. injection Hret as _ <-. destruct (decide (x = c)) as [->|Hxc].
    + eexists. rewrite Hps. split; [by eapply at_slot_same|by right].
    + destruct (alive_other c s x Hki Hx Hxc) as (p & Hp & Hs). exists p. rewrite Hps. split; [by apply insert_other|by left].
  - destruct Hres as (k & q & s2 & _ & Hdisp & _ & Heq). rewrite Heq in Hret. injection Hret as _ <-.
    pose proof (k_table _ (proj1 (running_yields t s c pc e1 Hki Hpc Hsame))) as Hok1.
    destruct (decide (x = c)) as [->|Hxc].
    + eapply served_can_run; [exact Hok1|exact Hdisp|by eapply at_slot_same|done].
    + destruct (alive_other c s x Hki Hx Hxc) as (p & Hp & Hs).
      eapply served_can_run; [exact Hok1|exact Hdisp|by apply insert_other|done].
Qed.

Lemma timer_pages t s c r s' x : kernel_inv c s → t_hartid t = core_in_kernel s → is_intr t INTR_ID_TIMER →
  kernel_entry t s = Ret (r, s') → smem (earth s') x = smem (earth s) x.
Proof.
  intros Hki Hh Hi Hret. destruct (ki_running c s Hki) as (pc & Hpc & Hst).
  destruct (timer_step t s c pc Hki Hh Hi Hpc) as (kill & e1 & [_ Hsame] & _ & Hres). destruct kill.
  - destruct Hres as (s2 & Heq & _ & He & _). rewrite Heq in Hret. injection Hret as _ <-. rewrite He. apply Hsame.
  - destruct Hres as (k & q & s2 & _ & (_ & _ & _ & _ & _ & [_ Hd] & _) & _ & Heq). rewrite Heq in Hret. injection Hret as _ <-.
    etrans; [apply (Hd x)|]. apply Hsame.
Qed.

(** ** What a system call does *)

(** The caller waits, everything else is as before. *)
Definition blocks (t : trap) s (c : Z) (p : process) s' : Prop :=
  pend (proc_set s') c (caller t (user_call s c) p) ∧ (∀ x, smem (earth s') x = smem (earth s) x) ∧
  ∀ k q, pend (proc_set s) k q → pend (proc_set s') k q.

(** The caller and [k] exchange a message. *)
Definition meets s (c k : Z) s' : Prop :=
  ∃ q, pend (proc_set s) k q ∧ released c k q s s' ∧ ∀ x, x ≠ c → x ≠ k → smem (earth s') x = smem (earth s) x.

Lemma handed_over_alive i j content s' x : handed_over i j content s' → x = i ∨ x = j → alive s' x.
Proof. intros (_ & _ & _ & Hrun) Hx. by apply Hrun. Qed.

Lemma released_alive c k q s s' : released c k q s s' → alive s' c ∧ alive s' k.
Proof. intros [(_ & _ & _ & _ & Ho)|(_ & _ & _ & _ & Ho)]; split; (eapply handed_over_alive; [exact Ho|]); tauto. Qed.

(** The rendezvous of a call, as the release of a blocked process. *)
Lemma completed_meets t s c p e1 i j s2 k q s' : kernel_inv c s → at_slot (proc_set s) c p → e_same (earth s) e1 →
  valid_call s c → partner (proc_set (called t s c p e1)) c (caller t (user_call s c) p) = Some (i, j) →
  completed (called t s c p e1) i j s2 → dispatched s2 k q s' →
  ∃ x, meets s c x s' ∧ ∀ y, y ≠ c → alive s y → alive s' y.
Proof.
  intros Hki Hp Hsame Hv Hpart Hcomp Hdisp. destruct (running_facts s c p Hki Hp) as (Hst & Hpid & Hc).
  destruct (called_ok t s c p e1 Hki Hp Hsame Hv) as (Hk1 & _ & Hpc & _ & _).
  destruct (completed_handover _ i j s2 k q s' Hk1 Hcomp Hdisp) as (snd & dst & Hsnd & Hdst & _ & _ & _ & Hover & Hothers).
  assert (∀ x r, x ≠ c → pend (proc_set (called t s c p e1)) x r → pend (proc_set s) x r) as Hback.
  { intros x r Hx [Hr Hs]. apply at_slot_insert in Hr as [[? _]|[_ Hr]]; [done|by split|apply (ki_wf c s Hki)|apply Hp]. }
  pose proof (served_blocked t s c p e1 i j s2 k q s') as Hrel.
  set (x := if decide (i = c) then j else i). assert (x ≠ c ∧ (i = c ∧ x = j ∨ j = c ∧ x = i)) as [Hxc Hx].
  { pose proof Hcomp as (snd' & dst' & e' & Hi & Hj & Hw & _ & Ht & _).
    pose proof (parties_distinct _ i j snd' dst' Hi Hj Hw Ht) as Hij. unfold x. case_decide as Hic; [subst i|].
    - split; [by intros ->|by left].
    - destruct (partner_caller _ _ _ _ _ Hpart) as [?|[-> _]]; [done|]. split; [done|by right]. }
  assert (∃ r, pend (proc_set (called t s c p e1)) x r) as [r Hr] by (destruct Hx as [[_ ->]|[_ ->]]; eauto).
  exists x. split.
  - exists r. split_and!; [by apply Hback| |].
    + destruct (Hrel x r) as [Hno|?]; try done. destruct (alive_not_pend s' x r); [|done].
      eapply handed_over_alive; [exact Hover|]. destruct Hx as [[_ ->]|[_ ->]]; tauto.
    + intros y Hy1 Hy2. rewrite Hothers; [apply Hsame| |]; destruct Hx as [[? ?]|[? ?]]; congruence.
  - intros y Hyc Hy. destruct (alive_other c s y Hki Hy Hyc) as (py & Hpy & Hsy).
    assert (at_slot (proc_set (called t s c p e1)) y py) as Hpy1 by (by apply insert_other).
    pose proof (served_kwf _ i j s2 Hk1 Hcomp) as Hk2.
    destruct Hcomp as (snd' & dst' & e' & Hi & Hj & Hw & _ & Ht & -> & _).
    pose proof (parties_distinct _ i j snd' dst' Hi Hj Hw Ht) as Hij.
    eapply (served_can_run _ k q s'); [apply (k_table _ Hk2)|exact Hdisp| |exact Hsy].
    apply at_slot_served; try done; [apply (k_table _ Hk1)|]. right. right.
    split_and!; [| |done]; intros ->; [destruct Hi as [Ha Hb]|destruct Hj as [Ha Hb]]; rewrite (at_slot_fun _ _ _ _ Ha Hpy1) in Hb; congruence.
Qed.

(** The outcome of a valid call. *)
Lemma call_outcome t s c p : kernel_inv c s → t_hartid t = core_in_kernel s → is_intr t INTR_ID_SOFT_M →
  at_slot (proc_set s) c p → valid_call s c →
  (∃ r s', kernel_entry t s = Ret (r, s') ∧ (blocks t s c p s' ∨ ∃ x, meets s c x s') ∧
     ∀ y, y ≠ c → alive s y → alive s' y) ∨
  kernel_entry t s = Fault (Fatal "proc_yield: no process to run") ∧
  quiet (<[Z.to_nat c := caller t (user_call s c) p]> (proc_set s)) ∧ ∀ y, y ≠ c → ¬ alive s y.
Proof.
  intros Hki Hh Hi Hp Hv. destruct (running_facts s c p Hki Hp) as (Hst & Hpid & Hc).
  destruct (syscall_step_quiet t s c p Hki Hh Hi Hp Hv) as (e1 & s2 & Hsame & Hpart & Hquiet & Hres). cbn zeta in Hpart.
  destruct (called_ok t s c p e1 Hki Hp Hsame Hv) as (Hk1 & _ & Hpc & _ & _).
  assert (∀ y, y ≠ c → alive s y → ∃ py, at_slot (proc_set (called t s c p e1)) y py ∧ p_status py = PROC_RUNNABLE) as Hrun.
  { intros y Hyc Hy. destruct (alive_other c s y Hki Hy Hyc) as (py & Hpy & Hsy). exists py. split; [|done]. by apply insert_other. }
  destruct (spec_next (proc_set s2) c) as [k|] eqn:Hnext.
  - destruct Hres as (q & s' & Hdisp & _ & Heq). left. eexists _, s'. split; [exact Heq|].
    destruct (partner _ c _) as [[i j]|] eqn:Hp2.
    + destruct (completed_meets t s c p e1 i j s2 k q s' Hki Hp Hsame Hv Hp2 Hpart Hdisp) as (x & Hm & Ha). eauto.
    + subst s2. split.
      * left. split_and!.
        -- by apply (dispatched_pend (called t s c p e1) k q s'); [apply (k_table _ Hk1)| |].
        -- intros x. destruct Hdisp as (_ & _ & _ & _ & _ & [_ Hd] & _). etrans; [apply (Hd x)|apply Hsame].
        -- intros x r Hr. apply (dispatched_pend (called t s c p e1) k q s'); [apply (k_table _ Hk1)|done|].
           by apply (replaced_pend (proc_set s) c p); [apply (ki_wf c s Hki)| | |].
      * intros y Hyc Hy. destruct (Hrun y Hyc Hy) as (py & Hpy & Hsy).
        by apply (served_can_run (called t s c p e1) k q s' y py); [apply (k_table _ Hk1)| | |].
  - destruct (partner _ c _) as [[i j]|] eqn:Hp2; [by destruct (completed_next _ i j s2 c Hk1 Hpart)|].
    subst s2. right. split; [exact Hres|]. split; [exact Hquiet|]. intros y Hyc Hy. destruct (Hrun y Hyc Hy) as (py & [Hyr Hpy] & Hsy).
    pose proof (spec_next_spec (proc_set (called t s c p e1)) c) as Hspec. rewrite Hnext in Hspec.
    apply (Hspec y Hyr). unfold runnable_slot. rewrite Hpy. cbn. unfold is_ready. by rewrite Hsy.
Qed.

(** The four cases of an exchange: the partner waits for the call already or
    does something else. *)
Lemma send_meets t s c p y dst : kernel_inv c s → t_hartid t = core_in_kernel s → is_intr t INTR_ID_SOFT_M →
  at_slot (proc_set s) c p → sc_type (user_call s c) = SYS_SEND → sc_receiver (user_call s c) = y →
  pend (proc_set s) y dst → recv_waits dst → sc_sender (p_syscall dst) = GPID_ALL ∨ sc_sender (p_syscall dst) = c →
  ∃ r s', kernel_entry t s = Ret (r, s') ∧ handed_over c y (sc_content (user_call s c)) s'.
Proof.
  intros Hki Hh Hi Hp Hty Hrc Hdst Hrecv Hfrom. destruct (running_facts s c p Hki Hp) as (Hst & Hpid & Hc).
  pose proof (k_table s (ki_wf c s Hki)) as Hok. destruct (pend_pid _ _ _ Hok Hdst) as [Hdpid Hy0].
  assert (y ≠ c) as Hyc. { intros ->. destruct Hdst as [Hd Hds]. rewrite (at_slot_fun _ _ _ _ Hd Hp) in Hds. congruence. }
  assert (valid_call s c) as Hv.
  { right. split; [done|]. rewrite Hrc. exists dst. destruct Hdst as [Hd Hds]. split_and!; [done..|congruence]. }
  assert (takes dst (caller t (user_call s c) p) = true) as Htakes.
  { unfold takes. destruct Hrecv as [-> ->]. cbn [caller p_pid]. rewrite Hpid, !Z.eqb_refl. cbn [andb].
    destruct Hfrom as [-> | ->]; by rewrite Z.eqb_refl, ?orb_true_r. }
  assert (∀ ps, pend ps c (caller t (user_call s c) p) → pend ps y dst → quiet ps → False) as Hbusy.
  { intros ps Hpc Hd Hq. destruct (Hq _ _ Hpc) as [[Hr _]|(d & (_ & _ & _ & Hd' & _) & Hno)].
    - cbn [caller p_syscall] in Hr. by rewrite Hty in Hr.
    - cbn [caller p_syscall] in Hd'. rewrite Hrc in Hd'. rewrite (at_slot_fun _ _ _ _ Hd' (proj1 Hd)) in Hno. congruence. }
  destruct (call_outcome t s c p Hki Hh Hi Hp Hv) as [(r & s' & Heq & Hout & _)|(_ & Hq & _)].
  - exists r, s'. split; [done|]. destruct Hout as [(Hpc & _ & Hpend)|(x & q & _ & [(_ & <- & _ & _ & Ho)|(Hr & _)] & _)].
    + destruct (trap_inv t s c r s' Hki Hh Heq) as [k Hk]. destruct (Hbusy _ Hpc (Hpend _ _ Hdst) (ki_quiet k s' Hk)).
    + by rewrite <- Hrc.
    + by rewrite Hty in Hr.
  - destruct (Hbusy _ (conj (at_slot_same _ c p _ Hok Hp) eq_refl) (proj2 (replaced_pend _ c p _ y dst Hok Hp Hst Hdst)) Hq).
Qed.

Lemma send_blocks t s c p y : kernel_inv c s → t_hartid t = core_in_kernel s → is_intr t INTR_ID_SOFT_M →
  at_slot (proc_set s) c p → sc_type (user_call s c) = SYS_SEND → sc_receiver (user_call s c) = y → y ≠ c → alive s y →
  ∃ r s', kernel_entry t s = Ret (r, s') ∧ blocks t s c p s' ∧ alive s' y.
Proof.
  intros Hki Hh Hi Hp Hty Hrc Hyc Hy. destruct (alive_other c s y Hki Hy Hyc) as (py & Hpy & Hsy).
  destruct (at_slot_pid _ _ _ (k_table s (ki_wf c s Hki)) Hpy) as [Hpid Hy0]; [congruence|].
  assert (valid_call s c) as Hv.
  { right. split; [done|]. rewrite Hrc. exists py. split_and!; [done..|congruence]. }
  destruct (call_outcome t s c p Hki Hh Hi Hp Hv) as [(r & s' & Heq & Hout & Ha)|(_ & _ & Hno)]; [|by destruct (Hno y)].
  exists r, s'. split; [done|]. split; [|by apply Ha].
  destruct Hout as [?|(x & q & Hq & [(_ & <- & _)|(Hr & _)] & _)]; [done| |by rewrite Hty in Hr].
  rewrite Hrc in Hq. by destruct (alive_not_pend s y q).
Qed.

Lemma recv_meets t s c p y snd : kernel_inv c s → t_hartid t = core_in_kernel s → is_intr t INTR_ID_SOFT_M →
  at_slot (proc_set s) c p → sc_type (user_call s c) = SYS_RECV → sc_sender (user_call s c) = y →
  pend (proc_set s) y snd → sc_type (p_syscall snd) = SYS_SEND → sc_receiver (p_syscall snd) = c →
  ∃ r s', kernel_entry t s = Ret (r, s') ∧ handed_over y c (sc_content (p_syscall snd)) s'.
Proof.
  intros Hki Hh Hi Hp Hty Hsd Hsnd Hsty Hsrc. destruct (running_facts s c p Hki Hp) as (Hst & Hpid & Hc).
  pose proof (k_table s (ki_wf c s Hki)) as Hok. destruct (pend_pid _ _ _ Hok Hsnd) as [Hspid Hy0].
  assert (takes (caller t (user_call s c) p) snd = true) as Htakes.
  { unfold takes. cbn [caller p_syscall]. rewrite Hty, Hsd, Hspid, !Z.eqb_refl. cbn. by rewrite orb_true_r. }
  assert (∀ ps, pend ps c (caller t (user_call s c) p) → pend ps y snd → quiet ps → False) as Hbusy.
  { intros ps Hpc Hd Hq. destruct (Hq _ _ Hd) as [[Hr _]|(d & (_ & _ & _ & Hd' & _) & Hno)].
    - by rewrite Hsty in Hr.
    - rewrite Hsrc in Hd'. rewrite (at_slot_fun _ _ _ _ Hd' (proj1 Hpc)) in Hno. congruence. }
  destruct (call_outcome t s c p Hki Hh Hi Hp (or_introl Hty)) as [(r & s' & Heq & Hout & _)|(_ & Hq & _)].
  - exists r, s'. split; [done|]. destruct Hout as [(Hpc & _ & Hpend)|(x & q & Hq & [(Hr & _)|(_ & Hx & _ & _ & Ho)] & _)].
    + destruct (trap_inv t s c r s' Hki Hh Heq) as [k Hk]. destruct (Hbusy _ Hpc (Hpend _ _ Hsnd) (ki_quiet k s' Hk)).
    + by rewrite Hty in Hr.
    + assert (x = y) as -> by (destruct Hx; unfold GPID_ALL in *; [lia|congruence]).
      by rewrite (at_slot_fun _ _ _ _ (proj1 Hq) (proj1 Hsnd)) in Ho.
  - destruct (Hbusy _ (conj (at_slot_same _ c p _ Hok Hp) eq_refl) (proj2 (replaced_pend _ c p _ y snd Hok Hp Hst Hsnd)) Hq).
Qed.

Lemma recv_blocks t s c p y : kernel_inv c s → t_hartid t = core_in_kernel s → is_intr t INTR_ID_SOFT_M →
  at_slot (proc_set s) c p → sc_type (user_call s c) = SYS_RECV → sc_sender (user_call s c) = y → y ≠ c → alive s y →
  ∃ r s', kernel_entry t s = Ret (r, s') ∧ blocks t s c p s' ∧ alive s' y.
Proof.
  intros Hki Hh Hi Hp Hty Hsd Hyc Hy. destruct (alive_other c s y Hki Hy Hyc) as (py & Hpy & Hsy).
  destruct (at_slot_pid _ _ _ (k_table s (ki_wf c s Hki)) Hpy) as [Hpid Hy0]; [congruence|].
  destruct (call_outcome t s c p Hki Hh Hi Hp (or_introl Hty)) as [(r & s' & Heq & Hout & Ha)|(_ & _ & Hno)]; [|by destruct (Hno y)].
  exists r, s'. split; [done|]. split; [|by apply Ha].
  destruct Hout as [?|(x & q & Hq & [(Hr & _)|(_ & Hx & _)] & _)]; [done|by rewrite Hty in Hr|].
  assert (x = y) as -> by (destruct Hx; unfold GPID_ALL in *; [lia|congruence]). by destruct (alive_not_pend s y q).
Qed.

(** ** Runs in which the two parties make no call *)
Section parties.
Context (c f : Z).
Definition party (x : Z) : Prop := x = c ∨ x = f.

(** A step of other processes, of the kernel's timer, or a computation of a
    party that leaves its system call page alone. *)
Inductive aside : kstate E → kstate E → Prop :=
  | aside_user s s' : orderly s s' →
      (∀ x, party x → proc_set s' !! Z.to_nat x = proc_set s !! Z.to_nat x ∧ smem (earth s') x = smem (earth s) x) →
      aside s s'
  | aside_trap t s r s' : t_hartid t = core_in_kernel s → kernel_entry t s = Ret (r, s') →
      (is_intr t INTR_ID_SOFT_M → ∀ x, curr_proc_idx s = Ret x → ¬ party x) → aside s s'.

Lemma aside_inv k s s' : kernel_inv k s → aside s s' → ∃ k', kernel_inv k' s'.
Proof.
  intros Hki Hstep. destruct Hstep as [s s' Hu _|t s r s' Hh Hret _]; [exists k; by apply (orderly_inv k s)|by eapply trap_inv].
Qed.

(** What a trap of somebody else does, seen by a party. *)
Lemma other_call t s k r s' x : kernel_inv k s → t_hartid t = core_in_kernel s → is_intr t INTR_ID_SOFT_M →
  kernel_entry t s = Ret (r, s') → x ≠ k →
  (alive s x → alive s' x) ∧
  (smem (earth s') x = smem (earth s) x ∨ (∃ q, pend (proc_set s) x q) ∧ alive s' x).
Proof.
  intros Hki Hh Hi Hret Hx. destruct (ki_running k s Hki) as (p & Hp & _).
  pose proof (returned_call_valid t s k p _ Hki Hh Hi Hp Hret) as Hv.
  destruct (call_outcome t s k p Hki Hh Hi Hp Hv) as [(r' & s2 & Heq & Hout & Ha)|(Heq & _)]; [|congruence].
  rewrite Heq in Hret. injection Hret as _ <-. split; [by apply Ha|].
  destruct Hout as [(_ & Hsame & _)|(y & q & Hq & Hrel & Hsame)]; [by left|].
  destruct (decide (x = y)) as [->|Hxy]; [|left; by apply Hsame]. right. split; [eauto|]. by apply released_alive in Hrel as [_ ?].
Qed.

Lemma aside_alive k s s' x : kernel_inv k s → aside s s' → party x → alive s x →
  alive s' x ∧ smem (earth s') x = smem (earth s) x.
Proof.
  intros Hki Hstep Hx Ha. destruct Hstep as [s s' _ Hkeep|t s r s' Hh Hret Hnot].
  - destruct (Hkeep x Hx) as [Hps Hsm]. split; [|done]. destruct Ha as (p & [Hr Hp] & Hst). exists p. split; [|done].
    split; [done|]. by rewrite Hps.
  - destruct (entry_is_intr t s _ Hret) as [Hi|Hi].
    + split; [by eapply timer_alive|by eapply timer_pages].
    + assert (x ≠ k) as Hxk by (intros ->; by apply (Hnot Hi k (ki_curr k s Hki))).
      destruct (other_call t s k r s' x Hki Hh Hi Hret Hxk) as [Hal [Hsm|[[q Hq] _]]]; [by split; [apply Hal|]|].
      by destruct (alive_not_pend s x q).
Qed.

(** A call that only the other party can complete. *)
Definition waits_for (p : process) (y : Z) : Prop :=
  recv_waits p ∧ sc_sender (p_syscall p) = y ∨ sc_type (p_syscall p) = SYS_SEND ∧ sc_receiver (p_syscall p) = y.

Lemma aside_pend k s s' x p y : kernel_inv k s → aside s s' → party x → party y → 0 < y → waits_for p y →
  pend (proc_set s) x p → pend (proc_set s') x p ∧ smem (earth s') x = smem (earth s) x.
Proof.
  intros Hki Hstep Hx Hy Hy0 Hw Hp. destruct Hstep as [s s' _ Hkeep|t s r s' Hh Hret Hnot].
  - destruct (Hkeep x Hx) as [Hps Hsm]. split; [|done]. destruct Hp as [[Hr Hp] Hst]. split; [|done].
    split; [done|]. by rewrite Hps.
  - destruct (entry_is_intr t s _ Hret) as [Hi|Hi].
    + split; [|by eapply timer_pages].
      destruct (trap_blocked t s k r s' x p (inv_ok k s Hki) Hh Hret Hp) as [?|[[_ Hi2] _]]; [done|]. destruct Hi as [_ Hi]. by rewrite Hi in Hi2.
    + assert (∀ z, party z → z ≠ k) as Hnk by (intros z Hz ->; by apply (Hnot Hi k (ki_curr k s Hki))).
      destruct (trap_blocked t s k r s' x p (inv_ok k s Hki) Hh Hret Hp) as [Hp'|[_ Hrel]].
      * split; [done|]. destruct (other_call t s k r s' x Hki Hh Hi Hret (Hnk x Hx)) as [_ [?|[_ Ha]]]; [done|].
        by destruct (alive_not_pend s' x p).
      * exfalso. apply (Hnk y Hy). destruct Hw as [[[Hr _] Hsd]|[Hty Hrc]], Hrel as [(_ & _ & [Hrt _] & Hs & _)|(_ & _ & Ht & Hk & _)].
        -- destruct Hs; unfold GPID_ALL in *; [lia|congruence].
        -- by rewrite Hr in Ht.
        -- by rewrite Hty in Hrt.
        -- congruence.
Qed.
End parties.

(** ** Calls of a process *)

(** The running process [x] has stored its call, [upd] of its page, and
    raised the software interrupt [t]. *)
Record prepared (x : Z) (upd : list Z → list Z) s (e : E) (t : trap) : Prop := {
  pr_curr : curr_proc_idx s = Ret x;
  pr_inv : e_inv e;
  pr_mapped q : mapped (earth s) q → mapped e q;
  pr_page : smem e x = upd (smem (earth s) x);
  pr_others y : y ≠ x → smem e y = smem (earth s) y;
  pr_core : t_hartid t = core_in_kernel s;
  pr_intr : is_intr t INTR_ID_SOFT_M
}.

Definition calls (x : Z) (upd : list Z → list Z) s s' : Prop :=
  ∃ e t r, prepared x upd s e t ∧ kernel_entry t (set_earth s e) = Ret (r, s').

(** When [x] has the core it can make the call, and the kernel does not
    fault. *)
Definition can_call (x : Z) (upd : list Z → list Z) s : Prop := curr_proc_idx s = Ret x →
  (∃ e t, prepared x upd s e t) ∧
  ∀ e t, prepared x upd s e t → ∃ r s', kernel_entry t (set_earth s e) = Ret (r, s').

Lemma running_page x s : kernel_inv x s → length (smem (earth s) x) = SYSCALL_PAGE.
Proof.
  intros Hki. destruct (ki_running x s Hki) as (p & Hp & Hst). pose proof (ki_wf x s Hki) as Hwf.
  apply smem_len; [apply Hwf|]. apply (k_mapped s Hwf x p Hp). by rewrite Hst.
Qed.

Lemma prepared_exists x upd s : kernel_inv x s → length (upd (smem (earth s) x)) = SYSCALL_PAGE →
  ∃ e t, prepared x upd s e t.
Proof.
  intros Hki Hlen. pose proof (running_page x s Hki) as Hpage. pose proof (ki_wf x s Hki) as Hwf.
  destruct (ki_running x s Hki) as (p & Hp & Hst).
  assert (mapped (earth s) x) as Hm by (apply (k_mapped s Hwf x p Hp); by rewrite Hst).
  destruct (mmu_translate_law (earth s) x (k_inv s Hwf) Hm) as (e1 & _ & [Hinv1 Hsame] & Hhere).
  destruct (Hsame x) as [Hmx Hsx].
  destruct (ram_store_law e1 x 0 (upd (smem (earth s) x)) Hinv1 (proj2 Hmx Hm) Hhere) as (Hinv & _ & Hmap & Hpg & Ho).
  { vm_compute. lia. } { rewrite Hlen. done. }
  eexists _, (Trap (core_in_kernel s) (2 ^ 31 + 3) 0 []). constructor; [apply (ki_curr x s Hki)|exact Hinv| | | |done|].
  - intros q Hq. apply Hmap. by apply (proj1 (Hsame q)).
  - rewrite Hpg. unfold splice. rewrite take_0, Hlen. cbn [app Nat.add]. rewrite drop_ge by (rewrite Hsx, Hpage; done).
    by rewrite app_nil_r.
  - intros y Hy. rewrite Ho by done. apply (Hsame y).
  - split; [vm_compute; discriminate|reflexivity].
Qed.

Lemma can_call_intro x upd s k : kernel_inv k s →
  (kernel_inv x s → length (upd (smem (earth s) x)) = SYSCALL_PAGE) →
  (∀ e t, kernel_inv x s → prepared x upd s e t → ∃ r s', kernel_entry t (set_earth s e) = Ret (r, s')) → can_call x upd s.
Proof.
  intros Hki Hlen Hret Hcur. assert (k = x) as -> by (pose proof (ki_curr k s Hki); congruence).
  split; [by apply prepared_exists, Hlen|]. intros e t. by apply Hret.
Qed.

(** The state in which the kernel is entered. *)
Lemma prepared_inv x upd s e t : kernel_inv x s → prepared x upd s e t →
  kernel_inv x (set_earth s e) ∧ ∃ p, at_slot (proc_set (set_earth s e)) x p.
Proof.
  intros Hki Hpr. split; [by apply compute_inv; [|apply Hpr|apply Hpr]|].
  destruct (ki_running x s Hki) as (p & Hp & _). by exists p.
Qed.

Lemma pid_range x : 0 < x < 2 ^ 31 → - 2 ^ 31 ≤ x < 2 ^ 31.
Proof. lia. Qed.

Lemma slot_range k s x p : kernel_inv k s → at_slot (proc_set s) x p → p_status p ≠ PROC_UNUSED → 0 < x < 2 ^ 31.
Proof.
  intros Hki Hp Hu. destruct (at_slot_pid _ _ _ (k_table s (ki_wf k s Hki)) Hp Hu) as [_ Hx].
  destruct Hp as [Hr _]. unfold MAX_NPROCESS in Hr. lia.
Qed.

(** A send to a waiting process, from the stores of the caller on: the
    receiver gets the message and the rest of the sender's old content. *)
Lemma message_sent c f msg s dst e t : kernel_inv c s → pend (proc_set s) f dst → recv_waits dst →
  sc_sender (p_syscall dst) = GPID_ALL ∨ sc_sender (p_syscall dst) = c → (length msg ≤ SYSCALL_MSG_LEN)%nat →
  prepared c (sys_send f msg) s e t →
  let content := send_content (page_content (smem (earth s) c)) msg in
  ∃ r s', kernel_entry t (set_earth s e) = Ret (r, s') ∧ handed_over c f content s' ∧
    sys_recv_result SYSCALL_MSG_LEN (smem (earth s') f) = (content, c).
Proof.
  intros Hki Hdst Hrecv Hfrom Hmsg Hpr content. destruct (prepared_inv c _ s e t Hki Hpr) as [Hki1 [p Hp]].
  pose proof (running_page c s Hki) as Hpage.
  destruct (send_call_fields (set_earth s e) c f msg (smem (earth s) c) Hpage Hmsg) as (Hty & Hrc & _);
    [|apply (pr_page _ _ _ _ _ Hpr)|].
  { apply pid_range, (slot_range c s f dst Hki (proj1 Hdst)). by rewrite (proj2 Hdst). }
  destruct (send_meets t (set_earth s e) c p f dst Hki1 (pr_core _ _ _ _ _ Hpr) (pr_intr _ _ _ _ _ Hpr) Hp Hty Hrc Hdst Hrecv Hfrom)
    as (r & s' & Heq & Ho). exists r, s'. split; [done|].
  rewrite content_of_call in Ho. cbn [set_earth earth] in Ho. rewrite (pr_page _ _ _ _ _ Hpr), sys_send_content in Ho by done.
  split; [exact Ho|]. destruct Ho as (Hres & _). rewrite Hres by done. f_equal. unfold content.
  rewrite <- (sys_send_content f) by done. unfold page_content. by rewrite take_take, Nat.min_id.
Qed.

(** ** The exchange *)
Section protocol.
Context (c f : Z) (req : list Z) (answer : list Z → list Z) (stale : list Z).
Context (Hreq : (length req ≤ SYSCALL_MSG_LEN)%nat) (Hans : ∀ buf, (length (answer buf) ≤ SYSCALL_MSG_LEN)%nat).
Context (Hcf : c ≠ f).

(** The contents of the two messages. *)
Definition request_msg : list Z := send_content stale req.
Definition reply_msg : list Z := send_content request_msg (answer request_msg).

(** The server has the request. *)
Definition has_request s : Prop :=
  sys_recv_result SYSCALL_MSG_LEN (smem (earth s) f) = (request_msg, c).
Definition asked s : Prop := alive s c ∧ alive s f ∧ has_request s.
Definition client_waits s : Prop :=
  (∃ p, pend (proc_set s) c p ∧ recv_waits p ∧ sc_sender (p_syscall p) = f) ∧ alive s f ∧ has_request s.
Definition server_waits s : Prop :=
  (∃ p, pend (proc_set s) f p ∧ sc_type (p_syscall p) = SYS_SEND ∧ sc_receiver (p_syscall p) = c ∧
        sc_content (p_syscall p) = reply_msg) ∧ alive s c.

(** The client has the reply. *)
Definition answered s : Prop :=
  alive s c ∧ alive s f ∧ spins (smem (earth s) c) = false ∧ spins (smem (earth s) f) = false ∧
  ∀ size, (size ≤ SYSCALL_MSG_LEN)%nat → sys_recv_result size (smem (earth s) c) = (take size reply_msg, f).

(** *** Nothing of this changes while the parties make no call *)
Abbreviation idly := (rtc (aside c f)).

Lemma asked_idly k s s' : kernel_inv k s → idly s s' → asked s → (∃ k', kernel_inv k' s') ∧ asked s'.
Proof using Type.
  intros Hki Hr. revert k Hki. induction Hr as [s|s s1 s' Hstep _ IH]; intros k Hki Ha; [eauto|].
  destruct (aside_inv c f k s s1 Hki Hstep) as [k1 Hk1]. apply (IH k1 Hk1). destruct Ha as (Hc & Hf & Hreq').
  destruct (aside_alive c f k s s1 c Hki Hstep (or_introl eq_refl) Hc) as [Hc1 _].
  destruct (aside_alive c f k s s1 f Hki Hstep (or_intror eq_refl) Hf) as [Hf1 Hm1].
  split_and!; [done..|]. unfold has_request. by rewrite Hm1.
Qed.

Lemma answered_idly k s s' : kernel_inv k s → idly s s' → answered s → answered s'.
Proof using Type.
  intros Hki Hr. revert k Hki. induction Hr as [s|s s1 s' Hstep _ IH]; intros k Hki Ha; [done|].
  destruct (aside_inv c f k s s1 Hki Hstep) as [k1 Hk1]. apply (IH k1 Hk1). destruct Ha as (Hc & Hf & Hrest).
  destruct (aside_alive c f k s s1 c Hki Hstep (or_introl eq_refl) Hc) as [Hc1 Hm1].
  destruct (aside_alive c f k s s1 f Hki Hstep (or_intror eq_refl) Hf) as [Hf1 Hm2].
  unfold answered. rewrite Hm1, Hm2. by split_and!; [..|apply Hrest|apply Hrest|apply Hrest].
Qed.

Lemma client_waits_idly k s s' : kernel_inv k s → idly s s' → client_waits s → (∃ k', kernel_inv k' s') ∧ client_waits s'.
Proof using Type.
  intros Hki Hr. revert k Hki. induction Hr as [s|s s1 s' Hstep _ IH]; intros k Hki Ha; [eauto|].
  destruct (aside_inv c f k s s1 Hki Hstep) as [k1 Hk1]. apply (IH k1 Hk1). destruct Ha as ((p & Hp & Hw & Hsd) & Hf & Hreq').
  destruct (aside_alive c f k s s1 f Hki Hstep (or_intror eq_refl) Hf) as [Hf1 Hm1].
  assert (0 < f) by (destruct Hf as (q & Hq & Hst); destruct (slot_range k s f q Hki Hq); [destruct Hst; congruence|done]).
  destruct (aside_pend c f k s s1 c p f Hki Hstep (or_introl eq_refl) (or_intror eq_refl)) as [Hp1 _]; [done|by left|done|].
  split_and!; [by exists p|done|]. unfold has_request. by rewrite Hm1.
Qed.

Lemma server_waits_idly k s s' : kernel_inv k s → idly s s' → server_waits s → (∃ k', kernel_inv k' s') ∧ server_waits s'.
Proof using Type.
  intros Hki Hr. revert k Hki. induction Hr as [s|s s1 s' Hstep _ IH]; intros k Hki Ha; [eauto|].
  destruct (aside_inv c f k s s1 Hki Hstep) as [k1 Hk1]. apply (IH k1 Hk1). destruct Ha as ((p & Hp & Hty & Hrc & Hct) & Hc).
  destruct (aside_alive c f k s s1 c Hki Hstep (or_introl eq_refl) Hc) as [Hc1 _].
  assert (0 < c) by (destruct Hc as (q & Hq & Hst); destruct (slot_range k s c q Hki Hq); [destruct Hst; congruence|done]).
  destruct (aside_pend c f k s s1 f p c Hki Hstep (or_intror eq_refl) (or_introl eq_refl)) as [Hp1 _]; [done|by right|done|].
  split; [by exists p|done].
Qed.

Lemma handed_over_answered s' : handed_over f c reply_msg s' → answered s'.
Proof using Type.
  intros Ho. pose proof Ho as (Hres & Hs1 & Hs2 & _).
  split_and!; [eapply handed_over_alive; [exact Ho|tauto]..|done|done|exact Hres].
Qed.

(** *** The calls *)
Lemma ask s dst e t : kernel_inv c s → pend (proc_set s) f dst → recv_waits dst → sc_sender (p_syscall dst) = GPID_ALL →
  stale = page_content (smem (earth s) c) → prepared c (sys_send f req) s e t →
  ∃ r s', kernel_entry t (set_earth s e) = Ret (r, s') ∧ asked s'.
Proof using Hreq.
  intros Hki Hdst Hrecv Hall Hstale Hpr.
  destruct (message_sent c f req s dst e t Hki Hdst Hrecv (or_introl Hall) Hreq Hpr) as (r & s' & Heq & Ho & Hres).
  exists r, s'. split; [done|]. split_and!; [eapply handed_over_alive; [exact Ho|tauto]..|].
  unfold has_request, request_msg. by rewrite Hstale.
Qed.

Lemma client_receives s e t : kernel_inv c s → asked s → prepared c (sys_recv f) s e t →
  ∃ r s', kernel_entry t (set_earth s e) = Ret (r, s') ∧ client_waits s'.
Proof using Hcf.
  intros Hki (Hc & Hf & Hhas) Hpr. destruct (prepared_inv c _ s e t Hki Hpr) as [Hki1 [p Hp]].
  destruct (recv_call_fields (set_earth s e) c f (smem (earth s) c) (running_page c s Hki)) as [Hty Hsd];
    [|apply (pr_page _ _ _ _ _ Hpr)|].
  { destruct Hf as (q & Hq & Hst). apply pid_range, (slot_range c s f q Hki Hq). destruct Hst; congruence. }
  destruct (recv_blocks t (set_earth s e) c p f Hki1 (pr_core _ _ _ _ _ Hpr) (pr_intr _ _ _ _ _ Hpr) Hp Hty Hsd (not_eq_sym Hcf) Hf)
    as (r & s' & Heq & (Hpc & Hsame & _) & Hf'). exists r, s'. split; [done|]. split_and!; [|done|].
  - eexists. split; [exact Hpc|]. by split_and!.
  - unfold has_request. rewrite Hsame. cbn [set_earth earth]. by rewrite (pr_others _ _ _ _ _ Hpr) by done.
Qed.

(** The call of the server when it has the request. *)
Lemma serve_fields s e t : kernel_inv f s → has_request s → 0 < c < 2 ^ 31 → prepared f (serve answer) s e t →
  sc_type (user_call (set_earth s e) f) = SYS_SEND ∧ sc_receiver (user_call (set_earth s e) f) = c ∧
  sc_content (user_call (set_earth s e) f) = reply_msg.
Proof using Hans.
  intros Hki Hhas Hc Hpr. pose proof (pr_page _ _ _ _ _ Hpr) as Hpg. unfold serve in Hpg. rewrite Hhas in Hpg.
  destruct (send_call_fields (set_earth s e) f c (answer request_msg) (smem (earth s) f) (running_page f s Hki) (Hans request_msg))
    as (Hty & Hrc & _); [by apply pid_range|done|]. split_and!; [done..|].
  rewrite content_of_call. cbn [set_earth earth]. rewrite Hpg, sys_send_content by (done || by apply running_page).
  rewrite page_content_result, Hhas. done.
Qed.

Lemma server_sends s e t : kernel_inv f s → asked s → prepared f (serve answer) s e t →
  ∃ r s', kernel_entry t (set_earth s e) = Ret (r, s') ∧ server_waits s'.
Proof using Hcf Hans.
  intros Hki (Hc & Hf & Hhas) Hpr. destruct (prepared_inv f _ s e t Hki Hpr) as [Hki1 [p Hp]].
  destruct (serve_fields s e t Hki Hhas) as (Hty & Hrc & Hct); [|done|].
  { destruct Hc as (q & Hq & Hst). apply (slot_range f s c q Hki Hq). destruct Hst; congruence. }
  destruct (send_blocks t (set_earth s e) f p c Hki1 (pr_core _ _ _ _ _ Hpr) (pr_intr _ _ _ _ _ Hpr) Hp Hty Hrc Hcf Hc)
    as (r & s' & Heq & (Hpc & Hsame & _) & Hc'). exists r, s'. split; [done|]. split; [|done].
  eexists. split; [exact Hpc|]. by split_and!.
Qed.

Lemma server_answers s e t : kernel_inv f s → client_waits s → prepared f (serve answer) s e t →
  ∃ r s', kernel_entry t (set_earth s e) = Ret (r, s') ∧ answered s'.
Proof using Hans.
  intros Hki ((pc & Hpc & Hw & Hsd) & Hf & Hhas) Hpr. destruct (prepared_inv f _ s e t Hki Hpr) as [Hki1 [p Hp]].
  destruct (serve_fields s e t Hki Hhas) as (Hty & Hrc & Hct); [|done|].
  { apply (slot_range f s c pc Hki (proj1 Hpc)). by rewrite (proj2 Hpc). }
  destruct (send_meets t (set_earth s e) f p c pc Hki1 (pr_core _ _ _ _ _ Hpr) (pr_intr _ _ _ _ _ Hpr) Hp Hty Hrc Hpc Hw (or_intror Hsd))
    as (r & s' & Heq & Ho). exists r, s'. split; [done|]. rewrite Hct in Ho. by apply handed_over_answered.
Qed.

Lemma client_answered s e t : kernel_inv c s → server_waits s → prepared c (sys_recv f) s e t →
  ∃ r s', kernel_entry t (set_earth s e) = Ret (r, s') ∧ answered s'.
Proof using Type.
  intros Hki ((pf & Hpf & Hsty & Hsrc & Hct) & Hc) Hpr. destruct (prepared_inv c _ s e t Hki Hpr) as [Hki1 [p Hp]].
  destruct (recv_call_fields (set_earth s e) c f (smem (earth s) c) (running_page c s Hki)) as [Hty Hsd];
    [|apply (pr_page _ _ _ _ _ Hpr)|].
  { apply pid_range, (slot_range c s f pf Hki (proj1 Hpf)). by rewrite (proj2 Hpf). }
  destruct (recv_meets t (set_earth s e) c p f pf Hki1 (pr_core _ _ _ _ _ Hpr) (pr_intr _ _ _ _ _ Hpr) Hp Hty Hsd Hpf Hsty Hsrc)
    as (r & s' & Heq & Ho). exists r, s'. split; [done|]. rewrite Hct in Ho. by apply handed_over_answered.
Qed.
End protocol.

(** ** The exchange as a whole *)

(** Client [c] sends [req] to server [f].  Every call can be made and
    returns; the client's receive and the server's answer come in either
    order, with any steps of others in between; [Done] holds at the end. *)
Definition exchange (c f : Z) (req : list Z) (answer : list Z → list Z) (s0 : kstate E) (Done : kstate E → Prop) : Prop :=
  can_call c (sys_send f req) s0 ∧
  ∀ s1 s2, calls c (sys_send f req) s0 s1 → rtc (aside c f) s1 s2 →
    can_call c (sys_recv f) s2 ∧ can_call f (serve answer) s2 ∧
    (∀ s3 s4, calls c (sys_recv f) s2 s3 → rtc (aside c f) s3 s4 → can_call f (serve answer) s4 ∧
       ∀ s5 s6, calls f (serve answer) s4 s5 → rtc (aside c f) s5 s6 → Done s6) ∧
    (∀ s3 s4, calls f (serve answer) s2 s3 → rtc (aside c f) s3 s4 → can_call c (sys_recv f) s4 ∧
       ∀ s5 s6, calls c (sys_recv f) s4 s5 → rtc (aside c f) s5 s6 → Done s6).

(** A call of which every prepared form returns with [Q]. *)
Lemma calls_step k x upd s (Q : kstate E → Prop) : kernel_inv k s →
  (length (smem (earth s) x) = SYSCALL_PAGE → length (upd (smem (earth s) x)) = SYSCALL_PAGE) →
  (∀ e t, kernel_inv x s → prepared x upd s e t → ∃ r s', kernel_entry t (set_earth s e) = Ret (r, s') ∧ Q s') →
  can_call x upd s ∧ ∀ s', calls x upd s s' → (∃ k', kernel_inv k' s') ∧ Q s'.
Proof.
  intros Hki Hlen Hstep. split.
  - apply (can_call_intro x upd s k Hki); [intros Hx; by apply Hlen, running_page|].
    intros e t Hx Hpr. destruct (Hstep e t Hx Hpr) as (r & s' & Heq & _). eauto.
  - intros s' (e & t & r & Hpr & Heq). assert (kernel_inv x s) as Hx.
    { assert (k = x) as -> by (pose proof (ki_curr k s Hki); pose proof (pr_curr _ _ _ _ _ Hpr); congruence). done. }
    destruct (Hstep e t Hx Hpr) as (r' & s1 & Heq' & HQ). rewrite Heq in Heq'. injection Heq' as _ <-.
    split; [|done]. eapply trap_inv; [apply (proj1 (prepared_inv x upd s e t Hx Hpr))|apply (pr_core _ _ _ _ _ Hpr)|exact Heq].
Qed.

Lemma length_serve answer page : (∀ buf, (length (answer buf) ≤ SYSCALL_MSG_LEN)%nat) → length page = SYSCALL_PAGE →
  length (serve answer page) = SYSCALL_PAGE.
Proof. intros Ha Hp. by apply length_sys_send. Qed.

Lemma exchange_answered c f dst req answer s0 : kernel_inv c s0 → pend (proc_set s0) f dst → recv_waits dst →
  sc_sender (p_syscall dst) = GPID_ALL → (length req ≤ SYSCALL_MSG_LEN)%nat →
  (∀ buf, (length (answer buf) ≤ SYSCALL_MSG_LEN)%nat) →
  exchange c f req answer s0 (answered c f req answer (page_content (smem (earth s0) c))).
Proof.
  intros Hki Hdst Hw Hall Hreq Hans. set (stale := page_content (smem (earth s0) c)).
  assert (c ≠ f) as Hcf.
  { intros ->. destruct (ki_running f s0 Hki) as (p & Hp & Hst). destruct Hdst as [Hd Hds].
    rewrite (at_slot_fun _ _ _ _ Hd Hp) in Hds. congruence. }
  destruct (calls_step c c (sys_send f req) s0 (asked c f req stale) Hki) as [Hcan Hgo].
  { intros Hp. by apply length_sys_send. } { intros e t _ Hpr. by apply (ask c f req stale Hreq s0 dst). }
  split; [done|]. intros s1 s2 Hcall Hidle. destruct (Hgo s1 Hcall) as [[k1 Hk1] Ha1].
  destruct (asked_idly c f req stale k1 s1 s2 Hk1 Hidle Ha1) as [[k2 Hk2] Ha2].
  destruct (calls_step k2 c (sys_recv f) s2 (client_waits c f req stale) Hk2) as [Hcan1 Hgo1].
  { intros Hp. by apply length_sys_recv. } { intros e t Hx Hpr. by apply client_receives. }
  destruct (calls_step k2 f (serve answer) s2 (server_waits c f req answer stale) Hk2) as [Hcan2 Hgo2].
  { intros Hp. by apply length_serve. } { intros e t Hx Hpr. by apply server_sends. }
  split_and!; [done..| |]; intros s3 s4 H3 H4.
  - destruct (Hgo1 s3 H3) as [[k3 Hk3] Ha3]. destruct (client_waits_idly c f req stale k3 s3 s4 Hk3 H4 Ha3) as [[k4 Hk4] Ha4].
    destruct (calls_step k4 f (serve answer) s4 (answered c f req answer stale) Hk4) as [Hcan3 Hgo3].
    { intros Hp. by apply length_serve. } { intros e t Hx Hpr. by apply server_answers. }
    split; [done|]. intros s5 s6 H5 H6. destruct (Hgo3 s5 H5) as [[k5 Hk5] Ha5]. by eapply answered_idly.
  - destruct (Hgo2 s3 H3) as [[k3 Hk3] Ha3]. destruct (server_waits_idly c f req answer stale k3 s3 s4 Hk3 H4 Ha3) as [[k4 Hk4] Ha4].
    destruct (calls_step k4 c (sys_recv f) s4 (answered c f req answer stale) Hk4) as [Hcan3 Hgo3].
    { intros Hp. by apply length_sys_recv. } { intros e t Hx Hpr. by apply client_answered. }
    split; [done|]. intros s5 s6 H5 H6. destruct (Hgo3 s5 H5) as [[k5 Hk5] Ha5]. by eapply answered_idly.
Qed.

Lemma exchange_mono c f req answer s0 (P Q : kstate E → Prop) : (∀ s, P s → Q s) →
  exchange c f req answer s0 P → exchange c f req answer s0 Q.
Proof.
  intros HPQ [Hcan Hgo]. split; [done|]. intros s1 s2 H1 H2. destruct (Hgo s1 s2 H1 H2) as (Ha & Hb & Hc & Hd).
  split_and!; [done..| |]; intros s3 s4 H3 H4; [destruct (Hc s3 s4 H3 H4)|destruct (Hd s3 s4 H3 H4)]; eauto.
Qed.

(** ** [file_read] *)

(** The answer of the file server to the message in [buf] (empty where it
    stops with a FATAL), and what [file_read] does after [sys_recv]: its
    result and the block. *)
Definition file_answer {S} (fs : inode_store S) (st : S) (buf : list Z) : list Z :=
  match file_serve fs st buf with Ret (r, _) => r | Fault _ => [] end.
Definition file_read_result (page : list Z) : Z * block_t :=
  let buf := (sys_recv_result SYSCALL_MSG_LEN page).1 in
  (if get32 buf 0 =? FILE_OK then 0 else -1, take 512 (drop 4 buf)).

Lemma length_file_answer {S} (fs : inode_store S) st buf : (length (file_answer fs st buf) ≤ SYSCALL_MSG_LEN)%nat.
Proof.
  unfold file_answer, file_serve, SYSCALL_MSG_LEN. destruct (_ =? FILE_READ); [|destruct (_ =? FILE_WRITE); cbn; lia].
  destruct (read _ _ _ _ _) as [[r b]|]; [|cbn; lia]. rewrite bind_ret. cbv zeta. rewrite length_take. lia.
Qed.

Lemma length_send_content x msg n : (length x ≤ n)%nat → (length msg ≤ n)%nat → (length (send_content x msg) ≤ n)%nat.
Proof. intros Hx Hm. unfold send_content. rewrite length_app, length_drop. lia. Qed.

End exchange.

(** Process 1 reads block 1 of a small disk through process 2. *)
#[local] Existing Instance demo_earth.
#[local] Existing Instance demo_laws.

