(* ===== verification/CString.v ===== *)
(** * C strings

    The string functions of the C library that the sources use, on byte
    arrays ([list Z]); reading past the end of an array is undefined
    behaviour. *)
From S2P Require Import Prelude.

(** The bytes of a string literal, without the terminator. *)
Fixpoint str (s : string) : list Z :=
  match s with
  | EmptyString => []
  | String a s => Z.of_N (Ascii.N_of_ascii a) :: str s
  end.

Definition SPACE : Z := 32.

(** [buf[i]] for a character array. *)
Definition char_at (buf : list Z) (i : Z) : outcome Z :=
  if bool_decide (0 ≤ i < Z.of_nat (length buf)) then
    match buf !! Z.to_nat i with
    | Some c => Ret c
    | None => Fault (Undef "read outside the array")
    end
  else Fault (Undef "read outside the array").

(** [strlen(buf)] *)
Fixpoint strlen (buf : list Z) : outcome Z :=
  match buf with
  | [] => Fault (Undef "string is not terminated")
  | c :: buf => if c =? 0 then Ret 0 else n ← strlen buf; Ret (n + 1)
  end.

(** [strncmp(s, buf + i, n) == 0] *)
Fixpoint strncmp_eq (n : nat) (s buf : list Z) (i : Z) : outcome bool :=
  match n with
  | O => Ret true
  | S n =>
      match s with
      | [] => Fault (Undef "read outside the array")
      | c :: s =>
          d ← char_at buf i;
          if negb (c =? d) then Ret false
          else if c =? 0 then Ret true
          else strncmp_eq n s buf (i + 1)
      end
  end.

(** [atoi]: white space, a sign, digits. *)
Definition is_space (c : Z) : bool := (c =? 32) || ((9 <=? c) && (c <=? 13)).
Definition is_digit (c : Z) : bool := (48 <=? c) && (c <=? 57).

Fixpoint atoi_digits (acc : Z) (buf : list Z) : Z :=
  match buf with
  | c :: buf => if is_digit c then atoi_digits (10 * acc + (c - 48)) buf else acc
  | [] => acc
  end.

Definition atoi_signed (buf : list Z) : Z :=
  match buf with
  | c :: rest =>
      if c =? 45 then - atoi_digits 0 rest
      else if c =? 43 then atoi_digits 0 rest
      else atoi_digits 0 buf
  | [] => 0
  end.

Fixpoint atoi (buf : list Z) : Z :=
  match buf with
  | c :: rest => if is_space c then atoi rest else atoi_signed buf
  | [] => 0
  end.

(** Decimal digits of a non-negative number, most significant first, and
    [%4d]. *)
Fixpoint dec_loop (fuel : nat) (n : Z) (acc : list Z) : list Z :=
  match fuel with
  | O => acc
  | S fuel =>
      let acc := (48 + n `mod` 10) :: acc in
      if n / 10 =? 0 then acc else dec_loop fuel (n / 10) acc
  end.

(** Ten digits are enough for 32-bit numbers. *)
Definition dec (n : Z) : list Z := dec_loop 10 n [].
Definition pad4 (n : Z) : list Z := replicate (4 - length (dec n)) SPACE ++ dec n.

(** [strcpy], [strcat] and [strncat] into an array that is too short write
    past its end.  [cstr] is the string at a pointer, without its terminator. *)
Definition cstr (src : list Z) : outcome (list Z) :=
  n ← strlen src; Ret (take (Z.to_nat n) src).

Definition put_string (dst : list Z) (n : Z) (s : list Z) : outcome (list Z) :=
  if bool_decide (0 ≤ n ∧ n + Z.of_nat (length s) < Z.of_nat (length dst))
  then Ret (splice dst (Z.to_nat n) (s ++ [0]))
  else Fault (Undef "write past the end of the array").

Definition strcpy (dst src : list Z) : outcome (list Z) :=
  s ← cstr src; put_string dst 0 s.
Definition strcat (dst src : list Z) : outcome (list Z) :=
  n ← strlen dst; s ← cstr src; put_string dst n s.
Definition strncat (dst src : list Z) (k : nat) : outcome (list Z) :=
  n ← strlen dst; s ← cstr src; put_string dst n (take k s).

(** Digits of a non-negative number in a base up to 16, and newlib's
    [itoa(value, str, base)]: a minus sign only in base 10, otherwise the
    value is taken as unsigned.  32 digits are enough for 32-bit numbers in
    any base. *)
Definition digit (d : Z) : Z := if d <? 10 then 48 + d else 87 + d.

Fixpoint utoa_loop (fuel : nat) (base n : Z) (acc : list Z) : list Z :=
  match fuel with
  | O => acc
  | S fuel =>
      let acc := digit (n `mod` base) :: acc in
      if n / base =? 0 then acc else utoa_loop fuel base (n / base) acc
  end.
Definition utoa (n base : Z) : list Z := utoa_loop 32 base n [].

Definition itoa (value base : Z) : list Z :=
  if (base =? 10) && (value <? 0) then 45 :: utoa (u32 (- value)) 10 else utoa (u32 value) base.

(** ** Lemmas *)
Definition nonzero (s : list Z) : Prop := Forall (λ c, c ≠ 0) s.
#[global] Instance nonzero_dec s : Decision (nonzero s).
Proof. unfold nonzero. apply _. Defined.
Lemma strlen_app s rest : Forall (λ c, c ≠ 0) s → strlen (s ++ 0 :: rest) = Ret (Z.of_nat (length s)).
Proof.
  induction s as [|c s IH]; intros Hs; [done|]. apply Forall_cons in Hs as [Hc Hs].
  simpl. rewrite (proj2 (Z.eqb_neq _ _)), IH by done. simpl. f_equal. lia.
Qed.

Lemma char_at_cases buf i :
  (∃ c, 0 ≤ i ∧ buf !! Z.to_nat i = Some c ∧ char_at buf i = Ret c) ∨
  (¬ 0 ≤ i < Z.of_nat (length buf) ∧ char_at buf i = Fault (Undef "read outside the array")).
Proof.
  unfold char_at. case_bool_decide as Hi; [left|by right].
  destruct (lookup_lt_is_Some_2 buf (Z.to_nat i)) as [c Hc]; [lia|]. exists c. rewrite Hc. split_and!; [lia|done..].
Qed.

Lemma char_at_lookup buf i c : buf !! i = Some c → char_at buf (Z.of_nat i) = Ret c.
Proof. intros H. pose proof (lookup_lt_Some _ _ _ H). unfold char_at.
  rewrite bool_decide_true by lia. by rewrite Nat2Z.id, H. Qed.

(** Comparison with a terminated string that contains [n] non-zero bytes. *)
Lemma strncmp_eq_spec s : ∀ buf i, Forall (λ c, c ≠ 0) s → 0 ≤ i →
  (∃ j, (Z.to_nat i ≤ j)%nat ∧ buf !! j = Some 0) →
  strncmp_eq (length s) s buf i = Ret (bool_decide (take (length s) (drop (Z.to_nat i) buf) = s)).
Proof.
  induction s as [|c s IH]; intros buf i Hs Hi (j & Hj & H0); [done|].
  apply Forall_cons in Hs as [Hc Hs]. cbn [strncmp_eq length].
  destruct (lookup_lt_is_Some_2 buf (Z.to_nat i)) as [d Hd].
  { apply lookup_lt_Some in H0. lia. }
  rewrite <- (Z2Nat.id i) at 1 by done. rewrite (char_at_lookup _ _ d Hd), bind_ret.
  rewrite (drop_S _ _ _ Hd). cbn [take].
  destruct (Z.eqb_spec c d) as [<-|Hne]; cbn [negb]; [|by rewrite bool_decide_false by congruence].
  rewrite (proj2 (Z.eqb_neq c 0)) by done. rewrite IH; [|done|lia|].
  - f_equal. rewrite Z2Nat.inj_add by lia. rewrite Nat.add_1_r. apply bool_decide_ext.
    split; congruence.
  - exists j. split; [|done]. destruct (decide (j = Z.to_nat i)) as [->|]; [congruence|lia].
Qed.

(** Only the first [n] characters are compared. *)
Lemma strncmp_eq_app n : ∀ a x b j, (n ≤ length a)%nat → strncmp_eq n (a ++ x) b j = strncmp_eq n a b j.
Proof.
  induction n as [|n IH]; intros a x b j Hlen; [done|]. destruct a as [|c a]; [simpl in Hlen; lia|].
  cbn [app strncmp_eq]. destruct (char_at b j) as [d|]; [|done]. rewrite !bind_ret.
  destruct (negb (c =? d)); [done|]. destruct (c =? 0); [done|]. apply IH. simpl in Hlen. lia.
Qed.

Lemma dec_loop_spec fuel : ∀ n acc, 0 ≤ n < 10 ^ Z.of_nat fuel → (0 < fuel)%nat → ∃ ds,
  dec_loop fuel n acc = ds ++ acc ∧ ds ≠ [] ∧ Forall (λ c, is_digit c = true) ds ∧
  ∀ a rest, atoi_digits a (ds ++ rest) = atoi_digits (a * 10 ^ Z.of_nat (length ds) + n) rest.
Proof.
  induction fuel as [|fuel IH]; intros n acc Hn Hf; [lia|]. cbn [dec_loop].
  assert (is_digit (48 + n `mod` 10) = true) as Hdig.
  { pose proof (Z.mod_pos_bound n 10 ltac:(lia)). unfold is_digit.
    rewrite andb_true_iff, !Z.leb_le. lia. }
  destruct (Z.eqb_spec (n / 10) 0) as [Hz|Hnz].
  - exists [48 + n `mod` 10]. split_and!; [done..|by constructor|]. intros a rest.
    cbn [app atoi_digits length]. rewrite Hdig. f_equal. change (10 ^ Z.of_nat 1) with 10.
    Z.div_mod_to_equations. lia.
  - destruct (IH (n / 10) ((48 + n `mod` 10) :: acc)) as (ds & Heq & Hne & Hall & Hat).
    { replace (Z.of_nat (S fuel)) with (Z.of_nat fuel + 1) in Hn by lia.
      rewrite Z.pow_add_r in Hn by lia. Z.div_mod_to_equations. lia. }
    { destruct fuel; [|lia]. change (10 ^ Z.of_nat 1) with 10 in Hn.
      exfalso. apply Hnz. Z.div_mod_to_equations. lia. }
    exists (ds ++ [48 + n `mod` 10]). split_and!.
    + by rewrite Heq, <- (assoc_L (++)).
    + by destruct ds.
    + apply Forall_app. split; [done|by constructor].
    + intros a rest. rewrite <- (assoc_L (++)), Hat. cbn [app atoi_digits]. rewrite Hdig. f_equal.
      rewrite length_app. cbn [length]. rewrite Nat2Z.inj_add, Z.pow_add_r by lia.
      change (10 ^ Z.of_nat 1) with 10. Z.div_mod_to_equations. lia.
Qed.

Lemma dec_spec n : 0 ≤ n < 10 ^ 10 → dec n ≠ [] ∧ Forall (λ c, is_digit c = true) (dec n) ∧
  ∀ rest, (∀ c l, rest = c :: l → is_digit c = false) → atoi_digits 0 (dec n ++ rest) = n.
Proof.
  intros Hn. destruct (dec_loop_spec 10 n [] Hn ltac:(lia)) as (ds & Heq & Hne & Hall & Hat).
  unfold dec. rewrite Heq, app_nil_r. split_and!; [done..|]. intros rest Hrest. rewrite Hat.
  destruct rest as [|c l]; [cbn; lia|]. cbn [atoi_digits]. rewrite (Hrest c l eq_refl). lia.
Qed.

(** [atoi] stops at the terminator. *)
Lemma atoi_digits_end l rest : ∀ acc, atoi_digits acc (l ++ 0 :: rest) = atoi_digits acc l.
Proof.
  induction l as [|c l IH]; intros acc; [done|]. cbn [app atoi_digits]. by destruct (is_digit c).
Qed.

Lemma atoi_end l rest : atoi (l ++ 0 :: rest) = atoi l.
Proof.
  induction l as [|c l IH]; [done|]. cbn [app atoi]. destruct (is_space c); [done|].
  cbn [atoi_signed]. rewrite !atoi_digits_end.
  destruct (c =? 45); [done|]. destruct (c =? 43); [done|]. exact (atoi_digits_end (c :: l) rest 0).
Qed.

(** [atoi] after spaces reads the number back. *)
Lemma atoi_dec k n rest : 0 ≤ n < 10 ^ 10 → (∀ c l, rest = c :: l → is_digit c = false) →
  atoi (replicate k SPACE ++ dec n ++ rest) = n.
Proof.
  intros Hn Hrest. destruct (dec_spec n Hn) as (Hne & Hall & Hat).
  induction k as [|k IH]; [|exact IH].
  cbn [replicate app]. specialize (Hat rest Hrest). destruct (dec n) as [|d ds]; [done|].
  apply Forall_cons in Hall as [Hd _]. unfold is_digit in Hd. rewrite andb_true_iff, !Z.leb_le in Hd.
  cbn [app atoi]. unfold is_space.
  rewrite (proj2 (Z.eqb_neq d 32)), (proj2 (Z.leb_gt d 13)), andb_false_r by lia. cbn [orb].
  cbn [app] in Hat. unfold atoi_signed.
  by rewrite (proj2 (Z.eqb_neq d 45)), (proj2 (Z.eqb_neq d 43)) by lia.
Qed.

(** *** Building strings in an array

    An array that holds the string [s] has the form [s ++ 0 :: rest]. *)
Lemma cstr_app s rest : nonzero s → cstr (s ++ 0 :: rest) = Ret s.
Proof.
  intros Hs. unfold cstr. rewrite (strlen_app s rest Hs), bind_ret, Nat2Z.id.
  by rewrite take_app_length.
Qed.

Lemma put_string_app s rest t : (length t ≤ length rest)%nat →
  put_string (s ++ 0 :: rest) (Z.of_nat (length s)) t = Ret ((s ++ t) ++ 0 :: drop (length t) rest).
Proof.
  intros Hlen. unfold put_string. rewrite bool_decide_true by (rewrite length_app; simpl; lia).
  unfold splice. rewrite Nat2Z.id, take_app_length, <- !(assoc_L (++)). do 3 f_equal.
  rewrite drop_app_ge by lia. rewrite length_app. cbn [length app].
  replace (length s + (length t + 1) - length s)%nat with (S (length t)) by lia. done.
Qed.

Lemma put_string_long s rest t : (length rest < length t)%nat →
  put_string (s ++ 0 :: rest) (Z.of_nat (length s)) t = Fault (Undef "write past the end of the array").
Proof.
  intros Hlen. unfold put_string. rewrite bool_decide_false; [done|]. rewrite length_app. simpl. lia.
Qed.

Lemma strcat_app s rest t rest' : nonzero s → nonzero t →
  strcat (s ++ 0 :: rest) (t ++ 0 :: rest') = put_string (s ++ 0 :: rest) (Z.of_nat (length s)) t.
Proof.
  intros Hs Ht. unfold strcat. by rewrite (strlen_app s rest Hs), bind_ret, cstr_app, bind_ret.
Qed.

(** In base 10 [utoa] produces the decimal digits. *)
Lemma utoa_loop_dec fuel : ∀ k n acc, 0 ≤ n < 10 ^ Z.of_nat fuel → (0 < fuel)%nat →
  utoa_loop (fuel + k) 10 n acc = dec_loop fuel n acc.
Proof.
  induction fuel as [|fuel IH]; intros k n acc Hn Hf; [lia|]. cbn [utoa_loop dec_loop Nat.add].
  assert (digit (n `mod` 10) = 48 + n `mod` 10) as ->.
  { unfold digit. pose proof (Z.mod_pos_bound n 10 ltac:(lia)). by rewrite (proj2 (Z.ltb_lt _ _)) by lia. }
  destruct (Z.eqb_spec (n / 10) 0) as [Hz|Hnz]; [done|].
  replace (Z.of_nat (S fuel)) with (Z.of_nat fuel + 1) in Hn by lia.
  rewrite Z.pow_add_r in Hn by lia. destruct fuel as [|fuel].
  - exfalso. apply Hnz. change (10 ^ Z.of_nat 0) with 1 in Hn. Z.div_mod_to_equations. lia.
  - apply IH; [Z.div_mod_to_equations; lia|lia].
Qed.

Lemma utoa_dec n : 0 ≤ n < 10 ^ 10 → utoa n 10 = dec n.
Proof. intros Hn. unfold utoa, dec. apply (utoa_loop_dec 10 22); [done|lia]. Qed.

(** [atoi] reads back what [itoa] wrote. *)
Lemma atoi_itoa z rest : - 2 ^ 31 ≤ z < 2 ^ 31 → (∀ c l, rest = c :: l → is_digit c = false) →
  atoi (itoa z 10 ++ rest) = z.
Proof.
  intros Hz Hrest. unfold itoa. rewrite Z.eqb_refl. cbn [andb].
  destruct (Z.ltb_spec z 0) as [Hneg|Hpos].
  - rewrite u32_small, utoa_dec by lia. cbn [app atoi]. change (is_space 45) with false. cbn [atoi_signed].
    change (45 =? 45) with true. cbv iota.
    destruct (dec_spec (- z) ltac:(lia)) as (_ & _ & ->); [lia|done].
  - rewrite u32_small, utoa_dec by lia. apply (atoi_dec 0); [lia|done].
Qed.

Lemma utoa_loop_nonzero fuel base : ∀ n acc, 1 < base ≤ 16 → 0 ≤ n → nonzero acc →
  nonzero (utoa_loop fuel base n acc).
Proof.
  induction fuel as [|fuel IH]; intros n acc Hb Hn Hacc; [done|]. cbn [utoa_loop].
  assert (nonzero (digit (n `mod` base) :: acc)) as Hcons.
  { constructor; [|done]. unfold digit. pose proof (Z.mod_pos_bound n base ltac:(lia)).
    destruct (Z.ltb_spec (n `mod` base) 10); lia. }
  destruct (n / base =? 0); [done|]. apply IH; [done| |done]. apply Z.div_pos; lia.
Qed.

Lemma itoa_nonzero z base : 1 < base ≤ 16 → nonzero (itoa z base).
Proof.
  intros Hb. assert (∀ n b, 1 < b ≤ 16 → nonzero (utoa (u32 n) b)) as Hu.
  { intros n b Hb'. apply utoa_loop_nonzero; [done|apply u32_range|constructor]. }
  unfold itoa. destruct (_ && _); [constructor; [done|]|]; apply Hu; lia.
Qed.

Lemma dec_loop_length fuel : ∀ n acc, (length (dec_loop fuel n acc) ≤ fuel + length acc)%nat.
Proof.
  induction fuel as [|fuel IH]; intros n acc; cbn [dec_loop]; [lia|].
  destruct (_ =? 0); [cbn [length]; lia|]. etrans; [apply IH|]. cbn [length]. lia.
Qed.

Lemma itoa_length z : - 2 ^ 31 ≤ z < 2 ^ 31 → (length (itoa z 10) ≤ 11)%nat.
Proof.
  intros Hz. unfold itoa. rewrite Z.eqb_refl. cbn [andb].
  destruct (Z.ltb_spec z 0); rewrite u32_small, utoa_dec by lia; unfold dec; cbn [length].
  - pose proof (dec_loop_length 10 (- z) []) as H1. cbn [length] in H1. lia.
  - pose proof (dec_loop_length 10 z []) as H1. cbn [length] in H1. lia.
Qed.
