(* ===== verification/Print.v ===== *)
(** * Formatted printing (library/libc/print.c)

    [format_to_str] expands a format into a character array with the string
    functions of the C library; [LOG] adds a prefix and a suffix and writes
    the result with [term_write], which is a parameter: the kernel's writes to
    the TTY, that of an application sends a message (TermServer.v).

    A [double] is a value of the Standard Library's executable model of IEEE
    754 ([SpecFloat.spec_float]) with 53 bits of precision.

    The specification splits the format into directives ([parse_format]) and
    concatenates their texts ([render]). *)
From Stdlib Require Import SpecFloat.
From S2P Require Import Prelude CString.

(** ** Variable arguments *)
Inductive va : Type :=
  | VStr (s : list Z)      (* the array a [char*] points to *)
  | VInt (z : Z)
  | VDouble (v : spec_float).

Definition va_str (args : list va) : outcome (list Z * list va) :=
  match args with VStr s :: args => Ret (s, args) | _ => Fault (Undef "va_arg(char*)") end.
Definition va_int (args : list va) : outcome (Z * list va) :=
  match args with VInt z :: args => Ret (z, args) | _ => Fault (Undef "va_arg(int)") end.
Definition va_double (args : list va) : outcome (spec_float * list va) :=
  match args with VDouble v :: args => Ret (v, args) | _ => Fault (Undef "va_arg(double)") end.

(** ** Floating point *)
Definition f64_mul : spec_float → spec_float → spec_float := SFmul 53 1024.
Definition f64_add : spec_float → spec_float → spec_float := SFadd 53 1024.
Definition f64_100 : spec_float := S754_finite false 7036874417766400 (-46).
Definition f64_half : spec_float := S754_finite false 4503599627370496 (-53).

(** [(unsigned long long)v]: truncation, undefined outside the range. *)
Definition f64_to_u64 (v : spec_float) : outcome Z :=
  match v with
  | S754_zero _ => Ret 0
  | S754_finite s m e =>
      let n := Z.shiftl (Z.pos m) e in
      if s && (0 <? n) then Fault (Undef "negative double as unsigned")
      else if n <? 2 ^ 64 then Ret n else Fault (Undef "double too large for 64 bits")
  | _ => Fault (Undef "infinity or NaN as an integer")
  end.

(** [(unsigned long long)(v * 100.0 + 0.5)] *)
Definition scaled (v : spec_float) : outcome Z := f64_to_u64 (f64_add (f64_mul v f64_100) f64_half).

(** ** [format_to_str] *)

(** [itoa(value, out + strlen(out), base)] *)
Definition itoa_at_end (value base : Z) (out : list Z) : outcome (list Z) :=
  n ← strlen out; put_string out n (itoa value base).

(** [size_t len = strlen(out); out[len] = a; out[len+1] = b; ...; '\0'] *)
Definition store_at_end (cs out : list Z) : outcome (list Z) :=
  n ← strlen out; put_string out n cs.

(** The digits of a number scaled by 100. *)
Definition format_digits (sc : Z) (out : list Z) : outcome (list Z) :=
  let ipart := sc / 100 in
  let fpart := sc `mod` 100 in
  out ← itoa_at_end (i32 ipart) 10 out;
  out ← strcat out (str "." ++ [0]);
  store_at_end [48 + fpart / 10; 48 + fpart `mod` 10] out.

(** The branch for [%f]. *)
Definition format_f (v : spec_float) (out : list Z) : outcome (list Z) :=
  '(v, out) ← (if SFltb v (S754_zero false)
               then out ← store_at_end [45] out; Ret (SFopp v, out)
               else Ret (v, out));
  sc ← scaled v;
  format_digits sc out.

(** The loop over the format, which is a terminated string; [bad] is what the
    call of [FATAL] for an unsupported conversion does. *)
Fixpoint format_loop (bad : Z → outcome (list Z)) (fmt : list Z) (args : list va) (out : list Z) : outcome (list Z) :=
  match fmt with
  | [] => Fault (Undef "format is not terminated")
  | c :: rest =>
      if c =? 0 then Ret out
      else if negb (c =? 37) then
        out ← strncat out fmt 1;
        format_loop bad rest args out
      else
        match rest with
        | [] => Fault (Undef "format is not terminated")
        | d :: rest =>
            if d =? 115 (* s *) then
              '(s, args) ← va_str args;
              out ← strcat out s;
              format_loop bad rest args out
            else if d =? 100 (* d *) then
              '(z, args) ← va_int args;
              out ← itoa_at_end z 10 out;
              format_loop bad rest args out
            else if d =? 120 (* x *) then
              '(z, args) ← va_int args;
              out ← itoa_at_end z 16 out;
              format_loop bad rest args out
            else if d =? 37 (* % *) then
              out ← store_at_end [37] out;
              format_loop bad rest args out
            else if d =? 102 (* f *) then
              '(v, args) ← va_double args;
              out ← format_f v out;
              format_loop bad rest args out
            else bad d
        end
  end.

(** [out[0] = 0] first. *)
Definition format_to_str (bad : Z → outcome (list Z)) (out fmt : list Z) (args : list va) : outcome (list Z) :=
  match out with
  | [] => Fault (Undef "write past the end of the array")
  | _ :: out => format_loop bad fmt args (0 :: out)
  end.

(** ** Output *)
Section log.
Context {W : Type} (term_write : list Z → W → outcome W).

(** The macro [LOG]; [buf] is the uninitialised [char buf[512]]. *)
Definition log_with (bad : Z → outcome (list Z)) (prefix suffix buf fmt : list Z) (args : list va) (w : W) : outcome W :=
  buf ← strcpy buf (prefix ++ [0]);
  n ← strlen (prefix ++ [0]);
  out ← format_to_str bad (drop (Z.to_nat n) buf) fmt args;
  let buf := take (Z.to_nat n) buf ++ out in
  buf ← strcat buf (suffix ++ [0]);
  n ← strlen buf;
  term_write (take (Z.to_nat n) buf) w.

Definition ESC : Z := 0x1B.
Definition EOL : list Z := [0x0a; 0x0d].
Definition FATAL_PREFIX : list Z := ESC :: str "[1;31m[FATAL] ".
Definition FATAL_SUFFIX : list Z := (ESC :: str "[1;0m") ++ EOL.

(** [FATAL("printf cannot parse the format: '%%%s'", tmp)] in
    [format_to_str], whose [LOG] has a buffer of its own; what that contains
    does not matter ([log_text]).  Its format has no unsupported conversion,
    so it does not call [FATAL] again. *)
Definition format_fatal (w : W) (c : Z) : outcome (list Z) :=
  let tmp := [c; 0] in
  _ ← log_with (λ _, Fault (Undef "not reached")) FATAL_PREFIX FATAL_SUFFIX (zeros 512)
       (str "printf cannot parse the format: '%%%s'" ++ [0]) [VStr tmp] w;
  Fault (Fatal "printf cannot parse the format: '%%%s'").

Definition LOG (prefix suffix buf fmt : list Z) (args : list va) (w : W) : outcome W :=
  log_with (format_fatal w) prefix suffix buf fmt args w.

Definition my_printf : list Z → list Z → list va → W → outcome W := LOG [] [].
Definition INFO : list Z → list Z → list va → W → outcome W := LOG (str "[INFO] ") EOL.
Definition SUCCESS : list Z → list Z → list va → W → outcome W :=
  LOG (ESC :: str "[1;32m[SUCCESS] ") (ESC :: str "[1;0m" ++ EOL).
Definition CRITICAL : list Z → list Z → list va → W → outcome W :=
  LOG (ESC :: str "[1;33m[CRITICAL] ") (ESC :: str "[1;0m" ++ EOL).

(** The text [FATAL] prints before it loops for ever. *)
Definition FATAL : list Z → list Z → list va → W → outcome W := LOG FATAL_PREFIX FATAL_SUFFIX.
End log.

(** ** Specification *)
Inductive directive : Type :=
  | DChar (c : Z) | DStr | DInt (base : Z) | DDouble | DBad (c : Z).

Fixpoint parse_format (fmt : list Z) : list directive :=
  match fmt with
  | [] => []
  | c :: rest =>
      if negb (c =? 37) then DChar c :: parse_format rest else
      match rest with
      | [] => [DBad 0]
      | d :: rest =>
          if d =? 115 then DStr :: parse_format rest
          else if d =? 100 then DInt 10 :: parse_format rest
          else if d =? 120 then DInt 16 :: parse_format rest
          else if d =? 37 then DChar 37 :: parse_format rest
          else if d =? 102 then DDouble :: parse_format rest
          else [DBad d]
      end
  end.

(** Two decimals of a number: sign, integer part, point, fraction. *)
Definition double_text (v : spec_float) : outcome (list Z) :=
  let neg := SFltb v (S754_zero false) in
  sc ← scaled (if neg then SFopp v else v);
  Ret ((if neg then [45] else []) ++ itoa (i32 (sc / 100)) 10 ++
       [46; 48 + sc `mod` 100 / 10; 48 + (sc `mod` 100) `mod` 10]).

Definition arg_text (d : directive) (args : list va) : outcome (list Z * list va) :=
  match d with
  | DChar c => Ret ([c], args)
  | DStr => '(s, args) ← va_str args; s ← cstr s; Ret (s, args)
  | DInt base => '(z, args) ← va_int args; Ret (itoa z base, args)
  | DDouble => '(v, args) ← va_double args; s ← double_text v; Ret (s, args)
  | DBad _ => Fault (Fatal "printf cannot parse the format: '%%%s'")
  end.

Fixpoint render_args (ds : list directive) (args : list va) : outcome (list Z) :=
  match ds with
  | [] => Ret []
  | d :: ds => '(t, args) ← arg_text d args; text ← render_args ds args; Ret (t ++ text)
  end.

Definition format_text (fmt : list Z) (args : list va) : outcome (list Z) :=
  render_args (parse_format fmt) args.

(** The text up to the first unsupported conversion, and that. *)
Fixpoint render_until (ds : list directive) (args : list va) : outcome (list Z * option Z) :=
  match ds with
  | [] => Ret ([], None)
  | DBad c :: _ => Ret ([], Some c)
  | d :: ds => '(t, args) ← arg_text d args; '(text, b) ← render_until ds args; Ret (t ++ text, b)
  end.

Definition format_until (fmt : list Z) (args : list va) : outcome (list Z * option Z) :=
  render_until (parse_format fmt) args.

(** The line that [format_to_str] prints about conversion [c]; 0 is the end
    of the format after a [%]. *)
Definition fatal_line (c : Z) : list Z :=
  FATAL_PREFIX ++ str "printf cannot parse the format: '%" ++ (if decide (c = 0) then [] else [c]) ++ str "'" ++ FATAL_SUFFIX.

(** ** Correctness *)

(** Append [t] to the string [s] in an array with [rest] bytes to spare. *)
Definition extend (s rest t : list Z) : outcome (list Z) :=
  if bool_decide (length t ≤ length rest)%nat
  then Ret ((s ++ t) ++ 0 :: drop (length t) rest)
  else Fault (Undef "write past the end of the array").

Lemma put_string_extend s rest t :
  put_string (s ++ 0 :: rest) (Z.of_nat (length s)) t = extend s rest t.
Proof.
  unfold extend. case_bool_decide; [by apply put_string_app|]. apply put_string_long. lia.
Qed.

Lemma extend_nil s rest : extend s rest [] = Ret (s ++ 0 :: rest).
Proof. unfold extend. rewrite bool_decide_true by (simpl; lia). by rewrite app_nil_r. Qed.

(** Two appends in a row. *)
Lemma extend_bind s rest t u (k : list Z → outcome (list Z)) :
  (∀ rest', k ((s ++ t) ++ 0 :: rest') = extend (s ++ t) rest' u) →
  (extend s rest t ≫= k) = extend s rest (t ++ u).
Proof.
  intros Hk. unfold extend at 1. case_bool_decide as Ht; cbn [mbind outcome_bind].
  - rewrite Hk. unfold extend. rewrite length_drop, length_app, drop_drop, (assoc_L (++)).
    rewrite (bool_decide_ext _ (length t + length u ≤ length rest)%nat) by lia. done.
  - unfold extend. rewrite bool_decide_false; [done|]. rewrite length_app. lia.
Qed.

Lemma extend_bind_then {B} s rest t u (k : list Z → outcome B) (f : list Z → outcome B) :
  (∀ rest', k ((s ++ t) ++ 0 :: rest') = (extend (s ++ t) rest' u ≫= f)) →
  (extend s rest t ≫= k) = (extend s rest (t ++ u) ≫= f).
Proof.
  intros Hk. unfold extend at 1. case_bool_decide as Ht; cbn [mbind outcome_bind].
  - rewrite Hk. unfold extend. rewrite length_drop, length_app, drop_drop, (assoc_L (++)).
    rewrite (bool_decide_ext _ (length t + length u ≤ length rest)%nat) by lia. done.
  - unfold extend. rewrite bool_decide_false; [done|]. rewrite length_app. lia.
Qed.

Lemma strlen_ret s : ∀ n, strlen s = Ret n → ∃ t rest, s = t ++ 0 :: rest ∧ nonzero t ∧ n = Z.of_nat (length t).
Proof.
  induction s as [|c s IH]; intros n H; [discriminate|]. cbn [strlen] in H.
  destruct (Z.eqb_spec c 0) as [->|Hc]; [injection H as <-; exists [], s; repeat split; constructor|].
  destruct (strlen s) as [m|]; [|discriminate]. injection H as <-.
  destruct (IH m eq_refl) as (t & rest & -> & Ht & ->). exists (c :: t), rest.
  split_and!; [done|by constructor|simpl; lia].
Qed.

Lemma cstr_ret s t : cstr s = Ret t → nonzero t ∧ ∃ rest, s = t ++ 0 :: rest.
Proof.
  unfold cstr. destruct (strlen s) as [n|] eqn:Hn; [|discriminate]. intros [= <-].
  destruct (strlen_ret s n Hn) as (u & rest & -> & Hu & ->). rewrite Nat2Z.id, take_app_length. eauto.
Qed.

Section extend.
Context (s rest : list Z) (Hs : nonzero s).

Lemma store_extend cs : store_at_end cs (s ++ 0 :: rest) = extend s rest cs.
Proof using Hs. unfold store_at_end. rewrite (strlen_app s rest Hs), bind_ret. apply put_string_extend. Qed.

Lemma itoa_extend z b : itoa_at_end z b (s ++ 0 :: rest) = extend s rest (itoa z b).
Proof using Hs. unfold itoa_at_end. rewrite (strlen_app s rest Hs), bind_ret. apply put_string_extend. Qed.

Lemma strcat_extend a t : cstr a = Ret t → strcat (s ++ 0 :: rest) a = extend s rest t.
Proof using Hs.
  intros Ha. destruct (cstr_ret a t Ha) as [Ht [rest' ->]].
  rewrite strcat_app by done. apply put_string_extend.
Qed.

Lemma strncat_extend c fmt : c ≠ 0 → nonzero fmt →
  strncat (s ++ 0 :: rest) (c :: fmt ++ [0]) 1 = extend s rest [c].
Proof using Hs.
  intros Hc Hf. unfold strncat. rewrite (strlen_app s rest Hs), bind_ret.
  change (c :: fmt ++ [0]) with ((c :: fmt) ++ [0]).
  rewrite (cstr_app (c :: fmt) []), bind_ret by (by constructor). apply put_string_extend.
Qed.
End extend.

Lemma nonzero_app s t : nonzero s → nonzero t → nonzero (s ++ t).
Proof. intros. by apply Forall_app. Qed.
#[export] Hint Resolve nonzero_app itoa_nonzero : egos.

Lemma scaled_nonneg v n : scaled v = Ret n → 0 ≤ n.
Proof.
  unfold scaled, f64_to_u64. destruct (f64_add _ _) as [| | |b m e]; try discriminate; [intros [= <-]; lia|].
  destruct (_ && _); [discriminate|]. destruct (Z.shiftl _ _ <? _); [|discriminate].
  intros [= <-]. apply Z.shiftl_nonneg. lia.
Qed.

Lemma fraction_nonzero n : nonzero [48 + n `mod` 100 / 10; 48 + (n `mod` 100) `mod` 10].
Proof. repeat constructor; Z.div_mod_to_equations; lia. Qed.

Lemma double_nonzero v t : double_text v = Ret t → nonzero t.
Proof.
  unfold double_text. destruct (scaled _) as [n|]; [|discriminate]. intros [= <-].
  apply nonzero_app; [by destruct (SFltb _ _); repeat constructor|].
  apply nonzero_app; [by apply itoa_nonzero|]. constructor; [done|apply fraction_nonzero].
Qed.

Lemma format_digits_extend s rest n : nonzero s →
  format_digits n (s ++ 0 :: rest) = extend s rest (itoa (i32 (n / 100)) 10 ++
    [46; 48 + n `mod` 100 / 10; 48 + (n `mod` 100) `mod` 10]).
Proof.
  intros Hs. assert (nonzero (s ++ itoa (i32 (n / 100)) 10)) as Hs1 by (apply nonzero_app; [done|by apply itoa_nonzero]).
  unfold format_digits. rewrite itoa_extend by done. apply extend_bind. intros rest'.
  rewrite (strcat_extend _ rest' Hs1 _ [46]) by done.
  apply (extend_bind _ rest' [46] [_; _]). intros r2. apply store_extend.
  apply nonzero_app; [done|by repeat constructor].
Qed.

(** The branch for [%f] appends the text of the number. *)
Lemma format_f_extend s rest v t : nonzero s → double_text v = Ret t →
  format_f v (s ++ 0 :: rest) = extend s rest t.
Proof.
  unfold double_text, format_f. intros Hs. destruct (SFltb v (S754_zero false)).
  - destruct (scaled (SFopp v)) as [n|] eqn:Hn; [|discriminate]. intros [= <-].
    rewrite store_extend by done. etrans; [|apply (extend_bind s rest [45] _ (format_digits n))].
    + by destruct (extend s rest [45]); cbn; [rewrite Hn|].
    + intros rest'. apply format_digits_extend. apply nonzero_app; [done|by repeat constructor].
  - destruct (scaled v) as [n|] eqn:Hn; [|discriminate]. intros [= <-].
    rewrite bind_ret, Hn, bind_ret. by apply format_digits_extend.
Qed.

(** The loop as a run over the directives of the format. *)
Definition put_directive (d : directive) (args : list va) (out : list Z) : outcome (list Z * list va) :=
  match d with
  | DChar c => out ← store_at_end [c] out; Ret (out, args)
  | DStr => '(s, args) ← va_str args; out ← strcat out s; Ret (out, args)
  | DInt base => '(z, args) ← va_int args; out ← itoa_at_end z base out; Ret (out, args)
  | DDouble => '(v, args) ← va_double args; out ← format_f v out; Ret (out, args)
  | DBad c => Fault (Fatal "printf cannot parse the format: '%%%s'")
  end.

Fixpoint run_format (bad : Z → outcome (list Z)) (ds : list directive) (args : list va) (out : list Z) : outcome (list Z) :=
  match ds with
  | [] => Ret out
  | DBad c :: _ => bad c
  | d :: ds => '(out, args) ← put_directive d args out; run_format bad ds args out
  end.

Lemma bind_assoc {A B C} (m : outcome A) (f : A → outcome B) (g : B → outcome C) :
  ((m ≫= f) ≫= g) = (m ≫= λ a, f a ≫= g).
Proof. by destruct m. Qed.

Lemma bind_ext {A B} (m : outcome A) (f g : A → outcome B) : (∀ a, f a = g a) → (m ≫= f) = (m ≫= g).
Proof. intros H. destruct m; [apply H|done]. Qed.

Lemma strncat_char c fmt out : nonzero (c :: fmt) → strncat out (c :: fmt ++ [0]) 1 = store_at_end [c] out.
Proof.
  intros Hf. unfold strncat, store_at_end. apply bind_ext. intros n.
  change (c :: fmt ++ [0]) with ((c :: fmt) ++ [0]). by rewrite (cstr_app (c :: fmt) [] Hf).
Qed.

Lemma format_loop_run bad n : ∀ fmt args out, (length fmt ≤ n)%nat → nonzero fmt →
  format_loop bad (fmt ++ [0]) args out = run_format bad (parse_format fmt) args out.
Proof.
  induction n as [|n IH]; intros fmt args out Hn Hf.
  { destruct fmt; [done|simpl in Hn; lia]. }
  destruct fmt as [|c fmt]; [done|]. cbn [length] in Hn.
  pose proof Hf as [Hc Hf']%Forall_cons.
  cbn [app format_loop parse_format]. rewrite (proj2 (Z.eqb_neq c 0)) by done.
  destruct (c =? 37); cbn [negb].
  - destruct fmt as [|d fmt]; [done|]. apply Forall_cons in Hf' as [Hd Hf'].
    cbn [app]. repeat case_match; cbn [run_format put_directive]; rewrite ?bind_assoc; try done;
      apply bind_ext; intros; repeat case_match; rewrite ?bind_assoc; try (apply bind_ext; intros);
      rewrite ?bind_ret; apply IH; try done; cbn [length] in Hn; lia.
  - rewrite strncat_char by done. cbn [run_format put_directive]. rewrite bind_assoc.
    apply bind_ext. intros out'. apply IH; [lia|done].
Qed.

(** A directive of a format without a zero byte. *)
Definition directive_ok (d : directive) : Prop :=
  match d with DChar c => c ≠ 0 | DInt b => 1 < b ≤ 16 | _ => True end.

Lemma parse_ok n : ∀ fmt, (length fmt ≤ n)%nat → nonzero fmt → Forall directive_ok (parse_format fmt).
Proof.
  induction n as [|n IH]; intros fmt Hn Hf; (destruct fmt as [|c fmt]; [constructor|]); cbn [length] in Hn; [lia|].
  apply Forall_cons in Hf as [Hc Hf]. cbn [parse_format].
  destruct (c =? 37); cbn [negb]; [|constructor; [done|apply IH; [lia|done]]].
  destruct fmt as [|d fmt]; [by repeat constructor|]. apply Forall_cons in Hf as [Hd Hf].
  cbn [length] in Hn. repeat case_match; constructor; try done; try (apply IH; [lia|done]); constructor.
Qed.

Lemma arg_text_nonzero d args t args' : directive_ok d →
  arg_text d args = Ret (t, args') → nonzero t.
Proof.
  intros Hd. destruct d as [c| |b| |]; cbn [arg_text directive_ok] in *; intros H; inv_bind; try discriminate H.
  - injection H as <- <-. by repeat constructor.
  - destruct r as [a args1]. inv_bind. injection H as <- <-. by eapply cstr_ret.
  - destruct r as [z args1]. injection H as <- <-. by apply itoa_nonzero.
  - destruct r as [v args1]. inv_bind. injection H as <- <-. by eapply double_nonzero.
Qed.

(** A directive appends its text. *)
Lemma put_directive_extend d args t args' s r : nonzero s → arg_text d args = Ret (t, args') →
  put_directive d args (s ++ 0 :: r) = (out ← extend s r t; Ret (out, args')).
Proof.
  intros Hs. destruct d as [c| |b| |]; cbn [arg_text put_directive]; intros H; inv_bind; try discriminate H.
  - injection H as <- <-. by rewrite store_extend.
  - destruct r0 as [a args1]. rewrite Hr, bind_ret. inv_bind. injection H as <- <-.
    by rewrite (strcat_extend s r Hs a _ Hr0).
  - destruct r0 as [z args1]. rewrite Hr, bind_ret. injection H as <- <-. by rewrite itoa_extend.
  - destruct r0 as [v args1]. rewrite Hr, bind_ret. inv_bind. injection H as <- <-.
    by rewrite (format_f_extend s r v _ Hs Hr0).
Qed.

Lemma run_format_until bad ds : Forall directive_ok ds → ∀ args text b s r, nonzero s →
  render_until ds args = Ret (text, b) → run_format bad ds args (s ++ 0 :: r) =
  (out ← extend s r text; match b with None => Ret out | Some c => bad c end).
Proof.
  induction 1 as [|d ds Hd Hds IH]; intros args text b s r Hs Hr; cbn [render_until run_format] in *.
  - injection Hr as <- <-. by rewrite extend_nil.
  - assert ((∃ c, d = DBad c) ∨ ¬ ∃ c, d = DBad c) as [[c ->]|Hno] by (destruct d; first [left; by eexists|right; by intros [? ?]]);
      [injection Hr as <- <-; by rewrite extend_nil|].
    assert (∃ t args' u b', arg_text d args = Ret (t, args') ∧ render_until ds args' = Ret (u, b') ∧ text = t ++ u ∧ b = b')
      as (t & args' & u & b' & Ht & Hu & -> & ->).
    { destruct d; try (apply bind_ret_inv in Hr as ([t args'] & Ht & Hr); apply bind_ret_inv in Hr as ([u b'] & Hu & Hr);
        injection Hr as <- <-; by exists t, args', u, b'). destruct Hno. eauto. }
    transitivity ('(out, args) ← put_directive d args (s ++ 0 :: r); run_format bad ds args out).
    { destruct d; try done; destruct Hno; eauto. }
    rewrite (put_directive_extend d args t args' s r Hs Ht), bind_assoc. apply extend_bind_then.
    intros r'. rewrite bind_ret. apply IH; [|done]. apply nonzero_app; [done|]. by eapply arg_text_nonzero.
Qed.

Lemma render_args_until ds : ∀ args text, render_args ds args = Ret text → render_until ds args = Ret (text, None).
Proof.
  induction ds as [|d ds IH]; intros args text Hr; cbn [render_args render_until] in *; [by injection Hr as <-|].
  apply bind_ret_inv in Hr as ([t args'] & Ht & Hr). apply bind_ret_inv in Hr as (u & Hu & Hr). injection Hr as <-.
  destruct d; rewrite ?Ht, ?bind_ret, ?(IH _ _ Hu); done.
Qed.

(** [format_to_str] writes exactly the text of the format, or its part before
    an unsupported conversion. *)
Lemma format_to_str_until bad out fmt args text b : nonzero fmt → format_until fmt args = Ret (text, b) →
  format_to_str bad out (fmt ++ [0]) args =
  if bool_decide (length text < length out)%nat
  then match b with None => Ret (text ++ 0 :: drop (S (length text)) out) | Some c => bad c end
  else Fault (Undef "write past the end of the array").
Proof.
  intros Hf Ht. destruct out as [|c out]; [done|]. cbn [format_to_str length drop].
  rewrite (format_loop_run bad (length fmt)) by done. change (0 :: out) with ([] ++ 0 :: out).
  rewrite (run_format_until bad _ (parse_ok (length fmt) fmt ltac:(lia) Hf) args text b [] out ltac:(constructor) Ht).
  unfold extend. cbn [app]. rewrite (bool_decide_ext _ (length text < S (length out))%nat) by lia.
  case_bool_decide; [|done]. by destruct b.
Qed.

Lemma format_to_str_text bad out fmt args text : nonzero fmt → format_text fmt args = Ret text →
  format_to_str bad out (fmt ++ [0]) args =
  if bool_decide (length text < length out)%nat
  then Ret (text ++ 0 :: drop (S (length text)) out)
  else Fault (Undef "write past the end of the array").
Proof. intros Hf Ht. by rewrite (format_to_str_until bad out fmt args text None) by (done || by apply render_args_until). Qed.

(** Literal text and a string argument. *)
Lemma format_text_lit l x args : Forall (λ c, c ≠ 37) l →
  format_text (l ++ x) args = (text ← format_text x args; Ret (l ++ text)).
Proof.
  unfold format_text. induction 1 as [|c l Hc _ IH]; cbn [app]; [by destruct (render_args _ _)|].
  cbn [parse_format]. rewrite (proj2 (Z.eqb_neq _ _)) by done. cbn [negb render_args arg_text].
  rewrite bind_ret, IH. destruct (render_args (parse_format x) args); reflexivity.
Qed.

Lemma format_text_arg l r a t args : Forall (λ c, c ≠ 37) l → cstr a = Ret t →
  format_text (l ++ str "%s" ++ r) (VStr a :: args) = (text ← format_text r args; Ret (l ++ t ++ text)).
Proof.
  intros Hl Ha. rewrite format_text_lit by done.
  change (format_text (str "%s" ++ r) (VStr a :: args))
    with ('(t, args) ← arg_text DStr (VStr a :: args); text ← format_text r args; Ret (t ++ text)).
  cbn [arg_text va_str]. rewrite bind_ret, Ha, !bind_ret. by destruct (format_text r args).
Qed.

Lemma format_text_str l r a t : Forall (λ c, c ≠ 37) l → Forall (λ c, c ≠ 37) r → cstr a = Ret t →
  format_text (l ++ str "%s" ++ r) [VStr a] = Ret (l ++ t ++ r).
Proof.
  intros Hl Hr Ha. rewrite (format_text_arg l r a t []) by done.
  rewrite <- (app_nil_r r) at 1. rewrite format_text_lit by done. cbn. by rewrite app_nil_r.
Qed.

(** ** Messages *)
Lemma render_args_nonzero ds : Forall directive_ok ds → ∀ args text,
  render_args ds args = Ret text → nonzero text.
Proof.
  induction 1 as [|d ds Hd Hds IH]; intros args text H; cbn [render_args] in H; [injection H as <-; constructor|].
  inv_bind. destruct r as [t args']. inv_bind. injection H as <-.
  apply nonzero_app; [by eapply arg_text_nonzero|by eapply IH].
Qed.

Lemma format_text_nonzero fmt args text : nonzero fmt → format_text fmt args = Ret text → nonzero text.
Proof. intros Hf. by apply render_args_nonzero, (parse_ok (length fmt)). Qed.

(** The macro [LOG] on a buffer of [n] bytes. *)
Lemma log_with_text {W} (tw : list Z → W → outcome W) bad prefix suffix buf fmt args text w :
  nonzero prefix → nonzero suffix → nonzero fmt → format_text fmt args = Ret text →
  log_with tw bad prefix suffix buf (fmt ++ [0]) args w =
  if bool_decide (length prefix + length text + length suffix < length buf)%nat
  then tw (prefix ++ text ++ suffix) w
  else Fault (Undef "write past the end of the array").
Proof.
  intros Hp Hs Hf Ht. pose proof (format_text_nonzero _ _ _ Hf Ht) as Htn. unfold log_with, strcpy. rewrite cstr_app, bind_ret by done.
  rewrite (strlen_app prefix []) by done.
  unfold put_string at 1. destruct (decide (length prefix < length buf)%nat) as [Hfit|Hno].
  2: { rewrite !bool_decide_false by (lia). done. }
  rewrite bool_decide_true, bind_ret, bind_ret by lia.
  assert (splice buf (Z.to_nat 0) (prefix ++ [0]) = prefix ++ 0 :: drop (S (length prefix)) buf) as ->.
  { unfold splice. change (Z.to_nat 0) with 0%nat. rewrite take_0. cbn [app Nat.add].
    rewrite length_app. cbn [length]. rewrite Nat.add_1_r. by rewrite <- (assoc_L (++)). }
  rewrite !Nat2Z.id, take_app_length, drop_app_length, (format_to_str_text bad _ fmt args text) by done.
  cbn [length]. rewrite length_drop.
  destruct (decide (length text < S (length buf - S (length prefix)))%nat) as [Hfit2|Hno2].
  2: { rewrite !bool_decide_false by (lia). done. }
  rewrite bool_decide_true, bind_ret, (assoc_L (++)) by lia.
  rewrite (strcat_extend (prefix ++ text) _ ltac:(by apply nonzero_app) (suffix ++ [0]) suffix)
    by (by apply cstr_app).
  unfold extend. cbn [drop]. rewrite !length_drop.
  destruct (decide (length prefix + length text + length suffix < length buf)%nat) as [Hall|Hall].
  2: { rewrite !bool_decide_false by (lia). done. }
  rewrite !bool_decide_true, bind_ret by lia.
  rewrite strlen_app, bind_ret, Nat2Z.id, take_app_length by (by repeat apply nonzero_app).
  by rewrite <- (assoc_L (++)).
Qed.

Lemma log_text {W} (tw : list Z → W → outcome W) prefix suffix buf fmt args text w :
  nonzero prefix → nonzero suffix → nonzero fmt → format_text fmt args = Ret text →
  LOG tw prefix suffix buf (fmt ++ [0]) args w =
  if bool_decide (length prefix + length text + length suffix < length buf)%nat
  then tw (prefix ++ text ++ suffix) w
  else Fault (Undef "write past the end of the array").
Proof. apply log_with_text. Qed.

(** The message about an unsupported conversion. *)
Lemma format_fatal_line {W} (tw : list Z → W → outcome W) w c :
  format_fatal tw w c = (_ ← tw (fatal_line c) w; Fault (Fatal "printf cannot parse the format: '%%%s'")).
Proof.
  set (text := str "printf cannot parse the format: '%" ++ (if decide (c = 0) then [] else [c]) ++ str "'").
  assert (format_text (str "printf cannot parse the format: '%%%s'") [VStr [c; 0]] = Ret text) as Htext.
  { assert (cstr [c; 0] = Ret (if decide (c = 0) then [] else [c])) as Hs.
    { unfold cstr. cbn [strlen]. destruct (Z.eqb_spec c 0) as [->|Hc]; [done|]. by rewrite decide_False. }
    change (str "printf cannot parse the format: '%%%s'") with (str "printf cannot parse the format: '" ++ str "%%%s'").
    rewrite format_text_lit by (apply (bool_decide_unpack _); vm_compute; exact I).
    unfold format_text. change (parse_format (str "%%%s'")) with [DChar 37; DStr; DChar 39]. cbn [render_args arg_text].
    rewrite bind_ret. cbn [va_str]. rewrite bind_ret, Hs, !bind_ret. unfold text. by destruct (decide (c = 0)). }
  assert (length text ≤ 36)%nat as Hlen.
  { unfold text. destruct (decide (c = 0)); apply (bool_decide_unpack _); vm_compute; exact I. }
  unfold format_fatal. rewrite (log_with_text _ _ FATAL_PREFIX FATAL_SUFFIX _ _ _ text) by
    (exact Htext || (apply (bool_decide_unpack _); vm_compute; exact I)).
  rewrite bool_decide_true; [by unfold text, fatal_line; rewrite <- !(assoc_L (++))|].
  change (length (zeros 512)) with 512%nat. change (length FATAL_PREFIX) with 15%nat. change (length FATAL_SUFFIX) with 8%nat. lia.
Qed.

Lemma log_bad {W} (tw : list Z → W → outcome W) prefix suffix buf fmt args text c w :
  nonzero prefix → nonzero fmt → format_until fmt args = Ret (text, Some c) →
  LOG tw prefix suffix buf (fmt ++ [0]) args w =
  if bool_decide (length prefix + length text < length buf)%nat
  then _ ← tw (fatal_line c) w; Fault (Fatal "printf cannot parse the format: '%%%s'")
  else Fault (Undef "write past the end of the array").
Proof.
  intros Hp Hf Ht. unfold LOG, log_with, strcpy. rewrite cstr_app, bind_ret by done. rewrite (strlen_app prefix []) by done.
  unfold put_string at 1. destruct (decide (length prefix < length buf)%nat) as [Hfit|Hno].
  2: { rewrite !bool_decide_false by (lia). done. }
  rewrite bool_decide_true, bind_ret, bind_ret by lia.
  rewrite (format_to_str_until _ _ fmt args text (Some c)) by done.
  rewrite length_drop, length_splice by (rewrite length_app; cbn [length]; lia). rewrite format_fatal_line.
  rewrite (bool_decide_ext _ (length prefix + length text < length buf)%nat) by lia.
  case_bool_decide; [|done]. by rewrite bind_assoc.
Qed.

(** C32: printing is exact.  A message (prefix, expanded format, suffix) that
    leaves room for the terminator in the buffer is handed to [term_write]
    exactly once and byte for byte; a longer one is written past the end of
    the buffer.  When the format has an unsupported conversion, what comes
    before it is never printed: the only thing written is the line of [FATAL]
    that names the conversion, once, and then the program is stopped; unless
    the text before it has already overflowed the buffer. *)
Theorem log_prints {W} (tw : list Z → W → outcome W) prefix suffix buf fmt args w :
  nonzero prefix → nonzero suffix → nonzero fmt →
  (∀ text, format_text fmt args = Ret text →
     LOG tw prefix suffix buf (fmt ++ [0]) args w =
     if bool_decide (length prefix + length text + length suffix < length buf)%nat
     then tw (prefix ++ text ++ suffix) w
     else Fault (Undef "write past the end of the array")) ∧
  (∀ text c, format_until fmt args = Ret (text, Some c) →
     LOG tw prefix suffix buf (fmt ++ [0]) args w =
     if bool_decide (length prefix + length text < length buf)%nat
     then _ ← tw (fatal_line c) w; Fault (Fatal "printf cannot parse the format: '%%%s'")
     else Fault (Undef "write past the end of the array")).
Proof. intros Hp Hs Hf. split; intros text; [by apply log_text|intros c; by apply log_bad]. Qed.

(** [%d] and [atoi] are inverse: the number that [format_to_str] prints
    for an [int] is read back by [atoi], also for negative numbers and the
    smallest one. *)
Theorem print_int_roundtrip bad z out : - 2 ^ 31 ≤ z < 2 ^ 31 → (12 ≤ length out)%nat →
  ∃ out', format_to_str bad out (str "%d" ++ [0]) [VInt z] = Ret out' ∧ length out' = length out ∧ atoi out' = z.
Proof.
  intros Hz Hlen. assert (length (itoa z 10) ≤ 11)%nat as Hl by (by apply itoa_length).
  rewrite (format_to_str_text bad out (str "%d") [VInt z] (itoa z 10)).
  - rewrite bool_decide_true by lia. eexists. split; [reflexivity|]. split.
    + rewrite length_app. cbn [length]. rewrite length_drop. lia.
    + apply atoi_itoa; [done|]. by intros c l [= <- _].
  - by repeat constructor.
  - unfold format_text. change (parse_format (str "%d")) with [DInt 10].
    cbn [render_args arg_text va_int]. rewrite !bind_ret. by rewrite app_nil_r.
Qed.

(** The line [proc_on_stop] prints for process 7. *)
Lemma log_prints_witness :
  LOG (λ s (w : list Z), Ret (w ++ s)) (str "[INFO] ") EOL (zeros 512)
    (str "proc[%d] finished after %d yields, turnaround time: %f" ++ [0])
    [VInt 7; VInt 0; VDouble (S754_zero false)] [] =
  Ret (str "[INFO] proc[7] finished after 0 yields, turnaround time: 0.00" ++ EOL) ∧
  ∀ tw (w : list Z), LOG tw (str "[INFO] ") EOL (zeros 512) (str "got %d of %u" ++ [0]) [VInt 7; VInt 8] w =
    _ ← tw ((ESC :: str "[1;31m[FATAL] printf cannot parse the format: '%u'") ++ (ESC :: str "[1;0m") ++ EOL) w;
    Fault (Fatal "printf cannot parse the format: '%%%s'").
Proof.
  split; [|intros tw w; apply (proj2 (log_prints tw (str "[INFO] ") EOL (zeros 512) (str "got %d of %u") [VInt 7; VInt 8] w
    ltac:(apply (bool_decide_unpack _); reflexivity) ltac:(apply (bool_decide_unpack _); reflexivity)
    ltac:(apply (bool_decide_unpack _); reflexivity)) (str "got 7 of ") 117 ltac:(vm_compute; reflexivity))].
  rewrite (proj1 (log_prints (λ s (w : list Z), Ret (w ++ s)) (str "[INFO] ") EOL (zeros 512)
    (str "proc[%d] finished after %d yields, turnaround time: %f")
    [VInt 7; VInt 0; VDouble (S754_zero false)] []
    ltac:(apply (bool_decide_unpack _); reflexivity) ltac:(apply (bool_decide_unpack _); reflexivity)
    ltac:(apply (bool_decide_unpack _); reflexivity))
    (str "proc[7] finished after 0 yields, turnaround time: 0.00") ltac:(vm_compute; reflexivity)).
  vm_compute. reflexivity.
Defined.

Lemma print_int_roundtrip_witness : ∃ out',
  format_to_str (λ _, Fault OutOfFuel) (zeros 16) (str "%d" ++ [0]) [VInt (- 2 ^ 31)] = Ret out' ∧ length out' = 16%nat ∧
  atoi out' = - 2 ^ 31.
Proof. apply (print_int_roundtrip (λ _, Fault OutOfFuel) (- 2 ^ 31) (zeros 16)); [lia|simpl; lia]. Defined.

(** [%f] rounds to two decimals. *)
Example print_pi : (* 3.14159 *)
  format_text (str "%f") [VDouble (S754_finite false 7074231776675807 (-51))] = Ret (str "3.14").
Proof. vm_compute. reflexivity. Qed.

(** [(int)ipart] drops the high bits: 2^32 prints as zero. *)
Example print_large_double :
  format_text (str "%f") [VDouble (S754_finite false 4503599627370496 (-20))] = Ret (str "0.00").
Proof. vm_compute. reflexivity. Qed.

(** A small negative number prints with a sign and no digits: -0.001. *)
Example print_negative_zero :
  format_text (str "%f") [VDouble (S754_finite true 4611686018427388 (-62))] = Ret (str "-0.00").
Proof. vm_compute. reflexivity. Qed.

(** The message of the timer example uses [%llx], which [format_to_str] does
    not know: instead of it a line about '%l' is printed, and the program
    stops. *)
Example print_llx : format_until (str "last time: 0x%llx") [VInt 0] = Ret (str "last time: 0x", Some 108) ∧
  fatal_line 108 = (ESC :: str "[1;31m[FATAL] printf cannot parse the format: '%l'") ++ (ESC :: str "[1;0m") ++ EOL.
Proof. vm_compute. done. Qed.
