(* ===== verification/TermServer.v ===== *)
(** * The terminal server and its clients (apps/system/sys_terminal.c,
    library/syscall/servers.c)

    An application's [term_read] and [term_write] send a request to
    GPID_TERMINAL, whose loop calls the kernel's functions of Terminal.v.  The
    server handles a request in place: reply and request share one buffer.
    The theorems show that an application cannot tell the difference. *)
From S2P Require Import Prelude Terminal Earth Process Ipc FileServer CString Print.

(** ** Requests and replies (servers.h) *)
Definition TERM_BUF_SIZE : Z := 512.
Definition TERM_INPUT : Z := 0.
Definition TERM_OUTPUT : Z := 1.

(** [struct term_request]: type, len, buf. *)
Definition term_request (type len : Z) (buf : list Z) : list Z := le32 type ++ le32 len ++ buf.

(** ** The server *)

(** The message the server sends before its loop. *)
Definition term_hello : list Z := str "Finish GPID_TERMINAL initialization" ++ [0].

(** One round of the loop on the message in [buf]: the reply, if one is sent,
    the buffer afterwards and the TTY. *)
Definition term_serve (buf : list Z) (d : uart) : outcome (option (list Z) * list Z * uart) :=
  let len := get32 buf 4 in
  if TERM_BUF_SIZE <? len then Fault (Fatal "sys_terminal: request len %d>TERM_BUF_SIZE")
  else
    let type := get32 buf 0 in
    if type =? TERM_INPUT then
      '(r, bytes, d) ← term_read (drop 4 buf) len d;
      let buf := splice (splice buf 4 bytes) 0 (le32 r) in
      Ret (Some (take 516 buf), buf, d)
    else if type =? TERM_OUTPUT then
      d ← term_write (take (Z.to_nat len) (drop 8 buf)) d;
      Ret (None, buf, d)
    else Fault (Fatal "sys_terminal: invalid request %d").

(** ** The clients

    [junk] is the uninitialised buffer of the request, [stale] and [stale']
    the previous contents of the system call areas. *)
Definition user_term_write (junk stale : list Z) (s : list Z) (d : uart) : outcome uart :=
  if bool_decide (length s ≤ length junk)%nat then
    let req := term_request TERM_OUTPUT (u32 (Z.of_nat (length s))) (splice junk 0 s) in
    '(_, _, d) ← term_serve (send_content stale req) d;
    Ret d
  else Fault (Undef "write past the end of the array").

Definition user_term_read (junk stale stale' : list Z) (buf : list Z) (len : Z) (d : uart)
    : outcome (Z * list Z * uart) :=
  let req := term_request TERM_INPUT len junk in
  '(reply, _, d) ← term_serve (send_content stale req) d;
  match reply with
  | None => Fault OutOfFuel   (* waits for ever *)
  | Some reply =>
      let reply := take 516 (send_content stale' reply) in
      let n := get32 reply 0 in
      if bool_decide (n ≤ 512 ∧ n ≤ Z.of_nat (length buf)) then
        Ret (i32 n, splice buf 0 (take (Z.to_nat n) (drop 4 reply)), d)
      else Fault (Undef "write past the end of the array")
  end.

(** ** The request as the server sees it *)
Lemma term_request_fields stale type len b : 0 ≤ type < 2 ^ 32 → 0 ≤ len < 2 ^ 32 →
  let buf := send_content stale (term_request type len b) in
  get32 buf 0 = type ∧ get32 buf 4 = len ∧ drop 8 buf = b ++ drop (8 + length b) stale.
Proof.
  intros Ht Hl. unfold send_content, term_request; cbn zeta. rewrite <- !(assoc_L (++)). split_and!.
  - by rewrite get32_le32, u32_small.
  - rewrite get32_app_r, length_le32 by (by rewrite length_le32).
    rewrite (get32_le32 len). by rewrite u32_small.
  - rewrite (assoc_L (++)), drop_app_length' by len. done.
Qed.

(** A write request transmits exactly its bytes. *)
Lemma user_term_write_spec junk stale s d : length junk = 512%nat → (length s ≤ 512)%nat →
  user_term_write junk stale s d = term_write s d.
Proof.
  intros Hj Hs. unfold user_term_write. rewrite bool_decide_true by lia. rewrite u32_small by lia.
  destruct (term_request_fields stale TERM_OUTPUT (Z.of_nat (length s)) (splice junk 0 s)) as (H0 & H4 & H8);
    [by vm_compute|lia|]. cbn zeta in *. unfold term_serve. rewrite H0, H4, H8.
  rewrite (proj2 (Z.ltb_ge _ _)) by (unfold TERM_BUF_SIZE; lia).
  change (TERM_OUTPUT =? TERM_INPUT) with false. change (TERM_OUTPUT =? TERM_OUTPUT) with true. cbv iota.
  rewrite Nat2Z.id. unfold splice. rewrite take_0. cbn [app]. rewrite <- (assoc_L (++)), take_app_length.
  by destruct (term_write s d).
Qed.

(** ** Reading

    [term_read] does not depend on what is in the buffer before: the loop on
    two buffers that agree on the line typed so far ends with the same result,
    and the returned bytes agree. *)
Lemma agree_insert (i j : nat) (c : Z) b1 b2 : take i b1 = take i b2 → (i < length b1)%nat → (i < length b2)%nat →
  (j ≤ S i)%nat → take j (<[i := c]> b1) = take j (<[i := c]> b2).
Proof.
  intros H H1 H2 Hj.
  assert (take (S i) (<[i := c]> b1) = take (S i) (<[i := c]> b2)) as HS.
  { rewrite !(take_S_r _ _ c) by (by apply list_lookup_insert_eq). by rewrite !take_insert_ge, H by lia. }
  apply (f_equal (take j)) in HS. rewrite !take_take in HS. by rewrite Nat.min_l in HS by lia.
Qed.

Lemma buf_set_at b i v : 0 ≤ i < Z.of_nat (length b) → buf_set b i v = Ret (<[Z.to_nat i := v]> b).
Proof. intros. unfold buf_set. by rewrite bool_decide_true. Qed.

Lemma term_read_loop_agree fuel : ∀ i len b1 b2 d r b1' d', 0 ≤ i → 0 < len < 2 ^ 31 → i < len →
  len ≤ Z.of_nat (length b1) → len ≤ Z.of_nat (length b2) → take (Z.to_nat i) b1 = take (Z.to_nat i) b2 →
  term_read_loop fuel i len b1 d = Ret (r, b1', d') → ∃ b2',
  term_read_loop fuel i len b2 d = Ret (r, b2', d') ∧ length b1' = length b1 ∧ length b2' = length b2 ∧
  0 ≤ r ≤ len ∧ take (Z.to_nat r) b1' = take (Z.to_nat r) b2'.
Proof.
  induction fuel as [|fuel IH]; intros i len b1 b2 d r b1' d' Hi Hlen Hil H1 H2 Htake H; [discriminate|].
  cbn [term_read_loop] in *. rewrite !u32_small in * by lia.
  assert (∀ c j d2, 0 ≤ j ≤ i + 1 → j < len →
    term_read_loop fuel j len (<[Z.to_nat i := c]> b1) d2 = Ret (r, b1', d') → ∃ b2',
    term_read_loop fuel j len (<[Z.to_nat i := c]> b2) d2 = Ret (r, b2', d') ∧ length b1' = length b1 ∧
    length b2' = length b2 ∧ 0 ≤ r ≤ len ∧ take (Z.to_nat r) b1' = take (Z.to_nat r) b2') as Hrec.
  { intros c j d2 Hj Hjl Hr. destruct (IH j len (<[Z.to_nat i := c]> b1) (<[Z.to_nat i := c]> b2) d2 r b1' d')
      as (b2' & Hres); try done; try (by rewrite length_insert); [lia|apply agree_insert; [done|lia..]|].
    exists b2'. by rewrite !length_insert in Hres. }
  destruct (Z.ltb_spec i (len - 1)) as [Hlt|Hge].
  - destruct (uart_getc d) as [[c d1]|]; [|discriminate]. rewrite bind_ret in *.
    rewrite buf_set_at, bind_ret in * by lia.
    destruct (c =? ENTER).
    + rewrite buf_set_at, bind_ret in * by (rewrite length_insert; lia).
      destruct (term_write _ d1) as [d2|]; [|discriminate].
      rewrite bind_ret in *. injection H as <- <- <-. eexists. split; [reflexivity|].
      rewrite !length_insert, !list_insert_insert_eq. split_and!; [done|done|destruct (i =? 0); lia..|].
      destruct (i =? 0); [done|]. apply agree_insert; [done|lia..].
    + destruct (c =? BACKSPACE).
      * destruct (Z.eqb_spec i 0); cbn [negb] in *.
        { eapply Hrec; [| |exact H]; lia. }
        destruct (term_write _ d1) as [d2|]; [|discriminate]. eapply Hrec; [| |exact H]; lia.
      * destruct (c =? 0); cbn [negb] in *; [eapply Hrec; [| |exact H]; lia|].
        destruct (term_write _ d1) as [d2|]; [|discriminate]. eapply Hrec; [| |exact H]; lia.
  - rewrite buf_set_at, bind_ret in * by lia. injection H as <- <- <-.
    eexists. split; [reflexivity|]. rewrite !length_insert. split_and!; [done|done|lia|lia|].
    replace (len - 1) with i by lia. apply agree_insert; [done|lia..].
Qed.

Lemma user_term_read_spec junk stale stale' buf kbuf len d r kbuf' d' :
  length junk = 512%nat → length stale = SYSCALL_MSG_LEN →
  1 ≤ len ≤ 512 → len ≤ Z.of_nat (length buf) → len ≤ Z.of_nat (length kbuf) →
  term_read kbuf len d = Ret (r, kbuf', d') →
  user_term_read junk stale stale' buf len d =
    Ret (r, take (Z.to_nat r) kbuf' ++ drop (Z.to_nat r) buf, d').
Proof.
  intros Hj Hst Hlen Hb Hk H. unfold user_term_read.
  destruct (term_request_fields stale TERM_INPUT len junk) as (H0 & H4 & _); [by vm_compute|lia|].
  cbn zeta in *. set (msg := send_content stale (term_request TERM_INPUT len junk)) in *.
  assert (length msg = 1024%nat) as Hmsg.
  { unfold msg, send_content, term_request. unfold SYSCALL_MSG_LEN in Hst. len. }
  unfold term_serve. rewrite H0, H4. rewrite (proj2 (Z.ltb_ge _ _)) by (unfold TERM_BUF_SIZE; lia).
  change (TERM_INPUT =? TERM_INPUT) with true. cbv iota.
  destruct (term_read_loop_agree (S (length (rx d))) 0 len kbuf (drop 4 msg) d r kbuf' d')
    as (b2' & Hr & Hl1 & Hl2 & Hrange & Hagree); try done; [lia|lia|rewrite length_drop, Hmsg; lia|].
  unfold term_read. rewrite Hr, !bind_ret. rewrite length_drop, Hmsg in Hl2.
  assert (splice (splice msg 4 b2') 0 (le32 r) = le32 r ++ b2') as ->.
  { unfold splice. rewrite take_0, length_le32. cbn [app Nat.add].
    rewrite drop_app_length' by (rewrite length_take; lia).
    rewrite (drop_ge msg) by lia. by rewrite app_nil_r. }
  assert (∀ x : list Z, (516 ≤ length x)%nat → take 516 (send_content stale' (take 516 x)) = take 516 x) as Hsc.
  { intros x Hx. unfold send_content. apply take_app_length'. len. }
  rewrite Hsc by len. replace 516%nat with (length (le32 r) + 512)%nat by (by rewrite length_le32).
  rewrite take_app_add. rewrite (get32_le32 r), (u32_small r) by lia.
  rewrite bool_decide_true by lia. rewrite drop_app_length' by done.
  rewrite take_take, Nat.min_l by lia. rewrite i32_small by lia. unfold splice. rewrite take_0.
  cbn [app Nat.add]. rewrite length_take, Nat.min_l by lia. by rewrite <- Hagree.
Qed.

(** Reading a line through the terminal server is reading it from the TTY:
    whenever the kernel's [term_read] returns, the application's returns the
    same number, takes the same characters from the TTY, echoes the same, and
    stores the same bytes of the line; it writes no other byte of the
    caller's buffer. *)
Theorem user_term_read_equiv junk stale stale' buf kbuf len d r kbuf' d' :
  length junk = 512%nat → length stale = SYSCALL_MSG_LEN →
  1 ≤ len ≤ 512 → len ≤ Z.of_nat (length buf) → len ≤ Z.of_nat (length kbuf) →
  term_read kbuf len d = Ret (r, kbuf', d') →
  user_term_read junk stale stale' buf len d =
    Ret (r, take (Z.to_nat r) kbuf' ++ drop (Z.to_nat r) buf, d').
Proof. apply user_term_read_spec. Qed.

(** An application reads the line "ls". *)
Lemma user_term_read_equiv_witness :
  user_term_read (zeros 512) (replicate 1024 7) (replicate 1024 9) (replicate 512 1) 512
    (Uart [0x6c; 0x73; 0x0d; 0x61] [] 3) =
  Ret (3, take (Z.to_nat 3) (<[0%nat := 0x6c]> (<[1%nat := 0x73]> (zeros 512))) ++
          drop (Z.to_nat 3) (replicate 512 1), Uart [0x61] [0x6c; 0x73; 0x0a; 0x0d] 0).
Proof.
  apply (user_term_read_equiv (zeros 512) (replicate 1024 7) (replicate 1024 9) (replicate 512 1) (zeros 512) 512
    (Uart [0x6c; 0x73; 0x0d; 0x61] [] 3) 3 (<[0%nat := 0x6c]> (<[1%nat := 0x73]> (zeros 512)))
    (Uart [0x61] [0x6c; 0x73; 0x0a; 0x0d] 0)); try reflexivity; try lia.
Defined.

(** An application's [printf] through the terminal server puts exactly the
    same characters on the TTY as the kernel's own [printf]: for every format
    whose text fits the 512-byte buffers both are the same function of the
    TTY, whatever the uninitialised and stale buffers hold. *)
Theorem user_printf_equiv junk stale prefix suffix buf buf' fmt args text d :
  length junk = 512%nat → nonzero prefix → nonzero suffix → nonzero fmt →
  length buf = 512%nat → length buf' = 512%nat → format_text fmt args = Ret text →
  LOG (user_term_write junk stale) prefix suffix buf (fmt ++ [0]) args d =
  LOG term_write prefix suffix buf' (fmt ++ [0]) args d.
Proof.
  intros Hj Hp Hs Hf Hb Hb' Ht. rewrite !(log_text _ _ _ _ _ _ text) by done. rewrite Hb, Hb'.
  case_bool_decide; [|done]. apply user_term_write_spec; [done|]. rewrite !length_app. lia.
Qed.

Lemma user_printf_equiv_witness :
  INFO (user_term_write (replicate 512 3) (replicate 1024 7)) (replicate 512 5) (str "hart %d%s" ++ [0])
    [VInt 1; VStr (str "!" ++ [0])] (Uart [] [] 1) =
  INFO term_write (zeros 512) (str "hart %d%s" ++ [0]) [VInt 1; VStr (str "!" ++ [0])] (Uart [] [] 1).
Proof.
  apply (user_printf_equiv (replicate 512 3) (replicate 1024 7) (str "[INFO] ") EOL (replicate 512 5) (zeros 512)
    (str "hart %d%s") [VInt 1; VStr (str "!" ++ [0])] (str "hart 1!") (Uart [] [] 1));
    try reflexivity; apply (bool_decide_unpack _); reflexivity.
Defined.
