(* ===== verification/Boot.v ===== *)
(** * Booting (earth/boot.c, cpu_intr.c, cpu_mmu.c, dev_tty.c; grass/init.c)

    [boot] fills in [struct earth], prints messages through it, prepares the
    timer and the interrupts and enters the grass layer, which in this
    version is the timer example of init.c: it installs its own handler, sets
    the timer and waits.  The order matters: a message needs [tty_write], and
    an interrupt that is taken jumps to [mtvec].

    The state has the table, the devices and the control registers that the
    code writes; boot is a list of steps, so that the theorem can speak about
    every moment in between. *)
From S2P Require Import Prelude InodeStore Timer Terminal CString Print.

(** The functions that the earth layer puts into its table. *)
Inductive func :=
  | Fmmu_alloc | Fsoft_tlb_free | Fflush_cache | Ftimer_reset | Fmtime_get | Fsoft_tlb_map | Fsoft_tlb_translate
  | Fsoft_tlb_switch | Fuart_getc | Fuart_putc | Fuart_rx_empty | Fdisk_read | Fdisk_write.

Inductive translation := PAGE_TABLE | SOFT_TLB.

(** [struct earth]; [None] is a field that has not been set. *)
Record table := Table {
  t_mmu_alloc : option func; t_mmu_free : option func; t_mmu_flush_cache : option func;
  t_timer_reset : option func; t_gettime : option func;
  t_mmu_map : option func; t_mmu_translate : option func; t_mmu_switch : option func;
  t_tty_read : option func; t_tty_write : option func; t_tty_input_empty : option func;
  t_disk_read : option func; t_disk_write : option func; t_translation : option translation
}.
Definition empty_table : table := Table None None None None None None None None None None None None None None.

(** The code [mtvec] points to. *)
Inductive vector := Vtrap_entry | Vhandler.

Record csrs := Csrs { mtvec : option vector; mip : Z; mie : Z; mstatus : Z }.

(** [dtype] is the static variable of the disk driver, [time] the local
    variable of [mtimecmp_set] in init.c. *)
Record machine := Machine {
  booted_core_cnt : Z; earth_table : table; dtype : option Flash.disk_type; clint : timer; dev : uart; csr : csrs; time : Z
}.

Definition with_table (t : table) (m : machine) : machine :=
  Machine (booted_core_cnt m) t (dtype m) (clint m) (dev m) (csr m) (time m).
Definition with_clint (c : timer) (m : machine) : machine :=
  Machine (booted_core_cnt m) (earth_table m) (dtype m) c (dev m) (csr m) (time m).
Definition with_dev (d : uart) (m : machine) : machine :=
  Machine (booted_core_cnt m) (earth_table m) (dtype m) (clint m) d (csr m) (time m).
Definition with_csr (c : csrs) (m : machine) : machine :=
  Machine (booted_core_cnt m) (earth_table m) (dtype m) (clint m) (dev m) c (time m).
Definition with_time (t : Z) (m : machine) : machine :=
  Machine (booted_core_cnt m) (earth_table m) (dtype m) (clint m) (dev m) (csr m) t.

Section boot.
Context (clock : nat → Z) (bufs : nat → list Z).

(** [term_write] of the kernel, through the table. *)
Definition kernel_write (s : list Z) (m : machine) : outcome machine :=
  match t_tty_write (earth_table m) with
  | Some Fuart_putc => d ← term_write s (dev m); Ret (with_dev d m)
  | _ => Fault (Undef "call of a function pointer that is not set")
  end.
Definition critical (n : nat) (fmt : list Z) (args : list va) : machine → outcome machine :=
  CRITICAL kernel_write (bufs n) (fmt ++ [0]) args.
Definition success (n : nat) (fmt : list Z) (args : list va) : machine → outcome machine :=
  SUCCESS kernel_write (bufs n) (fmt ++ [0]) args.
Definition kernel_info (n : nat) (fmt : list Z) (args : list va) : machine → outcome machine :=
  INFO kernel_write (bufs n) (fmt ++ [0]) args.

(** ** Initialisation functions *)
Definition tty_init (m : machine) : machine :=
  let t := earth_table m in
  with_table (Table (t_mmu_alloc t) (t_mmu_free t) (t_mmu_flush_cache t) (t_timer_reset t) (t_gettime t) (t_mmu_map t)
    (t_mmu_translate t) (t_mmu_switch t) (Some Fuart_getc) (Some Fuart_putc) (Some Fuart_rx_empty)
    (t_disk_read t) (t_disk_write t) (t_translation t)) m.

Definition boot_disk_init (m : machine) : machine :=
  let t := earth_table m in
  Machine (booted_core_cnt m) (Table (t_mmu_alloc t) (t_mmu_free t) (t_mmu_flush_cache t) (t_timer_reset t) (t_gettime t)
    (t_mmu_map t) (t_mmu_translate t) (t_mmu_switch t) (t_tty_read t) (t_tty_write t) (t_tty_input_empty t)
    (Some Fdisk_read) (Some Fdisk_write) (t_translation t)) (Some Flash.FLASH_ROM) (clint m) (dev m) (csr m) (time m).

Definition mmu_init (m : machine) : machine :=
  let t := earth_table m in
  with_table (Table (Some Fmmu_alloc) (Some Fsoft_tlb_free) (Some Fflush_cache) (t_timer_reset t) (t_gettime t)
    (Some Fsoft_tlb_map) (Some Fsoft_tlb_translate) (Some Fsoft_tlb_switch) (t_tty_read t) (t_tty_write t)
    (t_tty_input_empty t) (t_disk_read t) (t_disk_write t) (Some SOFT_TLB)) m.

(** [flush_cache], which [mmu_init] puts into the table; [fences] counts the
    executions of sfence.vma. *)
Definition flush_cache (m : machine) (fences : nat) : nat :=
  match t_translation (earth_table m) with Some PAGE_TABLE => S fences | _ => fences end.

(** The two functions of mem_vm.c, which have empty bodies and are not called
    in this version. *)
Definition pmp_init (m : machine) : machine := m.
Definition vm_init (m : machine) : machine := m.

Definition boot_timer_init (core_id : Z) (m : machine) : machine :=
  let t := earth_table m in
  with_clint (timer_init core_id (clint m))
    (with_table (Table (t_mmu_alloc t) (t_mmu_free t) (t_mmu_flush_cache t) (Some Ftimer_reset) (Some Fmtime_get) (t_mmu_map t)
      (t_mmu_translate t) (t_mmu_switch t) (t_tty_read t) (t_tty_write t) (t_tty_input_empty t)
      (t_disk_read t) (t_disk_write t) (t_translation t)) m).

(** ** Control registers: [csrw] writes, [csrs] sets bits *)
Definition csrw_mtvec (v : vector) (m : machine) : machine :=
  with_csr (Csrs (Some v) (mip (csr m)) (mie (csr m)) (mstatus (csr m))) m.
Definition csrw_mip (x : Z) (m : machine) : machine :=
  with_csr (Csrs (mtvec (csr m)) x (mie (csr m)) (mstatus (csr m))) m.
Definition csrs_mie (x : Z) (m : machine) : machine :=
  with_csr (Csrs (mtvec (csr m)) (mip (csr m)) (Z.lor (mie (csr m)) x) (mstatus (csr m))) m.
Definition csrs_mstatus (x : Z) (m : machine) : machine :=
  with_csr (Csrs (mtvec (csr m)) (mip (csr m)) (mie (csr m)) (Z.lor (mstatus (csr m)) x)) m.

Abbreviation step := (machine → outcome machine).
Definition pure (f : machine → machine) : step := λ m, Ret (f m).

Definition intr_init (core_id : Z) : list step :=
  [pure (csrw_mtvec Vtrap_entry);
   kernel_info 2 (str "Use direct mode and put the address of the trap_entry into mtvec") [];
   pure (csrw_mip 0);
   pure (csrs_mie (Z.lor 0x80 0x8));
   pure (csrs_mstatus 0x88)].

(** ** The timer example (init.c)

    [time = local_mtime_get() + QUANTUM], then the two writes of
    [mtimecmp_set], to the register of core 0. *)
Definition local_time (m : machine) : machine :=
  let '(t, s) := TimerExample.local_mtime_get clock (TimerExample.State (accesses (clint m)) 0 []) in
  with_time (TimerExample.i64 (t + QUANTUM))
    (with_clint (Timer (TimerExample.reads s) (mtimecmp (clint m))) m).
Definition write_compare (i : nat) (v : Z) (m : machine) : machine :=
  with_clint (Timer (accesses (clint m)) (<[i := u32 v]> (mtimecmp (clint m)))) m.

Definition grass_entry : list step :=
  [critical 4 (str "This is a simple timer example") [];
   pure (csrw_mtvec Vhandler);
   pure local_time;
   pure (λ m, write_compare 0 (time m) m);
   pure (λ m, write_compare 1 (Z.shiftr (time m) 32) m);
   pure (csrs_mstatus 0x8);
   pure (csrs_mie 0x80)].

(** ** boot *)
Definition boot_steps (core_id : Z) : list step :=
  [pure tty_init;
   critical 0 (str "--- Booting on QEMU with core #%d ---") [VInt (i32 core_id)];
   pure boot_disk_init;
   success 1 (str "Finished initializing the tty and disk devices") [];
   pure mmu_init;
   pure (boot_timer_init core_id)]
  ++ intr_init core_id ++
  [success 3 (str "Finished initializing the MMU, timer and interrupts") []]
  ++ grass_entry.

Fixpoint run_steps (fs : list step) (m : machine) : outcome machine :=
  match fs with [] => Ret m | f :: fs => m ← f m; run_steps fs m end.

(** [booted_core_cnt++] *)
Definition counted (m : machine) : machine :=
  Machine (i32 (booted_core_cnt m + 1)) (earth_table m) (dtype m) (clint m) (dev m) (csr m) (time m).

Definition boot (core_id : Z) (m : machine) : outcome machine :=
  let m' := counted m in
  if booted_core_cnt m =? 0 then run_steps (boot_steps core_id) m'
  else success 5 (str "--- Core #%d starts running ---") [VInt (i32 core_id)] m'.
End boot.

(** ** The order of the steps *)

(** Every moment of [fs] from [m] on has [P], and the end has [Q]. *)
Fixpoint throughout (P Q : machine → Prop) (fs : list (machine → outcome machine)) (m : machine) : Prop :=
  P m ∧ match fs with [] => Q m | f :: fs => ∃ m', f m = Ret m' ∧ throughout P Q fs m' end.

Lemma throughout_runs P Q fs : ∀ m, throughout P Q fs m →
  (∀ n, ∃ mid, run_steps (take n fs) m = Ret mid ∧ P mid) ∧ ∃ m', run_steps fs m = Ret m' ∧ Q m'.
Proof.
  induction fs as [|f fs IH]; intros m [HP Hfs].
  - split; [intros [|n]; exists m; done|]. by exists m.
  - destruct Hfs as (m1 & Hf & Hfs). destruct (IH m1 Hfs) as [Hall (m' & Hrun & HQ)]. split.
    + intros [|n]; [by exists m|]. destruct (Hall n) as (mid & Hmid & HPm). exists mid. cbn. by rewrite Hf, bind_ret.
    + exists m'. cbn. by rewrite Hf, bind_ret.
Qed.

Section order.
Context (clock : nat → Z) (bufs : nat → list Z).
Context (Hclock : ∀ n, 0 ≤ clock n < 2 ^ 31 - QUANTUM) (Hbufs : ∀ n, length (bufs n) = 512%nat).

(** The timer interrupt of core 0 is enabled and due. *)
Definition timer_due (m : machine) : Prop :=
  Z.testbit (mie (csr m)) 7 = true ∧ Z.testbit (mstatus (csr m)) 3 = true ∧
  deadline (mtimecmp (clint m)) 0 ≤ clock (accesses (clint m)).

(** An interrupt that is due goes to the example's handler. *)
Definition vector_safe (m : machine) : Prop := timer_due m → mtvec (csr m) = Some Vhandler.

Definition full_table : table :=
  Table (Some Fmmu_alloc) (Some Fsoft_tlb_free) (Some Fflush_cache) (Some Ftimer_reset) (Some Fmtime_get)
    (Some Fsoft_tlb_map) (Some Fsoft_tlb_translate) (Some Fsoft_tlb_switch) (Some Fuart_getc) (Some Fuart_putc)
    (Some Fuart_rx_empty) (Some Fdisk_read) (Some Fdisk_write) (Some SOFT_TLB).

Definition colored (c : list Z) (tag text : list Z) : list Z :=
  ESC :: c ++ tag ++ text ++ ESC :: str "[1;0m" ++ EOL.
Definition text_boot : list Z :=
  colored (str "[1;33m") (str "[CRITICAL] ") (str "--- Booting on QEMU with core #0 ---").
Definition text_devices : list Z :=
  colored (str "[1;32m") (str "[SUCCESS] ") (str "Finished initializing the tty and disk devices").
Definition text_mtvec : list Z :=
  str "[INFO] Use direct mode and put the address of the trap_entry into mtvec" ++ EOL.
Definition text_mmu : list Z :=
  colored (str "[1;32m") (str "[SUCCESS] ") (str "Finished initializing the MMU, timer and interrupts").
Definition text_example : list Z :=
  colored (str "[1;33m") (str "[CRITICAL] ") (str "This is a simple timer example").
Definition boot_text : list Z := text_boot ++ text_devices ++ text_mtvec ++ text_mmu ++ text_example.

(** A message through the table. *)
Lemma log_step prefix suffix n fmt args text m : t_tty_write (earth_table m) = Some Fuart_putc →
  nonzero prefix → nonzero suffix → nonzero fmt → format_text fmt args = Ret text →
  (length prefix + length text + length suffix < 512)%nat → ∃ b,
  LOG kernel_write prefix suffix (bufs n) (fmt ++ [0]) args m =
  Ret (with_dev (Uart (rx (dev m)) (tx (dev m) ++ prefix ++ text ++ suffix) b) m).
Proof using Hbufs.
  intros Ht Hp Hs Hf Htext Hl. rewrite (log_text kernel_write prefix suffix (bufs n) fmt args text m) by done.
  rewrite Hbufs, bool_decide_true by lia. unfold kernel_write. rewrite Ht.
  destruct (term_write_spec (prefix ++ text ++ suffix) (dev m)) as [b ->]. exists b. by rewrite bind_ret.
Qed.

(** The message [f] prints [text]. *)
Definition says (f : machine → outcome machine) (text : list Z) : Prop := ∀ m, t_tty_write (earth_table m) = Some Fuart_putc →
  ∃ b, f m = Ret (with_dev (Uart (rx (dev m)) (tx (dev m) ++ text) b) m).

Lemma says_log prefix suffix n fmt args text : nonzero prefix → nonzero suffix → nonzero fmt →
  format_text fmt args = Ret text → (length prefix + length text + length suffix < 512)%nat →
  says (LOG kernel_write prefix suffix (bufs n) (fmt ++ [0]) args) (prefix ++ text ++ suffix).
Proof using Hbufs. intros Hp Hs Hf Ht Hl m Hm. by apply log_step. Qed.

Ltac says text :=
  refine (says_log _ _ _ _ _ text _ _ _ _ _); [by repeat constructor..|reflexivity|cbn; lia].

Lemma says_boot : says (critical bufs 0 (str "--- Booting on QEMU with core #%d ---") [VInt (i32 0)]) text_boot.
Proof using Hbufs. says (str "--- Booting on QEMU with core #0 ---"). Qed.
Lemma says_devices : says (success bufs 1 (str "Finished initializing the tty and disk devices") []) text_devices.
Proof using Hbufs. says (str "Finished initializing the tty and disk devices"). Qed.
Lemma says_mtvec : says (kernel_info bufs 2 (str "Use direct mode and put the address of the trap_entry into mtvec") []) text_mtvec.
Proof using Hbufs. says (str "Use direct mode and put the address of the trap_entry into mtvec"). Qed.
Lemma says_mmu : says (success bufs 3 (str "Finished initializing the MMU, timer and interrupts") []) text_mmu.
Proof using Hbufs. says (str "Finished initializing the MMU, timer and interrupts"). Qed.
Lemma says_example : says (critical bufs 4 (str "This is a simple timer example") []) text_example.
Proof using Hbufs. says (str "This is a simple timer example"). Qed.

Lemma local_time_spec m : ∃ k, (accesses (clint m) ≤ k < accesses (clint m) + 2)%nat ∧
  local_time clock m = with_time (clock k + QUANTUM) (with_clint (Timer (accesses (clint m) + 2) (mtimecmp (clint m))) m).
Proof using Hclock.
  exists (accesses (clint m)). split; [lia|]. unfold local_time, TimerExample.local_mtime_get.
  cbn [TimerExample.reads fst snd]. pose proof (Hclock (accesses (clint m))). pose proof (Hclock (S (accesses (clint m)))).
  unfold QUANTUM in *. rewrite (Z.div_small _ (2 ^ 32)), !i32_small by lia. change (Z.shiftl 0 32) with 0.
  change (TimerExample.i64 0) with 0. rewrite Z.lor_0_l.
  assert (TimerExample.i64 (clock (accesses (clint m)) + 1000000) = clock (accesses (clint m)) + 1000000) as ->.
  { unfold TimerExample.i64, u64. rewrite Z.mod_small by lia. by rewrite (proj2 (Z.ltb_lt _ _)) by lia. }
  by replace (S (S (accesses (clint m)))) with (accesses (clint m) + 2)%nat by lia.
Qed.

(** Interrupts are off, or the timer is set for the far future, or the
    handler is installed. *)
Lemma safe_off m : Z.testbit (mstatus (csr m)) 3 = false → vector_safe m.
Proof using Type. intros Hoff (_ & Hon & _). congruence. Qed.
Lemma safe_far m : 2 ^ 31 ≤ deadline (mtimecmp (clint m)) 0 → vector_safe m.
Proof using Hclock.
  intros Hfar (_ & _ & Hdue). pose proof (Hclock (accesses (clint m))). unfold QUANTUM in *. lia.
Qed.
Lemma safe_handler m : mtvec (csr m) = Some Vhandler → vector_safe m.
Proof using Type. by intros Hv _. Qed.

Definition boot_done (m m' : machine) : Prop :=
  earth_table m' = full_table ∧ dtype m' = Some Flash.FLASH_ROM ∧ rx (dev m') = rx (dev m) ∧
  tx (dev m') = tx (dev m) ++ boot_text ∧ mtvec (csr m') = Some Vhandler ∧
  Z.testbit (mie (csr m')) 7 = true ∧ Z.testbit (mstatus (csr m')) 3 = true ∧
  ∃ k, (accesses (clint m) ≤ k < accesses (clint m'))%nat ∧ deadline (mtimecmp (clint m')) 0 = clock k + QUANTUM.

(** A quiet step and a message. *)
Ltac quietly safe := split; [by apply safe|]; eexists; split; [reflexivity|].
Ltac message safe H :=
  split; [by apply safe|];
  match goal with |- ∃ m', _ ?M = _ ∧ _ => let Hb := fresh "Hb" in
    destruct (H M) as [? Hb]; [reflexivity|]; eexists; split; [exact Hb|]; clear Hb end.

(** The steps of the grass layer. *)
Lemma grass_entry_along m (Q : machine → Prop) : earth_table m = full_table → 2 ^ 31 ≤ deadline (mtimecmp (clint m)) 0 →
  (∀ b k, (accesses (clint m) ≤ k < accesses (clint m) + 2)%nat →
     Q (Machine (booted_core_cnt m) full_table (dtype m)
          (Timer (accesses (clint m) + 2)
             (<[1%nat := u32 (Z.shiftr (clock k + QUANTUM) 32)]> (<[0%nat := u32 (clock k + QUANTUM)]> (mtimecmp (clint m)))))
          (Uart (rx (dev m)) (tx (dev m) ++ text_example) b)
          (Csrs (Some Vhandler) (mip (csr m)) (Z.lor (mie (csr m)) 0x80) (Z.lor (mstatus (csr m)) 0x8)) (clock k + QUANTUM))) →
  throughout vector_safe Q (grass_entry clock bufs) m.
Proof using Hclock Hbufs.
  destruct m as [cnt tbl dt [acc ws] [rx0 tx0 b0] [tv ip ie st] tm]. cbn [earth_table]. intros -> Hfar HQ. unfold grass_entry.
  message safe_far says_example. quietly safe_far. split; [by apply safe_handler|].
  match goal with |- ∃ m', pure (local_time clock) ?M = _ ∧ _ => destruct (local_time_spec M) as (k & Hk & Hloc) end.
  eexists. split; [unfold pure; rewrite Hloc; reflexivity|]. do 4 quietly safe_handler.
  split; [by apply safe_handler|]. exact (HQ _ k Hk).
Qed.

Lemma throughout_app P Q fs gs : ∀ m, throughout P (throughout P Q gs) fs m → throughout P Q (fs ++ gs) m.
Proof using Type.
  induction fs as [|f fs IH]; intros m [HP Hfs]; [done|]. split; [done|].
  destruct Hfs as (m1 & Hf & Hfs). exists m1. split; [done|]. by apply IH.
Qed.

Lemma app_five {A} (t a b c d e : list A) : ((((t ++ a) ++ b) ++ c) ++ d) ++ e = t ++ (a ++ b ++ c ++ d ++ e).
Proof using Type. by rewrite <- !(assoc_L (++)). Qed.

Lemma boot_along m : (2 ≤ length (mtimecmp (clint m)))%nat → Z.testbit (mstatus (csr m)) 3 = false →
  throughout vector_safe (boot_done m) (boot_steps clock bufs 0) (counted m).
Proof using Hclock Hbufs.
  destruct m as [cnt tbl dt [acc [|w0 [|w1 ws]]] [rx0 tx0 b0] [tv ip ie st] tm]; cbn [mtimecmp clint length csr mstatus]; [lia..|].
  intros _ Hoff. unfold boot_steps, intr_init, counted. cbn [app booted_core_cnt earth_table dtype clint dev csr time].
  quietly safe_off. message safe_off says_boot. quietly safe_off. message safe_off says_devices. do 3 quietly safe_off.
  message safe_off says_mtvec. do 3 quietly safe_off. message safe_far says_mmu.
  apply grass_entry_along; [reflexivity|by vm_compute|]. intros b k Hk. unfold boot_done. split_and!.
  - reflexivity.
  - reflexivity.
  - reflexivity.
  - apply app_five.
  - reflexivity.
  - etrans; [apply Z.lor_spec|]. apply orb_true_r.
  - etrans; [apply Z.lor_spec|]. apply orb_true_r.
  - exists k. split; [exact Hk|]. pose proof (Hclock k).
    transitivity (u32 (clock k + QUANTUM) + 2 ^ 32 * u32 (Z.shiftr (clock k + QUANTUM) 32)); [reflexivity|].
    unfold u32, QUANTUM in *. rewrite Z.shiftr_div_pow2 by lia. Z.div_mod_to_equations. lia.
Qed.
End order.

(** C16: the boot sequence is in order.  On the first core it prints its
    messages, which go through the table entry that [tty_init] has set before;
    it ends with a complete [struct earth], interrupts enabled, the example's
    handler installed and the timer of core 0 set to one quantum after a time
    the counter showed; and at every moment in between a timer interrupt that
    is enabled and due would enter that handler, never the kernel's entry or
    an unset vector. *)
Theorem boot_order clock bufs m : (∀ n, 0 ≤ clock n < 2 ^ 31 - QUANTUM) → (∀ n, length (bufs n) = 512%nat) →
  (2 ≤ length (mtimecmp (clint m)))%nat → Z.testbit (mstatus (csr m)) 3 = false → booted_core_cnt m = 0 →
  (∀ n, ∃ mid, run_steps (take n (boot_steps clock bufs 0)) (counted m) = Ret mid ∧ vector_safe clock mid) ∧
  ∃ m', boot clock bufs 0 m = Ret m' ∧ boot_done clock m m'.
Proof.
  intros Hclock Hbufs Hlen Hoff Hcnt. unfold boot. rewrite Hcnt, Z.eqb_refl.
  exact (throughout_runs _ _ _ _ (boot_along clock bufs Hclock Hbufs m Hlen Hoff)).
Qed.

(** After boot the software TLB is used and flushing does nothing. *)
Lemma flush_cache_nothing clock m m' fences : boot_done clock m m' → flush_cache m' fences = fences.
Proof. intros (Ht & _). unfold flush_cache. by rewrite Ht. Qed.

(** The machine after reset. *)
Definition reset_machine : machine :=
  Machine 0 empty_table None (Timer 0 (replicate 8 0)) (Uart [] [] 0) (Csrs None 0 0 0) 0.
Definition boot_clock (n : nat) : Z := Z.min (Z.of_nat n) 1000.

Lemma boot_order_witness :
  (∀ n, ∃ mid, run_steps (take n (boot_steps boot_clock (λ _, zeros 512) 0)) (counted reset_machine) = Ret mid ∧
     vector_safe boot_clock mid) ∧
  ∃ m', boot boot_clock (λ _, zeros 512) 0 reset_machine = Ret m' ∧ boot_done boot_clock reset_machine m'.
Proof.
  apply boot_order; [|done|cbn; lia|done..]. intros n. unfold boot_clock, QUANTUM. lia.
Defined.

(** A message before [tty_init] calls through an unset pointer. *)
Example message_before_tty_init :
  success (λ _, zeros 512) 0 (str "hello") [] reset_machine = Fault (Undef "call of a function pointer that is not set").
Proof. vm_compute. reflexivity. Qed.
