(* ===== verification/BootLock.v ===== *)
(** * Locks between cores (earth/boot.s, the lock macros of library/egos.h)

    All cores start at [boot_loader] and spin on [boot_lock]; the one that
    gets it calls [boot].  The macros [acquire] and [release] of egos.h spin
    in the same way.  A core is at one of the places below; a step of the
    system is one step of one core, in any order.  Nothing in this version
    releases [boot_lock], and the theorem says what follows for [boot]. *)
From stdpp Require Import relations.
From S2P Require Import Prelude Timer Terminal InodeStore CString Print Boot.

Definition NCORES : Z := 4.

(** ** The lock *)

(** Where a core is: outside, before the atomic swap, after it with the old
    value of the lock word in a register, or past the loop. *)
Inductive place := Out | Entry | Swapped (old : Z) | Inside.
#[global] Instance place_eq_dec : EqDecision place.
Proof. solve_decision. Defined.

Record lock_state := LockState { word : Z; cores : list place }.
Definition move (k : nat) (x : place) (w : Z) (st : lock_state) : lock_state := LockState w (<[k := x]> (cores st)).

(** [amoswap] or [__sync_lock_test_and_set]: set the word to 1 and keep the
    old value. *)
Definition swap (k : nat) (st : lock_state) : lock_state := move k (Swapped (word st)) 1 st.
(** The branch on the old value. *)
Definition branch (k : nat) (old : Z) (st : lock_state) : lock_state :=
  move k (if old =? 0 then Inside else Entry) (word st) st.
(** [__sync_lock_release] *)
Definition unlock (k : nat) (st : lock_state) : lock_state := move k Out 0 st.

(** One step of a core that executes [acquire] and [release] in turn. *)
Inductive lock_step : lock_state → lock_state → Prop :=
  | lock_start k st : cores st !! k = Some Out → lock_step st (move k Entry (word st) st)
  | lock_swap k st : cores st !! k = Some Entry → lock_step st (swap k st)
  | lock_branch k old st : cores st !! k = Some (Swapped old) → lock_step st (branch k old st)
  | lock_unlock k st : cores st !! k = Some Inside → lock_step st (unlock k st).

(** The core has the lock, whether or not it has looked. *)
Definition owner (x : place) : Prop := x = Inside ∨ x = Swapped 0.

Record lock_inv (st : lock_state) : Prop := {
  li_word : word st = 0 ∨ word st = 1;
  li_free : word st = 0 → ∀ k x, cores st !! k = Some x → ¬ owner x;
  li_one k j x y : cores st !! k = Some x → cores st !! j = Some y → owner x → owner y → k = j
}.

(** Moving core [k]: the others stay. *)
Lemma move_cores k x w st j y : cores (move k x w st) !! j = Some y → (j = k ∧ y = x) ∨ (j ≠ k ∧ cores st !! j = Some y).
Proof.
  cbn. destruct (decide (j = k)) as [->|Hne]; [|rewrite list_lookup_insert_ne by congruence; by right].
  intros Hy. destruct (decide (k < length (cores st))%nat).
  - rewrite list_lookup_insert_eq in Hy by done. injection Hy as <-. by left.
  - rewrite list_insert_ge in Hy by lia. apply lookup_lt_Some in Hy. lia.
Qed.

(** A core that does not become an owner, or was one already. *)
Lemma move_inv k x x' st : lock_inv st → cores st !! k = Some x → (owner x' → owner x) → lock_inv (move k x' (word st) st).
Proof.
  intros [Hw Hfree Hone] Hk Hown. constructor; [done| |].
  - intros H0 j y [[-> ->]|[_ Hj]]%move_cores Hy; [|by apply (Hfree H0 j y)]. by apply (Hfree H0 k x), Hown.
  - intros i j y z Hi Hj Hy Hz.
    apply move_cores in Hi as [[-> ->]|[Hik Hi]], Hj as [[-> ->]|[Hjk Hj]]; try done.
    + by apply (Hone k j x z); auto.
    + by apply (Hone i k y x); auto.
    + by apply (Hone i j y z).
Qed.

Lemma swap_inv k st : lock_inv st → cores st !! k = Some Entry → lock_inv (swap k st).
Proof.
  intros [Hw Hfree Hone] Hk. constructor; [by right|done|].
  intros i j y z Hi Hj Hy Hz.
  apply move_cores in Hi as [[-> ->]|[Hik Hi]], Hj as [[-> ->]|[Hjk Hj]]; try done.
  - destruct Hy as [?|[= H0]]; [done|]. by destruct (Hfree H0 j z).
  - destruct Hz as [?|[= H0]]; [done|]. by destruct (Hfree H0 i y).
  - by apply (Hone i j y z).
Qed.

Lemma branch_inv k old st : lock_inv st → cores st !! k = Some (Swapped old) → lock_inv (branch k old st).
Proof.
  intros Hinv Hk. eapply move_inv; [done|exact Hk|]. destruct (Z.eqb_spec old 0) as [->|].
  - intros _. by right.
  - by intros [?|?].
Qed.

Lemma unlock_inv k st : lock_inv st → cores st !! k = Some Inside → lock_inv (unlock k st).
Proof.
  intros [Hw Hfree Hone] Hk. constructor; [by left| |].
  - intros _ j y [[-> ->]|[Hj Hy]]%move_cores Ho; [by destruct Ho|]. destruct Hj. by eapply Hone; [| |exact Ho|left].
  - intros i j y z Hi Hj Hy Hz.
    apply move_cores in Hi as [[-> ->]|[Hik Hi]], Hj as [[-> ->]|[Hjk Hj]]; try done; [by destruct Hy|by destruct Hz|].
    by apply (Hone i j y z).
Qed.

Lemma lock_step_inv st st' : lock_inv st → lock_step st st' → lock_inv st'.
Proof.
  intros Hinv Hstep. destruct Hstep.
  - eapply move_inv; [done..|]. by intros [?|?].
  - by apply swap_inv.
  - by apply branch_inv.
  - by apply unlock_inv.
Qed.

Lemma initial_inv n x : ¬ owner x → lock_inv (LockState 0 (replicate n x)).
Proof.
  intros Hx. constructor; [by left| |].
  - intros _ k y [-> _]%lookup_replicate. done.
  - intros k j y z [-> _]%lookup_replicate _ Hy. done.
Qed.

(** Mutual exclusion for [acquire] and [release]. *)
Lemma lock_excludes n st k j : rtc lock_step (LockState 0 (replicate n Out)) st →
  cores st !! k = Some Inside → cores st !! j = Some Inside → k = j.
Proof.
  intros Hrun Hk Hj. assert (lock_inv st) as Hinv.
  { revert Hrun. generalize (initial_inv n Out ltac:(by intros [?|?])).
    generalize (LockState 0 (replicate n Out)) as st0. intros st0 H0 Hrun.
    induction Hrun as [|st1 st2 st3 Hs _ IH]; [done|]. by apply IH, (lock_step_inv st1). }
  by apply (li_one st Hinv k j Inside Inside); [..|left|left].
Qed.

(** ** boot.s

    [entered] lists the cores that have called [boot], in order; a core calls
    it once, after the loop. *)
Record boot_state := BootState { boot_lock : lock_state; entered : list nat; mach : machine }.

Section boot_loader.
Context (clock : nat → Z) (bufs : nat → list Z).

Inductive boot_step : boot_state → boot_state → Prop :=
  | boot_swap k l es m : cores l !! k = Some Entry → boot_step (BootState l es m) (BootState (swap k l) es m)
  | boot_branch k old l es m : cores l !! k = Some (Swapped old) →
      boot_step (BootState l es m) (BootState (branch k old l) es m)
  | boot_call k l es m m' : cores l !! k = Some Inside → k ∉ es → boot clock bufs (Z.of_nat k) m = Ret m' →
      boot_step (BootState l es m) (BootState l (es ++ [k]) m').

Definition power_on (n : nat) (m : machine) : boot_state := BootState (LockState 0 (replicate n Entry)) [] m.

(** The cores that have called [boot] are past the loop. *)
Definition boot_inv (m0 : machine) (st : boot_state) : Prop :=
  lock_inv (boot_lock st) ∧ (∀ k, k ∈ entered st → cores (boot_lock st) !! k = Some Inside) ∧
  (entered st = [] ∧ mach st = m0 ∨
   ∃ k, entered st = [k] ∧ boot clock bufs (Z.of_nat k) m0 = Ret (mach st)).

Lemma moved_inside k x w l (es : list nat) : (∀ j, j ∈ es → cores l !! j = Some Inside) → cores l !! k ≠ Some Inside →
  ∀ j, j ∈ es → cores (move k x w l) !! j = Some Inside.
Proof using Type. intros Hes Hk j Hj. cbn. rewrite list_lookup_insert_ne; [by apply Hes|]. intros ->. by apply Hk, Hes. Qed.

Lemma boot_step_inv m0 st st' : boot_inv m0 st → boot_step st st' → boot_inv m0 st'.
Proof using Type.
  intros (Hl & Hin & Hb) Hstep. destruct Hstep as [k l es m Hk|k old l es m Hk|k l es m m' Hk Hnew Hboot]; cbn in *.
  - split_and!; [by apply swap_inv| |done]. apply moved_inside; [done|congruence].
  - split_and!; [by apply branch_inv| |done]. apply moved_inside; [done|congruence].
  - assert (es = []) as ->.
    { destruct Hb as [[? _]|(j & -> & _)]; [done|]. destruct Hnew. apply list_elem_of_singleton.
      apply (li_one l Hl k j Inside Inside); [done|apply Hin; by left|by left|by left]. }
    destruct Hb as [[_ ->]|(j & ? & _)]; [|done]. split_and!; [done| |right; by exists k].
    intros j ->%list_elem_of_singleton. done.
Qed.
End boot_loader.

(** C17: one core boots.  However the cores' instructions interleave, [boot]
    is called at most once, by the core that found [boot_lock] free, and it
    is the branch for the first core that runs, on the machine as it was
    after reset; every other core spins for ever, so the branch of boot.c for
    further cores is not reached. *)
Theorem one_core_boots clock bufs n m0 st : booted_core_cnt m0 = 0 → rtc (boot_step clock bufs) (power_on n m0) st →
  entered st = [] ∧ mach st = m0 ∨
  ∃ k, entered st = [k] ∧ run_steps (boot_steps clock bufs (Z.of_nat k)) (counted m0) = Ret (mach st) ∧
    word (boot_lock st) = 1 ∧ ∀ j x, cores (boot_lock st) !! j = Some x → j ≠ k → x ≠ Inside ∧ x ≠ Swapped 0.
Proof.
  intros Hcnt Hrun. assert (boot_inv clock bufs m0 st) as (Hl & Hin & Hb).
  { revert Hrun. assert (boot_inv clock bufs m0 (power_on n m0)) as H0.
    { split_and!; [apply initial_inv; by intros [?|?]|by intros k ?%elem_of_nil|by left]. }
    revert H0. generalize (power_on n m0) as st0. intros st0 H0 Hrun.
    induction Hrun as [|st1 st2 st3 Hs _ IH]; [done|]. by apply IH, (boot_step_inv _ _ _ st1). }
  destruct Hb as [?|(k & Hes & Hboot)]; [by left|right]. exists k. assert (cores (boot_lock st) !! k = Some Inside) as Hk.
  { apply Hin. rewrite Hes. by left. }
  split_and!; [done| | |].
  - unfold boot in Hboot. by rewrite Hcnt in Hboot.
  - destruct (li_word _ Hl) as [H0|?]; [|done]. by destruct (li_free _ Hl H0 k Inside Hk); left.
  - intros j x Hj Hjk. split; intros ->; destruct Hjk; apply (li_one _ Hl j k _ Inside Hj Hk); first [by left|by right].
Qed.

(** Cores 0 and 1 race; core 0 wins and boots. *)
Lemma one_core_boots_witness : ∃ st, rtc (boot_step boot_clock (λ _, zeros 512)) (power_on 2 reset_machine) st ∧
  entered st = [0%nat] ∧ run_steps (boot_steps boot_clock (λ _, zeros 512) 0) (counted reset_machine) = Ret (mach st).
Proof.
  assert (∃ m, boot boot_clock (λ _, zeros 512) 0 reset_machine = Ret m) as [m Hm] by (eexists; vm_compute; reflexivity).
  set (l := LockState 1 [Inside; Entry]). set (st := BootState l [0%nat] m).
  assert (rtc (boot_step boot_clock (λ _, zeros 512)) (power_on 2 reset_machine) st) as Hrun.
  { eapply rtc_l; [by apply (boot_swap _ _ 0)|]. eapply rtc_l; [by apply (boot_swap _ _ 1)|].
    eapply rtc_l; [by apply (boot_branch _ _ 0 0)|]. eapply rtc_l; [by apply (boot_branch _ _ 1 1)|].
    eapply rtc_l; [apply (boot_call _ _ 0 _ _ _ m); [done|by intros ?%elem_of_nil|exact Hm]|]. apply rtc_refl. }
  exists st. split; [exact Hrun|].
  destruct (one_core_boots boot_clock (λ _, zeros 512) 2 reset_machine st eq_refl Hrun) as [[Hno _]|(k & Hk & Hboot & _)]; [done|].
  injection Hk as <-. by split.
Defined.
