(* ===== verification/Metrics.v ===== *)
(** * Scheduling metrics (grass/scheduler.c, the callbacks of grass/process.c)

    The kernel notifies the scheduler when a process arrives, gets or loses
    the core and stops.  In this version the metrics are constants and the
    only callback with an effect is [proc_on_stop], which prints a report.
    [proc_free_logged] is [proc_free] with its output. *)
From S2P Require Import Prelude Earth Process CString Print.
From Stdlib Require Import SpecFloat.

(** ** Metrics and callbacks *)
Definition tar_time (pid : Z) : spec_float := S754_zero false.
Definition resp_time (pid : Z) : spec_float := S754_zero false.
Definition yield_num (pid : Z) : Z := 0.
Definition cpu_runtime (pid : Z) : spec_float := S754_zero false.

Section callbacks.
Context {E : Type} `{Earth E}.
Context {W : Type} (tw : list Z → W → outcome W) (buf : list Z).

Definition proc_on_arrive (pid : Z) (w : W) : outcome W := Ret w.
Definition proc_on_sched_in (pid : Z) (w : W) : outcome W := Ret w.
Definition proc_on_sched_out (pid : Z) (w : W) : outcome W := Ret w.
Definition proc_on_sleep (pid time_units : Z) (w : W) : outcome W := Ret w.

(** [proc_sleep] and [proc_coresinfo] of process.c; the types [uint] and [int]
    of the time differ. *)
Definition proc_sleep (pid usec : Z) (w : W) : outcome W := proc_on_sleep pid (i32 usec) w.
Definition proc_coresinfo (w : W) : outcome W := Ret w.

Definition stop_fmt : list Z :=
  str "proc[%d] finished after %d yields, turnaround time: %f, response time: %f, cputime: %f".
Definition proc_on_stop (pid : Z) (w : W) : outcome W :=
  INFO tw buf (stop_fmt ++ [0])
    [VInt pid; VInt (yield_num pid); VDouble (tar_time pid); VDouble (resp_time pid); VDouble (cpu_runtime pid)] w.

(** [sleep] of an application (servers.c). *)
Definition sleep (usec : Z) (w : W) : outcome W := Fault (Fatal "Sleep is not implemented").

(** ** [proc_free] with its reports *)
Definition free_user_logged (i : Z) (x : kstate E * W) : outcome (kstate E * W) :=
  let '(s, w) := x in
  p ← get_proc s i;
  if (GPID_USER_START <=? p_pid p) && negb (bool_decide (p_status p = PROC_UNUSED)) then
    e ← mmu_free (p_pid p) (earth s);
    let s := set_earth (set_proc s i (with_status PROC_UNUSED p)) e in
    w ← proc_on_stop (p_pid p) w;
    Ret (s, w)
  else Ret (s, w).

Definition proc_free_logged (pid : Z) (x : kstate E * W) : outcome (kstate E * W) :=
  let '(s, w) := x in
  if negb (pid =? GPID_ALL) then
    e ← mmu_free pid (earth s);
    let s := proc_set_status (set_earth s e) pid PROC_UNUSED in
    w ← proc_on_stop pid w;
    Ret (s, w)
  else for_up (Z.to_nat MAX_NPROCESS) 0 free_user_logged (s, w).
End callbacks.

(** ** Specification *)
Definition report (pid : Z) : list Z :=
  str "[INFO] proc[" ++ itoa pid 10 ++
  str "] finished after 0 yields, turnaround time: 0.00, response time: 0.00, cputime: 0.00" ++ EOL.

Lemma proc_on_stop_prints {W} (tw : list Z → W → outcome W) buf pid w : length buf = 512%nat → - 2 ^ 31 ≤ pid < 2 ^ 31 →
  proc_on_stop tw buf pid w = tw (report pid) w.
Proof.
  intros Hbuf Hpid. unfold proc_on_stop, INFO.
  set (text := str "proc[" ++ itoa pid 10 ++
    str "] finished after 0 yields, turnaround time: 0.00, response time: 0.00, cputime: 0.00").
  rewrite (log_text tw (str "[INFO] ") EOL buf stop_fmt _ text).
  - pose proof (itoa_length pid Hpid). rewrite bool_decide_true.
    + unfold report, text. by rewrite <- !(assoc_L (++)).
    + unfold text. rewrite Hbuf, !length_app. cbn [length str EOL]. lia.
  - by repeat constructor.
  - by repeat constructor.
  - by repeat constructor.
  - reflexivity.
Qed.

(** The user process in slot [i], and the processes [proc_free] ends, in
    order. *)
Definition user_in (ps : list process) (i : Z) : list Z :=
  match ps !! Z.to_nat i with
  | Some p => if (GPID_USER_START <=? p_pid p) && negb (bool_decide (p_status p = PROC_UNUSED)) then [p_pid p] else []
  | None => []
  end.
Definition ended_by (pid : Z) (ps : list process) : list Z :=
  if pid =? GPID_ALL then mjoin (user_in ps <$> seqZ 0 MAX_NPROCESS) else [pid].

Section reports.
Context {E : Type} `{Earth E} (buf : list Z) (Hbuf : length buf = 512%nat).
Implicit Type s : kstate E.
Let log (s w : list Z) : outcome (list Z) := Ret (w ++ s).

Lemma free_user_reports i s w : table_ok (proc_set s) →
  free_user_logged log buf i (s, w) = (s' ← free_user i s; Ret (s', w ++ mjoin (report <$> user_in (proc_set s) i))).
Proof using Hbuf.
  intros [Hlen Hs]. unfold free_user_logged, free_user, get_proc, user_in.
  destruct (proc_set s !! Z.to_nat i) as [p|] eqn:Hp; [|done]. rewrite !bind_ret.
  destruct ((GPID_USER_START <=? p_pid p) && negb (bool_decide (p_status p = PROC_UNUSED))).
  - destruct (mmu_free (p_pid p) (earth s)) as [e|]; [|done]. rewrite !bind_ret.
    rewrite proc_on_stop_prints; [|done|].
    + unfold log. rewrite bind_ret. cbn. by rewrite app_nil_r.
    + destruct (Hs _ _ Hp) as (_ & [Hpid|Hpid] & _); apply lookup_lt_Some in Hp; lia.
  - rewrite bind_ret. cbn. by rewrite app_nil_r.
Qed.

(** Freeing slot [i] leaves the others alone. *)
Lemma free_user_others i s s' : 0 ≤ i → table_ok (proc_set s) → free_user i s = Ret s' →
  table_ok (proc_set s') ∧ ∀ j, i < j → user_in (proc_set s') j = user_in (proc_set s) j.
Proof using Type.
  clear Hbuf. intros Hi Hok Hfree. unfold free_user in Hfree. apply bind_ret_inv in Hfree as (p & Hp & Hfree).
  unfold get_proc in Hp. destruct (proc_set s !! Z.to_nat i) as [q|] eqn:Hq; [|done]. injection Hp as ->.
  destruct (_ && _); [|by injection Hfree as <-]. apply bind_ret_inv in Hfree as (e & _ & Hfree). injection Hfree as <-.
  cbn. split.
  - apply table_ok_insert; [done|]. destruct (proj2 Hok _ _ Hq) as (Ha & Hb & Hc). split_and!; [by left|done|done].
  - intros j Hj. unfold user_in. by rewrite list_lookup_insert_ne by lia.
Qed.

Lemma for_up_reports n : ∀ i s w, 0 ≤ i → table_ok (proc_set s) →
  for_up n i (free_user_logged log buf) (s, w) =
  (s' ← for_up n i free_user s; Ret (s', w ++ mjoin (report <$> mjoin (user_in (proc_set s) <$> seqZ i (Z.of_nat n))))).
Proof using Hbuf.
  induction n as [|n IH]; intros i s w Hi Hok; cbn [for_up]; [by rewrite bind_ret, app_nil_r|].
  rewrite free_user_reports by done. destruct (free_user i s) as [s1|] eqn:Hs1; [|done]. rewrite !bind_ret.
  destruct (free_user_others i s s1 Hi Hok Hs1) as [Hok1 Hsame]. rewrite IH by (done || lia).
  destruct (for_up n (i + 1) free_user s1) as [s2|]; [|done]. rewrite !bind_ret. do 2 f_equal.
  rewrite (seqZ_cons i) by lia. replace (Z.succ i) with (i + 1) by lia. replace (Z.pred (Z.of_nat (S n))) with (Z.of_nat n) by lia.
  cbn [fmap list_fmap]. change (mjoin (?x :: ?l)) with (x ++ mjoin l). rewrite fmap_app, join_app, (assoc_L (++)). do 3 f_equal.
  f_equal. apply list_fmap_ext. intros k j Hj. apply lookup_seqZ in Hj. apply Hsame. lia.
Qed.
End reports.

(** Ending processes with the reports they leave behind: the output does not
    influence what [proc_free] does, and there is exactly one line for every
    process it ends, in the order of the slots. *)
Theorem proc_free_reports {E} `{Earth E} buf pid s w : length buf = 512%nat → table_ok (proc_set s) → - 2 ^ 31 ≤ pid < 2 ^ 31 →
  proc_free_logged (λ s w, Ret (w ++ s)) buf pid (s, w) =
  (s' ← proc_free pid s; Ret (s', w ++ mjoin (report <$> ended_by pid (proc_set s)))).
Proof.
  intros Hbuf Hok Hpid. unfold proc_free_logged, proc_free, ended_by. destruct (Z.eqb_spec pid GPID_ALL) as [->|Hne]; cbn [negb].
  - by apply for_up_reports.
  - destruct (mmu_free pid (earth s)); [|done]. rewrite !bind_ret, proc_on_stop_prints by done.
    rewrite bind_ret. cbn. by rewrite app_nil_r.
Qed.
