(* ===== verification/Mlfq.v ===== *)
(** * The build with the MLFQ scheduler (grass/mlfq.c, library/queue.h, the
    [#ifdef MLFQ] parts of grass/scheduler.c)

    The kernel can be built with a multi-level feedback queue instead of the
    round robin scheduler.  In this version the queue operations do nothing
    and the scheduler stops the kernel.  The callbacks of Metrics.v with
    their [#ifdef MLFQ] part: the state is the static [initialized] of
    [mlfq_update]. *)
From S2P Require Import Prelude Earth Process.

(** ** queue.h

    Pointers are addresses; [NULL] is 0. *)
Record queue_t := Queue { head : Z; tail : Z }.
Definition queue_init (q : queue_t) : queue_t := Queue 0 0.
Definition enqueue (q : queue_t) (item : Z) : queue_t := q.
Definition dequeue (q : queue_t) : Z * queue_t := (0, q).
Definition in_queue (q : queue_t) (target : Z) : Z := 0.
Definition try_rm_item (q : queue_t) (target : Z) : Z * queue_t := (0, q).
Definition rm_item (q : queue_t) (target : Z) : queue_t := q.

(** ** mlfq.c *)
Inductive state_transition : Type :=
  PROC_ON_ARRIVE | PROC_ON_SCHED_IN | PROC_ON_SCHED_OUT | PROC_ON_STOP | PROC_ON_SLEEP.

Definition mlfq_init : outcome unit := Fault (Fatal "mlfq_init() is not implemented").
Definition mlfq : outcome Z := Fault (Fatal "mlfq() is not implemented").
Definition mlfq_update (pid : Z) (tran : state_transition) (time_units : Z) (initialized : Z) : outcome Z :=
  if initialized =? 0 then mlfq_init;; Ret (i32 (initialized + 1)) else Ret initialized.

(** ** The kernel with [MLFQ] defined *)
Section build.
Context {E : Type} `{Earth E}.

(** [proc_on_arrive] is the last thing [proc_alloc] does. *)
Definition proc_alloc_mlfq (s : kstate E) (initialized : Z) : outcome (Z * kstate E * Z) :=
  '(pid, s) ← proc_alloc s;
  initialized ← mlfq_update pid PROC_ON_ARRIVE 0 initialized;
  Ret (pid, s, initialized).

(** No process is ever created by such a kernel: the first [proc_alloc], for
    the process server at boot, stops it. *)
Lemma mlfq_build_stops s pid s' : proc_alloc s = Ret (pid, s') →
  proc_alloc_mlfq s 0 = Fault (Fatal "mlfq_init() is not implemented").
Proof. intros Hp. unfold proc_alloc_mlfq. by rewrite Hp. Qed.
End build.
