(* ===== verification/Directory.v ===== *)
(** * Directories (dir_lookup of library/syscall/servers.c)

    A directory is a text of entries "name   inode " that tools/mkfs.c
    writes; [dir_lookup] searches it with string functions.  [scan] is the
    search as a function of the remaining text, [render] the format. *)
From S2P Require Import Prelude InodeStore Process FileServer CString.

(** ** The code *)

(** The loop of [dir_lookup] over the block [buf]. *)
Fixpoint dir_loop (fuel : nat) (i bound namelen : Z) (name buf : list Z) : outcome Z :=
  match fuel with
  | O => Fault OutOfFuel
  | S fuel =>
      if i <? bound then
        same ← strncmp_eq (Z.to_nat namelen) name buf i;
        found ← (if (same : bool) then
                   c ← char_at buf (i + namelen);
                   if c =? SPACE then
                     if i =? 0 then Ret true
                     else p ← char_at buf (i - 1); Ret (p =? SPACE)
                   else Ret false
                 else Ret false);
        if (found : bool) then Ret (i32 (atoi (drop (Z.to_nat (i + namelen)) buf)))
        else dir_loop fuel (i + 1) bound namelen name buf
      else Ret (-1)
  end.

(** The search of [dir_lookup] in the first block [buf] of the directory;
    [name] is a terminated string.  The search ends after at most
    [length buf] iterations, see [dir_loop_scan]. *)
Definition dir_search (name buf : list Z) : outcome Z :=
  namelen ← strlen name;
  len ← strlen buf;
  dir_loop (S (length buf)) 0 (u32 (len - namelen)) namelen name buf.

(** [dir_lookup(dir_ino, name)]: the block comes from the file server, and
    the result code of [file_read] is ignored.  The other arguments are those
    of [file_rpc]. *)
Definition dir_lookup {S} (fs : inode_store S) (s : S) (dir_ino : Z) (name junk stale stale' : list Z)
    : outcome Z :=
  '(_, buf) ← file_rpc fs s dir_ino 0 junk stale stale';
  dir_search name buf.

(** ** Search in the remaining text *)
Section scan.
Context (name : list Z).

(** [prev]: the text starts at the beginning or after a space. *)
Fixpoint scan (prev : bool) (l : list Z) : option (list Z) :=
  match l with
  | [] => None
  | c :: l' =>
      if prev && bool_decide (take (length name) l = name ∧ l !! length name = Some SPACE)
      then Some (drop (length name) l)
      else scan (c =? SPACE) l'
  end.

Definition word (w : list Z) : Prop := w ≠ [] ∧ Forall (λ c, c ≠ SPACE) w.

Lemma scan_false w x : Forall (λ c, c ≠ SPACE) w → scan false (w ++ SPACE :: x) = scan true x.
Proof.
  induction w as [|c w IH]; intros Hw; [done|]. apply Forall_cons in Hw as [Hc Hw].
  cbn [app scan andb]. rewrite (proj2 (Z.eqb_neq _ _)) by done. by apply IH.
Qed.

(** Two words before a space are equal when one starts the other's text. *)
Lemma word_eq w x : Forall (λ c, c ≠ SPACE) w → Forall (λ c, c ≠ SPACE) name →
  take (length name) (w ++ SPACE :: x) = name ∧ (w ++ SPACE :: x) !! length name = Some SPACE ↔ w = name.
Proof.
  intros Hw Hn. split; [|intros ->; split; [by apply take_app_length'|by apply list_lookup_middle]].
  intros [Ht Hs]. destruct (lt_eq_lt_dec (length name) (length w)) as [[Hlt|Heq]|Hgt].
  - rewrite lookup_app_l in Hs by done.
    by eapply Forall_lookup_1 in Hw; [|exact Hs].
  - by rewrite take_app_length' in Ht.
  - exfalso. assert (name !! length w = Some SPACE) as Hsp.
    { rewrite <- Ht. rewrite lookup_take_lt by done. by apply list_lookup_middle. }
    by eapply Forall_lookup_1 in Hn; [|exact Hsp].
Qed.

Lemma scan_word w x : word w → word name →
  scan true (w ++ SPACE :: x) = if decide (w = name) then Some (SPACE :: x) else scan true x.
Proof.
  intros [Hne Hw] [_ Hn]. destruct w as [|c w]; [done|].
  change ((c :: w) ++ SPACE :: x) with (c :: w ++ SPACE :: x). cbn [scan andb].
  change (c :: w ++ SPACE :: x) with ((c :: w) ++ SPACE :: x).
  destruct (decide (c :: w = name)) as [Heq|Hneq].
  - rewrite bool_decide_true by (by apply word_eq). f_equal. subst name. by apply drop_app_length'.
  - rewrite bool_decide_false by (rewrite word_eq; done).
    apply Forall_cons in Hw as [Hc Hw]. rewrite (proj2 (Z.eqb_neq _ _)) by done. by apply scan_false.
Qed.

Lemma scan_space x : word name → scan true (SPACE :: x) = scan true x.
Proof.
  intros [Hne Hn]. cbn [scan andb]. rewrite bool_decide_false; [done|]. intros [Ht _].
  destruct name as [|a name']; [done|]. cbn [length take] in Ht. injection Ht as <- _.
  by apply Forall_cons in Hn as [? _].
Qed.

Lemma scan_spaces k x : word name → scan true (replicate k SPACE ++ x) = scan true x.
Proof. intros Hn. induction k as [|k IH]; [done|]. cbn [replicate app]. by rewrite scan_space. Qed.
End scan.

(** ** Entries *)
Record entry := Entry { e_name : list Z; e_pad : nat; e_ino : Z }.

Definition render_entry (e : entry) : list Z :=
  e_name e ++ replicate (S (e_pad e)) SPACE ++ dec (e_ino e) ++ [SPACE].
Definition render (es : list entry) : list Z := mjoin (render_entry <$> es).

Definition entry_ok (e : entry) : Prop :=
  word (e_name e) ∧ Forall (λ c, c ≠ 0) (e_name e) ∧ 0 ≤ e_ino e < 2 ^ 31.

(** The inode of the first entry with this name. *)
Definition spec_lookup (name : list Z) (es : list entry) : Z :=
  match head (filter (λ e, e_name e = name) es) with
  | Some e => e_ino e
  | None => -1
  end.

(** With distinct names every entry is found. *)
Lemma spec_lookup_nth es k e : NoDup (e_name <$> es) → es !! k = Some e →
  spec_lookup (e_name e) es = e_ino e.
Proof.
  unfold spec_lookup. revert k. induction es as [|e' es IH]; intros k Hnd Hk; [done|].
  apply NoDup_cons in Hnd as [Hni Hnd]. rewrite filter_cons. destruct k as [|k]; cbn in Hk.
  - injection Hk as ->. by rewrite decide_True.
  - rewrite decide_False; [by apply (IH k)|]. intros Heq. apply Hni. rewrite Heq.
    apply list_elem_of_fmap. exists e. split; [done|]. by eapply list_elem_of_lookup_2.
Qed.

Lemma spec_lookup_none name es : name ∉ e_name <$> es → spec_lookup name es = -1.
Proof.
  intros Hni. unfold spec_lookup. destruct (filter _ es) as [|e l] eqn:Ef; [done|]. exfalso.
  assert (e ∈ filter (λ e, e_name e = name) es) as Hin by (rewrite Ef; left).
  apply list_elem_of_filter in Hin as [<- Hin]. apply Hni, list_elem_of_fmap. eauto.
Qed.

Lemma dec_word n : 0 ≤ n < 10 ^ 10 → word (dec n).
Proof.
  intros Hn. destruct (dec_spec n Hn) as (Hne & Hall & _). split; [done|].
  eapply Forall_impl; [exact Hall|]. intros c Hc ->. done.
Qed.

(** What the search gives: a name matches the text of an inode number too, and
    then the result is the number that the text behind it starts with. *)
Fixpoint spec_search (name : list Z) (es : list entry) : Z :=
  match es with
  | [] => -1
  | e :: es =>
      if decide (e_name e = name) then e_ino e
      else if decide (dec (e_ino e) = name) then i32 (atoi (render es))
      else spec_search name es
  end.

Lemma spec_search_lookup name es : Forall (λ e, dec (e_ino e) ≠ name) es →
  spec_search name es = spec_lookup name es.
Proof.
  unfold spec_lookup. induction es as [|e es IH]; intros Hnum; [done|].
  apply Forall_cons in Hnum as [Hn Hnum]. cbn [spec_search]. rewrite filter_cons.
  destruct (decide (e_name e = name)); [done|]. rewrite decide_False by done. by apply IH.
Qed.

Lemma scan_render name es rest : word name → Forall entry_ok es →
  match scan name true (render es) with
  | Some l => i32 (atoi (l ++ 0 :: rest))
  | None => -1
  end = spec_search name es.
Proof.
  intros Hname Hok. induction es as [|e es IH]; [done|].
  apply Forall_cons in Hok as [(Hw & _ & Hi) Hok]. cbn [spec_search].
  change (render (e :: es)) with (render_entry e ++ render es). unfold render_entry.
  cbn [replicate]. rewrite <- !(assoc_L (++)). cbn [app].
  rewrite scan_word by done. destruct (decide (e_name e = name)) as [Heq|Hneq].
  - change (SPACE :: ?l) with (replicate 1 SPACE ++ l).
    rewrite (assoc_L (++)), <- replicate_add, <- !(assoc_L (++)).
    rewrite atoi_dec; [by apply i32_small|lia|]. intros c l [= <- _]. done.
  - rewrite scan_spaces by done. change ([SPACE] ++ render es) with (SPACE :: render es).
    rewrite scan_word by (done || apply dec_word; lia).
    destruct (decide (dec (e_ino e) = name)); [|by apply IH]. by rewrite atoi_end.
Qed.

(** ** The loop is the search *)
Definition prev_ok (T : list Z) (i : nat) : bool :=
  match i with O => true | S j => bool_decide (T !! j = Some SPACE) end.

Lemma prev_ok_S T i c : T !! i = Some c → prev_ok T (S i) = (c =? SPACE).
Proof.
  intros H. cbn [prev_ok]. rewrite H. destruct (Z.eqb_spec c SPACE) as [->|].
  - by rewrite bool_decide_true.
  - rewrite bool_decide_false by congruence. done.
Qed.

(** The condition of the loop, on a terminated text. *)
Lemma dir_test T junk name i : Forall (λ c, c ≠ 0) T → Forall (λ c, c ≠ 0) name →
  (i + length name < length T)%nat →
  (same ← strncmp_eq (length name) (name ++ [0]) (T ++ 0 :: junk) (Z.of_nat i);
   if (same : bool) then
     c ← char_at (T ++ 0 :: junk) (Z.of_nat i + Z.of_nat (length name));
     if c =? SPACE then
       if Z.of_nat i =? 0 then Ret true
       else p ← char_at (T ++ 0 :: junk) (Z.of_nat i - 1); Ret (p =? SPACE)
     else Ret false
   else Ret false) =
  Ret (prev_ok T i && bool_decide (take (length name) (drop i T) = name ∧
                                   drop i T !! length name = Some SPACE)).
Proof.
  intros HT Hn Hi.
  assert (strncmp_eq (length name) (name ++ [0]) (T ++ 0 :: junk) (Z.of_nat i) =
          Ret (bool_decide (take (length name) (drop i T) = name))) as ->.
  { rewrite strncmp_eq_app by lia. rewrite strncmp_eq_spec; [|done|lia|].
    - rewrite Nat2Z.id. do 2 f_equal. rewrite drop_app_le, take_app_le; [done| |lia].
      rewrite length_drop. lia.
    - exists (length T). rewrite Nat2Z.id. split; [lia|]. by apply list_lookup_middle. }
  rewrite bind_ret. destruct (lookup_lt_is_Some_2 T (i + length name) Hi) as [c Hc].
  rewrite <- Nat2Z.inj_add, (char_at_lookup _ _ c), bind_ret by (by apply lookup_app_l_Some).
  rewrite lookup_drop, Hc. case_bool_decide as Htk.
  2:{ rewrite bool_decide_false by tauto. by rewrite andb_false_r. }
  destruct (Z.eqb_spec c SPACE) as [->|Hcs].
  2:{ rewrite bool_decide_false, andb_false_r; [done|]. intros [_ ?]. congruence. }
  rewrite (bool_decide_true (_ ∧ _)), andb_true_r by done.
  destruct i as [|i]; [done|]. rewrite (proj2 (Z.eqb_neq _ _)) by lia.
  destruct (lookup_lt_is_Some_2 T i) as [p Hp]; [lia|].
  replace (Z.of_nat (S i) - 1) with (Z.of_nat i) by lia.
  rewrite (char_at_lookup _ _ p), bind_ret by (by apply lookup_app_l_Some).
  by rewrite (prev_ok_S T i p).
Qed.

(** A match needs room for the name and a space. *)
Lemma scan_short name l : (length l ≤ length name)%nat → ∀ prev, scan name prev l = None.
Proof.
  induction l as [|c l IH]; intros Hlen prev; [done|]. cbn [scan length] in *.
  rewrite bool_decide_false, andb_false_r; [apply IH; lia|].
  intros [_ Hs]. apply lookup_lt_Some in Hs. cbn [length] in Hs. lia.
Qed.

Lemma dir_loop_scan T junk name fuel i : Forall (λ c, c ≠ 0) T → Forall (λ c, c ≠ 0) name →
  (length name ≤ length T)%nat → (i ≤ length T)%nat → (length T < fuel + i)%nat →
  dir_loop fuel (Z.of_nat i) (Z.of_nat (length T) - Z.of_nat (length name))
    (Z.of_nat (length name)) (name ++ [0]) (T ++ 0 :: junk) =
  Ret (match scan name (prev_ok T i) (drop i T) with
       | Some l => i32 (atoi (l ++ 0 :: junk))
       | None => -1
       end).
Proof.
  intros HT Hn Hlen. revert i. induction fuel as [|fuel IH]; intros i Hi Hfuel; [lia|]. cbn [dir_loop].
  destruct (Z.ltb_spec (Z.of_nat i) (Z.of_nat (length T) - Z.of_nat (length name))) as [Hlt|Hge].
  - rewrite Nat2Z.id. pose proof (dir_test T junk name i HT Hn ltac:(lia)) as Htest.
    apply bind_ret_inv in Htest as (same & -> & Htest). rewrite bind_ret, Htest, bind_ret.
    destruct (lookup_lt_is_Some_2 T i) as [c Hc]; [lia|]. rewrite (drop_S _ _ _ Hc).
    cbn [scan]. rewrite <- (drop_S _ _ _ Hc). destruct (prev_ok T i && _).
    + rewrite drop_drop, <- Nat2Z.inj_add, Nat2Z.id.
      by rewrite drop_app_le by lia.
    + rewrite <- (prev_ok_S T i c Hc). replace (Z.of_nat i + 1) with (Z.of_nat (S i)) by lia.
      apply IH; lia.
  - rewrite scan_short; [done|]. rewrite length_drop. lia.
Qed.

Lemma render_nonzero es : Forall entry_ok es → Forall (λ c, c ≠ 0) (render es).
Proof.
  induction es as [|e es IH]; intros Hes; [constructor|]. apply Forall_cons in Hes as [(_ & Hz & Hi) Hes].
  change (render (e :: es)) with (render_entry e ++ render es). unfold render_entry.
  rewrite !Forall_app. split_and!; [done| | |by constructor|by apply IH].
  - by apply Forall_replicate.
  - destruct (dec_spec (e_ino e)) as (_ & Hall & _); [lia|].
    eapply Forall_impl; [exact Hall|]. intros c Hc ->. done.
Qed.

Lemma dir_search_exact name es junk : word name → Forall (λ c, c ≠ 0) name → Forall entry_ok es →
  (length name ≤ length (render es))%nat → Z.of_nat (length (render es)) < 2 ^ 32 →
  dir_search (name ++ [0]) (render es ++ 0 :: junk) = Ret (spec_search name es).
Proof.
  intros Hw Hz Hes Hlen Hmax. unfold dir_search.
  pose proof (render_nonzero es Hes) as HT.
  rewrite (strlen_app name []), bind_ret, strlen_app, bind_ret, u32_small by (done || lia).
  pose proof (dir_loop_scan (render es) junk name (S (length (render es ++ 0 :: junk))) 0
                HT Hz Hlen ltac:(lia) ltac:(len)) as Hloop.
  change (Z.of_nat 0) with 0 in Hloop. rewrite Hloop, drop_0. cbn [prev_ok]. f_equal.
  by apply scan_render.
Qed.

Lemma dir_search_finds name es junk : word name → Forall (λ c, c ≠ 0) name →
  Forall entry_ok es → Forall (λ e, dec (e_ino e) ≠ name) es →
  (length name ≤ length (render es))%nat → Z.of_nat (length (render es)) < 2 ^ 32 →
  dir_search (name ++ [0]) (render es ++ 0 :: junk) = Ret (spec_lookup name es).
Proof. intros. rewrite <- spec_search_lookup by done. by apply dir_search_exact. Qed.

(** ** Names longer than the directory
    The unsigned bound wraps around and the search leaves the block, unless
    the bytes behind the text make it stop. *)
Lemma strncmp_eq_fault n s buf i : (n < length s)%nat →
  (∃ b, strncmp_eq n s buf i = Ret b) ∨ strncmp_eq n s buf i = Fault (Undef "read outside the array").
Proof.
  revert s i. induction n as [|n IH]; intros s i Hn; [left; by exists true|].
  destruct s as [|c s]; cbn [length] in Hn; [lia|]. cbn [strncmp_eq].
  destruct (char_at_cases buf i) as [(d & _ & _ & ->)|[_ ->]]; [|by right]. rewrite bind_ret.
  destruct (negb (c =? d)); [left; by exists false|].
  destruct (c =? 0); [left; by exists true|]. apply IH. lia.
Qed.

Lemma dir_loop_long (T rest name : list Z) fuel bound : name ≠ [] → (length T < length name)%nat → SPACE ∉ rest →
  Z.of_nat (length (T ++ 0 :: rest)) < bound → ∀ i, (i ≤ length (T ++ 0%Z :: rest) < fuel + i)%nat →
  dir_loop fuel (Z.of_nat i) bound (Z.of_nat (length name)) (name ++ [0]) (T ++ 0 :: rest)
  = Fault (Undef "read outside the array").
Proof.
  intros Hne HT Hsp Hb. set (buf := T ++ 0 :: rest) in *. induction fuel as [|fuel IH]; intros i Hi; [lia|].
  cbn [dir_loop]. rewrite (proj2 (Z.ltb_lt _ _)), Nat2Z.id by lia.
  destruct (strncmp_eq_fault (length name) (name ++ [0]) buf (Z.of_nat i) ltac:(rewrite length_app; cbn [length]; lia)) as [[same E]| ->];
    [|done].
  destruct (decide (i = length buf)) as [->|Hi'].
  { revert E. destruct name as [|c name]; [done|]. cbn [length app strncmp_eq].
    destruct (char_at_cases buf (Z.of_nat (length buf))) as [(d & _ & Hd & _)|[_ ->]]; [|done].
    apply lookup_lt_Some in Hd. lia. }
  rewrite E, bind_ret. replace (Z.of_nat i + 1) with (Z.of_nat (S i)) by lia.
  destruct same; [|rewrite bind_ret; apply IH; lia].
  destruct (char_at_cases buf (Z.of_nat i + Z.of_nat (length name))) as [(c & _ & Hc & ->)|[_ ->]]; [|done].
  rewrite !bind_ret. rewrite (proj2 (Z.eqb_neq c SPACE)), bind_ret; [apply IH; lia|]. intros ->.
  unfold buf in Hc. rewrite lookup_app_r in Hc by lia.
  replace (Z.to_nat (Z.of_nat i + Z.of_nat (length name)) - length T)%nat
    with (S (i + length name - length T - 1)) in Hc by lia.
  exact (Hsp (list_elem_of_lookup_2 rest _ _ Hc)).
Qed.

Lemma dir_search_long (T rest name : list Z) : Forall (λ c, c ≠ 0) T → Forall (λ c, c ≠ 0) name →
  (length T < length name)%nat → Z.of_nat (length name) < 2 ^ 31 → SPACE ∉ rest →
  Z.of_nat (length (T ++ 0 :: rest)) < 2 ^ 31 →
  dir_search (name ++ [0]) (T ++ 0 :: rest) = Fault (Undef "read outside the array").
Proof.
  intros HT Hz Hlen Hmax Hsp Hbuf. unfold dir_search.
  rewrite (strlen_app name []), bind_ret, strlen_app, bind_ret by done.
  assert (u32 (Z.of_nat (length T) - Z.of_nat (length name))
          = 2 ^ 32 + (Z.of_nat (length T) - Z.of_nat (length name))) as ->.
  { unfold u32. rewrite <- (Z_mod_plus_full _ 1). rewrite Z.mod_small; lia. }
  apply (dir_loop_long T rest name _ _) with (i := 0%nat); [|done|done|lia|lia].
  intros ->. cbn [length] in Hlen. lia.
Qed.

(** The name ends at its terminator. *)
Lemma dir_loop_app name x y buf : ∀ fuel i bound,
  dir_loop fuel i bound (Z.of_nat (length name)) (name ++ x) buf
  = dir_loop fuel i bound (Z.of_nat (length name)) (name ++ y) buf.
Proof.
  induction fuel as [|fuel IH]; intros i bound; [done|]. cbn [dir_loop]. destruct (i <? bound); [|done].
  rewrite Nat2Z.id, !strncmp_eq_app by lia. destruct (strncmp_eq _ _ _ _) as [same|]; [|done].
  rewrite !bind_ret. by rewrite IH.
Qed.

Lemma dir_search_app name rest buf : Forall (λ c, c ≠ 0) name →
  dir_search (name ++ 0 :: rest) buf = dir_search (name ++ [0]) buf.
Proof.
  intros Hz. unfold dir_search. rewrite !strlen_app, !bind_ret by done.
  destruct (strlen buf) as [len|]; [|done]. rewrite !bind_ret. apply dir_loop_app.
Qed.

(** Through the file server: the block is what the file system returns. *)
Lemma dir_lookup_block {S} (fs : inode_store S) s dir_ino name junk stale stale' r block :
  0 ≤ dir_ino < 2 ^ 32 → length junk = 512%nat → length stale = SYSCALL_MSG_LEN →
  (∀ buf, length buf = 512%nat → read fs s dir_ino 0 buf = Ret (r, block)) → length block = 512%nat →
  dir_lookup fs s dir_ino name junk stale stale' = dir_search name block.
Proof.
  intros Hi Hj Hs Hr Hb. unfold dir_lookup.
  rewrite (file_rpc_read fs s dir_ino 0 junk stale stale' r block); try done. apply Hr.
  rewrite length_take, length_drop. unfold send_content.
  rewrite length_app, length_file_request by done. lia.
Qed.

Lemma dir_lookup_app {S} (fs : inode_store S) s dir_ino name rest junk stale stale' :
  Forall (λ c, c ≠ 0) name →
  dir_lookup fs s dir_ino (name ++ 0 :: rest) junk stale stale'
  = dir_lookup fs s dir_ino (name ++ [0]) junk stale stale'.
Proof.
  intros Hz. unfold dir_lookup. destruct (file_rpc _ _ _ _ _ _ _) as [[r buf]|]; [|done].
  by apply dir_search_app.
Qed.

(** Looking a name up in a directory gives the inode of the first entry
    with that name and -1 when there is none, provided the name is not the
    decimal text of an inode number in the directory and is not longer than
    the directory. *)
Theorem dir_lookup_finds {S} (fs : inode_store S) s dir_ino name es junk stale stale' rest :
  0 ≤ dir_ino < 2 ^ 32 → length junk = 512%nat → length stale = SYSCALL_MSG_LEN →
  (∀ buf, length buf = 512%nat → read fs s dir_ino 0 buf = Ret (0, render es ++ 0 :: rest)) →
  length (render es ++ 0 :: rest) = 512%nat →
  word name → Forall (λ c, c ≠ 0) name → Forall entry_ok es →
  Forall (λ e, dec (e_ino e) ≠ name) es → (length name ≤ length (render es))%nat →
  dir_lookup fs s dir_ino (name ++ [0]) junk stale stale' = Ret (spec_lookup name es).
Proof.
  intros Hi Hj Hs Hr Hb Hw Hz Hes Hnum Hlen.
  rewrite (dir_lookup_block fs s dir_ino _ junk stale stale' 0 (render es ++ 0 :: rest)) by done.
  apply dir_search_finds; try done. rewrite length_app in Hb. lia.
Qed.

(** The root directory of mkfs.c. *)
Definition root_entries : list entry :=
  [Entry (str "./") 2 0; Entry (str "../") 2 0; Entry (str "home/") 2 1; Entry (str "bin/") 2 6].

Example root_text : render root_entries = str "./   0 ../   0 home/   1 bin/   6 ".
Proof. vm_compute. reflexivity. Qed.

#[global] Instance word_dec w : Decision (word w).
Proof. unfold word. apply _. Defined.
#[global] Instance entry_ok_dec e : Decision (entry_ok e).
Proof. unfold entry_ok. apply _. Defined.

(** A disk whose only inode is the root directory. *)
Definition root_block : block_t := render root_entries ++ 0 :: zeros 477.

Lemma dir_lookup_finds_witness :
  dir_lookup Ramdisk.ramdisk [root_block] 0 (str "bin/" ++ [0]) (zeros 512) (zeros 1024) (zeros 1024) = Ret 6.
Proof.
  apply (dir_lookup_finds Ramdisk.ramdisk [root_block] 0 (str "bin/") root_entries (zeros 512)
           (zeros 1024) (zeros 1024) (zeros 477)); try (apply (bool_decide_unpack _); vm_compute; exact I).
  intros buf _. reflexivity.
Defined.

(** A name that is the text of an inode number matches that number: "6" is
    found in the root directory although there is no such file. *)
Example dir_lookup_number :
  dir_search (str "6" ++ [0]) root_block = Ret 0 ∧ spec_lookup (str "6") root_entries = -1.
Proof. vm_compute. done. Qed.

(** A name longer than the directory makes the bound wrap around and the
    search leave the block. *)
Example dir_lookup_long_name :
  dir_search (str "a_rather_long_name" ++ [0]) (str "./   3 ../   1 " ++ zeros 497) = Fault (Undef "read outside the array").
Proof. vm_compute. reflexivity. Qed.

(** The empty name (a command line of spaces) matches between two spaces of
    the first entry: looking it up in /bin gives the inode of /bin itself. *)
Example dir_lookup_empty_name : dir_search [0] (str "./   6 ../   0 " ++ zeros 497) = Ret 6.
Proof. vm_compute. reflexivity. Qed.
