(* ===== verification/Mkfs.v ===== *)
(** * Building and booting the disk image (tools/mkfs.c)

    mkfs formats a ramdisk with the file system, writes the directories and
    the user applications into it, and puts it after the kernel binaries in
    the flash image.  The host files (kernel binaries, application names and
    contents) are arguments of the model.  The theorem follows a block from
    there to the reader on the booted system. *)
From S2P Require Import Prelude InodeStore Treedisk TreediskLayout TreediskAlloc TreediskRead.
From S2P Require Import TreediskLink TreediskWrite TreediskCreate TreediskSpec CString Directory.
Import FileSpec Ramdisk.

(** ** The program *)
Definition NINODES : Z := 128.
Definition contents : list (list Z) := [
  str "./   0 ../   0 home/   1 bin/   6 ";
  str "./   1 ../   0 cs6640/   2 ta/    3 fs/       4 ";
  str "./   2 ../   1 README   5 ";
  str "./   3 ../   1 ";
  str "./   4 ../   1 ";
  str "Welcome to CS6640 labs. " ++ [10] ++
  str "This OS is tailored from egos-2000 (https://github.com/yhzhang0128/egos-2000)." ++ [10]].
Definition BIN_DIR_INODE : Z := 6.
Definition bin_dir_init : list Z := str "./   6 ../   0 ".

(** The variables of [main]: the ramdisk [fs], the buffer [inode], the text
    of [bin_dir] and [app_ino]. *)
Record mkfs_state := MkfsState { m_fs : ram; m_inode : list Z; m_bin_dir : list Z; m_app_ino : Z }.

(** [strncpy(inode, s, BLOCK_SIZE)] *)
Definition strncpy_block (s inode : list Z) : list Z :=
  take 512 s ++ zeros (512 - length s) ++ drop 512 inode.

(** Block [b] of the buffer. *)
Definition inode_block (inode : list Z) (b : nat) : block_t := take 512 (drop (512 * b) inode).

(** [filesys->write] of consecutive blocks [0 .. n-1]. *)
Definition block_writes (ino : Z) (n : nat) (inode : list Z) : list (Z * Z * block_t) :=
  (λ b, (ino, Z.of_nat b, inode_block inode b)) <$> seq 0 n.

(** The directory and README inodes. *)
Fixpoint write_contents (ino : Z) (cs : list (list Z)) (st : mkfs_state) : outcome mkfs_state :=
  match cs with
  | [] => Ret st
  | c :: cs =>
      let inode := strncpy_block c (m_inode st) in
      fs ← run_writes ramdisk 0 (m_fs st) (block_writes ino 1 inode);
      write_contents (ino + 1) cs (MkfsState fs inode (m_bin_dir st) (m_app_ino st))
  end.

(** [strstr(name, ".elf")] *)
Fixpoint has_elf (name : list Z) : bool :=
  bool_decide (take 4 name = str ".elf") ||
  match name with [] => false | _ :: name => has_elf name end.

(** The number of blocks with [b * BLOCK_SIZE < file_size]. *)
Definition nblocks (file_size : nat) : nat := (file_size + 511) / 512.

(** One directory entry of the host: an application and its contents. *)
Definition write_app (app : list Z * list Z) (st : mkfs_state) : outcome mkfs_state :=
  let '(name, data) := app in
  if has_elf name then
    if bool_decide (length data ≤ length (m_inode st))%nat then
      let inode := data ++ drop (length data) (m_inode st) in
      fs ← run_writes ramdisk 0 (m_fs st) (block_writes (m_app_ino st) (nblocks (length data)) inode);
      let entry := take (length name - 4) name ++ pad4 (m_app_ino st) ++ [SPACE] in
      let bin_dir := m_bin_dir st ++ entry in
      if bool_decide (length bin_dir < 256)%nat
      then Ret (MkfsState fs inode bin_dir (m_app_ino st + 1))
      else Fault (Undef "bin_dir overflow")
    else Fault (Undef "inode overflow")
  else Ret st.

Fixpoint write_apps (apps : list (list Z * list Z)) (st : mkfs_state) : outcome mkfs_state :=
  match apps with
  | [] => Ret st
  | app :: apps => st ← write_app app st; write_apps apps st
  end.

(** [filesys->write(filesys, BIN_DIR_INODE, 0, bin_dir)] copies a block of 512
    bytes out of the 256-byte array: [after] is what follows it in memory. *)
Definition bin_block (bin_dir after : list Z) : block_t :=
  take 512 (bin_dir ++ zeros (256 - length bin_dir) ++ after).

(** [main] with FILESYS = 1, the value the Makefile sets: the contents of
    disk.img and of qemuROM.bin (2MB of binaries and 15 copies of the file
    system). *)
Definition mkfs (exec : list block_t) (apps : list (list Z * list Z)) (after : list Z)
    : outcome (list block_t * list block_t) :=
  '(r, fs) ← treedisk_create ramdisk 0 fs_init NINODES;
  ASSERT (0 <=? r) "assert";;
  let st := MkfsState fs (zeros (Z.to_nat SIZE_2MB)) bin_dir_init (BIN_DIR_INODE + 1) in
  st ← write_contents 0 contents st;
  st ← write_apps apps st;
  fs ← run_writes ramdisk 0 (m_fs st) [(BIN_DIR_INODE, 0, bin_block (m_bin_dir st) after)];
  Ret (exec ++ fs, exec ++ mjoin (replicate 15 fs)).

(** ** What the image holds *)

(** The writes of the three phases and the buffer and directory they leave. *)
Fixpoint contents_log (ino : Z) (cs : list (list Z)) (inode : list Z)
    : list (Z * Z * block_t) * list Z :=
  match cs with
  | [] => ([], inode)
  | c :: cs =>
      let inode := strncpy_block c inode in
      let '(ws, inode') := contents_log (ino + 1) cs inode in (block_writes ino 1 inode ++ ws, inode')
  end.

Lemma run_writes_app s ws1 ws2 : run_writes ramdisk 0 s (ws1 ++ ws2) =
  (s ← run_writes ramdisk 0 s ws1; run_writes ramdisk 0 s ws2).
Proof.
  revert s. induction ws1 as [|[[ino off] b] ws1 IH]; intros s; [done|].
  cbn [app run_writes]. destruct (treedisk_write _ _ _ _ _ _ _) as [[r s1]|]; [|done].
  rewrite !bind_ret. apply IH.
Qed.

Lemma write_contents_log cs : ∀ ino st, write_contents ino cs st =
  (fs ← run_writes ramdisk 0 (m_fs st) (contents_log ino cs (m_inode st)).1;
   Ret (MkfsState fs (contents_log ino cs (m_inode st)).2 (m_bin_dir st) (m_app_ino st))).
Proof.
  induction cs as [|c cs IH]; intros ino st; [by destruct st|]. cbn [write_contents contents_log].
  destruct (contents_log (ino + 1) cs (strncpy_block c (m_inode st))) as [ws inode'] eqn:El.
  cbn [fst snd]. rewrite run_writes_app.
  destruct (run_writes ramdisk 0 (m_fs st) _) as [fs|]; [|done]. rewrite !bind_ret, IH.
  cbn [m_fs m_inode m_bin_dir m_app_ino]. by rewrite El.
Qed.

(** *** Consecutive blocks of one inode *)
Lemma spec_writes_app F ws1 ws2 : spec_writes F (ws1 ++ ws2) = spec_writes (spec_writes F ws1) ws2.
Proof. apply fold_left_app. Qed.

Lemma file_write_end f b : file_write f (length f) b = f ++ [b].
Proof.
  unfold file_write. replace (S (length f) - length f)%nat with 1%nat by lia. cbn [replicate].
  rewrite <- (Nat.add_0_r (length f)) at 1. by rewrite insert_app_r.
Qed.

Lemma spec_writes_blocks F ino n inode : F !! Z.to_nat ino = Some [] →
  spec_writes F (block_writes ino n inode) = <[Z.to_nat ino := inode_block inode <$> seq 0 n]> F.
Proof.
  intros HF. unfold block_writes. induction n as [|n IH].
  - cbn. symmetry. by apply list_insert_id.
  - rewrite seq_S, !fmap_app, spec_writes_app, IH. cbn. unfold spec_write. rewrite Nat2Z.id.
    apply lookup_lt_Some in HF. apply list_eq. intros i.
    destruct (decide (i = Z.to_nat ino)) as [->|Hne].
    + rewrite list_lookup_alter_eq, !list_lookup_insert_eq by (rewrite ?length_insert; lia). simpl.
      f_equal. rewrite <- file_write_end. f_equal. by rewrite length_fmap, length_seq.
    + by rewrite list_lookup_alter_ne, !list_lookup_insert_ne.
Qed.

Definition ibuf_ok (inode : list Z) : Prop := Z.of_nat (length inode) = SIZE_2MB.

Lemma block_ok_inode inode b : ibuf_ok inode → 512 * (Z.of_nat b + 1) ≤ SIZE_2MB →
  block_ok (inode_block inode b).
Proof.
  intros Hlen Hb. unfold block_ok, inode_block, ibuf_ok in *. rewrite length_take, length_drop. lia.
Qed.

(** A step of mkfs: [n] blocks of the buffer are written to an empty inode. *)
Lemma write_inode s fl F ino n inode : ibuf_ok inode → ds_inv ramdisk 0 s → fs_wf s 2 fl →
  files s 2 = F → F !! Z.to_nat ino = Some [] → ino_ok 2 ino → 512 * Z.of_nat n ≤ SIZE_2MB →
  (11 * n ≤ length fl)%nat → ∃ s' fl',
  run_writes ramdisk 0 s (block_writes ino n inode) = Ret s' ∧ ds_inv ramdisk 0 s' ∧ fs_wf s' 2 fl' ∧
  files s' 2 = <[Z.to_nat ino := inode_block inode <$> seq 0 n]> F ∧
  (length fl ≤ length fl' + 11 * n)%nat.
Proof.
  intros Hlen Hs Hwf HF Hempty Hino Hn Hfl.
  destruct (@run_writes_spec _ ramdisk 0 (ramdisk_store 0) (block_writes ino n inode) s 2 fl)
    as (s' & fl' & E & Hs' & Hwf' & HF' & Hfl'); try done.
  - unfold block_writes. apply Forall_fmap, Forall_forall. intros b Hb%elem_of_seq.
    unfold compose, write_ok. split_and!; [exact Hino|lia| |].
    + unfold SIZE_2MB in Hn. lia.
    + apply block_ok_inode; [done|lia].
  - unfold block_writes. rewrite length_fmap, length_seq. done.
  - exists s', fl'. split_and!; try done.
    + etrans; [exact HF'|]. rewrite <- (spec_writes_blocks F) by done. by rewrite <- HF.
    + unfold block_writes in Hfl'. by rewrite length_fmap, length_seq in Hfl'.
Qed.

(** *** The directories *)
Definition padded (c : list Z) : block_t := c ++ zeros (512 - length c).

Lemma strncpy_block_spec c inode : (length c ≤ 512)%nat → ibuf_ok inode →
  ibuf_ok (strncpy_block c inode) ∧ inode_block (strncpy_block c inode) 0 = padded c.
Proof.
  intros Hc Hi. unfold strncpy_block, padded, inode_block. rewrite Nat.mul_0_r, drop_0.
  rewrite (take_ge c) by lia. unfold ibuf_ok, SIZE_2MB in *.
  split; [len|]. rewrite (assoc_L (++)). apply take_app_length'. len.
Qed.

Lemma write_contents_spec cs : ∀ ino st fl F, Forall (λ c, length c ≤ 512)%nat cs →
  ibuf_ok (m_inode st) → ds_inv ramdisk 0 (m_fs st) → fs_wf (m_fs st) 2 fl →
  files (m_fs st) 2 = F → 0 ≤ ino → ino + Z.of_nat (length cs) ≤ 128 →
  (∀ i, (Z.to_nat ino ≤ i < Z.to_nat ino + length cs)%nat → F !! i = Some []) →
  (11 * length cs ≤ length fl)%nat → ∃ st' fl' F', write_contents ino cs st = Ret st' ∧
  ibuf_ok (m_inode st') ∧ ds_inv ramdisk 0 (m_fs st') ∧ fs_wf (m_fs st') 2 fl' ∧
  files (m_fs st') 2 = F' ∧ m_bin_dir st' = m_bin_dir st ∧ m_app_ino st' = m_app_ino st ∧
  (∀ k c, cs !! k = Some c → F' !! (Z.to_nat ino + k)%nat = Some [padded c]) ∧
  (∀ i, (i < Z.to_nat ino ∨ Z.to_nat ino + length cs ≤ i)%nat → F' !! i = F !! i) ∧
  (length fl ≤ length fl' + 11 * length cs)%nat.
Proof.
  induction cs as [|c cs IH]; intros ino st fl F Hcs Hbuf Hs Hwf HF Hi Hmax Hempty Hfl.
  { exists st, fl, F. split_and!; try done. lia. }
  apply Forall_cons in Hcs as [Hc Hcs]. cbn [write_contents length] in *.
  destruct (strncpy_block_spec c (m_inode st) Hc Hbuf) as [Hbuf1 Hblk].
  destruct (write_inode (m_fs st) fl F ino 1 (strncpy_block c (m_inode st)))
    as (s1 & fl1 & -> & Hs1 & Hwf1 & HF1 & Hfl1); try done; try lia.
  { apply Hempty. lia. } { unfold ino_ok. lia. }
  rewrite bind_ret. cbn [seq fmap list_fmap] in HF1. rewrite Hblk in HF1.
  assert (Z.to_nat ino < length F)%nat as Hlt by (eapply lookup_lt_Some, Hempty; lia).
  replace (Z.to_nat (ino + 1)) with (S (Z.to_nat ino)) in * by lia.
  destruct (IH (ino + 1) (MkfsState s1 (strncpy_block c (m_inode st)) (m_bin_dir st) (m_app_ino st)) fl1
              (<[Z.to_nat ino := [padded c]]> F))
    as (st' & fl' & F' & E & Hb' & Hs' & Hwf' & HF' & Hd' & Ha' & Hin & Hout & Hfl'); try done; try lia.
  { intros i Hi'. rewrite list_lookup_insert_ne by lia. apply Hempty. lia. }
  exists st', fl', F'. replace (Z.to_nat (ino + 1)) with (S (Z.to_nat ino)) in * by lia.
  split_and!; try done; [| |lia].
  - intros [|k] c' Hk; cbn in Hk.
    + injection Hk as <-. rewrite Nat.add_0_r, Hout by lia. by apply list_lookup_insert_eq.
    + rewrite <- (Hin k c' Hk). f_equal. lia.
  - intros i Hi'. rewrite Hout by lia. apply list_lookup_insert_ne. lia.
Qed.

(** *** The applications *)
Definition elf_apps (apps : list (list Z * list Z)) : list (list Z * list Z) :=
  filter (λ a, has_elf a.1) apps.

Definition app_entry (name : list Z) (ino : Z) : list Z :=
  take (length name - 4) name ++ pad4 ino ++ [SPACE].

(** The text of /bin after the applications have been added. *)
Fixpoint bin_text (dir : list Z) (ino : Z) (apps : list (list Z * list Z)) : list Z :=
  match apps with
  | [] => dir
  | (name, _) :: apps =>
      if has_elf name then bin_text (dir ++ app_entry name ino) (ino + 1) apps
      else bin_text dir ino apps
  end.

Fixpoint total_blocks (apps : list (list Z * list Z)) : nat :=
  match apps with
  | [] => O
  | (name, data) :: apps => (if has_elf name then nblocks (length data) else O) + total_blocks apps
  end.

(** The file has just enough blocks and their bytes are the data (the rest of
    the last block is what the buffer held before). *)
Definition holds_data (f : list block_t) (data : list Z) : Prop :=
  length f = nblocks (length data) ∧ Forall block_ok f ∧ ∀ b, (b < nblocks (length data))%nat → ∃ blk,
    f !! b = Some blk ∧ take (length data - 512 * b) blk = take 512 (drop (512 * b) data).

Lemma nblocks_bounds n : (n ≤ 512 * nblocks n < n + 512)%nat.
Proof. unfold nblocks. pose proof (Nat.div_mod (n + 511) 512). pose proof (Nat.mod_upper_bound (n + 511) 512). lia. Qed.

Lemma holds_data_blocks data inode : (512 * nblocks (length data) ≤ length (data ++ inode))%nat →
  holds_data (inode_block (data ++ inode) <$> seq 0 (nblocks (length data))) data.
Proof.
  intros Hlen. split; [by rewrite length_fmap, length_seq|]. split.
  { apply Forall_fmap, Forall_forall. intros b Hb%elem_of_seq.
    unfold compose, block_ok, inode_block. rewrite length_take, length_drop. lia. }
  intros b Hb. pose proof (nblocks_bounds (length data)).
  exists (inode_block (data ++ inode) b). split.
  - rewrite list_lookup_fmap, lookup_seq_lt by done. done.
  - unfold inode_block. rewrite drop_app_le by lia. rewrite take_take.
    destruct (decide (512 ≤ length data - 512 * b)%nat).
    + rewrite Nat.min_r by lia. rewrite take_app_le; [done|]. rewrite length_drop. lia.
    + rewrite Nat.min_l by lia. rewrite take_app_le by (rewrite length_drop; lia).
      rewrite !take_ge; [done| |]; rewrite length_drop; lia.
Qed.

Lemma bin_text_length apps : ∀ dir ino, (length dir ≤ length (bin_text dir ino apps))%nat.
Proof.
  induction apps as [|[name data] apps IH]; intros dir ino; [done|]. cbn [bin_text].
  destruct (has_elf name); [|apply IH]. pose proof (IH (dir ++ app_entry name ino) (ino + 1)) as H.
  rewrite length_app in H. lia.
Qed.

(** A state of mkfs with the abstract files [F] and [n] blocks to spare. *)
Definition mkfs_ok (st : mkfs_state) (F : list (list block_t)) (n : nat) : Prop :=
  ibuf_ok (m_inode st) ∧ ds_inv ramdisk 0 (m_fs st) ∧ files (m_fs st) 2 = F ∧
  ∃ fl, fs_wf (m_fs st) 2 fl ∧ (11 * n ≤ length fl)%nat.

Lemma write_app_spec name data st F n : mkfs_ok st F (nblocks (length data) + n) → has_elf name = true →
  Z.of_nat (length data) ≤ SIZE_2MB → 0 ≤ m_app_ino st < 128 → F !! Z.to_nat (m_app_ino st) = Some [] →
  (length (m_bin_dir st ++ app_entry name (m_app_ino st)) < 256)%nat → ∃ st' f,
  write_app (name, data) st = Ret st' ∧ holds_data f data ∧
  mkfs_ok st' (<[Z.to_nat (m_app_ino st) := f]> F) n ∧
  m_bin_dir st' = m_bin_dir st ++ app_entry name (m_app_ino st) ∧ m_app_ino st' = m_app_ino st + 1.
Proof.
  intros (Hbuf & Hs & HF & fl & Hwf & Hfl) Helf Hdata Hino Hempty Hdir. unfold write_app. rewrite Helf.
  unfold ibuf_ok in Hbuf. rewrite bool_decide_true by lia.
  set (inode := data ++ drop (length data) (m_inode st)).
  assert (ibuf_ok inode) as Hbuf1.
  { unfold ibuf_ok, inode. rewrite length_app, length_drop. lia. }
  pose proof (nblocks_bounds (length data)) as Hnb.
  destruct (write_inode (m_fs st) fl F (m_app_ino st) (nblocks (length data)) inode)
    as (s1 & fl1 & -> & Hs1 & Hwf1 & HF1 & Hfl1); try done.
  { unfold SIZE_2MB in *. lia. } { lia. }
  rewrite bind_ret. rewrite bool_decide_true by done. eexists _, _. split; [done|].
  split; [apply (holds_data_blocks data (drop (length data) (m_inode st)));
    unfold ibuf_ok, inode, SIZE_2MB in Hbuf1, Hdata; lia|]. split; [|done].
  split_and!; [exact Hbuf1|done|done|]. exists fl1. split; [done|]. lia.
Qed.

Lemma write_apps_spec apps : ∀ st F n, mkfs_ok st F (total_blocks apps + n) →
  Forall (λ a, Z.of_nat (length a.2) ≤ SIZE_2MB) apps →
  0 ≤ m_app_ino st → m_app_ino st + Z.of_nat (length (elf_apps apps)) ≤ 128 →
  (∀ i, Z.to_nat (m_app_ino st) ≤ i < 128 → F !! i = Some [])%nat →
  (length (bin_text (m_bin_dir st) (m_app_ino st) apps) < 256)%nat → ∃ st' F',
  write_apps apps st = Ret st' ∧ mkfs_ok st' F' n ∧
  m_bin_dir st' = bin_text (m_bin_dir st) (m_app_ino st) apps ∧
  (∀ k name data, elf_apps apps !! k = Some (name, data) → ∃ f,
     F' !! (Z.to_nat (m_app_ino st) + k)%nat = Some f ∧ holds_data f data) ∧
  (∀ i, (i < Z.to_nat (m_app_ino st))%nat → F' !! i = F !! i).
Proof.
  induction apps as [|[name data] apps IH]; intros st F n Hok Hdata Hino Hmax Hempty Hdir.
  { exists st, F. split_and!; try done. }
  apply Forall_cons in Hdata as [Hd Hdata]. cbn [write_apps bin_text total_blocks] in *.
  unfold elf_apps in *. rewrite filter_cons in *. cbn [fst snd] in *.
  destruct (has_elf name) eqn:Helf.
  - rewrite decide_True in * by done. cbn [length] in Hmax. rewrite <- Nat.add_assoc in Hok.
    pose proof (bin_text_length apps (m_bin_dir st ++ app_entry name (m_app_ino st)) (m_app_ino st + 1)).
    destruct (write_app_spec name data st F (total_blocks apps + n)) as (st1 & f & -> & Hf & Hok1 & Hd1 & Hi1);
      try done; try lia. { apply Hempty. lia. }
    assert (Z.to_nat (m_app_ino st) < length F)%nat as Hlt by (eapply lookup_lt_Some, Hempty; lia).
    rewrite bind_ret. destruct (IH st1 _ n Hok1) as (st' & F' & E & Hok' & Hd' & Hin & Hout);
      [done|lia|lia| |by rewrite Hd1, Hi1|].
    { intros i Hi. rewrite list_lookup_insert_ne by lia. apply Hempty. lia. }
    rewrite Hd1, Hi1 in *. exists st', F'.
    replace (Z.to_nat (m_app_ino st + 1)) with (S (Z.to_nat (m_app_ino st))) in * by lia.
    split_and!; try done.
    + intros [|k] name' data' Hk; cbn in Hk.
      * injection Hk as <- <-. exists f. split; [|done].
        rewrite Nat.add_0_r, Hout by lia. by apply list_lookup_insert_eq.
      * destruct (Hin k name' data' Hk) as (g & Hg & ?). exists g. split; [|done].
        rewrite <- Hg. f_equal. lia.
    + intros i Hi. rewrite Hout by lia. apply list_lookup_insert_ne. lia.
  - rewrite decide_False in * by auto.
    unfold write_app. rewrite Helf, bind_ret. by apply IH.
Qed.

(** ** The booted system reads what mkfs wrote *)
Import Flash.

Lemma fresh_files s : (∀ ino, ino_ok 2 ino → size_of s ino = 0) →
  ∀ i, (i < 128)%nat → files s 2 !! i = Some [].
Proof.
  intros Hsz i Hi. rewrite <- (Nat2Z.id i), files_lookup by (unfold ino_ok; lia).
  unfold file_of. by rewrite Hsz by (unfold ino_ok; lia).
Qed.

Lemma contents_short : Forall (λ c, length c ≤ 512)%nat contents.
Proof. apply (bool_decide_unpack _). vm_compute. exact I. Qed.

Lemma contents_nth k c : contents !! k = Some c → (k < 6)%nat.
Proof. intros H. by apply lookup_lt_Some in H. Qed.

(** The file system part of the image. *)
Lemma image_blocks exec fs : length exec = 4096%nat → length fs = 4096%nat →
  fs_blocks (disk_init (exec ++ mjoin (replicate 15 fs))) = fs.
Proof.
  intros He Hf. unfold fs_blocks, disk_init; cbn [Flash.type rom].
  change (Z.to_nat FILE_SYS_DISK_START) with (Z.to_nat 4096). change fs_nblocks with (Z.to_nat 4096).
  rewrite drop_app_length' by lia.
  change (mjoin (replicate 15 fs)) with (fs ++ mjoin (replicate 14 fs)). apply take_app_length'. lia.
Qed.

Lemma image_prefix exec (fs : list block_t) : exec ++ fs `prefix_of` exec ++ mjoin (replicate 15 fs).
Proof. exists (mjoin (replicate 14 fs)). by rewrite <- (assoc_L (++)). Qed.

(** What fits on the disk: at most 11 blocks are taken per block written. *)
Definition apps_ok (apps : list (list Z * list Z)) : Prop :=
  Forall (λ a, Z.of_nat (length a.2) ≤ SIZE_2MB) apps ∧ (length (elf_apps apps) ≤ 121)%nat ∧
  (11 * (total_blocks apps + 7) ≤ 4093)%nat ∧ (length (bin_text bin_dir_init 7 apps) < 256)%nat.

(** The last write: the directory /bin. *)
Lemma write_bin_dir st F after : mkfs_ok st F 1 → F !! 6%nat = Some [] →
  (length (m_bin_dir st) < 256)%nat → (256 ≤ length after)%nat → ∃ fs fl,
  run_writes ramdisk 0 (m_fs st) [(BIN_DIR_INODE, 0, bin_block (m_bin_dir st) after)] = Ret fs ∧
  ds_inv ramdisk 0 fs ∧ fs_wf fs 2 fl ∧
  files fs 2 = <[6%nat := [bin_block (m_bin_dir st) after]]> F.
Proof.
  intros (_ & Hs & HF & fl & Hwf & Hfl) H6 Hdir Hafter. set (bb := bin_block (m_bin_dir st) after).
  destruct (@run_writes_spec _ ramdisk 0 (ramdisk_store 0) [(BIN_DIR_INODE, 0, bb)] (m_fs st) 2 fl Hs Hwf)
    as (s' & fl' & E & Hs' & Hwf' & HF' & _).
  { constructor; [|constructor]. split; [unfold BIN_DIR_INODE, ino_ok; lia|]. split; [lia|].
    unfold block_ok, bb, bin_block. len. }
  { exact Hfl. }
  exists s', fl'. split; [exact E|]. split; [exact Hs'|]. split; [exact Hwf'|].
  etrans; [exact HF'|]. change (ds_blocks ramdisk 0 (m_fs st)) with (m_fs st). rewrite HF.
  cbn. unfold spec_write. change (Z.to_nat BIN_DIR_INODE) with 6%nat. apply list_eq. intros i.
  apply lookup_lt_Some in H6 as Hlt. destruct (decide (i = 6%nat)) as [->|Hne].
  - by rewrite list_lookup_alter_eq, list_lookup_insert_eq, H6.
  - by rewrite list_lookup_alter_ne, list_lookup_insert_ne.
Qed.

Lemma mkfs_files exec apps after : apps_ok apps → (256 ≤ length after)%nat → ∃ fs fl F,
  mkfs exec apps after = Ret (exec ++ fs, exec ++ mjoin (replicate 15 fs)) ∧ length fs = 4096%nat ∧
  fs_wf fs 2 fl ∧ files fs 2 = F ∧
  (∀ k c, contents !! k = Some c → F !! k = Some [padded c]) ∧
  F !! 6%nat = Some [bin_block (bin_text bin_dir_init 7 apps) after] ∧
  (∀ k name data, elf_apps apps !! k = Some (name, data) → ∃ f, F !! (7 + k)%nat = Some f ∧ holds_data f data).
Proof.
  intros (Hdata & Hcnt & Htot & Hdir) Hafter. unfold mkfs.
  destruct mkfs_created as (s0 & fl0 & E0 & Hs0 & Hwf0 & Hl0 & Hsz0).
  change NINODES with 128. rewrite E0, bind_ret. cbn [ASSERT Z.leb Z.compare]. rewrite bind_ret.
  assert (ibuf_ok (zeros (Z.to_nat SIZE_2MB))) as Hz.
  { unfold ibuf_ok. by rewrite length_zeros, Z2Nat.id by (unfold SIZE_2MB; lia). }
  revert Hz. generalize (zeros (Z.to_nat SIZE_2MB)) as ibuf. intros ibuf Hz.
  set (st0 := MkfsState s0 ibuf _ _).
  assert (∀ i, (Z.to_nat 0 ≤ i < Z.to_nat 0 + length contents)%nat → files s0 2 !! i = Some []) as Hemp.
  { intros i Hi. apply fresh_files; [exact Hsz0|]. cbn [length contents] in Hi. lia. }
  destruct (write_contents_spec contents 0 st0 fl0 (files s0 2) contents_short Hz Hs0 Hwf0 eq_refl
              ltac:(lia) ltac:(cbn [length contents]; lia) Hemp ltac:(cbn [length contents]; lia))
    as (st1 & fl1 & F1 & E1 & Hb1 & Hs1 & Hwf1 & HF1 & Hd1 & Ha1 & Hin1 & Hout1 & Hfl1).
  cbn zeta. rewrite E1, bind_ret. cbn [length contents] in Hfl1, Hout1.
  destruct (write_apps_spec apps st1 F1 1) as (st2 & F2 & E2 & Hok2 & Hd2 & Hin2 & Hout2).
  { split; [exact Hb1|]. split; [exact Hs1|]. split; [exact HF1|]. exists fl1. split; [exact Hwf1|lia]. }
  { exact Hdata. } { rewrite Ha1. cbn [m_app_ino st0]. unfold BIN_DIR_INODE. lia. }
  { rewrite Ha1. cbn [m_app_ino st0]. unfold BIN_DIR_INODE. lia. }
  { rewrite Ha1. cbn [m_app_ino st0]. unfold BIN_DIR_INODE. intros i Hi.
    rewrite Hout1 by lia. apply fresh_files; [exact Hsz0|lia]. }
  { rewrite Hd1, Ha1. exact Hdir. }
  rewrite Ha1, Hd1 in *. cbn [m_app_ino m_bin_dir st0] in *. rewrite E2, bind_ret.
  change (Z.to_nat (BIN_DIR_INODE + 1)) with 7%nat in *. change (BIN_DIR_INODE + 1) with 7 in *.
  assert (F2 !! 6%nat = Some []) as H6.
  { rewrite Hout2, Hout1 by lia. apply fresh_files; [exact Hsz0|lia]. }
  destruct (write_bin_dir st2 F2 after Hok2) as (s3 & fl3 & E3 & Hs3 & Hwf3 & HF3);
    [exact H6|rewrite Hd2; exact Hdir|exact Hafter|].
  rewrite E3, bind_ret. rewrite Hd2 in HF3.
  exists s3, fl3, (<[6%nat := [bin_block (bin_text bin_dir_init 7 apps) after]]> F2).
  split; [reflexivity|]. split; [exact Hs3|]. split; [exact Hwf3|]. split; [exact HF3|]. split_and!.
  - intros k c Hk. pose proof (contents_nth k c Hk). rewrite list_lookup_insert_ne, Hout2 by lia.
    exact (Hin1 k c Hk).
  - apply list_lookup_insert_eq. by apply lookup_lt_Some in H6.
  - intros k name data Hk. rewrite list_lookup_insert_ne by lia. exact (Hin2 k name data Hk).
Qed.

(** The images, with the abstract files [F] that the booted file system serves. *)
Lemma mkfs_image exec apps after : apps_ok apps → (256 ≤ length after)%nat →
  length exec = 4096%nat → ∃ img rom F, mkfs exec apps after = Ret (img, rom) ∧ img `prefix_of` rom ∧
  (∀ ino off buf, treedisk_read disk_store 0 7 (disk_init rom) (Z.of_nat ino) (Z.of_nat off) buf
     = match spec_read F ino off with Some b => Ret (0, b) | None => Ret (-1, buf) end) ∧
  (∀ k c, contents !! k = Some c → F !! k = Some [padded c]) ∧
  F !! 6%nat = Some [bin_block (bin_text bin_dir_init 7 apps) after] ∧
  (∀ k name data, elf_apps apps !! k = Some (name, data) → ∃ f, F !! (7 + k)%nat = Some f ∧ holds_data f data).
Proof.
  intros Happs Hafter Hexec.
  destruct (mkfs_files exec apps after Happs Hafter) as (fs & fl & F & -> & Hlen & Hwf & HF & Hc & H6 & Ha).
  eexists _, _, F. split; [done|]. split; [apply image_prefix|]. split; [|done].
  intros ino off buf. set (d := disk_init _).
  assert (ds_blocks disk_store 0 d = fs) as Hd by (by apply image_blocks).
  rewrite (read_files disk_store 0 d 2 fl) by (rewrite ?Hd; (done || lia)).
  by rewrite Hd, HF, !Nat2Z.id.
Qed.

(** C8: from the image builder to the booted reader.  When the applications
    fit, mkfs terminates without a fault, the disk image starts the flash
    image, and on the flash image
    the file system mounted by the file server returns: for the inodes of
    the directories and the README their text padded with zeros, for /bin
    the list of all applications, and for every application exactly the
    blocks of its binary and an error after them. *)
Theorem mkfs_boots exec apps after buf : apps_ok apps → (256 ≤ length after)%nat →
  length exec = 4096%nat → ∃ img rom, mkfs exec apps after = Ret (img, rom) ∧ img `prefix_of` rom ∧
  let d := disk_init rom in
  (∀ k c, contents !! k = Some c → treedisk_read disk_store 0 7 d (Z.of_nat k) 0 buf = Ret (0, padded c)) ∧
  treedisk_read disk_store 0 7 d BIN_DIR_INODE 0 buf
    = Ret (0, bin_block (bin_text bin_dir_init 7 apps) after) ∧
  (∀ k name data, elf_apps apps !! k = Some (name, data) →
     (∀ b, (b < nblocks (length data))%nat → ∃ blk,
        treedisk_read disk_store 0 7 d (7 + Z.of_nat k) (Z.of_nat b) buf = Ret (0, blk) ∧
        take (length data - 512 * b) blk = take 512 (drop (512 * b) data)) ∧
     ∀ b, (nblocks (length data) ≤ b)%nat →
        treedisk_read disk_store 0 7 d (7 + Z.of_nat k) (Z.of_nat b) buf = Ret (-1, buf)).
Proof.
  intros Happs Hafter Hexec.
  destruct (mkfs_image exec apps after Happs Hafter Hexec) as (img & rom & F & E & Hp & Hread & Hc & H6 & Ha).
  exists img, rom. split; [exact E|]. split; [exact Hp|]. cbn zeta. split_and!.
  - intros k c Hk. etrans; [exact (Hread k 0%nat buf)|]. unfold spec_read. by rewrite (Hc k c Hk).
  - etrans; [exact (Hread 6%nat 0%nat buf)|]. unfold spec_read. by rewrite H6.
  - intros k name data Hk. destruct (Ha k name data Hk) as (f & Hf & Hlf & _ & Hblocks).
    replace (7 + Z.of_nat k) with (Z.of_nat (7 + k)) by lia. split.
    + intros b Hb. destruct (Hblocks b Hb) as (blk & Hblk & Htake). exists blk. split; [|done].
      rewrite Hread. unfold spec_read. rewrite Hf. cbn. by rewrite Hblk.
    + intros b Hb. rewrite Hread. unfold spec_read. rewrite Hf. cbn.
      by rewrite lookup_ge_None_2 by lia.
Qed.

Definition demo_apps : list (list Z * list Z) :=
  [(str "README.txt", [1]); (str "ls.elf", replicate 600 7); (str "cat.elf", replicate 100 9)].

Lemma mkfs_boots_witness : ∃ img rom, mkfs (replicate 4096 null_block) demo_apps (zeros 256) = Ret (img, rom) ∧
  treedisk_read disk_store 0 7 (disk_init rom) 6 0 null_block
    = Ret (0, bin_block (str "./   6 ../   0 ls   7 cat   8 ") (zeros 256)).
Proof.
  destruct (mkfs_boots (replicate 4096 null_block) demo_apps (zeros 256) null_block)
    as (img & rom & E & _ & _ & H & _).
  - apply (bool_decide_unpack _). vm_compute. exact I.
  - rewrite length_zeros. lia.
  - apply length_replicate.
  - exists img, rom. split; [exact E|].
    replace (str "./   6 ../   0 ls   7 cat   8 ") with (bin_text bin_dir_init 7 demo_apps)
      by (vm_compute; reflexivity). exact H.
Defined.
