(* ===== verification/BootPaths.v ===== *)
(** * Finding the applications on the booted system

    Puts mkfs.c, the file system, the file server and [dir_lookup] together:
    the text of /bin that mkfs builds is a directory in the sense of
    [Directory], so that every application can be looked up by its name. *)
From S2P Require Import Prelude InodeStore Treedisk Process FileServer CString Directory TreediskSpec Mkfs.
Import Flash.

(** The name of an application: the host's file name without ".elf". *)
Definition app_name (name : list Z) : list Z := take (length name - 4) name.

(** A file name of the host that is not a number. *)
Definition name_ok (nm : list Z) : Prop :=
  word nm ∧ Forall (λ c, c ≠ 0 ∧ c ≠ 47) nm ∧ Exists (λ c, is_digit c = false) nm.

#[global] Instance name_ok_dec nm : Decision (name_ok nm).
Proof. unfold name_ok. apply _. Defined.

(** The entries of /bin. *)
Fixpoint app_entries (ino : Z) (apps : list (list Z * list Z)) : list entry :=
  match apps with
  | [] => []
  | (name, _) :: apps => Entry (app_name name) (3 - length (dec ino)) ino :: app_entries (ino + 1) apps
  end.
Definition bin_entries (apps : list (list Z * list Z)) : list entry :=
  Entry (str "./") 2 6 :: Entry (str "../") 2 0 :: app_entries 7 (elf_apps apps).

Lemma dec_short n : 0 ≤ n < 129 → (length (dec n) ≤ 3)%nat.
Proof.
  intros Hn. assert (Forall (λ n, length (dec n) ≤ 3)%nat (seqZ 0 129)) as H.
  { apply (bool_decide_unpack _). vm_compute. exact I. }
  rewrite Forall_forall in H. apply H, elem_of_seqZ. lia.
Qed.

Lemma app_entry_render name ino : 0 ≤ ino < 129 →
  app_entry name ino = render_entry (Entry (app_name name) (3 - length (dec ino)) ino).
Proof.
  intros Hi. pose proof (dec_short ino Hi). unfold app_entry, render_entry, pad4; cbn [e_name e_pad e_ino].
  replace (4 - length (dec ino))%nat with (S (3 - length (dec ino))) by lia.
  by rewrite <- !(assoc_L (++)).
Qed.

Lemma render_app es es' : render (es ++ es') = render es ++ render es'.
Proof. unfold render. by rewrite fmap_app, join_app. Qed.

Lemma bin_text_render apps : ∀ es ino, 0 ≤ ino → ino + Z.of_nat (length (elf_apps apps)) ≤ 128 →
  bin_text (render es) ino apps = render (es ++ app_entries ino (elf_apps apps)).
Proof.
  induction apps as [|[name data] apps IH]; intros es ino Hi Hmax; [by rewrite app_nil_r|].
  unfold elf_apps in *. cbn [bin_text]. rewrite filter_cons in *. cbn [fst] in *.
  destruct (has_elf name); [rewrite decide_True in * by done|rewrite decide_False in * by auto].
  - cbn [length app_entries] in *. rewrite app_entry_render by lia.
    replace (render es ++ render_entry _) with (render (es ++ [Entry (app_name name) (3 - length (dec ino)) ino]))
      by (rewrite render_app; f_equal; apply app_nil_r).
    rewrite IH by lia. by rewrite <- (assoc_L (++)).
  - by apply IH.
Qed.

Lemma bin_dir_text apps : (length (elf_apps apps) ≤ 121)%nat →
  bin_text bin_dir_init 7 apps = render (bin_entries apps).
Proof.
  intros H. change bin_dir_init with (render [Entry (str "./") 2 6; Entry (str "../") 2 0]).
  by rewrite bin_text_render by lia.
Qed.

Lemma app_entries_ok apps : ∀ ino, Forall (λ a, name_ok (app_name a.1)) apps → 0 ≤ ino →
  ino + Z.of_nat (length apps) ≤ 128 → Forall entry_ok (app_entries ino apps) ∧
  Forall (λ e, 0 ≤ e_ino e < 128) (app_entries ino apps) ∧
  e_name <$> app_entries ino apps = app_name ∘ fst <$> apps ∧
  ∀ k a, apps !! k = Some a → app_entries ino apps !! k =
    Some (Entry (app_name a.1) (3 - length (dec (ino + Z.of_nat k))) (ino + Z.of_nat k)).
Proof.
  induction apps as [|[name data] apps IH]; intros ino Hok Hi Hmax; [split_and!; try done; constructor|].
  apply Forall_cons in Hok as [(Hw & Hz & _) Hok]. cbn [length app_entries] in *.
  destruct (IH (ino + 1) Hok ltac:(lia) ltac:(lia)) as (IH1 & IH2 & IH3 & IH4). split_and!.
  - constructor; [|done]. split_and!; cbn; [by apply Hw..| |lia|lia].
    eapply Forall_impl; [exact Hz|]. by intros c [? _].
  - constructor; [cbn; lia|done].
  - rewrite !fmap_cons. by rewrite IH3.
  - intros [|k] a Hk; cbn in Hk.
    + injection Hk as <-. cbn. by rewrite Z.add_0_r.
    + etrans; [exact (IH4 k a Hk)|]. replace (ino + 1 + Z.of_nat k) with (ino + Z.of_nat (S k)) by lia. done.
Qed.

Lemma name_not_number nm n : name_ok nm → 0 ≤ n < 10 ^ 10 → dec n ≠ nm.
Proof.
  intros (_ & _ & Hex) Hn <-. destruct (dec_spec n Hn) as (_ & Hall & _).
  apply Exists_exists in Hex as (c & Hc & Hd). rewrite Forall_forall in Hall.
  rewrite (Hall c Hc) in Hd. done.
Qed.

(** Applications with usable, distinct names. *)
Definition names_ok (apps : list (list Z * list Z)) : Prop :=
  Forall (λ a, name_ok (app_name a.1)) (elf_apps apps) ∧
  NoDup (app_name ∘ fst <$> elf_apps apps).

#[global] Instance names_ok_dec apps : Decision (names_ok apps).
Proof. unfold names_ok. apply _. Defined.

Lemma no_slash nm x : Forall (λ c, c ≠ 0 ∧ c ≠ 47) nm → 47 ∈ x → x ≠ nm.
Proof. intros Hnm Hx ->. rewrite Forall_forall in Hnm. by destruct (Hnm 47 Hx) as [_ ?]. Qed.

Lemma bin_entries_ok apps : names_ok apps → (length (elf_apps apps) ≤ 121)%nat →
  Forall entry_ok (bin_entries apps) ∧ NoDup (e_name <$> bin_entries apps) ∧
  Forall (λ e, 0 ≤ e_ino e < 128) (bin_entries apps).
Proof.
  intros [Hok Hnd] Hn.
  destruct (app_entries_ok (elf_apps apps) 7 Hok ltac:(lia) ltac:(lia)) as (H1 & H2 & H3 & _).
  unfold bin_entries. rewrite !fmap_cons, H3. cbn [e_name].
  assert (∀ x, 47 ∈ x → x ∉ (app_name ∘ fst <$> elf_apps apps)) as Hslash.
  { intros x Hx Hin. apply list_elem_of_fmap in Hin as (a & -> & Ha). rewrite Forall_forall in Hok.
    destruct (Hok a Ha) as (_ & Hz & _). by eapply (no_slash (app_name a.1)) in Hz. }
  split_and!.
  - repeat constructor; try done.
  - apply NoDup_cons. split; [apply not_elem_of_cons; split; [by vm_compute|]|apply NoDup_cons; split; [|done]];
      apply Hslash, (bool_decide_unpack _); vm_compute; exact I.
  - repeat constructor; try done.
Qed.

(** A lookup on the booted system, in a directory of one block. *)
Lemma booted_lookup rom F ino es rest name junk stale stale' :
  (∀ ino off buf, treedisk_read disk_store 0 7 (disk_init rom) (Z.of_nat ino) (Z.of_nat off) buf
     = match FileSpec.spec_read F ino off with Some b => Ret (0, b) | None => Ret (-1, buf) end) →
  F !! ino = Some [render es ++ 0 :: rest] → length (render es ++ 0 :: rest) = 512%nat →
  Z.of_nat ino < 2 ^ 32 → length junk = 512%nat → length stale = SYSCALL_MSG_LEN →
  dir_lookup (treedisk_init disk_store 0 7) (disk_init rom) (Z.of_nat ino) (name ++ [0]) junk stale stale'
  = dir_search (name ++ [0]) (render es ++ 0 :: rest).
Proof.
  intros Hread HF Hlen Hino Hj Hs.
  rewrite (dir_lookup_block _ _ _ _ _ _ _ 0 (render es ++ 0 :: rest)); try done; [lia|].
  - intros buf _. etrans; [exact (Hread ino 0%nat buf)|]. unfold FileSpec.spec_read. by rewrite HF.
Qed.

Lemma bin_block_text dir after : (length dir < 256)%nat → (256 ≤ length after)%nat →
  let rest := zeros (255 - length dir) ++ take 256 after in
  bin_block dir after = dir ++ 0 :: rest ∧ length (dir ++ 0 :: rest) = 512%nat.
Proof.
  intros Hd Ha rest. subst rest.
  assert (bin_block dir after = dir ++ 0 :: zeros (255 - length dir) ++ take 256 after) as E.
  { unfold bin_block. replace (256 - length dir)%nat with (S (255 - length dir)) by lia.
    rewrite (assoc_L (++)), take_app_ge by len.
    replace (512 - _)%nat with 256%nat by len.
    by rewrite <- (assoc_L (++)). }
  split; [done|]. rewrite length_app. cbn [length]. rewrite length_app, length_zeros, length_take. lia.
Qed.

Lemma app_name_fits apps k a : elf_apps apps !! k = Some a → (length (elf_apps apps) ≤ 121)%nat →
  names_ok apps → (length (app_name a.1) ≤ length (render (bin_entries apps)))%nat.
Proof.
  intros Hk Hn [Hok _].
  destruct (app_entries_ok (elf_apps apps) 7 Hok ltac:(lia) ltac:(lia)) as (_ & _ & _ & H4).
  pose proof (H4 k a Hk) as He.
  apply list_elem_of_split_length in He as (l1 & l2 & Heq & _). unfold bin_entries. rewrite Heq.
  rewrite !app_comm_cons, render_app, length_app.
  change (render (?e :: l2)) with (render_entry e ++ render l2).
  rewrite length_app. unfold render_entry. rewrite length_app. cbn [e_name]. lia.
Qed.

(** The booted file system [F] and the lookups in it. *)
Lemma booted_apps exec apps after junk stale stale' : apps_ok apps → names_ok apps →
  (256 ≤ length after)%nat → length exec = 4096%nat →
  length junk = 512%nat → length stale = SYSCALL_MSG_LEN → ∃ img rom F,
  mkfs exec apps after = Ret (img, rom) ∧
  (∀ ino off buf, treedisk_read disk_store 0 7 (disk_init rom) (Z.of_nat ino) (Z.of_nat off) buf
     = match FileSpec.spec_read F ino off with Some b => Ret (0, b) | None => Ret (-1, buf) end) ∧
  (∀ k name data, elf_apps apps !! k = Some (name, data) → ∃ f, F !! (7 + k)%nat = Some f ∧ holds_data f data) ∧
  let lookup ino name :=
    dir_lookup (treedisk_init disk_store 0 7) (disk_init rom) ino (name ++ [0]) junk stale stale' in
  lookup 0 (str "bin/") = Ret BIN_DIR_INODE ∧
  (∀ k a, elf_apps apps !! k = Some a → lookup BIN_DIR_INODE (app_name a.1) = Ret (7 + Z.of_nat k)) ∧
  (∀ name, word name → Forall (λ c, c ≠ 0) name →
     (length name ≤ length (bin_text bin_dir_init 7 apps))%nat →
     lookup BIN_DIR_INODE name = Ret (spec_search name (bin_entries apps))) ∧
  (∀ name, name_ok name → name ∉ (app_name ∘ fst <$> elf_apps apps) →
     spec_search name (bin_entries apps) = -1) ∧
  (∀ name, Forall (λ c, c ≠ 0) name → (length (bin_text bin_dir_init 7 apps) < length name)%nat →
     Z.of_nat (length name) < 2 ^ 31 → SPACE ∉ take 256 after →
     lookup BIN_DIR_INODE name = Fault (Undef "read outside the array")).
Proof.
  intros Happs Hnames Hafter Hexec Hj Hs. pose proof Happs as (_ & Hcnt & _ & Hdir).
  destruct (mkfs_image exec apps after Happs Hafter Hexec) as (img & rom & F & E & _ & Hread & Hc & H6 & Hfiles).
  exists img, rom, F. split; [exact E|]. split; [exact Hread|]. split; [exact Hfiles|]. cbn zeta. rewrite bin_dir_text in * by done.
  destruct (bin_entries_ok apps Hnames Hcnt) as (Hes & Hnd & Hinos).
  destruct (bin_block_text _ after Hdir Hafter) as [Hblk Hlen]. rewrite Hblk in H6.
  set (rest := zeros (255 - _) ++ _) in *.
  assert (∀ nm, dir_lookup (treedisk_init disk_store 0 7) (disk_init rom) BIN_DIR_INODE (nm ++ [0]) junk stale stale'
                = dir_search (nm ++ [0]) (render (bin_entries apps) ++ 0 :: rest)) as Hlook.
  { intros nm. apply (booted_lookup rom F 6 _ rest _ _ _ _ Hread H6 Hlen ltac:(lia) Hj Hs). }
  assert (∀ nm, word nm → Forall (λ c, c ≠ 0) nm → (length nm ≤ length (render (bin_entries apps)))%nat →
    dir_lookup (treedisk_init disk_store 0 7) (disk_init rom) BIN_DIR_INODE (nm ++ [0]) junk stale stale'
    = Ret (spec_search nm (bin_entries apps))) as Hfind.
  { intros nm Hw Hz Hfits. rewrite Hlook. apply (dir_search_exact nm (bin_entries apps) rest Hw Hz Hes Hfits). lia. }
  assert (∀ nm, name_ok nm → spec_search nm (bin_entries apps) = spec_lookup nm (bin_entries apps)) as Hplain.
  { intros nm Hnm. apply spec_search_lookup. eapply Forall_impl; [exact Hinos|].
    intros e He. cbn beta in He. apply name_not_number; [done|lia]. }
  pose proof Hnames as [Hok _].
  destruct (app_entries_ok (elf_apps apps) 7 Hok ltac:(lia) ltac:(lia)) as (_ & _ & H3 & H4).
  split_and!.
  - assert (padded (str "./   0 ../   0 home/   1 bin/   6 ") = render root_entries ++ 0 :: zeros 477) as Hroot
      by (vm_compute; reflexivity).
    pose proof (Hc 0%nat _ eq_refl) as H0. rewrite Hroot in H0.
    etrans; [apply (booted_lookup rom F 0 root_entries (zeros 477) (str "bin/") junk stale stale' Hread H0);
      try exact Hj; try exact Hs; apply (bool_decide_unpack _); vm_compute; exact I|].
    vm_compute. reflexivity.
  - intros k a Hk. assert (name_ok (app_name a.1)) as Hnm by (by eapply Forall_lookup_1 in Hok; [exact Hok|]).
    pose proof Hnm as (Hw & Hz & _). rewrite Hfind, Hplain; [|done|done| |by eapply app_name_fits].
    + f_equal. exact (spec_lookup_nth (bin_entries apps) (S (S k)) _ Hnd (H4 k a Hk)).
    + eapply Forall_impl; [exact Hz|]. by intros c [? _].
  - done.
  - intros nm Hnm Hni. rewrite Hplain by done. apply spec_lookup_none.
    unfold bin_entries. rewrite !fmap_cons, H3. cbn [e_name]. destruct Hnm as (_ & Hz & _).
    rewrite !not_elem_of_cons. split; [|split; [|exact Hni]];
      (apply not_eq_sym, no_slash; [exact Hz|apply (bool_decide_unpack _); vm_compute; exact I]).
  - intros nm Hz Hlong Hmax Hsp. rewrite Hlook. apply (dir_search_long (render (bin_entries apps)) rest nm); [|exact Hz|exact Hlong|exact Hmax| |].
    + by apply render_nonzero.
    + subst rest. rewrite elem_of_app. intros [Hin|Hin]; [|exact (Hsp Hin)].
      apply elem_of_replicate in Hin as [? _]. discriminate.
    + rewrite Hlen. lia.
Qed.

(** C9: on the booted system every application is found under its name: /bin
    is inode 6 of the root directory and looking up the [k]-th application of
    the image in /bin gives inode [7 + k].  What any other name without spaces
    gives is [spec_search]: -1 for an absent name that has no slash and is not
    a number; but the decimal text of an inode number of the directory matches
    that number and gives the number that the next name starts with, mostly 0.
    Both hold for names that are no longer than the text of the directory: a
    longer name makes the unsigned bound of the loop wrap around, and the
    search reads outside the block. *)
Theorem apps_found exec apps after junk stale stale' : apps_ok apps → names_ok apps →
  (256 ≤ length after)%nat → length exec = 4096%nat →
  length junk = 512%nat → length stale = SYSCALL_MSG_LEN → ∃ img rom,
  mkfs exec apps after = Ret (img, rom) ∧
  let lookup ino name :=
    dir_lookup (treedisk_init disk_store 0 7) (disk_init rom) ino (name ++ [0]) junk stale stale' in
  lookup 0 (str "bin/") = Ret BIN_DIR_INODE ∧
  (∀ k a, elf_apps apps !! k = Some a → lookup BIN_DIR_INODE (app_name a.1) = Ret (7 + Z.of_nat k)) ∧
  (∀ name, word name → Forall (λ c, c ≠ 0) name →
     (length name ≤ length (bin_text bin_dir_init 7 apps))%nat →
     lookup BIN_DIR_INODE name = Ret (spec_search name (bin_entries apps))) ∧
  (∀ name, name_ok name → name ∉ (app_name ∘ fst <$> elf_apps apps) →
     spec_search name (bin_entries apps) = -1) ∧
  (∀ name, Forall (λ c, c ≠ 0) name → (length (bin_text bin_dir_init 7 apps) < length name)%nat →
     Z.of_nat (length name) < 2 ^ 31 → SPACE ∉ take 256 after →
     lookup BIN_DIR_INODE name = Fault (Undef "read outside the array")).
Proof.
  intros Happs Hnames Hafter Hexec Hj Hs.
  destruct (booted_apps exec apps after junk stale stale' Happs Hnames Hafter Hexec Hj Hs)
    as (img & rom & F & E & _ & _ & H). exists img, rom. split; [exact E|exact H].
Qed.

Lemma apps_found_witness : ∃ img rom,
  mkfs (replicate 4096 null_block) demo_apps (zeros 256) = Ret (img, rom) ∧
  let lookup name :=
    dir_lookup (treedisk_init disk_store 0 7) (disk_init rom) BIN_DIR_INODE (name ++ [0])
      (zeros 512) (zeros 1024) (zeros 1024) in
  lookup (str "cat") = Ret (7 + Z.of_nat 1) ∧ lookup (str "7") = Ret 0 ∧
  lookup (str "vi") = Ret (-1) ∧
  lookup (replicate 100 97) = Fault (Undef "read outside the array").
Proof.
  destruct (apps_found (replicate 4096 null_block) demo_apps (zeros 256) (zeros 512) (zeros 1024) (zeros 1024))
    as (img & rom & E & _ & H & Hall & Habs & Hlong).
  - apply (bool_decide_unpack _). vm_compute. exact I.
  - apply (bool_decide_unpack _). vm_compute. exact I.
  - rewrite length_zeros. lia.
  - apply length_replicate.
  - apply length_zeros.
  - apply length_zeros.
  - exists img, rom. split; [exact E|]. cbn zeta. split_and!.
    + exact (H 1%nat (str "cat.elf", replicate 100 9) eq_refl).
    + etrans; [apply Hall; apply (bool_decide_unpack _); vm_compute; exact I|vm_compute; reflexivity].
    + etrans; [apply Hall; apply (bool_decide_unpack _); vm_compute; exact I|].
      apply f_equal, Habs; apply (bool_decide_unpack _); vm_compute; exact I.
    + apply Hlong; apply (bool_decide_unpack _); vm_compute; exact I.
Defined.
