(* ===== verification/Malloc.v ===== *)
(** * The heap of an application (library/libc/malloc.c)

    malloc() of the C library gets its memory from [_sbrk], which moves [brk]
    up to [__heap_end], an address the linker script sets. *)
From S2P Require Import Prelude CString Print MemAlloc SoftTlb Timer Terminal Earth EarthImpl.
From S2P Require Import Process Ipc Scheduler Rendezvous Kernel KernelExample.

(** What a piece of a program does: it runs to its end with a result, or an
    access raises an exception, and the kernel is entered. *)
Inductive run (W A : Type) : Type :=
  | Went (a : A) (w : W)
  | Trapped (mcause : Z) (w : W).
Arguments Went {W A} a w.
Arguments Trapped {W A} mcause w.

Definition then_run {W A B} (r : run W A) (k : A → W → outcome (run W B)) : outcome (run W B) :=
  match r with Went a w => k a w | Trapped c w => Ret (Trapped c w) end.

(** [mcause] of a store to an address that is not memory, as 0 is on this
    machine. *)
Definition STORE_ACCESS_FAULT : Z := 7.

Definition sbrk_message : list Z := str "_sbrk: heap grows too large" ++ EOL.

Section heap.
Context {W : Type} (tw : list Z → W → outcome W) (buf : list Z) (heap_end : Z).

(** [_sbrk(size)]: the returned address and the new [brk].  Pointers are 32
    bits wide. *)
Definition _sbrk (size brk : Z) (w : W) : outcome (run W (Z * Z)) :=
  if heap_end <? u32 (brk + size) then
    w ← my_printf tw buf (sbrk_message ++ [0]) [] w;
    Ret (Trapped STORE_ACCESS_FAULT w)
  else Ret (Went (brk, u32 (brk + size)) w).

(** A sequence of requests. *)
Fixpoint sbrks (sizes : list Z) (brk : Z) (w : W) : outcome (run W (list Z * Z)) :=
  match sizes with
  | [] => Ret (Went ([], brk) w)
  | size :: sizes =>
      r ← _sbrk size brk w;
      then_run r (λ '(a, brk) w, r ← sbrks sizes brk w; then_run r (λ '(addrs, brk) w, Ret (Went (a :: addrs, brk) w)))
  end.

(** The regions handed out for the requests, one after the other. *)
Fixpoint regions (sizes : list Z) (brk : Z) : list Z :=
  match sizes with [] => [] | size :: sizes => brk :: regions sizes (brk + size) end.

Definition total (sizes : list Z) : Z := foldr Z.add 0 sizes.

Lemma total_nonneg sizes : Forall (λ n, 0 ≤ n) sizes → 0 ≤ total sizes.
Proof. intros H. unfold total. induction H as [|n sizes Hn _ IH]; cbn [foldr]; [lia|]. lia. Qed.

Lemma sbrk_refused size brk w : length buf = 512%nat → heap_end < u32 (brk + size) →
  _sbrk size brk w = (w ← tw sbrk_message w; Ret (Trapped STORE_ACCESS_FAULT w)).
Proof.
  intros Hbuf Hbig. unfold _sbrk. rewrite (proj2 (Z.ltb_lt _ _)) by done. unfold my_printf.
  rewrite (log_text tw [] [] buf sbrk_message [] sbrk_message) by
    (reflexivity || (apply (bool_decide_unpack _); vm_compute; exact I)).
  rewrite Hbuf, bool_decide_true by (apply (bool_decide_unpack _); vm_compute; exact I). cbn [app]. by rewrite app_nil_r.
Qed.

Lemma sbrks_spec sizes : length buf = 512%nat → Forall (λ n, 0 ≤ n ≤ 2 ^ 32 - 1 - heap_end) sizes → ∀ brk w, 0 ≤ brk ≤ heap_end →
  sbrks sizes brk w = if brk + total sizes <=? heap_end then Ret (Went (regions sizes brk, brk + total sizes) w)
                      else w ← tw sbrk_message w; Ret (Trapped STORE_ACCESS_FAULT w).
Proof.
  intros Hbuf. induction 1 as [|n sizes Hn Hsizes IH]; intros brk w Hbrk; cbn [sbrks regions total foldr].
  - rewrite Z.add_0_r. by rewrite (proj2 (Z.leb_le _ _)) by lia.
  - fold (total sizes). assert (0 ≤ total sizes) as Ht.
    { apply total_nonneg. eapply Forall_impl; [exact Hsizes|]. intros x [? _]. done. }
    destruct (Z.ltb_spec heap_end (brk + n)) as [Hbig|Hfit].
    + rewrite sbrk_refused, (proj2 (Z.leb_gt _ _)) by (rewrite ?u32_small; lia || done). by destruct (tw _ w).
    + unfold _sbrk. rewrite u32_small, (proj2 (Z.ltb_ge _ _)), bind_ret by lia. cbn [then_run].
      rewrite IH, Z.add_assoc by lia. destruct (_ <=? _); [done|]. by destruct (tw _ w).
Qed.

(** A request that wraps around the address space, or a negative one. *)
Lemma sbrk_unchecked size brk w : 0 ≤ brk ≤ heap_end → heap_end < 2 ^ 32 →
  - brk ≤ size < 0 ∨ 2 ^ 32 ≤ brk + size ∧ size < 2 ^ 31 →
  _sbrk size brk w = Ret (Went (brk, u32 (brk + size)) w) ∧ u32 (brk + size) < brk.
Proof.
  intros Hbrk Htop Hsize. assert (u32 (brk + size) < brk).
  { destruct Hsize as [Hneg|[Hwrap Hs]]; [by rewrite u32_small by lia; lia|].
    unfold u32. rewrite <- (Z_mod_plus_full _ (-1)), Z.mod_small by lia. lia. }
  unfold _sbrk. by rewrite (proj2 (Z.ltb_ge _ _)) by lia.
Qed.

(** The regions are disjoint and inside the heap. *)
Lemma regions_disjoint sizes : Forall (λ n, 0 ≤ n) sizes → ∀ brk i j a b n m,
  regions sizes brk !! i = Some a → regions sizes brk !! j = Some b → sizes !! i = Some n → sizes !! j = Some m →
  brk ≤ a ∧ a + n ≤ brk + total sizes ∧ ((i < j)%nat → a + n ≤ b).
Proof.
  induction 1 as [|x sizes Hx Hsizes IH]; intros brk i j a b n m Ha Hb Hn Hm; [done|].
  pose proof (total_nonneg sizes Hsizes) as Ht. cbn [total foldr]. fold (total sizes).
  destruct i as [|i], j as [|j]; cbn in Ha, Hb, Hn, Hm.
  - injection Ha as <-. injection Hn as <-. split_and!; [lia..|]. intros. lia.
  - injection Ha as <-. injection Hn as <-. destruct (IH (brk + x) j j b b m m Hb Hb Hm Hm) as (? & _ & _).
    split_and!; [lia..|]. intros. lia.
  - destruct (IH (brk + x) i i a a n n Ha Ha Hn Hn) as (? & ? & _). split_and!; [lia..|]. intros. lia.
  - destruct (IH (brk + x) i j a b n m Ha Hb Hn Hm) as (? & ? & Hij). split_and!; [lia..|]. intros. apply Hij. lia.
Qed.
End heap.

(** C37: the heap of an application.  Requests with sizes between 0 and what
    is left of the address space above the heap are served exactly as long as
    their total fits between [__heap_start] and [__heap_end]: the regions
    handed out are disjoint and inside the heap, and [brk] is the end of the
    last one.  At the first request that does not fit the application prints
    its message and stores to address 0, and the exception stops the kernel,
    with all its processes.  Other sizes are not checked: a negative request,
    or one so large that it wraps around, is served, and [brk] moves down. *)
Theorem sbrk_bounds {W E} `{EarthLaws E} (tw : list Z → W → outcome W) buf heap_start heap_end sizes w :
  length buf = 512%nat → 0 ≤ heap_start ≤ heap_end → Forall (λ n, 0 ≤ n ≤ 2 ^ 32 - 1 - heap_end) sizes →
  (if heap_start + total sizes <=? heap_end then ∃ addrs,
     sbrks tw buf heap_end sizes heap_start w = Ret (Went (addrs, heap_start + total sizes) w) ∧ length addrs = length sizes ∧
     ∀ i j a b n m, addrs !! i = Some a → addrs !! j = Some b → sizes !! i = Some n → sizes !! j = Some m →
       heap_start ≤ a ∧ a + n ≤ heap_end ∧ ((i < j)%nat → a + n ≤ b)
   else
     sbrks tw buf heap_end sizes heap_start w = (w ← tw sbrk_message w; Ret (Trapped STORE_ACCESS_FAULT w)) ∧
     ∀ t (s : kstate E) c, kernel_ok c s → t_hartid t = core_in_kernel s → t_mcause t = STORE_ACCESS_FAULT →
       kernel_entry t s = Fault (Fatal "excp_entry: kernel got exception %d")) ∧
  ∀ size brk, 0 ≤ brk ≤ heap_end → heap_end < 2 ^ 32 → - brk ≤ size < 0 ∨ 2 ^ 32 ≤ brk + size ∧ size < 2 ^ 31 →
    ∃ brk', _sbrk tw buf heap_end size brk w = Ret (Went (brk, brk') w) ∧ brk' < brk.
Proof.
  intros Hbuf Hheap Hsizes. split; [|intros; eexists; by apply sbrk_unchecked].
  rewrite (sbrks_spec tw buf heap_end sizes Hbuf Hsizes) by lia.
  destruct (Z.leb_spec (heap_start + total sizes) heap_end) as [Hfit|].
  2: { split; [done|]. intros t s c Hko Hh Hm. apply (exception_stops t s c Hko Hh). by rewrite Hm. }
  exists (regions sizes heap_start). split; [done|]. split.
  - clear. revert heap_start. induction sizes as [|x sizes IH]; intros h; [done|]. cbn. by rewrite IH.
  - intros i j a b n m Ha Hb Hn Hm. assert (Forall (λ n, 0 ≤ n) sizes) as Hpos.
    { eapply Forall_impl; [exact Hsizes|]. intros x [? _]. done. }
    destruct (regions_disjoint sizes Hpos heap_start i j a b n m Ha Hb Hn Hm) as (? & ? & ?). split_and!; [done|lia|done].
Qed.

(** A heap from 0x80210000 to 0x80300000: the first three requests fit, the
    one of crash1.c does not, and the exception stops the kernel of
    KernelExample.v. *)
#[local] Existing Instance demo_earth.
#[local] Existing Instance demo_laws.
Lemma sbrk_bounds_witness :
  (∃ addrs, sbrks (λ s w, Ret (w ++ s)) (zeros 512) 0x80300000 [4096; 100; 8192] 0x80210000 [] =
     Ret (Went (addrs, 0x80210000 + 12388) []) ∧ length addrs = 3%nat) ∧
  sbrks (λ s w, Ret (w ++ s)) (zeros 512) 0x80300000 [4096; 32 * 1024 * 1024] 0x80210000 [] =
     Ret (Trapped STORE_ACCESS_FAULT sbrk_message) ∧
  ∃ s : kstate earth_state, kernel_ok 1 s ∧
    kernel_entry (Trap 0 STORE_ACCESS_FAULT 0x80204000 (replicate 32 5)) s =
    Fault (Fatal "excp_entry: kernel got exception %d").
Proof.
  assert (Forall (λ n, 0 ≤ n ≤ 2 ^ 32 - 1 - 0x80300000) [4096; 100; 8192] ∧
    Forall (λ n, 0 ≤ n ≤ 2 ^ 32 - 1 - 0x80300000) [4096; 32 * 1024 * 1024]) as [Hs1 Hs2]
    by (apply (bool_decide_unpack _); vm_compute; exact I).
  split; [|split].
  - destruct (proj1 (sbrk_bounds (E:=earth_state) (λ s w, Ret (w ++ s)) (zeros 512) 0x80210000 0x80300000 [4096; 100; 8192] []
      eq_refl ltac:(lia) Hs1)) as (addrs & Heq & Hlen & _). by exists addrs.
  - exact (proj1 (proj1 (sbrk_bounds (E:=earth_state) (λ s w, Ret (w ++ s)) (zeros 512) 0x80210000 0x80300000 [4096; 32 * 1024 * 1024] []
      eq_refl ltac:(lia) Hs2))).
  - destruct demo_mmu as (m & _ & Hok & H1 & H2 & _). exists (demo_state m).
    pose proof (inv_ok 1 (demo_state m) (demo_inv m Hok H1 H2)) as Hko. split; [exact Hko|].
    exact (proj2 (proj1 (sbrk_bounds (E:=earth_state) (λ s w, Ret (w ++ s)) (zeros 512) 0x80210000 0x80300000 [4096; 32 * 1024 * 1024] []
      eq_refl ltac:(lia) Hs2)) (Trap 0 STORE_ACCESS_FAULT 0x80204000 (replicate 32 5)) (demo_state m) 1 Hko eq_refl eq_refl).
Defined.

(** [brk + size] wraps for a request of nearly 2 GB: the check passes and
    [brk] moves below the heap. *)
Example sbrk_wraps : _sbrk (λ _ w, Ret w) [] 0x80300000 0x7FFFFFFF 0x80210000 () = Ret (Went (0x80210000, 0x0020FFFF) ()).
Proof. vm_compute. reflexivity. Qed.

(** A negative size is not checked either: the heap shrinks below its start. *)
Example sbrk_negative : _sbrk (λ _ w, Ret w) [] 0x80300000 (-0x20000) 0x80210000 () = Ret (Went (0x80210000, 0x801F0000) ()).
Proof. vm_compute. reflexivity. Qed.
