(* ===== verification/TestApps.v ===== *)
(** * The test applications (apps/user: memloop.c, crash1.c, crash2.c,
    helloworld.c)

    Programs that probe the kernel: one touches memory page after page until
    an access fails, one asks for more heap than there is, one clears the
    frames behind the kernel's back.  Memory is not protected in this
    version, and [crash2_erases] says exactly what the last one destroys. *)
From S2P Require Import Prelude MemAlloc SoftTlb CString Print Malloc.

(** ** memloop *)

(** [strtoul(s, NULL, 16)] of the C library: white space, a sign, a prefix
    0x, digits; too large a number is [ULONG_MAX]. *)
Definition hex_digit (c : Z) : option Z :=
  if is_digit c then Some (c - 48)
  else if (97 <=? c) && (c <=? 102) then Some (c - 87)
  else if (65 <=? c) && (c <=? 70) then Some (c - 55) else None.
Fixpoint hex_value (acc : Z) (s : list Z) : Z :=
  match s with
  | [] => acc
  | c :: s => match hex_digit c with Some d => hex_value (acc * 16 + d) s | None => acc end
  end.
Definition hex_prefix (s : list Z) : list Z :=
  match s with
  | z :: x :: s' => if (z =? 48) && ((x =? 120) || (x =? 88)) then s' else s
  | _ => s
  end.
Definition strtoul_value (neg : bool) (s : list Z) : Z :=
  let v := hex_value 0 (hex_prefix s) in
  if 2 ^ 32 <=? v then 2 ^ 32 - 1 else if neg then u32 (- v) else v.
Fixpoint strtoul16 (s : list Z) : Z :=
  match s with
  | [] => 0
  | c :: s' =>
      if is_space c then strtoul16 s'
      else if c =? 45 then strtoul_value true s'
      else if c =? 43 then strtoul_value false s' else strtoul_value false s
  end.

Section memloop.
Context {W : Type} (tw : list Z → W → outcome W) (buf : list Z) (readable : Z → bool).
Abbreviation printf fmt va w := (my_printf tw buf (fmt ++ [0]) va w).

(** One turn of the loop: the touched address must be readable. *)
Definition memloop_turn (ptr count : Z) (w : W) : outcome (Z * Z * W) :=
  if negb (readable ptr) then Fault (Undef "load access fault") else
  let count := i32 (count + 1) in
  w ← printf (str "- touched page(%d) [%x, %x)" ++ [10]) [VInt count; VInt (i32 ptr); VInt (i32 (ptr + PAGE_SIZE))] w;
  Ret (u32 (ptr + PAGE_SIZE), count, w).

(** [n] turns of [while (1)]. *)
Fixpoint memloop_turns (n : nat) (ptr count : Z) (w : W) : outcome (Z * Z * W) :=
  match n with
  | O => Ret (ptr, count, w)
  | S n => '(ptr, count, w) ← memloop_turn ptr count w; memloop_turns n ptr count w
  end.

(** [main] up to the loop: the first address; [arg] is argv[1]. *)
Definition memloop_start (args : Z) (arg : list Z) (w : W) : outcome (Z * W) :=
  '(ptr, w) ← (if args =? 2 then
      let ptr := u32 (strtoul16 arg) in
      w ← printf (str "input addr[%s] => %x" ++ [10]) [VStr arg; VInt (i32 ptr)] w;
      Ret (ptr, w)
    else Ret (0x80000000, w));
  let ptr := u32 (ptr / PAGE_SIZE * PAGE_SIZE) in
  w ← printf (str "touch memory start: %x" ++ [10]) [VInt (i32 ptr)] w;
  Ret (ptr, w).

Definition memloop_main (n : nat) (args : Z) (arg : list Z) (w : W) : outcome (Z * Z * W) :=
  '(ptr, w) ← memloop_start args arg w; memloop_turns n ptr 0 w.
End memloop.

Definition touched_text (count ptr : Z) : list Z :=
  str "- touched page(" ++ itoa count 10 ++ str ") [" ++ itoa (i32 ptr) 16 ++ str ", " ++
  itoa (i32 (ptr + PAGE_SIZE)) 16 ++ str ")" ++ [10].

(** The address and the text of turn [k]. *)
Definition nth_ptr (ptr : Z) (k : Z) : Z := u32 (ptr + k * PAGE_SIZE).
Definition touched (ptr : Z) (n : nat) : list Z :=
  mjoin ((λ k, touched_text (k + 1) (nth_ptr ptr k)) <$> seqZ 0 (Z.of_nat n)).

(** ** crash1 and crash2 *)

(** [malloc] is the C library's; the state is [brk]. *)
Definition crash1_main {W} (malloc : Z → Z → W → outcome (run W (Z * Z))) (brk : Z) (w : W) : outcome (run W Z) :=
  r ← malloc (32 * 1024 * 1024) brk w;
  then_run r (λ '(heap_overflow, brk) w, Ret (Went 0 w)).

(** [memset((void* )addr, c, n)] of whole pages. *)
Definition memset_pages (addr c n : Z) (m : mmu) : mmu :=
  foldl (λ m pn, user_store pn (replicate (Z.to_nat PAGE_SIZE) c) m) m (seqZ (addr / PAGE_SIZE) (n / PAGE_SIZE)).
Definition crash2_main (m : mmu) : Z * mmu :=
  (0, memset_pages APPS_PAGES_BASE 0 (RAM_END - APPS_PAGES_BASE) m).

(** ** helloworld

    Its [main] is empty; its other functions are called by nobody.  Memory
    is a map from the addresses that can be accessed to words. *)
Section helloworld.
Context {W : Type} (tw : list Z → W → outcome W) (buf : list Z).
Abbreviation printf fmt va w := (my_printf tw buf (fmt ++ [0]) va w).

Definition hello_main (args : Z) (w : W) : outcome (Z * W) := Ret (0, w).

Definition load_word (a : Z) (mem : gmap Z Z) : outcome Z :=
  match mem !! a with Some v => Ret v | None => Fault (Undef "load access fault") end.
Definition store_word (a v : Z) (mem : gmap Z Z) : outcome (gmap Z Z) :=
  match mem !! a with Some _ => Ret (<[a := v]> mem) | None => Fault (Undef "store access fault") end.

Definition ptr_is_address (mem : gmap Z Z) (w : W) : outcome (gmap Z Z * W) :=
  let ptr := 0x0 in
  val ← load_word ptr mem;
  if 2 ^ 31 - 1 <=? val then Fault (Undef "signed overflow") else
  mem ← store_word ptr (val + 1) mem;
  after ← load_word ptr mem;
  w ← printf (str "ptr:%x before:%d after:%d" ++ [10]) [VInt ptr; VInt val; VInt after] w;
  Ret (mem, w).

(** Up to [while (1)]. *)
Definition ins_is_zero_one (mem : gmap Z Z) (w : W) : outcome (gmap Z Z * W) :=
  w ← printf (str "Enter ins_is_zero_one()" ++ [10]) [] w;
  let exit_code := 0x8020000C in
  let call_main := 0x0 in
  mem ← store_word exit_code call_main mem;
  Ret (mem, w).

(** [msg] is the address of the string.  The call with the first directive
    already stops, so that it does not matter how the 64-bit arguments are
    passed. *)
Definition impl_printf (msg : Z) (w : W) : outcome W :=
  w ← printf (str "%c is character $" ++ [10]) [VInt 36] w;
  w ← printf (str "%c is character 0" ++ [10]) [VInt 48] w;
  w ← printf (str "%u is the maximum of unsigned int" ++ [10]) [VInt 0xFFFFFFFF] w;
  w ← printf (str "%p is the hexadecimal address of the hello-world string" ++ [10]) [VInt msg] w;
  w ← printf (str "%lld is the maximum of long long" ++ [10]) [VInt 0x7FFFFFFFFFFFFFFF] w;
  w ← printf (str "%llu is the maximum of unsigned long long" ++ [10]) [VInt 0xFFFFFFFFFFFFFFFF] w;
  printf (str "%llx is the maximum of unsigned long long in hex" ++ [10]) [VInt 0xFFFFFFFFFFFFFFFF] w.

End helloworld.

(** ** Proofs *)

(** %c is one of the conversions that print.c does not have. *)
Lemma impl_printf_stops {W} (tw : list Z → W → outcome W) buf msg w : buf ≠ [] →
  impl_printf tw buf msg w = (_ ← tw (fatal_line 99) w; Fault (Fatal "printf cannot parse the format: '%%%s'")).
Proof.
  intros Hb. unfold impl_printf.
  pose proof (log_bad tw [] [] buf (str "%c is character $" ++ [10]) [VInt 36] [] 99 w) as Hbad.
  change (my_printf tw) with (LOG tw [] []). rewrite Hbad by (reflexivity || (apply (bool_decide_unpack _); vm_compute; exact I)).
  rewrite bool_decide_true by (destruct buf; [done|cbn; lia]). by destruct (tw _ w).
Qed.

Lemma utoa_loop_length fuel base : ∀ n acc, (length (utoa_loop fuel base n acc) ≤ fuel + length acc)%nat.
Proof.
  induction fuel as [|fuel IH]; intros n acc; cbn [utoa_loop]; [done|].
  destruct (_ =? 0); cbn [length]; [lia|]. etrans; [apply IH|]. cbn [length]. lia.
Qed.
Lemma utoa_length n base : (length (utoa n base) ≤ 32)%nat.
Proof. unfold utoa. etrans; [apply utoa_loop_length|]. done. Qed.
Lemma hex_length z : (length (itoa z 16) ≤ 32)%nat.
Proof. apply utoa_length. Qed.

Section memloop_spec.
Context (buf : list Z) (Hbuf : length buf = 512%nat) (readable : Z → bool).
Let log (s w : list Z) : outcome (list Z) := Ret (w ++ s).

Lemma memloop_turn_prints ptr count w : readable ptr = true → 0 ≤ count < 2 ^ 31 - 1 →
  memloop_turn log buf readable ptr count w =
  Ret (u32 (ptr + PAGE_SIZE), count + 1, w ++ touched_text (count + 1) ptr).
Proof using Hbuf.
  intros Hr Hc. unfold memloop_turn. rewrite Hr. cbn [negb]. rewrite (i32_small (count + 1)) by lia.
  unfold my_printf. rewrite (log_text log [] [] buf _ _ (touched_text (count + 1) ptr)).
  - pose proof (itoa_length (count + 1) ltac:(lia)). pose proof (hex_length (i32 ptr)).
    pose proof (hex_length (i32 (ptr + PAGE_SIZE))). rewrite bool_decide_true.
    + cbn [app]. by rewrite app_nil_r.
    + unfold touched_text. rewrite Hbuf, !length_app. cbn [length str]. lia.
  - by repeat constructor.
  - by repeat constructor.
  - by repeat constructor.
  - reflexivity.
Qed.

Lemma nth_ptr_succ ptr k : u32 (nth_ptr ptr k + PAGE_SIZE) = nth_ptr ptr (k + 1).
Proof using Type. clear Hbuf. unfold nth_ptr, u32. rewrite Zplus_mod_idemp_l. f_equal. lia. Qed.

Abbreviation line ptr := (λ k, touched_text (k + 1) (nth_ptr ptr k)).

Lemma memloop_turns_from ptr n : ∀ i w, 0 ≤ i → i + Z.of_nat n < 2 ^ 31 →
  (∀ k, i ≤ k < i + Z.of_nat n → readable (nth_ptr ptr k) = true) →
  memloop_turns log buf readable n (nth_ptr ptr i) i w =
  Ret (nth_ptr ptr (i + Z.of_nat n), i + Z.of_nat n, w ++ mjoin (line ptr <$> seqZ i (Z.of_nat n))).
Proof using Hbuf.
  induction n as [|n IH]; intros i w Hi Hn Hr; cbn [memloop_turns].
  - rewrite Z.add_0_r. cbn. by rewrite app_nil_r.
  - rewrite memloop_turn_prints, bind_ret, nth_ptr_succ by (apply Hr; lia) || lia.
    rewrite IH by (lia || (intros; apply Hr; lia)). rewrite (seqZ_cons i) by lia.
    replace (Z.succ i) with (i + 1) by lia. replace (Z.pred (Z.of_nat (S n))) with (Z.of_nat n) by lia.
    replace (i + Z.of_nat (S n)) with (i + 1 + Z.of_nat n) by lia. cbn [fmap list_fmap].
    change (mjoin (?x :: ?l)) with (x ++ mjoin l). by rewrite (assoc_L (++)).
Qed.

Lemma memloop_turns_add ptr count w n m :
  memloop_turns log buf readable (n + m) ptr count w =
  ('(ptr, count, w) ← memloop_turns log buf readable n ptr count w; memloop_turns log buf readable m ptr count w).
Proof using Type.
  clear Hbuf. revert ptr count w. induction n as [|n IH]; intros ptr count w; [done|]. cbn [Nat.add memloop_turns].
  destruct (memloop_turn _ _ _ _ _ _) as [[[p c] v]|]; [|done]. rewrite !bind_ret. apply IH.
Qed.
End memloop_spec.

(** What memloop shows of a memory whose first unreadable page is [lim]
    pages after the start: it touches and reports exactly the pages before
    it, in order, and dies at that one. *)
Theorem memloop_touches buf readable ptr (lim n : nat) w : length buf = 512%nat → 0 ≤ ptr < 2 ^ 32 → Z.of_nat lim < 2 ^ 31 →
  (∀ k, 0 ≤ k < Z.of_nat lim → readable (nth_ptr ptr k) = true) → readable (nth_ptr ptr (Z.of_nat lim)) = false →
  memloop_turns (λ s w, Ret (w ++ s)) buf readable n ptr 0 w =
  if bool_decide (n ≤ lim)%nat then Ret (nth_ptr ptr (Z.of_nat n), Z.of_nat n, w ++ touched ptr n)
  else Fault (Undef "load access fault").
Proof.
  intros Hbuf Hptr Hlim Hok Hend. assert (nth_ptr ptr 0 = ptr) as Hp.
  { unfold nth_ptr. rewrite Z.mul_0_l, Z.add_0_r. by apply u32_small. }
  case_bool_decide as Hn.
  - rewrite <- Hp at 1. rewrite memloop_turns_from; [|done|lia..|]; [|intros k Hk; apply Hok; lia]. done.
  - replace n with (lim + S (n - S lim))%nat by lia. rewrite memloop_turns_add.
    rewrite <- Hp at 1. rewrite memloop_turns_from; [|done|lia..|]; [|intros k Hk; apply Hok; lia].
    rewrite bind_ret. cbn [memloop_turns]. unfold memloop_turn. rewrite Z.add_0_l, Hend. done.
Qed.

(** Without an argument, on the 8 MB of RAM: the start is announced, the
    2048 pages are reported one by one, and the next access ends it. *)
Lemma memloop_ram buf n arg : length buf = 512%nat →
  memloop_main (λ s w, Ret (w ++ s)) buf (λ a, (0x80000000 <=? a) && (a <? 0x80800000)) n 1 arg [] =
  if bool_decide (n ≤ 2048)%nat then
    Ret (nth_ptr 0x80000000 (Z.of_nat n), Z.of_nat n,
      str "touch memory start: 80000000" ++ [10] ++ touched 0x80000000 n)
  else Fault (Undef "load access fault").
Proof.
  intros Hbuf. unfold memloop_main, memloop_start. rewrite (proj2 (Z.eqb_neq 1 2)) by done. rewrite bind_ret.
  unfold my_printf. change (u32 (0x80000000 / PAGE_SIZE * PAGE_SIZE)) with 0x80000000.
  erewrite log_text; [|by repeat constructor..|reflexivity]. rewrite bool_decide_true by (rewrite Hbuf; vm_compute; lia).
  rewrite !bind_ret. rewrite (memloop_touches _ _ _ 2048); [|done|lia|lia| |done].
  - case_bool_decide; done.
  - intros k Hk. unfold nth_ptr, PAGE_SIZE. rewrite u32_small by lia.
    apply andb_true_intro. split; [apply Z.leb_le|apply Z.ltb_lt]; lia.
Qed.

(** The address in argv[1] may have any of the forms of [strtoul]. *)
Example strtoul16_forms :
  strtoul16 (str "0x80400123") = 0x80400123 ∧ strtoul16 (str "  80400123 rest") = 0x80400123 ∧
  strtoul16 (str "-1") = 2 ^ 32 - 1 ∧ strtoul16 (str "123456789a") = 2 ^ 32 - 1 ∧ strtoul16 (str "loop") = 0.
Proof. vm_compute. done. Qed.

(** [malloc] gets at least what it hands out from [_sbrk]: crash1 prints its
    message and ends with the exception. *)
Lemma crash1_ends {W} (tw : list Z → W → outcome W) buf malloc heap_end brk extra w : length buf = 512%nat →
  malloc (32 * 1024 * 1024) brk w = _sbrk tw buf heap_end (32 * 1024 * 1024 + extra) brk w →
  0 ≤ brk ≤ heap_end → heap_end - brk < 32 * 1024 * 1024 → 0 ≤ extra < 2 ^ 20 → heap_end < 2 ^ 32 - 2 ^ 26 →
  crash1_main malloc brk w = (w ← tw sbrk_message w; Ret (Trapped STORE_ACCESS_FAULT w)).
Proof.
  intros Hbuf Hm Hb Hsmall He Htop. unfold crash1_main. rewrite Hm, sbrk_refused by (rewrite ?u32_small; lia || done).
  by destruct (tw _ w).
Qed.

(** ** crash2 *)
Lemma stores_at l pg : ∀ m, let m' := foldl (λ m pn, user_store pn pg m) m l in
  (∃ r, m' = set_ram m r) ∧
  ∀ x, page_at (ram (mem m')) x = if decide (x ∈ l) then pg else page_at (ram (mem m)) x.
Proof.
  induction l as [|y l IH]; intros m; cbn [foldl].
  - split; [exists (ram (mem m)); by destruct m as [[? ?] ? ?]|]. intros x. by rewrite decide_False by set_solver.
  - destruct (IH (user_store y pg m)) as [[r Hr] Hx]. split.
    + exists r. rewrite Hr. done.
    + intros x. rewrite Hx. cbn [user_store set_ram mem ram]. rewrite page_at_insert. clear.
      destruct (decide (x ∈ l)) as [Hl|Hl]; [by rewrite decide_True by (by right)|].
      destruct (decide (y = x)) as [->|Hy]; [by rewrite decide_True by left|].
      rewrite decide_False; [done|]. intros [->|?]%elem_of_cons; [by apply Hy|done].
Qed.

Lemma pool_pages x : x ∈ seqZ (APPS_PAGES_BASE / PAGE_SIZE) ((RAM_END - APPS_PAGES_BASE) / PAGE_SIZE) ↔
  POOL ≤ x < POOL + APPS_PAGES_CNT.
Proof. rewrite elem_of_seqZ. change (_ / _) with POOL at 2. by change ((RAM_END - APPS_PAGES_BASE) / PAGE_SIZE) with APPS_PAGES_CNT. Qed.

(** Crash2 under the software TLB: the pages of the running process are
    copies outside the pool and survive; every page of every other process is
    cleared.  The kernel's own books stay intact. *)
Theorem crash2_erases m : tlb_wf m → let '(r, m') := crash2_main m in
  r = 0 ∧ tlb_wf m' ∧ ∀ pid vp pg, sees m pid vp pg →
    sees m' pid vp (if decide (pid = curr_vm_pid m) then pg else zero_page).
Proof.
  intros Hwf. unfold crash2_main, memset_pages. set (l := seqZ _ _).
  destruct (stores_at l (replicate (Z.to_nat PAGE_SIZE) 0) m) as [[r ->] Hx]. split_and!; [done|by apply tlb_wf_set_ram|].
  intros pid vp pg (i & Ho & Hpg). exists i. split; [exact Ho|]. change (home (set_ram m r)) with (home m). rewrite Hx.
  pose proof Ho as (Hi & _ & _). pose proof (wf_user _ Hwf _ _ _ Ho) as Hu. unfold home in *. destruct (decide (pid = curr_vm_pid m)) as [Hp|Hp].
  - subst pid. rewrite Z.eqb_refl in *. rewrite decide_False; [done|]. unfold l. rewrite pool_pages.
    intros [Hlow _]. unfold user_page in Hu. change (APPS_STACK_TOP / PAGE_SIZE) with POOL in Hu. lia.
  - rewrite (proj2 (Z.eqb_neq _ _)) by congruence. rewrite decide_True; [done|]. unfold l. rewrite pool_pages. lia.
Qed.

(** With two processes, each with a page: the page of the other one is lost. *)
Lemma crash2_erases_witness : ∃ m, TlbSpec.execs TlbSpec.demo mmu_boot = Ret m ∧
  let '(r, m') := crash2_main m in r = 0 ∧ tlb_wf m' ∧ ∀ pid vp pg, sees m pid vp pg →
    sees m' pid vp (if decide (pid = curr_vm_pid m) then pg else zero_page).
Proof.
  destruct TlbSpec.demo_state as (s & Hs & Hwf & _). exists s. split; [exact Hs|]. by apply (crash2_erases s).
Defined.

(** ** helloworld *)

(** Address 0 is not memory on this machine. *)
Lemma ptr_is_address_faults {W} (tw : list Z → W → outcome W) buf mem w : mem !! 0 = None →
  ptr_is_address tw buf mem w = Fault (Undef "load access fault").
Proof. intros Hm. unfold ptr_is_address, load_word. by rewrite Hm. Qed.

(** The instruction that [ins_is_zero_one] overwrites is the one a process
    continues with after ctrl+c. *)
Lemma ins_is_zero_one_exit buf mem w v : length buf = 512%nat → mem !! (APPS_ENTRY + 0xC) = Some v → ∃ mem',
  ins_is_zero_one (λ s w, Ret (w ++ s)) buf mem w = Ret (mem', w ++ str "Enter ins_is_zero_one()" ++ [10]) ∧
  mem' !! (APPS_ENTRY + 0xC) = Some 0.
Proof.
  intros Hbuf Hm. unfold ins_is_zero_one, my_printf. erewrite log_text; [|by repeat constructor..|reflexivity].
  rewrite bool_decide_true by (rewrite Hbuf; vm_compute; lia). rewrite bind_ret. unfold store_word.
  change 0x8020000C with (APPS_ENTRY + 0xC). rewrite Hm, bind_ret. eexists. split; [reflexivity|]. by rewrite lookup_insert_eq.
Qed.
