(* ===== verification/Apps.v ===== *)
(** * The user applications (apps/user: echo.c, loop.c, cat.c, ls.c,
    cd.c)

    Each [main] is a function of its arguments, the file system behind the
    file server, the shared working directory and a terminal.  [args] is the
    area of the argument strings (rows of [CMD_ARG_LEN] bytes, where the
    loader puts them); [argv[i]] is the pointer to row [i].

    The specifications are on lists: the entries of a directory, and the
    components of a path. *)
From S2P Require Import Prelude InodeStore Process Ipc FileServer CString Print Directory.

(** What a call finds in uninitialised memory: the block of a file request,
    the two system call areas, a block buffer and the buffer of [LOG]. *)
Record frame := Frame { f_junk : list Z; f_stale : list Z; f_stale' : list Z; f_buf : list Z }.
Definition frame_ok (f : frame) : Prop :=
  length (f_junk f) = 512%nat ∧ length (f_stale f) = SYSCALL_MSG_LEN ∧ length (f_buf f) = 512%nat.

(** The memory at SHELL_WORK_DIR: [workdir_ino] and [workdir]. *)
Record shell_dir := ShellDir { workdir_ino : Z; workdir : list Z }.

Definition SLASH : Z := 47.
Definition argv (args : list Z) (i : nat) : list Z := drop (32 * i) args.

(** [strcmp(a, b) == 0] *)
Definition strcmp_eq (a b : list Z) : outcome bool :=
  a ← cstr a; b ← cstr b; Ret (bool_decide (a = b)).

Section apps.
Context {St W : Type} (fs : inode_store St) (s : St) (tw : list Z → W → outcome W).
Context (fr : nat → frame).

Definition lookup_in (n : nat) (dir_ino : Z) (name : list Z) : outcome Z :=
  dir_lookup fs s dir_ino name (f_junk (fr n)) (f_stale (fr n)) (f_stale' (fr n)).
Definition read_block (n : nat) (file_ino : Z) : outcome (Z * block_t) :=
  file_rpc fs s file_ino 0 (f_junk (fr n)) (f_stale (fr n)) (f_stale' (fr n)).
Definition printf (n : nat) (fmt : list Z) (va : list va) (w : W) : outcome W :=
  my_printf tw (f_buf (fr n)) (fmt ++ [0]) va w.
Definition info (n : nat) (fmt : list Z) (va : list va) (w : W) : outcome W :=
  INFO tw (f_buf (fr n)) (fmt ++ [0]) va w.

(** ** echo *)
Fixpoint echo_loop (n : nat) (i : nat) (args : list Z) (w : W) : outcome W :=
  match n with
  | O => Ret w
  | S n => w ← printf i (str "%s ") [VStr (argv args i)] w; echo_loop n (i + 1) args w
  end.

(** The loop runs for [1 <= i < argc]. *)
Definition echo_main (argc : Z) (args : list Z) (w : W) : outcome (Z * W) :=
  w ← echo_loop (Z.to_nat (u32 argc - 1)) 1 args w;
  w ← printf 0 EOL [] w;
  Ret (0, w).

(** ** loop

    The counter is unsigned, and so is its comparison with [atoi(argv[1])];
    the inner counting loop has no effect. *)
Definition loop_more (argc : Z) (args : list Z) (i : Z) : bool :=
  if argc =? 1 then true else i <? u32 (atoi (argv args 1)).

Fixpoint loop_loop (fuel n : nat) (i argc : Z) (args : list Z) (w : W) : outcome W :=
  match fuel with
  | O => Fault OutOfFuel
  | S fuel =>
      if loop_more argc args i then
        w ← (if negb (argc =? 1) && negb (argc =? 3) then printf n (str "loop #%d" ++ EOL) [VInt (i32 i)] w else Ret w);
        loop_loop fuel (n + 1) (u32 (i + 1)) argc args w
      else Ret w
  end.

Definition loop_main (fuel : nat) (argc : Z) (args : list Z) (w : W) : outcome (Z * W) :=
  w ← loop_loop fuel 0 0 argc args w; Ret (0, w).

(** ** cat *)
Definition cat_main (argc : Z) (args : list Z) (dir : shell_dir) (w : W) : outcome (Z * W) :=
  if negb (argc =? 2) then w ← info 0 (str "usage: cat [FILE]") [] w; Ret (-1, w)
  else
    file_ino ← lookup_in 0 (workdir_ino dir) (argv args 1);
    if file_ino <? 0 then w ← info 0 (str "cat: file %s not found") [VStr (argv args 1)] w; Ret (-1, w)
    else
      '(_, buf) ← read_block 1 file_ino;
      w ← printf 1 (str "%s") [VStr buf] w;
      n ← strlen buf;
      c ← char_at buf (u32 (n - 1));
      w ← (if negb (c =? 10) then printf 2 EOL [] w else Ret w);
      Ret (0, w).

(** ** ls *)

(** The loop that removes the inode numbers. *)
Fixpoint ls_loop (fuel : nat) (i : Z) (buf : list Z) : outcome (list Z) :=
  match fuel with
  | O => Fault OutOfFuel
  | S fuel =>
      n ← strlen buf;
      if i <? n then
        p ← char_at buf (i - 1);
        c ← char_at buf i;
        ls_loop fuel (i + 1) (if (p =? SPACE) && (48 <=? c) && (c <=? 57) then <[Z.to_nat i := SPACE]> buf else buf)
      else Ret buf
  end.

Definition ls_main (argc : Z) (dir : shell_dir) (w : W) : outcome (Z * W) :=
  if 1 <? argc then w ← info 0 (str "ls: ls with args is not implemented") [] w; Ret (-1, w)
  else
    '(_, buf) ← read_block 0 (workdir_ino dir);
    buf ← ls_loop (S (length buf)) 1 buf;
    w ← printf 0 (str "%s" ++ EOL) [VStr buf] w;
    Ret (0, w).

(** ** cd *)

(** [while (workdir[len] != '/') workdir[len--] = 0] *)
Fixpoint cut_last (len : nat) (wd : list Z) : outcome (nat * list Z) :=
  c ← char_at wd (Z.of_nat len);
  if c =? SLASH then Ret (len, wd)
  else
    match len with
    | O => Fault (Undef "read outside the array")
    | S l => cut_last l (<[len := 0]> wd)
    end.

(** The path name after a successful lookup of the argument. *)
Definition cd_path (arg wd : list Z) : outcome (list Z) :=
  here ← strcmp_eq (str "./" ++ [0]) arg;
  if (here : bool) then Ret wd
  else
    len ← strlen wd;
    up ← strcmp_eq (str "../" ++ [0]) arg;
    if (up : bool) then
      '(l, wd) ← cut_last (Z.to_nat len) wd;
      Ret (if (l =? 0)%nat then wd else <[l := 0]> wd)
    else
      wd ← (if 1 <? len then strcat wd (str "/" ++ [0]) else Ret wd);
      n ← strlen arg;
      strncat wd arg (Z.to_nat (u32 (n - 1))).

(** [if (argv[1][strlen(argv[1]) - 1] != '/') strcat(argv[1], "/")] *)
Definition add_slash (args : list Z) : outcome (list Z) :=
  n ← strlen (argv args 1);
  c ← char_at args (32 + n - 1);
  if negb (c =? SLASH) then
    row ← strcat (argv args 1) (str "/" ++ [0]); Ret (take 32 args ++ row)
  else Ret args.

Definition cd_main (argc : Z) (args : list Z) (dir : shell_dir) (w : W) : outcome (Z * shell_dir * W) :=
  if argc =? 1 then
    home_ino ← lookup_in 0 0 (str "home/" ++ [0]);
    ino ← lookup_in 1 home_ino (str "cs6640/" ++ [0]);
    wd ← strcpy (workdir dir) (str "/home/cs6640" ++ [0]);
    Ret (0, ShellDir ino wd, w)
  else
    args ← add_slash args;
    dir_ino ← lookup_in 0 (workdir_ino dir) (argv args 1);
    if dir_ino =? -1 then
      w ← info 0 (str "cd: directory %s not found") [VStr (argv args 1)] w;
      Ret (-1, dir, w)
    else
      wd ← cd_path (argv args 1) (workdir dir);
      Ret (0, ShellDir dir_ino wd, w).
End apps.
