(* ===== verification/AppsSpec.v ===== *)
(** * What the user applications do

    Specifications of Apps.v: [cd] moves in the tree of directories and keeps
    the path name in step, [ls] prints the names of a directory, [cat] a file
    and [echo] its arguments. *)
From S2P Require Import Prelude InodeStore Process Ipc FileServer CString Print Directory Apps.

(** ** Printing *)
Section print.
Context {W : Type} (tw : list Z → W → outcome W) (fr : nat → frame) (Hfr : ∀ n, frame_ok (fr n)).

Lemma printf_text n fmt args text w : nonzero fmt → format_text fmt args = Ret text →
  (length text < 512)%nat → printf tw fr n fmt args w = tw text w.
Proof using Hfr.
  intros Hf Ht Hl. unfold printf, my_printf. destruct (Hfr n) as (_ & _ & Hb).
  rewrite (log_text tw [] [] _ fmt args text) by (done || constructor).
  rewrite Hb, bool_decide_true by (cbn [length]; lia). cbn [app]. by rewrite app_nil_r.
Qed.

Lemma info_text n fmt args text w : nonzero fmt → format_text fmt args = Ret text →
  (length text < 500)%nat → info tw fr n fmt args w = tw (str "[INFO] " ++ text ++ EOL) w.
Proof using Hfr.
  intros Hf Ht Hl. unfold info, INFO. destruct (Hfr n) as (_ & _ & Hb).
  rewrite (log_text tw _ _ _ fmt args text) by (done || apply (bool_decide_unpack _); reflexivity).
  rewrite Hb, bool_decide_true; [done|]. cbn [length str EOL]. lia.
Qed.
End print.

(** ** Paths *)

(** A path is the list of its components; the root is the empty list. *)
Definition path_text (ps : list (list Z)) : list Z :=
  match ps with [] => [SLASH] | _ => mjoin ((λ p, SLASH :: p) <$> ps) end.

Definition DOT : list Z := str ".".
Definition DOTDOT : list Z := str "..".

(** What [cd name] does to the path. *)
Definition cd_spec (ps : list (list Z)) (name : list Z) : list (list Z) :=
  if bool_decide (name = DOT) then ps
  else if bool_decide (name = DOTDOT) then take (length ps - 1) ps
  else ps ++ [name].

Definition comp_ok (p : list Z) : Prop := p ≠ [] ∧ Forall (λ c, c ≠ 0 ∧ c ≠ SLASH ∧ c ≠ SPACE) p.

Lemma comp_nonzero p : comp_ok p → nonzero p.
Proof. intros [_ H]. eapply Forall_impl; [exact H|]. by intros c (? & _). Qed.

Lemma path_text_snoc ps p : path_text (ps ++ [p]) = (if decide (ps = []) then [] else path_text ps) ++ SLASH :: p.
Proof.
  destruct ps as [|q ps]; [by rewrite decide_True; cbn; rewrite ?app_nil_r|].
  rewrite decide_False by done. unfold path_text. cbn [app].
  change (q :: ps ++ [p]) with ((q :: ps) ++ [p]). rewrite fmap_app, join_app. cbn. by rewrite app_nil_r.
Qed.

Lemma path_nonzero ps : Forall comp_ok ps → nonzero (path_text ps).
Proof.
  intros H. destruct ps as [|p ps]; [by repeat constructor|].
  unfold path_text. clear -H. induction H as [|q qs Hq _ IH]; [constructor|]. cbn.
  constructor; [done|]. apply nonzero_app; [by apply comp_nonzero|exact IH].
Qed.

Lemma path_length ps : (1 ≤ length (path_text ps))%nat.
Proof. destruct ps; cbn; [lia|]. rewrite !length_app. cbn. lia. Qed.

(** The loop that removes the last component. *)
Lemma cut_last_spec pre q : ∀ z, Forall (λ c, c ≠ SLASH) q →
  cut_last (length pre + length q) (pre ++ SLASH :: q ++ z) = Ret (length pre, pre ++ SLASH :: zeros (length q) ++ z).
Proof.
  induction q as [|c q IH] using rev_ind; intros z Hq.
  - cbn [length app zeros replicate]. rewrite Nat.add_0_r. destruct pre as [|x pre]; [done|].
    cbn [length cut_last]. change (S (length pre)) with (length (x :: pre)).
    rewrite (char_at_lookup _ (length (x :: pre)) SLASH), bind_ret; [done|].
    rewrite lookup_app_r by done. by rewrite Nat.sub_diag.
  - apply Forall_app in Hq as [Hq Hc]. apply Forall_cons in Hc as [Hc _].
    rewrite length_app. cbn [length]. rewrite Nat.add_assoc, Nat.add_1_r. cbn [cut_last].
    assert (pre ++ SLASH :: (q ++ [c]) ++ z = (pre ++ SLASH :: q) ++ c :: z) as ->.
    { by rewrite <- !(assoc_L (++)). }
    assert (S (length pre + length q) = length (pre ++ SLASH :: q)) as Hi by (rewrite length_app; cbn; lia).
    rewrite (char_at_lookup _ _ c) by (by apply list_lookup_middle).
    rewrite bind_ret, (proj2 (Z.eqb_neq _ _)) by done.
    rewrite Hi, insert_app_r_alt, Nat.sub_diag by done. cbn [insert list_insert].
    rewrite <- (assoc_L (++)). cbn [app].
    rewrite IH by done. unfold zeros. rewrite ?Nat.add_1_r, replicate_S_end. by rewrite <- (assoc_L (++)).
Qed.

(** Removing the last component of the path; the root stays. *)
Lemma cut_path ps rest : Forall comp_ok ps → ∃ l wd rest',
  cut_last (length (path_text ps)) (path_text ps ++ 0 :: rest) = Ret (l, wd) ∧
  (if (l =? 0)%nat then wd else <[l := 0]> wd) = path_text (take (length ps - 1) ps) ++ 0 :: rest' ∧
  length (path_text (take (length ps - 1) ps) ++ 0 :: rest') = length (path_text ps ++ 0 :: rest).
Proof.
  intros Hps. destruct ps as [|p ps _] using rev_ind.
  - exists 0%nat, (path_text [] ++ 0 :: rest), rest. split_and!; [|done..].
    apply (cut_last_spec [] [0] rest). by repeat constructor.
  - apply Forall_app in Hps as [Hps Hp]. apply Forall_cons in Hp as [[_ Hp] _].
    rewrite length_app, Nat.add_sub, take_app_length, path_text_snoc.
    set (pre := if decide (ps = []) then [] else path_text ps).
    assert ((pre ++ SLASH :: p) ++ 0 :: rest = pre ++ SLASH :: (p ++ [0]) ++ rest) as ->
      by (by rewrite <- !(assoc_L (++))).
    replace (length (pre ++ SLASH :: p)) with (length pre + length (p ++ [0%Z]))%nat by (rewrite !length_app; cbn; lia).
    exists (length pre), (pre ++ SLASH :: zeros (length (p ++ [0])) ++ rest).
    rewrite (cut_last_spec pre (p ++ [0]) rest).
    2: { apply Forall_app. split; [|by repeat constructor]. eapply Forall_impl; [exact Hp|]. by intros c (_ & ? & _). }
    unfold pre. destruct (decide (ps = [])) as [->|Hne].
    + exists (zeros (length p) ++ rest). rewrite length_app, Nat.add_1_r. split_and!; [done..|].
      simpl. len. simpl. lia.
    + pose proof (path_length ps). destruct (Nat.eqb_spec (length (path_text ps)) 0); [lia|]. eexists. split_and!; [done| |].
      * rewrite insert_app_r_alt, Nat.sub_diag by done. cbn. reflexivity.
      * rewrite !length_app. simpl. len. simpl. lia.
Qed.

Lemma path_length_one ps : Forall comp_ok ps → (1 <? Z.of_nat (length (path_text ps))) = negb (bool_decide (ps = [])).
Proof.
  intros H. destruct H as [|p ps [Hp _] _]; [done|]. rewrite bool_decide_false by done. cbn [negb].
  apply Z.ltb_lt. unfold path_text. cbn. rewrite length_app. destruct p; [done|]. cbn. lia.
Qed.

(** Appending a component. *)
Lemma push_path ps name r rest : Forall comp_ok ps → nonzero name → (S (length name) ≤ length rest)%nat →
  Z.of_nat (length name) < 2 ^ 31 → ∃ rest',
  (wd ← (if 1 <? Z.of_nat (length (path_text ps)) then strcat (path_text ps ++ 0 :: rest) (str "/" ++ [0])
         else Ret (path_text ps ++ 0 :: rest));
   n ← strlen ((name ++ [SLASH]) ++ 0 :: r);
   strncat wd ((name ++ [SLASH]) ++ 0 :: r) (Z.to_nat (u32 (n - 1)))) =
  Ret (path_text (ps ++ [name]) ++ 0 :: rest') ∧
  length (path_text (ps ++ [name]) ++ 0 :: rest') = length (path_text ps ++ 0 :: rest).
Proof.
  intros Hps Hn Hroom Hshort. pose proof (path_nonzero ps Hps) as Hz.
  assert (nonzero (name ++ [SLASH])) as Hns by (apply nonzero_app; [done|by repeat constructor]).
  set (pre := if decide (ps = []) then [SLASH] else path_text ps ++ [SLASH]).
  assert (∃ rest1, (if 1 <? Z.of_nat (length (path_text ps)) then strcat (path_text ps ++ 0 :: rest) (str "/" ++ [0])
         else Ret (path_text ps ++ 0 :: rest)) = Ret (pre ++ 0 :: rest1) ∧ nonzero pre ∧ (length name ≤ length rest1)%nat ∧
         length (pre ++ 0 :: rest1) = length (path_text ps ++ 0 :: rest)) as (rest1 & -> & Hpre & Hr1 & Hl1).
  { rewrite path_length_one by done. unfold pre. destruct (decide (ps = [])) as [->|Hne].
    - exists rest. split_and!; [done|by repeat constructor|lia|done].
    - rewrite bool_decide_false by done. cbn [negb]. exists (drop 1 rest).
      rewrite (strcat_app _ rest [SLASH] []) by (done || by repeat constructor).
      rewrite put_string_app by (cbn; lia). rewrite !length_app. cbn [length]. rewrite !length_drop.
      split_and!; [done|apply nonzero_app; [done|by repeat constructor]|lia|lia]. }
  rewrite bind_ret, (strlen_app _ r Hns), bind_ret. unfold strncat.
  rewrite (strlen_app _ rest1 Hpre), bind_ret, (cstr_app _ r Hns), bind_ret, length_app. cbn [length].
  replace (Z.to_nat _) with (length name) by (rewrite u32_small; lia).
  rewrite take_app_length, put_string_app by done. exists (drop (length name) rest1).
  assert (pre ++ name = path_text (ps ++ [name])) as <-.
  { rewrite path_text_snoc. unfold pre. destruct (decide _); [done|by rewrite <- (assoc_L (++))]. }
  split; [done|]. rewrite <- Hl1, !length_app. cbn [length]. rewrite length_drop. lia.
Qed.

Lemma cd_spec_length ps name : (length (path_text (cd_spec ps name)) ≤ length (path_text ps) + S (length name))%nat.
Proof.
  unfold cd_spec. repeat case_bool_decide; [lia| |].
  - destruct ps as [|p ps _] using rev_ind; [cbn; lia|]. rewrite length_app, Nat.add_sub, take_app_length.
    rewrite path_text_snoc, length_app. destruct (decide _) as [->|]; cbn; lia.
  - rewrite path_text_snoc, length_app. destruct (decide _) as [->|]; cbn; lia.
Qed.

(** [cd_path] follows [cd_spec]. *)
Lemma cd_path_spec ps name r rest : Forall comp_ok ps → comp_ok name → (S (length name) ≤ length rest)%nat →
  Z.of_nat (length name) < 2 ^ 31 → ∃ rest',
  cd_path ((name ++ [SLASH]) ++ 0 :: r) (path_text ps ++ 0 :: rest) = Ret (path_text (cd_spec ps name) ++ 0 :: rest') ∧
  length (path_text (cd_spec ps name) ++ 0 :: rest') = length (path_text ps ++ 0 :: rest).
Proof.
  intros Hps Hname Hroom Hshort. pose proof (path_nonzero ps Hps) as Hz. pose proof (comp_nonzero name Hname) as Hnz.
  assert (∀ w, nonzero w → strcmp_eq ((w ++ [SLASH]) ++ [0]) ((name ++ [SLASH]) ++ 0 :: r) = Ret (bool_decide (name = w))) as Hcmp.
  { intros w Hw. unfold strcmp_eq. rewrite !cstr_app, !bind_ret by (apply nonzero_app; [done|by repeat constructor]).
    f_equal. apply bool_decide_ext. split; [by intros ->%app_inv_tail|by intros ->]. }
  unfold cd_path, cd_spec. change (str "./") with (DOT ++ [SLASH]). change (str "../") with (DOTDOT ++ [SLASH]).
  rewrite (Hcmp DOT), bind_ret by (by repeat constructor). case_bool_decide; [by exists rest|].
  rewrite (strlen_app _ _ Hz), bind_ret, (Hcmp DOTDOT), bind_ret by (by repeat constructor).
  case_bool_decide; [|by apply push_path].
  rewrite Nat2Z.id. destruct (cut_path ps rest Hps) as (l & wd & rest' & -> & Hw & Hl).
  exists rest'. rewrite bind_ret, Hw. done.
Qed.

(** ** Directories *)
Section dirs.
Context {St W : Type} (fs : inode_store St) (s : St) (tw : list Z → W → outcome W).
Context (fr : nat → frame) (Hfr : ∀ n, frame_ok (fr n)).

(** The first block of [ino] is the directory with the entries [es]. *)
Definition dir_at (ino : Z) (es : list entry) : Prop :=
  0 ≤ ino < 2 ^ 32 ∧ Forall entry_ok es ∧ ∃ rest, length (render es ++ 0 :: rest) = 512%nat ∧
  ∀ buf, length buf = 512%nat → read fs s ino 0 buf = Ret (0, render es ++ 0 :: rest).

(** A shell in directory [ino] with the path [ps] and [room] spare bytes. *)
Definition shell_at (d : shell_dir) (ino : Z) (ps : list (list Z)) (room : nat) : Prop :=
  workdir_ino d = ino ∧ Forall comp_ok ps ∧
  ∃ rest, workdir d = path_text ps ++ 0 :: rest ∧ (room ≤ length rest)%nat.

(** The argument area with [arg] as [argv[1]] and a spare byte after it. *)
Definition arg_at (args arg : list Z) : Prop :=
  ∃ row rest, args = row ++ arg ++ 0 :: rest ∧ length row = 32%nat ∧ rest ≠ [].

Lemma lookup_in_dir n ino es name rest : dir_at ino es → word name → nonzero name →
  Forall (λ e, dec (e_ino e) ≠ name) es → (length name ≤ length (render es))%nat →
  lookup_in fs s fr n ino (name ++ 0 :: rest) = Ret (spec_lookup name es).
Proof using Hfr.
  intros (Hi & Hes & brest & Hlen & Hread) Hw Hz Hnum Hl. destruct (Hfr n) as (Hj & Hst & _).
  unfold lookup_in. rewrite dir_lookup_app by done.
  rewrite (dir_lookup_block fs s ino _ _ _ _ 0 (render es ++ 0 :: brest)) by done.
  apply dir_search_finds; try done. rewrite length_app in Hlen. lia.
Qed.

(** A name with a slash is not a number. *)
Lemma slash_not_number es name : Forall entry_ok es → Forall (λ e, dec (e_ino e) ≠ name ++ [SLASH]) es.
Proof.
  intros Hes. eapply Forall_impl; [exact Hes|]. intros e (_ & _ & He) Heq.
  destruct (dec_spec (e_ino e)) as (_ & Hall & _); [lia|]. rewrite Heq in Hall.
  apply Forall_app in Hall as [_ Hc]. by apply Forall_cons in Hc as [Hc _].
Qed.

Lemma comp_word name : comp_ok name → word (name ++ [SLASH]) ∧ nonzero (name ++ [SLASH]).
Proof.
  intros Hn. pose proof (comp_nonzero name Hn). destruct Hn as [Hne Hall]. split.
  - split; [by destruct name|]. apply Forall_app. split; [|by repeat constructor].
    eapply Forall_impl; [exact Hall|]. by intros c (_ & _ & ?).
  - apply nonzero_app; [done|by repeat constructor].
Qed.

(** [argv[1]] after the slash has been added. *)
Lemma add_slash_spec args name arg : arg_at args arg → comp_ok name → arg = name ∨ arg = name ++ [SLASH] → ∃ row rest,
  add_slash args = Ret (row ++ (name ++ [SLASH]) ++ 0 :: rest) ∧ length row = 32%nat.
Proof.
  intros (row & rest & -> & Hrow & Hrest) Hn Harg. pose proof (comp_nonzero name Hn) as Hz.
  assert (nonzero arg) as Hza by (destruct Harg as [->| ->]; [done|by apply comp_word]).
  assert (∀ x, argv (row ++ x) 1 = x) as Hargv by (intros x; unfold argv; by apply drop_app_length').
  unfold add_slash. rewrite Hargv, (strlen_app _ _ Hza), bind_ret.
  assert (∃ a c, arg = a ++ [c]) as (a & c & Ha).
  { destruct arg as [|c a _] using rev_ind; [|eauto]. destruct Harg as [<-|H]; [by destruct Hn|by destruct name]. }
  assert (char_at (row ++ arg ++ 0 :: rest) (32 + Z.of_nat (length arg) - 1) = Ret c) as ->.
  { replace (_ - 1) with (Z.of_nat (length (row ++ a))) by (rewrite Ha, !length_app; cbn; lia).
    apply char_at_lookup. rewrite Ha, <- (assoc_L (++)), (assoc_L (++)). by apply list_lookup_middle. }
  rewrite bind_ret. destruct Harg as [->| ->].
  - assert (c ≠ SLASH) as Hc.
    { destruct Hn as [_ Hall]. rewrite Ha in Hall. apply Forall_app in Hall as [_ Hc]. by apply Forall_cons in Hc as [(_ & ? & _) _]. }
    rewrite (proj2 (Z.eqb_neq _ _)) by done. cbn [negb].
    change (str "/") with [SLASH]. rewrite (strcat_app name rest [SLASH] []); [|exact Hz|by repeat constructor].
    rewrite put_string_app, bind_ret by (destruct rest; cbn; [done|lia]).
    rewrite take_app_length' by done. by exists row, (drop 1 rest).
  - apply app_inj_tail in Ha as [_ <-]. rewrite Z.eqb_refl. cbn [negb]. by exists row, rest.
Qed.

(** The behaviour of [cd] with an argument. *)
Lemma cd_step args name arg argc d ino ps es room w : argc ≠ 1 → arg_at args arg →
  comp_ok name → (length name ≤ 30)%nat → arg = name ∨ arg = name ++ [SLASH] →
  dir_at ino es → (length name < length (render es))%nat →
  shell_at d ino ps (S (length name) + room) →
  let found := spec_lookup (name ++ [SLASH]) es in
  if found =? -1 then
    cd_main fs s tw fr argc args d w =
    (w ← tw (str "[INFO] cd: directory " ++ name ++ [SLASH] ++ str " not found" ++ EOL) w; Ret (-1, d, w))
  else ∃ d', cd_main fs s tw fr argc args d w = Ret (0, d', w) ∧
    shell_at d' found (cd_spec ps name) room ∧ length (workdir d') = length (workdir d).
Proof using Hfr.
  intros Hargc Hargs Hn Hlen Harg Hdir Hshort (Hino & Hps & rest & Hwd & Hroom). cbn zeta.
  destruct (add_slash_spec args name arg Hargs Hn Harg) as (row & arest & Hadd & Hrow).
  destruct (comp_word name Hn) as [Hword Hz]. pose proof (proj1 (proj2 Hdir)) as Hes.
  unfold cd_main. rewrite (proj2 (Z.eqb_neq argc 1) Hargc), Hadd, bind_ret.
  assert (argv (row ++ (name ++ [SLASH]) ++ 0 :: arest) 1 = (name ++ [SLASH]) ++ 0 :: arest) as ->
    by (unfold argv; by apply drop_app_length').
  rewrite Hino, (lookup_in_dir _ ino es _ _ Hdir Hword Hz (slash_not_number es name Hes)), bind_ret
    by (rewrite length_app; cbn; lia).
  destruct (spec_lookup _ es =? -1).
  - rewrite (info_text tw fr Hfr _ _ _ (str "cd: directory " ++ (name ++ [SLASH]) ++ str " not found")).
    + rewrite <- !(assoc_L (++)). done.
    + by repeat constructor.
    + apply (format_text_str (str "cd: directory ") (str " not found")); [by repeat constructor..|by apply cstr_app].
    + rewrite !length_app. cbn. lia.
  - rewrite Hwd. destruct (cd_path_spec ps name arest rest Hps Hn ltac:(lia) ltac:(lia)) as (rest' & -> & Hl).
    rewrite bind_ret. eexists. split; [reflexivity|]. unfold shell_at. cbn [workdir workdir_ino].
    split; [|congruence]. split; [done|]. split.
    + unfold cd_spec. repeat case_bool_decide; [done|by apply Forall_take|]. apply Forall_app. split; [done|]. constructor; [done|constructor].
    + exists rest'. split; [done|]. rewrite !length_app in Hl. cbn [length] in Hl.
      pose proof (cd_spec_length ps name). lia.
Qed.

(** ** ls *)

(** The text with every digit after a space or an erased digit erased. *)
Fixpoint erase (p : Z) (l : list Z) : list Z :=
  match l with
  | [] => []
  | c :: l => let c := if (p =? SPACE) && (48 <=? c) && (c <=? 57) then SPACE else c in c :: erase c l
  end.

Lemma ls_loop_erase todo : ∀ fuel d p rest, (length todo < fuel)%nat → nonzero (d ++ p :: todo) →
  ls_loop fuel (Z.of_nat (length d) + 1) (d ++ p :: todo ++ 0 :: rest) =
  Ret (d ++ p :: erase p todo ++ 0 :: rest).
Proof.
  induction todo as [|c todo IH]; intros fuel d p rest Hf Hz; (destruct fuel as [|fuel]; [lia|]); cbn [ls_loop length] in *.
  - assert (d ++ p :: [] ++ 0 :: rest = (d ++ [p]) ++ 0 :: rest) as -> by (by rewrite <- (assoc_L (++))).
    rewrite (strlen_app _ rest Hz), bind_ret, length_app. cbn [length erase app].
    rewrite (proj2 (Z.ltb_ge _ _)) by lia. by rewrite <- (assoc_L (++)).
  - assert (d ++ p :: (c :: todo) ++ 0 :: rest = (d ++ p :: c :: todo) ++ 0 :: rest) as -> by (by rewrite <- !(assoc_L (++))).
    rewrite (strlen_app _ rest Hz), bind_ret, length_app. cbn [length].
    rewrite (proj2 (Z.ltb_lt _ _)) by lia. rewrite Z.add_simpl_r, <- (assoc_L (++)).
    rewrite (char_at_lookup _ _ p), bind_ret by (by apply list_lookup_middle).
    replace (Z.of_nat (length d) + 1) with (Z.of_nat (length (d ++ [p]))) by (rewrite length_app; cbn; lia).
    assert (d ++ (p :: c :: todo) ++ 0 :: rest = (d ++ [p]) ++ c :: todo ++ 0 :: rest) as -> by (by rewrite <- !(assoc_L (++))).
    rewrite (char_at_lookup _ _ c), bind_ret by (by apply list_lookup_middle).
    cbn [erase]. set (c' := if _ && _ && _ then SPACE else c).
    assert ((if (p =? SPACE) && (48 <=? c) && (c <=? 57) then <[Z.to_nat (Z.of_nat (length (d ++ [p]))) := SPACE]>
      ((d ++ [p]) ++ c :: todo ++ 0 :: rest) else (d ++ [p]) ++ c :: todo ++ 0 :: rest) = (d ++ [p]) ++ c' :: todo ++ 0 :: rest) as ->.
    { unfold c'. destruct (_ && _ && _); [|done]. rewrite Nat2Z.id, insert_app_r_alt, Nat.sub_diag by done. done. }
    rewrite IH; [by rewrite <- (assoc_L (++))|lia|].
    rewrite <- (assoc_L (++)). apply Forall_app in Hz as [Hd Hz]. apply Forall_cons in Hz as [Hp Hz].
    apply Forall_cons in Hz as [Hc Hz]. apply nonzero_app; [done|]. repeat constructor; try done.
    unfold c'. by destruct (_ && _ && _).
Qed.

(** What [ls] shows of an entry: the name, and spaces for the number. *)
Definition show_entry (e : entry) : list Z :=
  e_name e ++ replicate (S (e_pad e) + length (dec (e_ino e)) + 1) SPACE.
Definition show_dir (es : list entry) : list Z := mjoin (show_entry <$> es).

(** A name [ls] does not mistake for a number. *)
Definition plain (e : entry) : Prop := ∀ c l, e_name e = c :: l → is_digit c = false.

Lemma erase_name w : ∀ p x, Forall (λ c, c ≠ SPACE) w → (p = SPACE → ∀ c l, w = c :: l → is_digit c = false) →
  erase p (w ++ SPACE :: x) = w ++ SPACE :: erase SPACE x.
Proof.
  induction w as [|c w IH]; intros p x Hw Hp; cbn [app erase].
  - by rewrite andb_false_r.
  - apply Forall_cons in Hw as [Hc Hw].
    replace ((p =? SPACE) && (48 <=? c) && (c <=? 57)) with false.
    + f_equal. by apply IH.
    + destruct (Z.eqb_spec p SPACE) as [->|]; [|done]. symmetry. by apply (Hp eq_refl c w).
Qed.

Lemma erase_spaces k x : erase SPACE (replicate k SPACE ++ x) = replicate k SPACE ++ erase SPACE x.
Proof. induction k as [|k IH]; [done|]. cbn [replicate app erase]. rewrite andb_false_r. by f_equal. Qed.

Lemma erase_digits ds x : Forall (λ c, is_digit c = true) ds →
  erase SPACE (ds ++ x) = replicate (length ds) SPACE ++ erase SPACE x.
Proof.
  induction 1 as [|c ds Hc _ IH]; [done|]. cbn [app erase length replicate]. unfold is_digit in Hc.
  rewrite Z.eqb_refl. cbn [andb]. rewrite Hc. by f_equal.
Qed.

Lemma erase_render es : Forall entry_ok es → Forall plain es → erase SPACE (render es) = show_dir es.
Proof.
  induction 1 as [|e es (Hw & _ & Hi) _ IH]; intros Hp; [done|]. apply Forall_cons in Hp as [Hp Hps].
  change (render (e :: es)) with (render_entry e ++ render es). change (show_dir (e :: es)) with (show_entry e ++ show_dir es).
  unfold render_entry, show_entry. rewrite <- !(assoc_L (++)). cbn [replicate app].
  rewrite erase_name; [|by apply Hw|by intros _]. rewrite erase_spaces.
  destruct (dec_spec (e_ino e)) as (_ & Hd & _); [lia|]. rewrite erase_digits by done.
  change (SPACE :: render es) with (replicate 1 SPACE ++ render es). rewrite erase_spaces, IH by done.
  rewrite !replicate_add. cbn [replicate app]. by rewrite <- !(assoc_L (++)).
Qed.

(** The loop of [ls] on a directory. *)
Lemma ls_loop_dir es rest : Forall entry_ok es → Forall plain es →
  ls_loop (S (length (render es ++ 0 :: rest))) 1 (render es ++ 0 :: rest) = Ret (show_dir es ++ 0 :: rest).
Proof.
  intros Hes Hp. rewrite <- (erase_render es Hes Hp). pose proof (render_nonzero es Hes) as Hz.
  assert (∀ c l, render es = c :: l → is_digit c = false) as Hc.
  { intros c l Hr. destruct es as [|e es]; [done|]. apply Forall_cons in Hp as [Hp _].
    apply Forall_cons in Hes as [([Hne _] & _) _]. unfold render in Hr. cbn in Hr. unfold render_entry in Hr.
    destruct (e_name e) as [|c' l'] eqn:He; [done|]. injection Hr as <- _. by eapply Hp. }
  destruct (render es) as [|c todo]; [done|].
  pose proof (ls_loop_erase todo (S (length ((c :: todo) ++ 0 :: rest))) [] c rest) as Hl.
  etrans; [apply Hl; [rewrite length_app; cbn; lia|done]|]. cbn [app erase].
  specialize (Hc c todo eq_refl). unfold is_digit in Hc. rewrite Z.eqb_refl. cbn [andb]. by rewrite Hc.
Qed.

Lemma read_block_spec n ino r block : 0 ≤ ino < 2 ^ 32 →
  (∀ buf, length buf = 512%nat → read fs s ino 0 buf = Ret (r, block)) → length block = 512%nat →
  read_block fs s fr n ino = Ret (if r =? 0 then 0 else -1, block).
Proof using Hfr.
  intros Hi Hr Hb. destruct (Hfr n) as (Hj & Hst & _).
  unfold read_block. apply file_rpc_read; try done. apply Hr.
  rewrite length_take, length_drop. unfold send_content.
  rewrite length_app, length_file_request by done. lia.
Qed.

(** [ls] prints the names. *)
Lemma ls_prints argc d ino es w : argc ≤ 1 → workdir_ino d = ino → dir_at ino es → Forall plain es →
  (length (show_dir es) < 510)%nat →
  ls_main fs s tw fr argc d w = (w ← tw (show_dir es ++ EOL) w; Ret (0, w)).
Proof using Hfr.
  intros Hargc Hino (Hi & Hes & rest & Hlen & Hread) Hp Hl. unfold ls_main.
  rewrite (proj2 (Z.ltb_ge _ _)) by lia. rewrite Hino, (read_block_spec _ _ 0 _ Hi Hread Hlen), bind_ret.
  rewrite ls_loop_dir, bind_ret by done.
  assert (nonzero (show_dir es)) as Hz.
  { clear -Hes. induction Hes as [|e es (_ & He & _) _ IH]; [constructor|]. unfold show_dir. cbn.
    apply nonzero_app; [|exact IH]. apply nonzero_app; [done|]. by apply Forall_replicate. }
  rewrite (printf_text tw fr Hfr _ _ _ (show_dir es ++ EOL)); [done|by repeat constructor| |rewrite length_app; cbn; lia].
  apply (format_text_str [] EOL); [constructor|by repeat constructor|by apply cstr_app].
Qed.

(** [cat] prints the first block of a file up to its terminator, and a new
    line unless the text ends with one. *)
Lemma cat_prints args name d ino es file text c rest w : arg_at args name → word name → nonzero name →
  dir_at ino es → workdir_ino d = ino → Forall (λ e, dec (e_ino e) ≠ name) es → (length name ≤ length (render es))%nat →
  spec_lookup name es = file → 0 ≤ file < 2 ^ 31 →
  (∀ buf, length buf = 512%nat → read fs s file 0 buf = Ret (0, (text ++ [c]) ++ 0 :: rest)) →
  length ((text ++ [c]) ++ 0 :: rest) = 512%nat → nonzero (text ++ [c]) →
  cat_main fs s tw fr 2 args d w =
  (w ← tw (text ++ [c]) w; w ← (if c =? 10 then Ret w else tw EOL w); Ret (0, w)).
Proof using Hfr.
  intros (row & arest & -> & Hrow & _) Hw Hz Hdir Hino Hnum Hnl Hfile Hrange Hread Hlen Ht. unfold cat_main.
  change (negb (2 =? 2)) with false. cbv iota.
  assert (argv (row ++ name ++ 0 :: arest) 1 = name ++ 0 :: arest) as -> by (unfold argv; by apply drop_app_length').
  rewrite Hino, (lookup_in_dir _ ino es _ _ Hdir Hw Hz Hnum Hnl), bind_ret, Hfile.
  rewrite (proj2 (Z.ltb_ge _ _)), (read_block_spec _ file 0 _ ltac:(lia) Hread Hlen), bind_ret by lia.
  rewrite (printf_text tw fr Hfr _ _ _ (text ++ [c])).
  2: by repeat constructor.
  2: { rewrite <- (app_nil_r (text ++ [c])) at 2. apply (format_text_str [] []); [constructor..|by apply cstr_app]. }
  2: { rewrite length_app in Hlen. cbn in Hlen. lia. }
  apply bind_ext. intros w1. rewrite (strlen_app _ _ Ht), bind_ret, length_app. cbn [length].
  replace (u32 _) with (Z.of_nat (length text)).
  2: { rewrite u32_small; [lia|]. rewrite !length_app in Hlen. cbn in Hlen. lia. }
  rewrite (char_at_lookup _ _ c), bind_ret by (rewrite <- (assoc_L (++)); by apply list_lookup_middle).
  destruct (c =? 10); cbn [negb]; [done|].
  rewrite (printf_text tw fr Hfr _ EOL [] EOL); [done|by repeat constructor|done|cbn; lia].
Qed.

(** ** echo *)
Fixpoint puts (ts : list (list Z)) (w : W) : outcome W :=
  match ts with [] => Ret w | t :: ts => w ← tw t w; puts ts w end.

Lemma echo_loop_spec ws : ∀ i args w,
  (∀ k wd, ws !! k = Some wd → cstr (argv args (i + k)) = Ret wd ∧ (length wd < 32)%nat) →
  echo_loop tw fr (length ws) i args w = puts ((λ x, x ++ str " ") <$> ws) w.
Proof using Hfr.
  induction ws as [|x ws IH]; intros i args w Hargs; [done|]. cbn [length echo_loop fmap list_fmap puts].
  destruct (Hargs 0%nat x eq_refl) as [Hx Hl]. rewrite Nat.add_0_r in Hx.
  rewrite (printf_text tw fr Hfr _ _ _ (x ++ str " ")); [|by repeat constructor| |rewrite length_app; cbn; lia].
  - apply bind_ext. intros w1. apply IH. intros k wd Hk.
    replace (i + 1 + k)%nat with (i + S k)%nat by lia. by apply Hargs.
  - apply (format_text_str [] (str " ")); [constructor|by repeat constructor|done].
Qed.

(** [echo] prints its arguments, each followed by a space. *)
Lemma echo_prints ws args w : Z.of_nat (length ws) < 100 →
  (∀ k wd, ws !! k = Some wd → cstr (argv args (1 + k)) = Ret wd ∧ (length wd < 32)%nat) →
  echo_main tw fr (Z.of_nat (length ws) + 1) args w =
  (w ← puts ((λ x, x ++ str " ") <$> ws) w; w ← tw EOL w; Ret (0, w)).
Proof using Hfr.
  intros Hn Hargs. unfold echo_main. rewrite u32_small, Z.add_simpl_r, Nat2Z.id by lia.
  rewrite echo_loop_spec by done. apply bind_ext. intros w1.
  rewrite (printf_text tw fr Hfr _ EOL [] EOL); [done|by repeat constructor|done|cbn; lia].
Qed.

(** ** loop *)
Definition loop_text (i : Z) : list Z := str "loop #" ++ itoa i 10 ++ EOL.

Lemma loop_loop_prints m args : ∀ i n w, Z.of_nat m + i < 2 ^ 31 → 0 ≤ i → u32 (atoi (argv args 1)) = Z.of_nat m + i →
  loop_loop tw fr (S m) n i 2 args w = puts (loop_text <$> seqZ i (Z.of_nat m)) w.
Proof using Hfr.
  induction m as [|m IH]; intros i n w Hb Hi Hto.
  - cbn [loop_loop]. unfold loop_more. change (2 =? 1) with false. cbv iota. rewrite Hto, (proj2 (Z.ltb_ge _ _)) by lia. done.
  - rewrite seqZ_cons, Nat2Z.inj_succ, Z.pred_succ by lia. cbn [fmap list_fmap puts].
    change (loop_loop tw fr (S (S m)) n i 2 args w) with
      (if i <? u32 (atoi (argv args 1)) then
         w ← printf tw fr n (str "loop #%d" ++ EOL) [VInt (i32 i)] w; loop_loop tw fr (S m) (n + 1) (u32 (i + 1)) 2 args w
       else Ret w).
    rewrite Hto, (proj2 (Z.ltb_lt _ _)), i32_small by lia.
    rewrite (printf_text tw fr Hfr _ _ _ (loop_text i)); [|by repeat constructor|done|].
    + apply bind_ext. intros w1. rewrite u32_small by lia. apply IH; lia.
    + unfold loop_text. rewrite !length_app. pose proof (itoa_length i ltac:(lia)). cbn. lia.
Qed.

(** [loop n] prints n lines and stops, with n + 1 tests of the condition;
    without an argument it never stops. *)
Lemma loop_prints m args w : Z.of_nat m < 2 ^ 31 → atoi (argv args 1) = Z.of_nat m →
  loop_main tw fr (S m) 2 args w = (w ← puts (loop_text <$> seqZ 0 (Z.of_nat m)) w; Ret (0, w)).
Proof using Hfr.
  intros Hm Ha. unfold loop_main. rewrite (loop_loop_prints m) by (rewrite ?Ha, ?u32_small; lia). done.
Qed.

Lemma loop_forever fuel args w : loop_main tw fr fuel 1 args w = Fault OutOfFuel.
Proof using Type.
  unfold loop_main. enough (∀ n i, loop_loop tw fr fuel n i 1 args w = Fault OutOfFuel) as -> by done.
  induction fuel as [|fuel IH]; intros n i; [done|]. cbn [loop_loop]. unfold loop_more. cbn. apply IH.
Qed.
End dirs.

(** C33: [cd] implements moving in the directory tree: from a directory with
    the entries [es] and the path [ps], [cd name] (with or without the
    trailing slash) goes to the inode the directory has for "name/" and keeps
    the path name in step: "." stays, ".." drops the last component (the root
    is its own parent), any other name is appended; for a missing directory it
    prints a message, returns -1 and changes nothing. *)
Theorem cd_refines {St W} (fs : inode_store St) s (tw : list Z → W → outcome W) fr
    args name arg argc d ino ps es room w :
  (∀ n, frame_ok (fr n)) → argc ≠ 1 → arg_at args arg →
  comp_ok name → (length name ≤ 30)%nat → arg = name ∨ arg = name ++ [SLASH] →
  dir_at fs s ino es → (length name < length (render es))%nat →
  shell_at d ino ps (S (length name) + room) →
  let found := spec_lookup (name ++ [SLASH]) es in
  if found =? -1 then
    cd_main fs s tw fr argc args d w =
    (w ← tw (str "[INFO] cd: directory " ++ name ++ [SLASH] ++ str " not found" ++ EOL) w; Ret (-1, d, w))
  else ∃ d', cd_main fs s tw fr argc args d w = Ret (0, d', w) ∧
    shell_at d' found (cd_spec ps name) room ∧ length (workdir d') = length (workdir d).
Proof. intros Hfr. by apply cd_step. Qed.

Definition demo_frame : nat → frame := λ n, Frame (zeros 512) (zeros 1024) (zeros 1024) (replicate 512 (Z.of_nat n)).
Lemma demo_frame_ok n : frame_ok (demo_frame n).
Proof. split_and!; [done..|apply length_replicate]. Qed.

(** [cd bin] in the root directory. *)
Lemma cd_refines_witness : ∃ d',
  cd_main Ramdisk.ramdisk [root_block] (λ s (w : list Z), Ret (w ++ s)) demo_frame 2
    (zeros 32 ++ str "bin" ++ 0 :: zeros 100) (ShellDir 0 (str "/" ++ 0 :: zeros 60)) [] = Ret (0, d', []) ∧
  shell_at d' 6 (cd_spec [] (str "bin")) 50 ∧ length (workdir d') = 62%nat.
Proof.
  apply (cd_refines Ramdisk.ramdisk [root_block] (λ s (w : list Z), Ret (w ++ s)) demo_frame
    (zeros 32 ++ str "bin" ++ 0 :: zeros 100) (str "bin") (str "bin") 2 (ShellDir 0 (str "/" ++ 0 :: zeros 60))
    0 [] root_entries 50 []).
  - apply demo_frame_ok.
  - lia.
  - exists (zeros 32), (zeros 100). by split_and!.
  - split; [discriminate|]. apply (bool_decide_unpack _). vm_compute. exact I.
  - simpl. lia.
  - by left.
  - split; [lia|]. split; [apply (bool_decide_unpack _); vm_compute; exact I|]. exists (zeros 477).
    split; [reflexivity|]. intros buf _. reflexivity.
  - vm_compute. lia.
  - split; [reflexivity|]. split; [constructor|]. exists (zeros 60). split; [reflexivity|]. vm_compute. lia.
Defined.

(** A disk with one block per inode. *)
Definition one_block_store : inode_store (list block_t) :=
  InodeStore (λ _ _, Ret 1) (λ _ _ _, Fault OutOfFuel)
    (λ s ino _ block, match s !! Z.to_nat ino with Some b => Ret (0, b) | None => Ret (-1, block) end)
    (λ _ _ _ _, Fault OutOfFuel).

Definition demo_cat (file : block_t) : outcome (Z * list Z) :=
  cat_main one_block_store [str "./   0 f   1 " ++ zeros 499; file] (λ s w, Ret (w ++ s)) demo_frame 2
    (zeros 32 ++ str "f" ++ 0 :: zeros 100) (ShellDir 0 []) [].

(** [cat] on a file of two bytes; on one whose first block has no
    terminator it reads past the block; on an empty block it reads
    [buf[-1]]. *)
Example cat_text : demo_cat (str "hi" ++ zeros 510) = Ret (0, str "hi" ++ EOL).
Proof. vm_compute. reflexivity. Qed.
Example cat_full_block : demo_cat (replicate 512 97) = Fault (Undef "string is not terminated").
Proof. vm_compute. reflexivity. Qed.
Example cat_empty_block : demo_cat (zeros 512) = Fault (Undef "read outside the array").
Proof. vm_compute. reflexivity. Qed.

(** [ls] takes a digit at the start of a name for an inode number. *)
Example ls_digit_name : ls_main one_block_store [str "./   0 3d   1 " ++ zeros 498] (λ s (w : list Z), Ret (w ++ s))
  demo_frame 1 (ShellDir 0 []) [] = Ret (0, str "./      d     " ++ EOL).
Proof. vm_compute. reflexivity. Qed.

(** [loop -1] compares unsigned: it does not stop at once. *)
Example loop_negative : loop_main (λ s (w : list Z), Ret (w ++ s)) demo_frame 5 2 (zeros 32 ++ str "-1" ++ zeros 100) []
  = Fault OutOfFuel.
Proof. vm_compute. reflexivity. Qed.
Example loop_two : loop_main (λ s (w : list Z), Ret (w ++ s)) demo_frame 3 2 (zeros 32 ++ str "2" ++ zeros 100) []
  = Ret (0, str "loop #0" ++ EOL ++ str "loop #1" ++ EOL).
Proof. vm_compute. reflexivity. Qed.
