(* ===== verification/Ult.v ===== *)
(** * User-level threads (apps/user/ult.c, apps/user/ult_test.c)

    The thread package of ult.c is an exercise: each of its functions prints a
    message and exits.  The programs of ult_test.c that run on it are complete:
    they share memory and give up the core only in [thread_yield], so a thread
    runs atomically from one yield to the next, its turn.  Here each program
    is the function of its turns, and which thread gets the next turn is an
    arbitrary schedule: the theorems hold for every thread package.

    Producers and consumers share a ring of three slots; the specification is
    a bounded queue. *)
From S2P Require Import Prelude CString Print Apps AppsSpec.

(** A [char*]: NULL or a string. *)
Definition pointer : Type := option (list Z).
Definition NL : list Z := [0x0a].

Section programs.
Context {W : Type} (tw : list Z → W → outcome W) (fr : nat → frame).
Let print := printf tw fr.
Definition terminated (s : list Z) : list Z := s ++ [0].

(** ** Programs without shared memory *)
Definition hello (n : nat) (arg : pointer) (w : W) : outcome W :=
  match arg with
  | None => print n (str "Hello without arg" ++ NL) [] w
  | Some s => print n (str "Hello with %s" ++ NL) [VStr (terminated s)] w
  end.

(** The loop of [stack], whose body calls [stack(NULL)], that is the loop
    again; [i] is the static variable. *)
Fixpoint stack_loop (fuel n : nat) (i : Z) (w : W) : outcome (Z * W) :=
  match fuel with
  | O => Fault OutOfFuel
  | S fuel =>
      if 0 <? i then
        let i := i - 1 in
        w ← print n (str "stak: nested call %d" ++ NL) [VInt i] w;
        '(i, w) ← stack_loop fuel (n + 1) i w;
        stack_loop fuel (n + 1) i w
      else Ret (i, w)
  end.

Definition stack (fuel n : nat) (arg : pointer) (i : Z) (w : W) : outcome (Z * W) :=
  '(i, w) ← stack_loop fuel n i w;
  match arg with
  | None => Ret (i, w)
  | Some s => w ← print n (str "stack is %s" ++ NL) [VStr (terminated s)] w; Ret (i, w)
  end.

(** A turn of [many_yield] in the iteration [i]: [Some i] is a yield, after
    which the loop goes on with [i]. *)
Definition many_yield_turn (n : nat) (arg : list Z) (i : Z) (w : W) : outcome (option Z * W) :=
  if i <? 102400 then Ret (Some (i + 1), w)
  else
    w ← print n (str "pass: many yield[%s]: i=%d" ++ NL) [VStr (terminated arg); VInt i] w;
    Ret (None, w).

(** ** Producers and consumers *)
Definition NSLOTS : Z := 3.
Record ring := Ring { slots : list pointer; in_ : Z; out : Z }.

Definition slot_at (r : ring) (i : Z) : outcome pointer :=
  match slots r !! Z.to_nat i with
  | Some x => Ret x
  | None => Fault (Undef "index of slots")
  end.

(** A turn of [producer]: it starts at the test of the [while] loop and ends
    in one of the two yields. *)
Definition producer_turn (arg : list Z) (r : ring) : outcome (bool * ring) :=
  x ← slot_at r (in_ r);
  match x with
  | Some _ => Ret (false, r)
  | None =>
      let slots' := <[Z.to_nat (in_ r) := Some arg]> (slots r) in
      let i := u32 (in_ r + 1) in
      Ret (true, Ring slots' (if i =? NSLOTS then 0 else i) (out r))
  end.

(** A turn of [consumer] inside its [for] loop. *)
Definition consumer_turn (n : nat) (arg : list Z) (r : ring) (w : W) : outcome (pointer * ring * W) :=
  x ← slot_at r (out r);
  match x with
  | None => Ret (None, r, w)
  | Some x =>
      let slots' := <[Z.to_nat (out r) := None]> (slots r) in
      let o := u32 (out r + 1) in
      let o := if o =? NSLOTS then 0 else o in
      w ← print n (str "%s: got '%s'" ++ NL) [VStr (terminated arg); VStr (terminated x)] w;
      Ret (Some x, Ring slots' (in_ r) o, w)
  end.

(** ** Schedules *)
Inductive thread := Producer (name : list Z) | Consumer (name : list Z) (i : nat).

(** What a turn does: put an item, get one, or nothing but yield. *)
Inductive event := Put (x : list Z) | Got (name x : list Z) | Idle.

Record threads := Threads { pool : list thread; shared : ring; tty : W }.

(** The turn of thread [k]; a consumer whose loop has ended gets no more
    turns. *)
Definition turn (n k : nat) (s : threads) : outcome (event * threads) :=
  match pool s !! k with
  | Some (Producer name) =>
      '(put, r) ← producer_turn name (shared s);
      Ret (if put : bool then Put name else Idle, Threads (pool s) r (tty s))
  | Some (Consumer name i) =>
      if (i <? 5)%nat then
        '(x, r, w) ← consumer_turn n name (shared s) (tty s);
        match x with
        | Some x => Ret (Got name x, Threads (<[k := Consumer name (i + 1)]> (pool s)) r w)
        | None => Ret (Idle, Threads (pool s) r w)
        end
      else Ret (Idle, s)
  | None => Ret (Idle, s)
  end.

Fixpoint run (n : nat) (ks : list nat) (s : threads) : outcome (list event * threads) :=
  match ks with
  | [] => Ret ([], s)
  | k :: ks =>
      '(e, s) ← turn n k s;
      '(es, s) ← run (n + 1) ks s;
      Ret (e :: es, s)
  end.
End programs.

(** ** Specification: a bounded queue *)
Definition spec_turn (k : nat) (s : list thread * list (list Z)) : event * (list thread * list (list Z)) :=
  let '(ts, q) := s in
  match ts !! k with
  | Some (Producer name) =>
      if bool_decide (Z.of_nat (length q) < NSLOTS) then (Put name, (ts, q ++ [name])) else (Idle, s)
  | Some (Consumer name i) =>
      match q with
      | x :: q => if (i <? 5)%nat then (Got name x, (<[k := Consumer name (i + 1)]> ts, q)) else (Idle, s)
      | [] => (Idle, s)
      end
  | None => (Idle, s)
  end.

Fixpoint spec_run (ks : list nat) (s : list thread * list (list Z)) : list event * (list thread * list (list Z)) :=
  match ks with
  | [] => ([], s)
  | k :: ks => let '(e, s) := spec_turn k s in let '(es, s) := spec_run ks s in (e :: es, s)
  end.

(** The ring holds the queue, from [out] on. *)
Definition holds_queue (r : ring) (q : list (list Z)) : Prop :=
  length (slots r) = 3%nat ∧ 0 ≤ out r < NSLOTS ∧ Z.of_nat (length q) ≤ NSLOTS ∧
  in_ r = (out r + Z.of_nat (length q)) `mod` NSLOTS ∧
  ∀ j, (j < 3)%nat → slots r !! Z.to_nat ((out r + Z.of_nat j) `mod` NSLOTS) = Some (q !! j).

Definition put_items (es : list event) : list (list Z) := omap (λ e, match e with Put x => Some x | _ => None end) es.
Definition got_items (es : list event) : list (list Z) := omap (λ e, match e with Got _ x => Some x | _ => None end) es.
Definition got_line (e : event) : list Z :=
  match e with Got name x => name ++ str ": got '" ++ x ++ str "'" ++ NL | _ => [] end.

(** ** The ring implements the queue *)

(** The cases of a ring: three slots, the position of [out], the length of
    the queue. *)
Ltac ring_cases H :=
  let Hs := fresh "Hs" in let Ho := fresh "Ho" in let Hl := fresh "Hl" in let Hi := fresh "Hi" in let Hq := fresh "Hq" in
  let o := fresh "o" in
  destruct H as (Hs & Ho & Hl & Hi & Hq);
  match type of Hs with length (slots ?r) = _ => destruct r as [[|? [|? [|? [|? ?]]]] ? o] end;
  cbn [slots in_ out] in *; try discriminate Hs; unfold NSLOTS in *;
  assert (o = 0 ∨ o = 1 ∨ o = 2) as [-> | [-> | ->]] by lia;
  match type of Hl with Z.of_nat (length ?q) ≤ _ => destruct q as [|? [|? [|? [|? ?]]]] end;
  cbn [length] in *; try lia;
  pose proof (Hq 0%nat ltac:(lia)); pose proof (Hq 1%nat ltac:(lia)); pose proof (Hq 2%nat ltac:(lia));
  clear Hq; simpl in *; simplify_eq.

Ltac ring_holds := split_and!; cbn [slots in_ out length app]; try done; try lia;
  intros [|[|[|j]]] ?; try lia; done.

Lemma producer_turn_spec arg r q : holds_queue r q →
  if bool_decide (Z.of_nat (length q) < NSLOTS)
  then ∃ r', producer_turn arg r = Ret (true, r') ∧ holds_queue r' (q ++ [arg])
  else producer_turn arg r = Ret (false, r).
Proof.
  intros H. ring_cases H; try done; cbn; (eexists; split; [reflexivity|]); ring_holds.
Qed.

Lemma ring_take r q : holds_queue r q →
  match q with
  | [] => slot_at r (out r) = Ret None
  | x :: q => slot_at r (out r) = Ret (Some x) ∧
      holds_queue (Ring (<[Z.to_nat (out r) := None]> (slots r)) (in_ r)
                        (if u32 (out r + 1) =? NSLOTS then 0 else u32 (out r + 1))) q
  end.
Proof. intros H. ring_cases H; try done; (split; [reflexivity|]); ring_holds. Qed.

Section consumers.
Context {W : Type} (tw : list Z → W → outcome W) (fr : nat → frame) (Hfr : ∀ n, frame_ok (fr n)).

Definition name_ok (s : list Z) : Prop := nonzero s ∧ (length s < 200)%nat.

Lemma got_printed n name x w : name_ok name → name_ok x →
  printf tw fr n (str "%s: got '%s'" ++ NL) [VStr (terminated name); VStr (terminated x)] w = tw (got_line (Got name x)) w.
Proof using Hfr.
  intros [Hn Hnl] [Hx Hxl]. apply printf_text; [done|by repeat constructor| |].
  - rewrite (format_text_arg [] (str ": got '" ++ str "%s" ++ str "'" ++ NL) (terminated name) name) by (constructor || by apply cstr_app).
    rewrite (format_text_arg (str ": got '") (str "'" ++ NL) (terminated x) x) by (by repeat constructor || by apply cstr_app).
    reflexivity.
  - cbn [got_line]. rewrite !length_app. cbn. lia.
Qed.

Lemma consumer_turn_spec n name r q w : holds_queue r q → name_ok name → Forall name_ok q →
  match q with
  | [] => consumer_turn tw fr n name r w = Ret (None, r, w)
  | x :: q => ∃ r', holds_queue r' q ∧
      consumer_turn tw fr n name r w = (w ← tw (got_line (Got name x)) w; Ret (Some x, r', w))
  end.
Proof using Hfr.
  intros H Hn Hq. pose proof (ring_take r q H) as Ht. unfold consumer_turn. destruct q as [|x q].
  - by rewrite Ht, bind_ret.
  - apply Forall_cons in Hq as [Hx Hq]. destruct Ht as [-> Hr]. eexists. split; [exact Hr|].
    rewrite bind_ret. by rewrite got_printed.
Qed.
End consumers.

(** ** Every schedule *)
Section schedules.
Context (fr : nat → frame) (Hfr : ∀ n, frame_ok (fr n)).
Let log (s w : list Z) : outcome (list Z) := Ret (w ++ s).

Definition thread_ok (t : thread) : Prop :=
  match t with Producer name => name_ok name | Consumer name i => name_ok name ∧ (i ≤ 5)%nat end.

(** Items taken by the consumers so far. *)
Definition taken (t : thread) : nat := match t with Producer _ => 0 | Consumer _ i => i end.
Definition total_taken (ts : list thread) : nat := sum_list_with taken ts.

Lemma total_taken_insert ts k name i : ts !! k = Some (Consumer name i) →
  total_taken (<[k := Consumer name (i + 1)]> ts) = S (total_taken ts).
Proof using Type.
  unfold total_taken. revert k. induction ts as [|t ts IH]; intros [|k] Hk; [done..| |]; cbn in *.
  - injection Hk as ->. cbn. lia.
  - rewrite IH by done. lia.
Qed.

Lemma turn_refines n k ts r q w : holds_queue r q → Forall thread_ok ts → Forall name_ok q →
  let '(e, (ts', q')) := spec_turn k (ts, q) in ∃ r',
  turn log fr n k (Threads ts r w) = Ret (e, Threads ts' r' (w ++ got_line e)) ∧
  holds_queue r' q' ∧ Forall thread_ok ts' ∧ Forall name_ok q' ∧
  q ++ put_items [e] = got_items [e] ++ q' ∧ total_taken ts' = (length (got_items [e]) + total_taken ts)%nat.
Proof using Hfr.
  intros Hr Hts Hq. unfold turn, spec_turn. cbn [pool shared tty].
  destruct (ts !! k) as [[name|name i]|] eqn:Hk; [| |exists r; cbn; by rewrite !app_nil_r].
  - pose proof (proj1 (Forall_lookup _ _) Hts _ _ Hk) as Hn. cbn in Hn.
    pose proof (producer_turn_spec name r q Hr) as Hp. case_bool_decide.
    + destruct Hp as (r' & -> & Hr'). exists r'. cbn. rewrite !app_nil_r. split_and!; try done.
      apply Forall_app. split; [done|]. by constructor.
    + rewrite Hp. exists r. cbn. by rewrite !app_nil_r.
  - assert (name_ok name ∧ (i ≤ 5)%nat) as [Hn Hi] by exact (proj1 (Forall_lookup _ _) Hts _ _ Hk).
    pose proof (consumer_turn_spec log fr Hfr n name r q w Hr Hn Hq) as Hc.
    destruct (Nat.ltb_spec i 5) as [Hlt|]; [|destruct q; exists r; cbn; by rewrite !app_nil_r].
    destruct q as [|x q]; [rewrite Hc; exists r; cbn; by rewrite !app_nil_r|].
    destruct Hc as (r' & Hr' & ->). apply Forall_cons in Hq as [Hx Hq]. exists r'. cbn.
    rewrite !app_nil_r, (total_taken_insert _ _ _ _ Hk). split_and!; try done.
    apply Forall_insert; [done|]. split; [done|]. lia.
Qed.

Lemma run_refines ks : ∀ n ts r q w, holds_queue r q → Forall thread_ok ts → Forall name_ok q →
  let '(es, (ts', q')) := spec_run ks (ts, q) in ∃ r',
  run log fr n ks (Threads ts r w) = Ret (es, Threads ts' r' (w ++ mjoin (got_line <$> es))) ∧
  holds_queue r' q' ∧ Forall thread_ok ts' ∧
  q ++ put_items es = got_items es ++ q' ∧ total_taken ts' = (length (got_items es) + total_taken ts)%nat.
Proof using Hfr.
  induction ks as [|k ks IH]; intros n ts r q w Hr Hts Hq; cbn [spec_run run].
  - exists r. cbn. by rewrite !app_nil_r.
  - pose proof (turn_refines n k ts r q w Hr Hts Hq) as Ht.
    destruct (spec_turn k (ts, q)) as [e [ts1 q1]]. destruct Ht as (r1 & Hrun & Hr1 & Hts1 & Hq1 & Hc1 & Hn1).
    specialize (IH (n + 1)%nat ts1 r1 q1 (w ++ got_line e) Hr1 Hts1 Hq1).
    destruct (spec_run ks (ts1, q1)) as [es [ts2 q2]]. destruct IH as (r2 & Hrun2 & Hr2 & Hts2 & Hc2 & Hn2).
    exists r2. rewrite Hrun, bind_ret, Hrun2, bind_ret. cbn [fmap list_fmap].
    change (mjoin (got_line e :: ?l)) with (got_line e ++ mjoin l). rewrite <- (assoc_L (++) w). split_and!; try done.
    + change (put_items (e :: es)) with (put_items ([e] ++ es)). change (got_items (e :: es)) with (got_items ([e] ++ es)).
      unfold put_items, got_items in *. rewrite !omap_app, (assoc_L (++)), Hc1, <- (assoc_L (++)), Hc2. by rewrite (assoc_L (++)).
    + change (got_items (e :: es)) with (got_items ([e] ++ es)). unfold got_items in *. rewrite omap_app, length_app. lia.
Qed.
End schedules.

(** C35: producers and consumers.  For any threads running [producer] and
    [consumer] and any schedule of their turns, the ring of three slots
    behaves as a bounded queue: every turn does what the same turn does on
    the queue (a producer waits exactly when three items are in flight, a
    consumer exactly when there is none), the items are got in the order in
    which they were put with none lost or duplicated, each consumer takes at
    most five, and the terminal shows exactly one line for each item got. *)
Theorem ring_refines fr ks ts n w : (∀ n, frame_ok (fr n)) → Forall thread_ok ts → total_taken ts = 0%nat →
  let '(es, (ts', q)) := spec_run ks (ts, []) in ∃ r,
  run (λ s w, Ret (w ++ s)) fr n ks (Threads ts (Ring [None; None; None] 0 0) w)
    = Ret (es, Threads ts' r (w ++ mjoin (got_line <$> es))) ∧
  holds_queue r q ∧ put_items es = got_items es ++ q ∧ (length q ≤ 3)%nat ∧
  total_taken ts' = length (got_items es) ∧ Forall thread_ok ts'.
Proof.
  intros Hfr Hts H0.
  assert (holds_queue (Ring [None; None; None] 0 0) []) as Hr by ring_holds.
  pose proof (run_refines fr Hfr ks n ts _ [] w Hr Hts ltac:(constructor)) as Hrun.
  destruct (spec_run ks (ts, [])) as [es [ts' q]]. destruct Hrun as (r & Hrun & Hq & Hts' & Hc & Hn).
  exists r. split_and!; try done; [|lia]. destruct Hq as (_ & _ & Hl & _). unfold NSLOTS in Hl. lia.
Qed.

(** The threads of [test_producer_consumer]. *)
Definition test_threads : list thread :=
  [Producer (str "producer 2"); Producer (str "producer 1"); Consumer (str "consumer 5") 0; Consumer (str "consumer 4") 0;
   Consumer (str "consumer 3") 0; Consumer (str "consumer 2") 0; Consumer (str "consumer 1") 0].

Lemma test_threads_ok : Forall thread_ok test_threads.
Proof. repeat constructor; cbn; first [lia|discriminate]. Qed.

(** Four turns: "consumer 5: got 'producer 1'" is the only line. *)
Lemma ring_refines_witness : ∃ r,
  run (λ s w, Ret (w ++ s)) demo_frame 0 [1; 2; 2; 0]%nat (Threads test_threads (Ring [None; None; None] 0 0) [])
    = Ret ([Put (str "producer 1"); Got (str "consumer 5") (str "producer 1"); Idle; Put (str "producer 2")],
           Threads (<[2%nat := Consumer (str "consumer 5") 1]> test_threads) r (str "consumer 5: got 'producer 1'" ++ NL)) ∧
  holds_queue r [str "producer 2"].
Proof.
  destruct (ring_refines demo_frame [1; 2; 2; 0]%nat test_threads 0 [] demo_frame_ok test_threads_ok eq_refl)
    as (r & Hrun & Hq & _). exists r. split; [exact Hrun|exact Hq].
Defined.

(** With the threads in a queue, as in the exercise, all consumers finish
    and the producers then fill the ring and yield for ever. *)
Example all_consumers_finish :
  let '(es, (ts', q)) := spec_run (mjoin (replicate 20 (seq 0 7))) (test_threads, []) in
  total_taken ts' = 25%nat ∧ q = replicate 3 (str "producer 2") ∧
  spec_run (seq 0 7) (ts', q) = (replicate 7 Idle, (ts', q)).
Proof. vm_compute. done. Qed.

(** ** The other programs *)
Section others.
Context {W : Type} (tw : list Z → W → outcome W) (fr : nat → frame) (Hfr : ∀ n, frame_ok (fr n)).

Definition nested_line (i : Z) : list Z := str "stak: nested call " ++ itoa i 10 ++ NL.

Lemma stack_loop_prints m : ∀ n w, Z.of_nat m < 2 ^ 31 →
  stack_loop tw fr (S m) n (Z.of_nat m) w = (w ← puts tw (nested_line <$> reverse (seqZ 0 (Z.of_nat m))) w; Ret (0, w)).
Proof using Hfr.
  induction m as [|m IH]; intros n w Hm; [done|].
  change (stack_loop tw fr (S (S m)) n (Z.of_nat (S m)) w) with
    (w ← printf tw fr n (str "stak: nested call %d" ++ NL) [VInt (Z.of_nat (S m) - 1)] w;
     '(i, w) ← stack_loop tw fr (S m) (n + 1) (Z.of_nat (S m) - 1) w; stack_loop tw fr (S m) (n + 1) i w).
  replace (Z.of_nat (S m) - 1) with (Z.of_nat m) by lia.
  rewrite (printf_text tw fr Hfr _ _ _ (nested_line (Z.of_nat m))); [|by repeat constructor|done|].
  2: { unfold nested_line. rewrite !length_app. pose proof (itoa_length (Z.of_nat m) ltac:(lia)). cbn. lia. }
  rewrite seqZ_S, reverse_snoc. cbn [fmap list_fmap puts]. rewrite bind_assoc. apply bind_ext. intros w1.
  rewrite IH by lia. rewrite bind_assoc. apply bind_ext. intros w2. rewrite bind_ret. by cbn.
Qed.

(** [stack("fine")] prints the calls from 127 down to 0 and its argument. *)
Lemma stack_prints arg n w : name_ok arg →
  stack tw fr 129 n (Some arg) 128 w =
  (w ← puts tw (nested_line <$> reverse (seqZ 0 128)) w; w ← tw (str "stack is " ++ arg ++ NL) w; Ret (0, w)).
Proof using Hfr.
  intros [Ha Hl]. unfold stack. rewrite (stack_loop_prints 128) by lia. rewrite bind_assoc. apply bind_ext. intros w1.
  rewrite bind_ret. rewrite (printf_text tw fr Hfr _ _ _ (str "stack is " ++ arg ++ NL)); [done|by repeat constructor| |].
  - apply (format_text_str (str "stack is ") NL); [by repeat constructor..|by apply cstr_app].
  - rewrite !length_app. cbn. lia.
Qed.

(** [many_yield] yields 102400 times, then prints its line. *)
Fixpoint many_yield (turns n : nat) (arg : list Z) (i : Z) (w : W) : outcome (nat * W) :=
  match turns with
  | O => Fault OutOfFuel
  | S turns =>
      '(next, w) ← many_yield_turn tw fr n arg i w;
      match next with
      | Some i => '(yields, w) ← many_yield turns (n + 1) arg i w; Ret (S yields, w)
      | None => Ret (O, w)
      end
  end.

Lemma many_yield_S turns n arg i w : many_yield (S turns) n arg i w =
  ('(next, w) ← many_yield_turn tw fr n arg i w;
   match next with
   | Some i => '(yields, w) ← many_yield turns (n + 1) arg i w; Ret (S yields, w)
   | None => Ret (O, w)
   end).
Proof using Type. done. Qed.

Lemma many_yield_from m : ∀ n arg i w, i = 102400 - Z.of_nat m → name_ok arg →
  many_yield (S m) n arg i w = (w ← tw (str "pass: many yield[" ++ arg ++ str "]: i=102400" ++ NL) w; Ret (m, w)).
Proof using Hfr.
  induction m as [|m IH]; intros n arg i w Hi [Ha Hl]; rewrite many_yield_S; unfold many_yield_turn.
  - rewrite (proj2 (Z.ltb_ge _ _)) by lia. rewrite bind_assoc.
    rewrite (printf_text tw fr Hfr _ _ _ (str "pass: many yield[" ++ arg ++ str "]: i=102400" ++ NL)); [done|by repeat constructor| |].
    + rewrite (format_text_arg (str "pass: many yield[") (str "]: i=%d" ++ NL) (terminated arg) arg)
        by (by repeat constructor || by apply cstr_app). replace i with 102400 by lia. reflexivity.
    + rewrite !length_app. cbn. lia.
  - rewrite (proj2 (Z.ltb_lt _ _)), bind_ret by lia. rewrite IH by (lia || done). rewrite bind_assoc. done.
Qed.
End others.

(** ** The package of ult.c *)

(** Whether a function returned or the process called [exit]. *)
Inductive ended := Returned | Exited.
Inductive body := FHello | FStack | FManyYield | FConsumer | FProducer.
Definition STACK_SIZE : Z := 4096.

Section package.
Context {W : Type} (tw : list Z → W → outcome W) (fr : nat → frame).

Definition next (m : outcome (ended * W)) (k : W → outcome (ended * W)) : outcome (ended * W) :=
  '(e, w) ← m; match e with Returned => k w | Exited => Ret (Exited, w) end.
Definition missing (n : nat) (what : list Z) (w : W) : outcome (ended * W) :=
  w ← info tw fr n (what ++ str " is not implemented" ++ NL) [] w; Ret (Exited, w).

Definition thread_init (n : nat) : W → outcome (ended * W) := missing n (str "thread_init").
Definition thread_create (n : nat) (f : body) (arg : pointer) (stack_size : Z) : W → outcome (ended * W) :=
  missing n (str "thread_create").
Definition ctx_entry (n : nat) : W → outcome (ended * W) := missing n (str "ctx_entry").
Definition thread_yield (n : nat) : W → outcome (ended * W) := missing n (str "thread_yield").
Definition thread_exit (n : nat) : W → outcome (ended * W) := missing n (str "thread_exit").

(** [producer(arg)] as a call: on this package its first yield exits. *)
Definition producer_call (n : nat) (arg : list Z) (r : ring) (w : W) : outcome (ended * W) :=
  '(_, r) ← producer_turn arg r; thread_yield n w.

Definition test_create (w : W) : outcome (ended * W) :=
  next (thread_init 0 w) (λ w,
  next (thread_create 1 FHello (Some (str "world")) STACK_SIZE w) (thread_exit 2)).
Definition test_stack (w : W) : outcome (ended * W) :=
  next (thread_init 0 w) (λ w,
  next (thread_create 1 FStack (Some (str "fine")) (4 * STACK_SIZE) w) (thread_exit 2)).
Definition test_exit (w : W) : outcome (ended * W) :=
  next (thread_init 0 w) (λ w,
  next (thread_create 1 FHello None STACK_SIZE w) (λ w,
  next (thread_create 2 FHello (Some (str "world 1")) STACK_SIZE w) (λ w,
  next (thread_create 3 FHello (Some (str "world 2")) STACK_SIZE w) (λ w,
  w ← hello tw fr 4 (Some (str "main")) w;
  thread_exit 5 w)))).
Definition test_single_yield (w : W) : outcome (ended * W) :=
  next (thread_init 0 w) (λ w,
  next (thread_create 1 FManyYield (Some (str "single")) STACK_SIZE w) (thread_exit 2)).
Definition test_pingpong_yield (w : W) : outcome (ended * W) :=
  next (thread_init 0 w) (λ w,
  next (thread_create 1 FManyYield (Some (str "ping")) STACK_SIZE w) (λ w,
  next (thread_create 2 FManyYield (Some (str "pong")) STACK_SIZE w) (thread_exit 3))).
Definition test_producer_consumer (r : ring) (w : W) : outcome (ended * W) :=
  next (thread_init 0 w) (λ w,
  next (thread_create 1 FConsumer (Some (str "consumer 1")) STACK_SIZE w) (λ w,
  next (thread_create 2 FConsumer (Some (str "consumer 2")) STACK_SIZE w) (λ w,
  next (thread_create 3 FConsumer (Some (str "consumer 3")) STACK_SIZE w) (λ w,
  next (thread_create 4 FConsumer (Some (str "consumer 4")) STACK_SIZE w) (λ w,
  next (thread_create 5 FConsumer (Some (str "consumer 5")) STACK_SIZE w) (λ w,
  next (thread_create 6 FProducer (Some (str "producer 1")) STACK_SIZE w) (λ w,
  next (producer_call 7 (str "producer 2") r w) (thread_exit 8)))))))).

(** [main] of ult.c; [args] holds the strings of [argv]. *)
Definition ult_main (argc : Z) (args : list Z) (w : W) : outcome (ended * W) :=
  if negb (argc =? 2) then w ← printf tw fr 0 (str "Usage: ult <test: a-f>" ++ NL) [] w; Ret (Exited, w)
  else
    c ← char_at (argv args 1) 0;
    next (if c =? 97 then test_create w
          else if c =? 98 then test_stack w
          else if c =? 99 then test_exit w
          else if c =? 100 then test_single_yield w
          else if c =? 101 then test_pingpong_yield w
          else if c =? 102 then test_producer_consumer (Ring [None; None; None] 0 0) w
          else w ← printf tw fr 0 (str "test-%s is unknown. Choose from test-[a..f]" ++ NL) [VStr (argv args 1)] w;
               Ret (Returned, w))
         (λ w, Ret (Returned, w)).

(** Every test stops at [thread_init]. *)
Lemma ult_not_implemented (Hfr : ∀ n, frame_ok (fr n)) args c w : char_at (argv args 1) 0 = Ret c → 97 ≤ c ≤ 102 →
  ult_main 2 args w = (w ← tw (str "[INFO] thread_init is not implemented" ++ NL ++ EOL) w; Ret (Exited, w)).
Proof.
  intros Hc Hr. unfold ult_main. cbn [negb Z.eqb]. rewrite Hc, bind_ret.
  assert (∀ k, next (thread_init 0 w) k = (w ← tw (str "[INFO] thread_init is not implemented" ++ NL ++ EOL) w; Ret (Exited, w))) as Hi.
  { intros k. unfold thread_init, missing, next. rewrite (info_text tw fr Hfr _ _ _ (str "thread_init is not implemented" ++ NL));
      [|by repeat constructor|reflexivity|cbn; lia].
    rewrite bind_assoc. by apply bind_ext. }
  assert (c = 97 ∨ c = 98 ∨ c = 99 ∨ c = 100 ∨ c = 101 ∨ c = 102) as Hcs by lia.
  destruct Hcs as [-> | [-> | [-> | [-> | [-> | ->]]]]]; cbn [Z.eqb Pos.eqb];
    unfold test_create, test_stack, test_exit, test_single_yield, test_pingpong_yield, test_producer_consumer;
    rewrite Hi; unfold next; rewrite bind_assoc; by apply bind_ext.
Qed.
End package.
