(* ===== verification/Session.v ===== *)
(** * A session on the booted system

    Puts mkfs.c, the file system, the file and terminal servers and the user
    applications together: the first commands in the shell after the boot. *)
From S2P Require Import Prelude InodeStore Treedisk Process Terminal FileServer CString Print TermServer.
From S2P Require Import Directory TreediskSpec Mkfs Apps AppsSpec.
Import Flash.

(** A directory of the booted file system. *)
Lemma booted_dir rom F ino es rest :
  (∀ ino off buf, treedisk_read disk_store 0 7 (disk_init rom) (Z.of_nat ino) (Z.of_nat off) buf
     = match FileSpec.spec_read F ino off with Some b => Ret (0, b) | None => Ret (-1, buf) end) →
  F !! ino = Some [render es ++ 0 :: rest] → length (render es ++ 0 :: rest) = 512%nat →
  Z.of_nat ino < 2 ^ 32 → Forall entry_ok es →
  dir_at (treedisk_init disk_store 0 7) (disk_init rom) (Z.of_nat ino) es.
Proof.
  intros Hread HF Hlen Hino Hes. split; [lia|]. split; [exact Hes|]. exists rest. split; [exact Hlen|].
  intros buf _. etrans; [exact (Hread ino 0%nat buf)|]. unfold FileSpec.spec_read. by rewrite HF.
Qed.

(** The directories on the way home. *)
Definition home_entries : list entry :=
  [Entry (str "./") 2 1; Entry (str "../") 2 0; Entry (str "cs6640/") 2 2; Entry (str "ta/") 3 3; Entry (str "fs/") 6 4].
Definition cs6640_entries : list entry :=
  [Entry (str "./") 2 2; Entry (str "../") 2 1; Entry (str "README") 2 5].

Lemma root_padded : padded (str "./   0 ../   0 home/   1 bin/   6 ") = render root_entries ++ 0 :: zeros 477.
Proof. vm_compute. reflexivity. Qed.
Lemma home_padded : padded (str "./   1 ../   0 cs6640/   2 ta/    3 fs/       4 ") = render home_entries ++ 0 :: zeros 463.
Proof. vm_compute. reflexivity. Qed.
Lemma cs6640_padded : padded (str "./   2 ../   1 README   5 ") = render cs6640_entries ++ 0 :: zeros 485.
Proof. vm_compute. reflexivity. Qed.

Definition readme : list Z :=
  str "Welcome to CS6640 labs. " ++ [10] ++
  str "This OS is tailored from egos-2000 (https://github.com/yhzhang0128/egos-2000).".

Lemma readme_padded : padded ((readme ++ [10])) = (readme ++ [10]) ++ 0 :: zeros 407.
Proof. vm_compute. reflexivity. Qed.

(** An application writing to the terminal. *)
Lemma user_write_tx junk stale s d : length junk = 512%nat → (length s ≤ 512)%nat →
  ∃ n, user_term_write junk stale s d = Ret (Uart (rx d) (tx d ++ s) n).
Proof. intros Hj Hs. rewrite user_term_write_spec by done. apply term_write_spec. Qed.

(** [cd] without arguments. *)
Lemma cd_home {W} rom (tw : list Z → W → outcome W) fr args d w :
  (∀ n, frame_ok (fr n)) → (12 < length (workdir d))%nat →
  dir_at (treedisk_init disk_store 0 7) (disk_init rom) 0 root_entries →
  dir_at (treedisk_init disk_store 0 7) (disk_init rom) 1 home_entries →
  ∃ rest, cd_main (treedisk_init disk_store 0 7) (disk_init rom) tw fr 1 args d w =
    Ret (0, ShellDir 2 (str "/home/cs6640" ++ 0 :: rest), w).
Proof.
  intros Hfr Hwd Hroot Hhome. unfold cd_main. change (1 =? 1) with true. cbv iota.
  rewrite (lookup_in_dir _ _ fr Hfr 0 0 root_entries (str "home/") [] Hroot)
    by (apply (bool_decide_unpack _); vm_compute; exact I).
  change (spec_lookup (str "home/") root_entries) with 1. rewrite bind_ret.
  rewrite (lookup_in_dir _ _ fr Hfr 1 1 home_entries (str "cs6640/") [] Hhome)
    by (apply (bool_decide_unpack _); vm_compute; exact I).
  change (spec_lookup (str "cs6640/") home_entries) with 2. rewrite bind_ret.
  unfold strcpy. rewrite (cstr_app (str "/home/cs6640") []), bind_ret by (apply (bool_decide_unpack _); vm_compute; exact I).
  unfold put_string. rewrite bool_decide_true by (cbn; lia). rewrite bind_ret.
  unfold splice. change (Z.to_nat 0) with 0%nat. rewrite take_0. cbn [app]. rewrite <- (assoc_L (++)).
  eexists. reflexivity.
Qed.

(** C10: the first commands on a freshly booted system: [cd] (which the shell
    runs first) goes to /home/cs6640, [ls] shows exactly the names of this
    directory on the terminal and [cat README] exactly the README that mkfs
    put there, whatever applications the image holds. *)
Theorem home_session exec apps after fr junk stale : apps_ok apps → (256 ≤ length after)%nat →
  length exec = 4096%nat → (∀ n, frame_ok (fr n)) → length junk = 512%nat → ∃ img rom,
  mkfs exec apps after = Ret (img, rom) ∧
  let fs := treedisk_init disk_store 0 7 in let tw := user_term_write junk stale in
  ∀ d0 args u, (12 < length (workdir d0))%nat → arg_at args (str "README") → ∃ d rest,
  cd_main fs (disk_init rom) tw fr 1 args d0 u = Ret (0, d, u) ∧
  workdir_ino d = 2 ∧ workdir d = str "/home/cs6640" ++ 0 :: rest ∧
  (∃ n, ls_main fs (disk_init rom) tw fr 1 d u =
     Ret (0, Uart (rx u) (tx u ++ str "./     ../     README     " ++ EOL) n)) ∧
  (∃ n, cat_main fs (disk_init rom) tw fr 2 args d u = Ret (0, Uart (rx u) (tx u ++ readme ++ [10]) n)).
Proof.
  intros Happs Hafter Hexec Hfr Hj.
  destruct (mkfs_image exec apps after Happs Hafter Hexec) as (img & rom & F & E & _ & Hread & Hc & _).
  exists img, rom. split; [exact E|]. cbn zeta. intros d0 args u Hwd Harg.
  pose proof (Hc 0%nat _ eq_refl) as H0. pose proof (Hc 1%nat _ eq_refl) as H1.
  pose proof (Hc 2%nat _ eq_refl) as H2. pose proof (Hc 5%nat (readme ++ [10]) eq_refl) as H5.
  rewrite root_padded in H0. rewrite home_padded in H1. rewrite cs6640_padded in H2. rewrite readme_padded in H5.
  assert (dir_at (treedisk_init disk_store 0 7) (disk_init rom) 2 cs6640_entries) as Hd2.
  { apply (booted_dir rom F 2 _ _ Hread H2); apply (bool_decide_unpack _); vm_compute; exact I. }
  destruct (cd_home rom (user_term_write junk stale) fr args d0 u Hfr Hwd) as [rest Hcd].
  { apply (booted_dir rom F 0 _ _ Hread H0); apply (bool_decide_unpack _); vm_compute; exact I. }
  { apply (booted_dir rom F 1 _ _ Hread H1); apply (bool_decide_unpack _); vm_compute; exact I. }
  eexists _, rest. split; [exact Hcd|]. split; [reflexivity|]. split; [reflexivity|]. split.
  - destruct (user_write_tx junk stale (str "./     ../     README     " ++ EOL) u Hj) as [n Hn];
      [apply (bool_decide_unpack _); vm_compute; exact I|].
    exists n. rewrite (ls_prints _ _ _ fr Hfr 1 _ 2 cs6640_entries u); [|lia|reflexivity|exact Hd2| |].
    + change (show_dir cs6640_entries ++ EOL) with (str "./     ../     README     " ++ EOL). by rewrite Hn.
    + repeat constructor; intros c l [= <- _]; reflexivity.
    + apply (bool_decide_unpack _). vm_compute. exact I.
  - destruct (user_write_tx junk stale (readme ++ [10]) u Hj) as [n Hn];
      [apply (bool_decide_unpack _); vm_compute; exact I|].
    exists n. rewrite (cat_prints _ _ _ fr Hfr args (str "README") _ 2 cs6640_entries 5 readme 10 (zeros 407) u Harg);
      try (apply (bool_decide_unpack _); vm_compute; exact I); [by rewrite Hn|exact Hd2|].
    intros buf _. etrans; [exact (Hread 5%nat 0%nat buf)|]. unfold FileSpec.spec_read. by rewrite H5.
Qed.

Lemma home_session_witness : ∃ img rom,
  mkfs (replicate 4096 null_block) demo_apps (zeros 256) = Ret (img, rom) ∧ ∃ d n,
  cat_main (treedisk_init disk_store 0 7) (disk_init rom) (user_term_write (zeros 512) (zeros 1024)) demo_frame 2
    (zeros 32 ++ str "README" ++ 0 :: zeros 100) d (Uart [] [] 0) = Ret (0, Uart [] ([] ++ readme ++ [10]) n).
Proof.
  destruct (home_session (replicate 4096 null_block) demo_apps (zeros 256) demo_frame (zeros 512) (zeros 1024))
    as (img & rom & E & H).
  - apply (bool_decide_unpack _). vm_compute. exact I.
  - rewrite length_zeros. lia.
  - apply length_replicate.
  - apply demo_frame_ok.
  - apply length_zeros.
  - destruct (H (ShellDir 0 (zeros 64)) (zeros 32 ++ str "README" ++ 0 :: zeros 100) (Uart [] [] 0))
      as (d & rest & _ & _ & _ & _ & n & Hn).
    + apply (bool_decide_unpack _). vm_compute. exact I.
    + exists (zeros 32), (zeros 100). split; [reflexivity|]. split; [reflexivity|discriminate].
    + exists img, rom. split; [exact E|]. exists d, n. exact Hn.
Defined.
