(* ===== verification/Shell.v ===== *)
(** * The shell (apps/system/sys_shell.c)

    [parse_request] splits a command line into the argv of a spawn request;
    [parse_batch_cmds] hands out the commands of a line "(c1;c2;...)" one per
    call, keeping them in static variables.  A C string is the list of its
    characters before the terminator. *)
From S2P Require Import Prelude Process CString.

(** ** Words of a text *)

(** The maximal runs of characters other than [sep]; [w] is the run read so
    far. *)
Fixpoint split (sep : Z) (w text : list Z) : list (list Z) :=
  match text with
  | [] => if decide (w = []) then [] else [w]
  | c :: text =>
      if negb (c =? sep) then split sep (w ++ [c]) text
      else if decide (w = []) then split sep [] text else w :: split sep [] text
  end.

(** ** [parse_request] *)
Record request := Request { r_argc : Z; r_argv : list (list Z) }.

(** [argv[n][i] = c] *)
Definition set_arg (argv : list (list Z)) (n i c : Z) : outcome (list (list Z)) :=
  match argv !! Z.to_nat n with
  | Some row =>
      if bool_decide (0 ≤ i < Z.of_nat (length row))
      then Ret (<[Z.to_nat n := <[Z.to_nat i := c]> row]> argv)
      else Fault (Undef "argv column")
  | None => Fault (Undef "argv row")
  end.

Definition zero_argv : list (list Z) := replicate 16 (zeros 32).

(** The loop over the characters of [buf]. *)
Fixpoint parse_loop (text : list Z) (idx nargs : Z) (argv : list (list Z)) : outcome (option request) :=
  match text with
  | [] => Ret (Some (Request (if idx =? 0 then nargs else nargs + 1) argv))
  | c :: text =>
      if negb (c =? SPACE) then
        argv ← set_arg argv nargs idx c;
        if CMD_ARG_LEN <=? idx + 1 then Ret None
        else parse_loop text (idx + 1) nargs argv
      else if negb (idx =? 0) then
        argv ← set_arg argv nargs idx 0;
        if CMD_NARGS <=? nargs + 1 then Ret None
        else parse_loop text 0 (nargs + 1) argv
      else parse_loop text idx nargs argv
  end.

(** [None] is the return value -1. *)
Definition parse_request (text : list Z) : outcome (option request) := parse_loop text 0 0 zero_argv.

(** *** Specification *)

(** The row of argv for a word. *)
Definition arg_row (w : list Z) : list Z := w ++ zeros (32 - length w).

(** The argv after the words [ws]. *)
Definition argv_of (ws : list (list Z)) : list (list Z) :=
  (arg_row <$> ws) ++ replicate (16 - length ws) (zeros 32).

(** Words followed by a space. *)
Fixpoint closed_words (w text : list Z) : nat :=
  match text with
  | [] => O
  | c :: text =>
      if negb (c =? SPACE) then closed_words (w ++ [c]) text
      else if decide (w = []) then closed_words [] text else S (closed_words [] text)
  end.

Definition spec_parse (text : list Z) : option request :=
  let ws := split SPACE [] text in
  if decide (Forall (λ w, length w < 32)%nat ws ∧ (closed_words [] text < 16)%nat)
  then Some (Request (Z.of_nat (length ws)) (argv_of ws)) else None.

(** argv while the word [w] is being read after the words [cs]. *)
Definition argv_at (cs : list (list Z)) (w : list Z) : list (list Z) := argv_of (cs ++ [w]).

Lemma length_arg_row w : (length w ≤ 32)%nat → length (arg_row w) = 32%nat.
Proof. intros. unfold arg_row. len. Qed.

Lemma arg_row_nil : arg_row [] = zeros 32.
Proof. done. Qed.

Lemma argv_at_nil cs : (length cs < 16)%nat → argv_at cs [] = argv_of cs.
Proof.
  intros Hlen. unfold argv_at, argv_of. rewrite fmap_app, length_app, <- (assoc_L (++)). f_equal.
  cbn [length fmap list_fmap]. rewrite arg_row_nil.
  replace (16 - length cs)%nat with (S (16 - (length cs + 1)))%nat by lia. done.
Qed.

Lemma argv_at_row cs w : argv_at cs w !! length cs = Some (arg_row w).
Proof.
  unfold argv_at, argv_of. rewrite fmap_app, <- (assoc_L (++)).
  rewrite lookup_app_r by (by rewrite length_fmap). by rewrite length_fmap, Nat.sub_diag.
Qed.

Lemma argv_at_set cs w w' : <[length cs := arg_row w']> (argv_at cs w) = argv_at cs w'.
Proof.
  unfold argv_at, argv_of. rewrite !fmap_app, !length_app, <- !(assoc_L (++)).
  replace (length cs) with (length (arg_row <$> cs) + 0)%nat at 1 by (rewrite length_fmap; lia).
  rewrite insert_app_r. done.
Qed.

(** Storing the next character of a word, and its terminator. *)
Lemma arg_row_snoc w c : (length w < 32)%nat → <[length w := c]> (arg_row w) = arg_row (w ++ [c]).
Proof.
  intros Hlen. unfold arg_row. rewrite <- (Nat.add_0_r (length w)) at 1. rewrite insert_app_r.
  rewrite length_app, <- (assoc_L (++)). f_equal. cbn [length].
  replace (32 - length w)%nat with (S (32 - (length w + 1)))%nat by lia. done.
Qed.

Lemma arg_row_end w : (length w < 32)%nat → <[length w := 0]> (arg_row w) = arg_row w.
Proof.
  intros Hlen. apply list_insert_id. unfold arg_row. rewrite lookup_app_r by lia.
  rewrite Nat.sub_diag. unfold zeros. by rewrite lookup_replicate_2 by lia.
Qed.

Lemma set_arg_at cs w c : (length w < 32)%nat →
  set_arg (argv_at cs w) (Z.of_nat (length cs)) (Z.of_nat (length w)) c =
  Ret (<[length cs := <[length w := c]> (arg_row w)]> (argv_at cs w)).
Proof.
  intros Hw. unfold set_arg. rewrite Nat2Z.id, argv_at_row, length_arg_row by lia.
  rewrite bool_decide_true by lia. by rewrite Nat2Z.id.
Qed.

(** The word being read only grows. *)
Lemma split_head text : ∀ v, v ≠ [] → ∃ x l, split SPACE v text = x :: l ∧ (length v ≤ length x)%nat.
Proof.
  induction text as [|d text IH]; intros v Hv; cbn [split].
  - rewrite decide_False by done. eauto.
  - destruct (negb (d =? SPACE)); [|rewrite decide_False by done; eauto].
    destruct (IH (v ++ [d])) as (x & l & -> & Hle); [by destruct v|]. exists x, l. split; [done|].
    rewrite length_app in Hle. simpl in Hle. lia.
Qed.

Lemma parse_loop_spec text : ∀ cs w, (length cs < 16)%nat → (length w < 32)%nat →
  Forall (λ w, length w < 32)%nat cs →
  parse_loop text (Z.of_nat (length w)) (Z.of_nat (length cs)) (argv_at cs w) =
  Ret (if decide (Forall (λ w, length w < 32)%nat (split SPACE w text) ∧
                  (length cs + closed_words w text < 16)%nat)
       then Some (Request (Z.of_nat (length (cs ++ split SPACE w text))) (argv_of (cs ++ split SPACE w text)))
       else None).
Proof.
  induction text as [|c text IH]; intros cs w Hcs Hw Hall.
  - cbn [parse_loop split closed_words]. destruct w as [|a w].
    + rewrite !(decide_True (P := @nil Z = [])) by done.
      rewrite app_nil_r, decide_True by (split; [constructor|lia]).
      by rewrite argv_at_nil.
    + rewrite !(decide_False (P := a :: w = [])) by done.
      rewrite decide_True by (split; [by constructor|lia]).
      rewrite (proj2 (Z.eqb_neq _ _)) by (simpl; lia). do 3 f_equal. rewrite length_app. simpl. lia.
  - cbn [parse_loop split closed_words]. destruct (Z.eqb_spec c SPACE) as [->|Hc]; cbn [negb].
    + destruct w as [|a w].
      * cbn [length]. change (Z.of_nat 0 =? 0) with true. cbn [negb].
        rewrite !(decide_True (P := @nil Z = [])) by done. by apply (IH cs []).
      * rewrite (proj2 (Z.eqb_neq _ _)) by (simpl; lia). cbn [negb]. rewrite !(decide_False (P := a :: w = [])) by done.
        rewrite set_arg_at, bind_ret, arg_row_end, argv_at_set by done. unfold CMD_NARGS.
        destruct (Z.leb_spec 16 (Z.of_nat (length cs) + 1)) as [Hfull|Hroom].
        -- rewrite decide_False; [done|]. intros [_ ?]. lia.
        -- change 0 with (Z.of_nat (length (@nil Z))).
           replace (Z.of_nat (length cs) + 1) with (Z.of_nat (length (cs ++ [a :: w]))) by (rewrite length_app; simpl; lia).
           change (argv_at cs (a :: w)) with (argv_of (cs ++ [a :: w])).
           rewrite <- argv_at_nil by (rewrite length_app; simpl; lia).
           rewrite IH; [|rewrite length_app; simpl; lia|simpl; lia|apply Forall_app; split; [done|by constructor]].
           rewrite <- (assoc_L (++)). cbn [app]. f_equal.
           apply decide_ext. rewrite Forall_cons, length_app. cbn [length]. split; intros ?; intuition lia.
    + rewrite set_arg_at, bind_ret, arg_row_snoc, argv_at_set by done. unfold CMD_ARG_LEN.
      destruct (Z.leb_spec 32 (Z.of_nat (length w) + 1)) as [Hlong|Hroom].
      * rewrite decide_False; [done|]. intros [Hf _].
        destruct (split_head text (w ++ [c])) as (x & l & Hx & Hlx); [by destruct w|].
        rewrite length_app in Hlx. cbn [length] in Hlx.
        rewrite Hx in Hf. apply Forall_cons in Hf as [? _]. lia.
      * replace (Z.of_nat (length w) + 1) with (Z.of_nat (length (w ++ [c]))) by (rewrite length_app; simpl; lia).
        apply IH; [done|rewrite length_app; simpl; lia|done].
Qed.

(** C39: [parse_request] splits the command line at spaces: it fills argv with
    the words, zero padded, and argc with their number, and fails exactly
    when a word has 32 characters or more or a sixteenth word is followed by
    a space. *)
Theorem parse_request_splits text : parse_request text = Ret (spec_parse text).
Proof. exact (parse_loop_spec text [] [] ltac:(simpl; lia) ltac:(simpl; lia) (Forall_nil_2 _)). Qed.

Lemma parse_request_echo :
  parse_request (str "echo  hi &") =
  Ret (Some (Request 3 (argv_of [str "echo"; str "hi"; str "&"]))).
Proof. vm_compute. reflexivity. Qed.

(** ** [parse_batch_cmds] *)
Definition SEMI : Z := 59.
Definition LPAREN : Z := 40.
Definition RPAREN : Z := 41.

(** The static variables: [cmds[10][256]] as bytes, [cmd_idx], [max_idx]. *)
Record batch := Batch { b_cmds : list Z; b_idx : Z; b_max : Z }.
Definition batch_init : batch := Batch (zeros 2560) (-1) (-1).

(** [strncpy(cmds[n], cmd, 256)] *)
Definition store_cmd (cmds : list Z) (n : nat) (cmd : list Z) : outcome (list Z) :=
  if bool_decide (n < 10)%nat
  then Ret (splice cmds (256 * n) (take 256 cmd ++ zeros (256 - length cmd)))
  else Fault (Undef "cmds row").

(** The string that starts in row [n]. *)
Fixpoint cstring (l : list Z) : list Z :=
  match l with [] => [] | c :: l => if c =? 0 then [] else c :: cstring l end.
Definition cmd_at (cmds : list Z) (n : nat) : list Z := cstring (drop (256 * n) cmds).

(** The loop over the tokens; the number of commands is checked after the
    command has been stored. *)
Fixpoint store_cmds (n : nat) (tokens : list (list Z)) (cmds : list Z) : outcome (option nat * list Z) :=
  match tokens with
  | [] => Ret (Some n, cmds)
  | t :: tokens =>
      cmds ← store_cmd cmds n t;
      if (10 <? S n)%nat then Ret (None, cmds) else store_cmds (S n) tokens cmds
  end.

(** [copy] without its first and last character. *)
Definition batch_inner (text : list Z) : list Z :=
  drop 1 (take (Nat.min (length text) 256 - 1) text).

Definition is_batch (text : list Z) : bool :=
  bool_decide (head text = Some LPAREN) &&
  bool_decide (text !! (Nat.min (length text) 256 - 1)%nat = Some RPAREN).

Definition parse_batch_cmds (text : list Z) (st : batch) : outcome (option (list Z) * batch) :=
  '(ok, st) ← (if b_idx st =? -1 then
    if negb (is_batch text) then
      cmds ← store_cmd (b_cmds st) 0 text;
      Ret (true, Batch cmds 0 0)
    else
      '(n, cmds) ← store_cmds 0 (split SEMI [] (batch_inner text)) (b_cmds st);
      match n with
      | Some n => Ret (true, Batch cmds 0 (Z.of_nat n - 1))
      | None => Ret (false, Batch cmds (b_idx st) (b_max st))
      end
    else Ret (true, st));
  if (ok : bool) then
    ASSERT ((0 <=? b_idx st) && (b_idx st <=? b_max st + 1)) "";;
    if b_idx st <=? b_max st then
      Ret (Some (cmd_at (b_cmds st) (Z.to_nat (b_idx st))), Batch (b_cmds st) (b_idx st + 1) (b_max st))
    else Ret (None, Batch (b_cmds st) (-1) (-1))
  else Ret (None, st).

(** The inner loop of the shell's [main]: the commands executed for a line. *)
Fixpoint shell_line (fuel : nat) (text : list Z) (st : batch) : outcome (list (list Z) * batch) :=
  match fuel with
  | O => Fault OutOfFuel
  | S fuel =>
      '(cmd, st) ← parse_batch_cmds text st;
      match cmd with
      | Some c => '(cs, st) ← shell_line fuel text st; Ret (c :: cs, st)
      | None => Ret ([], st)
      end
  end.

(** *** The commands of a line *)
Definition line_cmds (text : list Z) : list (list Z) :=
  if is_batch text then split SEMI [] (batch_inner text) else [text].

Definition cmd_ok (c : list Z) : Prop := (length c < 256)%nat ∧ Forall (λ x, x ≠ 0) c.

(** The rows from [k] on hold the commands [cs]. *)
Definition rows_hold (cmds : list Z) (k : nat) (cs : list (list Z)) : Prop :=
  ∀ i c, cs !! i = Some c → cmd_at cmds (k + i) = c.

Lemma cstring_app c rest : Forall (λ x, x ≠ 0) c → cstring (c ++ 0 :: rest) = c.
Proof.
  induction c as [|x c IH]; intros H; [done|]. apply Forall_cons in H as [Hx H].
  cbn [app cstring]. rewrite (proj2 (Z.eqb_neq _ _)) by done. by rewrite IH.
Qed.

Lemma store_cmd_ok cmds n c : length cmds = 2560%nat → (n < 10)%nat → cmd_ok c → ∃ cmds',
  store_cmd cmds n c = Ret cmds' ∧ length cmds' = 2560%nat ∧ cmd_at cmds' n = c ∧
  ∀ k, (k < n)%nat → take 256 (drop (256 * k) cmds') = take 256 (drop (256 * k) cmds).
Proof.
  intros Hlen Hn [Hc Hz]. unfold store_cmd. rewrite bool_decide_true by done.
  assert (length (take 256 c ++ zeros (256 - length c)) = 256%nat) as Hrow by len.
  eexists. split; [done|]. split; [rewrite length_splice; lia|]. unfold splice. split.
  - unfold cmd_at. rewrite drop_app_length' by (rewrite length_take; lia).
    rewrite (take_ge c) by lia. replace (256 - length c)%nat with (S (255 - length c)) by lia.
    rewrite <- (assoc_L (++)). by apply cstring_app.
  - intros k Hk. rewrite drop_app_le, take_app_le by (rewrite ?length_drop, length_take; lia).
    apply list_eq. intros i. rewrite !lookup_take. case_decide as Hi; [|done].
    rewrite !lookup_drop, lookup_take. by rewrite decide_True by lia.
Qed.

(** A stored row is not touched by later ones. *)
Lemma cmd_at_row cmds k c : (256 * k + 256 ≤ length cmds)%nat → cmd_ok c →
  cmd_at cmds k = c ↔ cstring (take 256 (drop (256 * k) cmds)) = c.
Proof.
  intros Hlen [Hc Hz]. unfold cmd_at.
  rewrite <- (take_drop 256 (drop (256 * k) cmds)) at 1.
  set (row := take 256 (drop (256 * k) cmds)).
  assert (length row = 256%nat) as Hrow by (unfold row; rewrite length_take, length_drop; lia).
  assert (∀ l l', (∃ i, l !! i = Some 0) → cstring (l ++ l') = cstring l) as Hstop.
  { induction l as [|x l IH]; intros l' [i Hi]; [done|]. cbn [app cstring].
    destruct (Z.eqb_spec x 0); [done|]. f_equal. apply IH.
    destruct i as [|i]; [injection Hi as ->; done|]. by exists i. }
  assert (∀ l l', (∀ i, l !! i ≠ Some 0) → cstring (l ++ l') = l ++ cstring l') as Hgo.
  { induction l as [|x l IH]; intros l' Hno; [done|]. cbn [app cstring].
    rewrite (proj2 (Z.eqb_neq x 0)) by (intros ->; by apply (Hno 0%nat)). f_equal. apply IH.
    intros i. apply (Hno (S i)). }
  destruct (decide (Exists (λ x, x = 0) row)) as [Hex|Hno].
  - apply Exists_exists in Hex as (x & Hx & ->). apply list_elem_of_lookup in Hx as [i Hi].
    by rewrite Hstop by (by exists i).
  - assert (∀ i, row !! i ≠ Some 0) as Hn.
    { intros i Hi. apply Hno, Exists_exists. exists 0. split; [by eapply list_elem_of_lookup_2|done]. }
    assert (cstring row = row) as ->.
    { rewrite <- (app_nil_r row) at 1. rewrite Hgo by done. apply app_nil_r. }
    rewrite Hgo by done. split; intros H; exfalso; apply (f_equal length) in H;
      rewrite ?length_app, Hrow in H; lia.
Qed.

Lemma store_cmds_ok tokens : ∀ n cmds, length cmds = 2560%nat → (n + length tokens ≤ 10)%nat →
  Forall cmd_ok tokens → ∃ cmds', store_cmds n tokens cmds = Ret (Some (n + length tokens)%nat, cmds') ∧
  length cmds' = 2560%nat ∧ rows_hold cmds' n tokens ∧
  ∀ k, (k < n)%nat → take 256 (drop (256 * k) cmds') = take 256 (drop (256 * k) cmds).
Proof.
  induction tokens as [|t tokens IH]; intros n cmds Hlen Hn Hok.
  { exists cmds. rewrite Nat.add_0_r. split_and!; try done. }
  apply Forall_cons in Hok as [Ht Hok]. cbn [store_cmds length] in *.
  destruct (store_cmd_ok cmds n t Hlen ltac:(lia) Ht) as (cmds1 & -> & Hlen1 & Hat & Hkeep). rewrite bind_ret.
  rewrite (proj2 (Nat.ltb_ge 10 (S n))) by lia.
  destruct (IH (S n) cmds1 Hlen1 ltac:(lia) Hok) as (cmds2 & -> & Hlen2 & Hrows & Hkeep2).
  exists cmds2. split; [do 3 f_equal; lia|]. split; [done|]. split.
  - intros [|i] c Hi; cbn in Hi.
    + injection Hi as <-. rewrite Nat.add_0_r. apply cmd_at_row; [lia|done|].
      rewrite Hkeep2 by lia. by apply cmd_at_row; [lia|..].
    + rewrite <- (Hrows i c Hi). f_equal. lia.
  - intros k Hk. rewrite Hkeep2, Hkeep by lia. done.
Qed.

(** Handing out the stored commands. *)
Lemma shell_line_drain cs : ∀ k cmds text fuel, rows_hold cmds k cs → (length cs < fuel)%nat →
  shell_line fuel text (Batch cmds (Z.of_nat k) (Z.of_nat (k + length cs) - 1))
  = Ret (cs, Batch cmds (-1) (-1)).
Proof.
  induction cs as [|c cs IH]; intros k cmds text fuel Hrows Hfuel;
    (destruct fuel as [|fuel]; [simpl in Hfuel; lia|]); cbn [shell_line length] in *;
    unfold parse_batch_cmds; cbn [b_idx b_max b_cmds];
    rewrite (proj2 (Z.eqb_neq _ _)) by lia; rewrite bind_ret; unfold ASSERT; cbn [b_idx b_max b_cmds];
    rewrite (proj2 (Z.leb_le 0 _)), (proj2 (Z.leb_le (Z.of_nat k) (_ + 1))) by lia; cbn [andb]; rewrite bind_ret.
  - by rewrite (proj2 (Z.leb_gt _ _)) by lia.
  - rewrite (proj2 (Z.leb_le (Z.of_nat k) _)) by lia. rewrite bind_ret, Nat2Z.id.
    replace (Z.of_nat k + 1) with (Z.of_nat (S k)) by lia.
    replace (k + S (length cs))%nat with (S k + length cs)%nat by lia.
    rewrite IH; [|intros i c' Hi; rewrite <- (Hrows (S i) c' Hi); f_equal; lia|lia].
    rewrite bind_ret. do 3 f_equal. rewrite <- (Hrows 0%nat c eq_refl). f_equal. lia.
Qed.

(** C40: a line of the shell runs exactly its commands in order: a plain line
    itself, a batch "(c1;c2;...)" of at most ten commands each of them once;
    then the static variables are back in the state "no prior commands". *)
Theorem shell_line_runs text st : b_idx st = -1 → length (b_cmds st) = 2560%nat →
  (length (line_cmds text) ≤ 10)%nat → Forall cmd_ok (line_cmds text) → ∃ cmds,
  shell_line (S (S (length (line_cmds text)))) text st = Ret (line_cmds text, Batch cmds (-1) (-1)) ∧
  length cmds = 2560%nat.
Proof.
  intros Hidx Hlen Hn Hok.
  assert (∃ cmds, rows_hold cmds 0 (line_cmds text) ∧ length cmds = 2560%nat ∧
    parse_batch_cmds text st =
    parse_batch_cmds text (Batch cmds 0 (Z.of_nat (0 + length (line_cmds text)) - 1))) as (cmds & Hrows & Hl & Hfirst).
  { unfold line_cmds in *. unfold parse_batch_cmds at 1. rewrite Hidx, Z.eqb_refl.
    destruct (is_batch text); cbn [negb].
    - destruct (store_cmds_ok _ 0 (b_cmds st) Hlen Hn Hok) as (cmds & -> & Hl & Hrows & _).
      exists cmds. split_and!; try done.
    - apply Forall_cons in Hok as [Hc _].
      destruct (store_cmd_ok (b_cmds st) 0 text Hlen ltac:(lia) Hc) as (cmds & -> & Hl & Hat & _).
      exists cmds. split_and!; try done. intros [|i] c Hi; [|done]. injection Hi as <-. done. }
  exists cmds. split; [|done].
  rewrite <- (shell_line_drain (line_cmds text) 0 cmds text (S (S (length (line_cmds text)))) Hrows ltac:(lia)).
  cbn [shell_line]. by rewrite Hfirst.
Qed.

#[global] Instance cmd_ok_dec c : Decision (cmd_ok c).
Proof. unfold cmd_ok. apply _. Defined.

Lemma shell_line_runs_witness : ∃ cmds,
  shell_line 5 (str "(ls;cat README;;pwd)") batch_init
  = Ret ([str "ls"; str "cat README"; str "pwd"], Batch cmds (-1) (-1)) ∧ length cmds = 2560%nat.
Proof.
  apply (shell_line_runs (str "(ls;cat README;;pwd)") batch_init); [reflexivity|reflexivity| |];
    apply (bool_decide_unpack _); vm_compute; exact I.
Defined.

(** Eleven commands: the eleventh is stored outside the array before the
    number of commands is checked. *)
Example batch_overflow :
  parse_batch_cmds (str "(a;b;c;d;e;f;g;h;i;j;k)") batch_init = Fault (Undef "cmds row").
Proof. vm_compute. reflexivity. Qed.
