(* ===== verification/Startup.v ===== *)
(** * The start of the servers (the beginning of the main functions of
    apps/system)

    The process server starts the terminal and the file server one after the
    other and waits for a message from each before it goes on, which it
    prints; the shell executes the command "cd" before it asks for one.  The
    handshake goes through the kernel as in Rpc.v. *)
From stdpp Require Import relations.
From S2P Require Import Prelude MemAlloc InodeStore Treedisk Terminal Earth Process Ipc Rendezvous Kernel Messages FileServer Rpc CString Print TermServer Shell.

(** ** sys_file.c *)

(** The file system on the flash disk; the Makefile sets FILESYS to 1. *)
Definition file_system (FILESYS : Z) : outcome (inode_store Flash.disk) :=
  if FILESYS =? 0 then Ret (mydisk_init Flash.disk_store)
  else log_rpb ← treedisk_init_log_rpb 0; Ret (treedisk_init Flash.disk_store 0 log_rpb).

(** The message to the process server: [strcpy] into [buf], of which 32 bytes
    are sent.  That of the terminal server is [term_hello], of 36 bytes. *)
Definition file_hello (buf : list Z) : outcome (list Z) :=
  buf ← strcpy buf (str "Finish GPID_FILE initialization" ++ [0]);
  Ret (take 32 buf).

(** ** sys_proc.c *)
Section reports.
Context {W : Type} (tw : list Z → W → outcome W) (lbuf : list Z).

(** [INFO("sys_process receives: %s", buf)] *)
Definition hello_report (buf : list Z) (w : W) : outcome W :=
  INFO tw lbuf (str "sys_process receives: %s" ++ [0]) [VStr buf] w.

(** [INFO("Load kernel process #%d: %s", pid, sys_apps[pid - 1])] *)
Definition sys_apps : list (list Z) := [str "sys_process"; str "sys_terminal"; str "sys_file"; str "sys_shell"].
Definition load_report (pid : Z) (w : W) : outcome W :=
  match sys_apps !! Z.to_nat (pid - 1) with
  | Some name => INFO tw lbuf (str "Load kernel process #%d: %s" ++ [0]) [VInt pid; VStr (name ++ [0])] w
  | None => Fault (Undef "sys_apps index")
  end.
End reports.

(** ** sys_shell.c *)

(** [char buf[TERM_BUF_SIZE] = "cd";] *)
Definition shell_start : list Z := str "cd" ++ zeros 510.

(** ** Lemmas *)
Lemma file_system_default : file_system 1 = Ret (treedisk_init Flash.disk_store 0 7).
Proof. reflexivity. Qed.

Definition file_hello_text : list Z := str "Finish GPID_FILE initialization".
Lemma file_hello_eq buf : length buf = SYSCALL_MSG_LEN → file_hello buf = Ret (file_hello_text ++ [0]).
Proof.
  intros Hb. unfold file_hello, strcpy. rewrite (cstr_app (str "Finish GPID_FILE initialization")) by (by repeat constructor).
  rewrite bind_ret. unfold put_string. unfold SYSCALL_MSG_LEN in Hb. rewrite bool_decide_true by (cbn; lia). rewrite bind_ret.
  unfold splice. cbn [Z.to_nat take app]. by rewrite <- (assoc_L (++)).
Qed.

(** Both messages end within the bytes that are sent. *)
Lemma hello_sizes : length term_hello = 36%nat ∧ length (file_hello_text ++ [0]) = 32%nat.
Proof. by vm_compute. Qed.

(** A report of the process server for a message that is a text with its
    end. *)
Lemma hello_report_text {W} (tw : list Z → W → outcome W) lbuf text rest w : length lbuf = 512%nat → nonzero text →
  (length text < 400)%nat →
  hello_report tw lbuf (send_content rest (text ++ [0])) w = tw (str "[INFO] sys_process receives: " ++ text ++ EOL) w.
Proof.
  intros Hl Hn Hlen. unfold hello_report, INFO, send_content.
  rewrite (log_text tw (str "[INFO] ") EOL lbuf _ _ (str "sys_process receives: " ++ text)); [|by repeat constructor..|].
  - rewrite bool_decide_true; [by rewrite <- !(assoc_L (++))|]. rewrite Hl, !length_app. cbn [length str EOL]. lia.
  - rewrite <- (assoc_L (++)). cbn [app].
    pose proof (format_text_str (str "sys_process receives: ") [] ((text ++ 0 :: drop (length (text ++ [0])) rest)) text) as Hf.
    rewrite !app_nil_r in Hf. apply Hf; [by repeat constructor..|]. by apply cstr_app.
Qed.

Section handshake.
Context {E : Type} `{EarthLaws E}.

(** The message of a server that has started: when the process server waits
    for server [x], whose text is [text], the call of [x] returns, both go on
    and the process server reports the text. *)
Theorem server_reported x text dst (s : kstate E) e t lbuf w : kernel_inv x s →
  pend (proc_set s) GPID_PROCESS dst → recv_waits dst → sc_sender (p_syscall dst) = x →
  nonzero text → (length text < 400)%nat → length lbuf = 512%nat →
  prepared x (sys_send GPID_PROCESS (text ++ [0])) s e t → ∃ r s',
  kernel_entry t (set_earth s e) = Ret (r, s') ∧ alive s' x ∧ alive s' GPID_PROCESS ∧
  hello_report (λ s w, Ret (w ++ s)) lbuf (sys_recv_result SYSCALL_MSG_LEN (smem (earth s') GPID_PROCESS)).1 w =
    Ret (w ++ str "[INFO] sys_process receives: " ++ text ++ EOL).
Proof.
  intros Hki Hdst Hw Hfrom Hn Hlen Hl Hpr.
  destruct (message_sent x GPID_PROCESS (text ++ [0]) s dst e t Hki Hdst Hw (or_intror Hfrom)) as (r & s' & Heq & Ho & Hres); [|done|].
  { rewrite length_app. unfold SYSCALL_MSG_LEN. cbn. lia. }
  exists r, s'. split_and!; [done|eapply handed_over_alive; [exact Ho|tauto]..|].
  rewrite Hres. cbn [fst]. by apply hello_report_text.
Qed.
End handshake.

(** The shell's first line is the one command "cd" without arguments. *)
Example shell_enters_home : cstr shell_start = Ret (str "cd") ∧
  (∃ b, shell_line 3 (str "cd") batch_init = Ret ([str "cd"], b)) ∧
  ∃ r, parse_request (str "cd") = Ret (Some r) ∧ r_argc r = 1.
Proof. split; [done|]. split; eexists; [vm_compute; reflexivity|]. split; [vm_compute; reflexivity|]. done. Qed.

(** The reports of the three servers that [sys_spawn] loads. *)
Example load_reports : load_report (λ s w, Ret (w ++ s)) (zeros 512) GPID_FILE [] =
  Ret (str "[INFO] Load kernel process #3: sys_file" ++ EOL).
Proof. vm_compute. reflexivity. Qed.
