(* ===== verification/Elf.v ===== *)
(** * The ELF loader (library/elf/elf.c)

    [elf_load] reads a program block by block through a callback, copies its
    segments into fresh pages mapped for the new process, and sets up the
    argument, system call and stack pages.  It works on the state of the
    software TLB; the callback may switch address spaces (the file server
    runs while [file_read] waits), so it receives and returns that state.

    [elf_pages] is the specification: the list of virtual pages with their
    contents that the new process must see. *)
From S2P Require Import Prelude MemAlloc SoftTlb InodeStore Process.

(** ** The headers (elf.h) *)
Definition get16 (bs : list Z) (off : nat) : Z := byte_at bs off + 2 ^ 8 * byte_at bs (off + 1).

Definition e_phoff (hbuf : list Z) : Z := get32 hbuf 28.
Definition e_phnum (hbuf : list Z) : Z := get16 hbuf 44.

Record pheader := PHeader { p_offset : Z; p_vaddr : Z; p_filesz : Z; p_memsz : Z }.

(** [pheader[i]], which must lie in the first block. *)
Definition program_header (hbuf : list Z) (i : Z) : outcome pheader :=
  let at_ := Z.to_nat (e_phoff hbuf + 32 * i) in
  if bool_decide (at_ + 32 ≤ length hbuf)%nat then
    Ret (PHeader (get32 hbuf (at_ + 4)) (get32 hbuf (at_ + 8)) (get32 hbuf (at_ + 16)) (get32 hbuf (at_ + 20)))
  else Fault (Undef "program header beyond the first block").

(** ** Loading *)

(** [reader(block_no, dst)]: [dst] before and after. *)
Definition elf_reader : Type := Z → list Z → mmu → outcome (list Z * mmu).

(** A store at [PAGE_ID_TO_ADDR(ppage_id) + off]. *)
Definition page_write (ppage_id off : Z) (bs : list Z) (s : mmu) : outcome mmu :=
  if bool_decide (off + Z.of_nat (length bs) ≤ PAGE_SIZE)
  then Ret (page_store (u32 (PAGE_ID_TO_ADDR ppage_id + off)) bs s)
  else Fault (Undef "store beyond the page").

(** [mmu_alloc], [mmu_map] and [memset]. *)
Definition map_zeroed (pid pageno : Z) (s : mmu) : outcome (Z * mmu) :=
  '(ppage_id, s) ← tlb_alloc s;
  s ← soft_tlb_map pid pageno ppage_id s;
  s ← page_write ppage_id 0 zero_page s;
  Ret (ppage_id, s).

Section load.
Context (pid : Z) (reader : elf_reader).

(** The loop over the blocks of a segment; returns [curr_pageno]. *)
Fixpoint load_blocks (fuel : nat) (off filesz curr_pageno curr_blockno ppage_id : Z)
    (buf : list Z) (s : mmu) : outcome (Z * list Z * mmu) :=
  match fuel with
  | O => Fault OutOfFuel
  | S fuel =>
      if off <? filesz then
        '(ppage_id, curr_pageno, s) ←
          (if off `mod` PAGE_SIZE =? 0 then
             '(ppage_id, s) ← map_zeroed pid curr_pageno s;
             Ret (ppage_id, u32 (curr_pageno + 1), s)
           else Ret (ppage_id, curr_pageno, s));
        let size := if u32 (off + BLOCK_SIZE) <? filesz then BLOCK_SIZE else filesz - off in
        '(buf, s) ← reader curr_blockno buf s;
        s ← page_write ppage_id (off `mod` PAGE_SIZE) (take (Z.to_nat size) buf) s;
        load_blocks fuel (u32 (off + BLOCK_SIZE)) filesz curr_pageno (u32 (curr_blockno + 1)) ppage_id buf s
      else Ret (curr_pageno, buf, s)
  end.

(** [while (curr_pageno < end_pageno)] *)
Fixpoint load_rest (fuel : nat) (curr_pageno end_pageno : Z) (s : mmu) : outcome mmu :=
  match fuel with
  | O => Fault OutOfFuel
  | S fuel =>
      if curr_pageno <? end_pageno then
        '(_, s) ← map_zeroed pid curr_pageno s;
        load_rest fuel (u32 (curr_pageno + 1)) end_pageno s
      else Ret s
  end.

Definition load_segment (ph : pheader) (buf : list Z) (s : mmu) : outcome (list Z * mmu) :=
  let addr := p_vaddr ph in
  if addr <? RAM_START then Ret (buf, s) else
  let end_pageno := u32 (addr + p_memsz ph) / PAGE_SIZE in
  '(curr_pageno, buf, s) ←
    load_blocks (S (Z.to_nat ((p_filesz ph + 511) / BLOCK_SIZE))) 0 (p_filesz ph) (addr / PAGE_SIZE)
      (p_offset ph / BLOCK_SIZE) 0 buf s;
  s ← load_rest (S (Z.to_nat (end_pageno - addr / PAGE_SIZE))) curr_pageno end_pageno s;
  Ret (buf, s).

(** [for (uint i = 0; i < header->e_phnum; i++)], [n] iterations left. *)
Fixpoint load_segments (n : nat) (i : Z) (hbuf buf : list Z) (s : mmu) : outcome mmu :=
  match n with
  | O => Ret s
  | S n =>
      ph ← program_header hbuf i;
      '(buf, s) ← load_segment ph buf s;
      load_segments n (i + 1) hbuf buf s
  end.

(** [if (argv) memcpy(args_addr, argv, argc * CMD_ARG_LEN)]; [argv]: the bytes
    of [req->argv], or [None] for NULL. *)
Definition copy_args (ppage_id argc : Z) (argv : option (list Z)) (s : mmu) : outcome mmu :=
  match argv with
  | Some bytes =>
      let n := Z.to_nat (u32 (argc * CMD_ARG_LEN)) in
      if bool_decide (n ≤ length bytes)%nat
      then page_write ppage_id (4 + 4 * CMD_NARGS) (take n bytes) s
      else Fault (Undef "argv read beyond the array")
  | None => Ret s
  end.

Definition load_args (argc : Z) (argv : option (list Z)) (s : mmu) : outcome mmu :=
  '(ppage_id, s) ← tlb_alloc s;
  s ← soft_tlb_map pid (APPS_ARG / PAGE_SIZE) ppage_id s;
  s ← page_write ppage_id 0 (le32 argc) s;
  s ← copy_args ppage_id argc argv s;
  for_up (Z.to_nat (u32 argc)) 0
    (λ i s, page_write ppage_id (4 + 4 * i) (le32 (u32 (APPS_ARG + 4 + 4 * CMD_NARGS + i * CMD_ARG_LEN))) s) s.

Definition elf_load (hbuf0 buf0 : list Z) (argc : Z) (argv : option (list Z)) (s : mmu) : outcome mmu :=
  '(hbuf, s) ← reader 0 hbuf0 s;
  s ← load_segments (Z.to_nat (e_phnum hbuf)) 0 hbuf buf0 s;
  s ← load_args argc argv s;
  s ← alloc_and_map pid (SYSCALL_ARG / PAGE_SIZE) s;
  for_up 2 1 (λ i s, alloc_and_map pid (APPS_STACK_TOP / PAGE_SIZE - i) s) s.
End load.

(** One iteration of each loop. *)
Lemma load_blocks_S pid reader fuel off filesz curr_pageno curr_blockno ppage_id buf s :
  load_blocks pid reader (S fuel) off filesz curr_pageno curr_blockno ppage_id buf s =
  if off <? filesz then
    '(ppage_id, curr_pageno, s) ←
      (if off `mod` PAGE_SIZE =? 0 then
         '(ppage_id, s) ← map_zeroed pid curr_pageno s; Ret (ppage_id, u32 (curr_pageno + 1), s)
       else Ret (ppage_id, curr_pageno, s));
    '(buf, s) ← reader curr_blockno buf s;
    s ← page_write ppage_id (off `mod` PAGE_SIZE) (take (Z.to_nat
          (if u32 (off + BLOCK_SIZE) <? filesz then BLOCK_SIZE else filesz - off)) buf) s;
    load_blocks pid reader fuel (u32 (off + BLOCK_SIZE)) filesz curr_pageno (u32 (curr_blockno + 1)) ppage_id buf s
  else Ret (curr_pageno, buf, s).
Proof. reflexivity. Qed.

Lemma load_rest_S pid fuel curr_pageno end_pageno s :
  load_rest pid (S fuel) curr_pageno end_pageno s =
  if curr_pageno <? end_pageno then
    '(_, s) ← map_zeroed pid curr_pageno s; load_rest pid fuel (u32 (curr_pageno + 1)) end_pageno s
  else Ret s.
Proof. reflexivity. Qed.

(** ** Specification: the pages of the new process *)

(** Page [k] of a sequence of bytes, padded with zeros. *)
Definition page_of (bytes : list Z) (k : nat) : page_t := take 4096 (drop (4096 * k) bytes ++ zero_page).

Definition ceil_div (a b : nat) : nat := (a + (b - 1)) / b.

(** The first [n] bytes of the file from block [b0] on. *)
Definition file_bytes (blk : Z → list Z) (b0 : Z) (n : nat) : list Z :=
  take n (mjoin ((λ k, blk (b0 + Z.of_nat k)) <$> seq 0 (ceil_div n 512))).

Definition seg_npages (ph : pheader) : nat :=
  Nat.max (ceil_div (Z.to_nat (p_filesz ph)) 4096)
          (Z.to_nat ((p_vaddr ph + p_memsz ph) / PAGE_SIZE - p_vaddr ph / PAGE_SIZE)).

Definition seg_pages (blk : Z → list Z) (ph : pheader) : list (Z * page_t) :=
  (λ k, (p_vaddr ph / PAGE_SIZE + Z.of_nat k,
         page_of (file_bytes blk (p_offset ph / BLOCK_SIZE) (Z.to_nat (p_filesz ph))) k))
  <$> seq 0 (seg_npages ph).

(** The argument page: argc, the pointers argv[0 .. argc-1], the strings. *)
Definition arg_page (argc : nat) (args : list Z) : page_t :=
  le32 (Z.of_nat argc) ++
  mjoin ((λ i, le32 (APPS_ARG + 68 + 32 * Z.of_nat i)) <$> seq 0 argc) ++
  zeros (4 * (16 - argc)) ++ args ++ zeros (4028 - length args).

Definition elf_pages (blk : Z → list Z) (phs : list pheader) (argc : nat) (args : list Z)
    : list (Z * page_t) :=
  (filter (λ ph, RAM_START ≤ p_vaddr ph) phs ≫= seg_pages blk) ++
  [(APPS_ARG / PAGE_SIZE, arg_page argc args); (SYSCALL_ARG / PAGE_SIZE, zero_page);
   (APPS_STACK_TOP / PAGE_SIZE - 1, zero_page); (APPS_STACK_TOP / PAGE_SIZE - 2, zero_page)].

(** The virtual pages do not depend on the contents of the file. *)
Definition elf_keys (phs : list pheader) : list Z :=
  (filter (λ ph, RAM_START ≤ p_vaddr ph) phs ≫=
     λ ph, (λ k, p_vaddr ph / PAGE_SIZE + Z.of_nat k) <$> seq 0 (seg_npages ph)) ++
  [APPS_ARG / PAGE_SIZE; SYSCALL_ARG / PAGE_SIZE; APPS_STACK_TOP / PAGE_SIZE - 1; APPS_STACK_TOP / PAGE_SIZE - 2].

Lemma elf_pages_keys blk phs argc args : (elf_pages blk phs argc args).*1 = elf_keys phs.
Proof.
  unfold elf_pages, elf_keys. rewrite fmap_app. f_equal.
  induction (filter _ phs) as [|ph l IH]; [done|]. rewrite !bind_cons, fmap_app, IH. f_equal.
  unfold seg_pages. rewrite <- list_fmap_compose. done.
Qed.

(** The number of pages is rounded down: the last bytes of a segment whose
    memory size ends inside a page after the file part get no page. *)
Example elf_bss_tail_unmapped :
  (APPS_ENTRY + 5000 - 1) / PAGE_SIZE ∉ elf_keys [PHeader 512 APPS_ENTRY 600 5000].
Proof. apply (bool_decide_unpack _). vm_compute. exact I. Qed.

(** What the loader relies on from its callback: it delivers the blocks below
    [limit], runs only processes in [runs], among which the new one is not,
    does not change the mappings, and leaves the memory of the processes in
    [stable] alone. *)
Class ElfReader (pid : Z) (reader : elf_reader) (stable runs : Z → Prop) (blk : Z → list Z) (limit : Z) := {
  rd_self : stable pid;
  rd_not : ¬ runs pid;
  rd_len n : length (blk n) = 512%nat;
  rd_read n buf s : 0 ≤ n < limit → length buf = 512%nat → tlb_wf s → runs (curr_vm_pid s) → ∃ s',
    reader n buf s = Ret (blk n, s') ∧ tlb_wf s' ∧ runs (curr_vm_pid s') ∧
    page_info_table s' = page_info_table s ∧
    ∀ q vp pg, stable q → sees s' q vp pg ↔ sees s q vp pg
}.

(** *** Pages and blocks *)
Lemma ceil_div_bounds a b : (0 < b)%nat → (a ≤ b * ceil_div a b < a + b)%nat.
Proof.
  intros Hb. unfold ceil_div. pose proof (Nat.div_mod (a + (b - 1)) b).
  pose proof (Nat.mod_upper_bound (a + (b - 1)) b). nia.
Qed.

Lemma length_page_of bytes k : length (page_of bytes k) = 4096%nat.
Proof.
  unfold page_of. rewrite length_take, length_app. unfold zero_page. rewrite length_zeros.
  change (Z.to_nat PAGE_SIZE) with 4096%nat. lia.
Qed.

Lemma page_of_nil bytes k : (length bytes ≤ 4096 * k)%nat → page_of bytes k = zero_page.
Proof. intros H. unfold page_of. rewrite drop_ge by done. apply take_ge. done. Qed.

(** A page that has been written completely does not change any more. *)
Lemma page_of_take bytes n k : (4096 * (k + 1) ≤ n)%nat → page_of (take n bytes) k = page_of bytes k.
Proof.
  intros Hn. destruct (decide (n ≤ length bytes)%nat) as [Hlen|]; [|by rewrite take_ge by lia].
  unfold page_of. rewrite !take_app_le by (rewrite length_drop, ?length_take; lia).
  rewrite skipn_firstn_comm, take_take. f_equal. lia.
Qed.

(** A page is its bytes padded with zeros. *)
Lemma take_pad l : (length l ≤ 4096)%nat → take 4096 (l ++ zero_page) = l ++ zeros (4096 - length l).
Proof.
  intros Hl. rewrite take_app_ge by done. f_equal. unfold zero_page, zeros.
  change (Z.to_nat PAGE_SIZE) with 4096%nat. rewrite take_replicate. f_equal. lia.
Qed.

Lemma splice_pad l c : (length l + length c ≤ 4096)%nat →
  splice (l ++ zeros (4096 - length l)) (length l) c = (l ++ c) ++ zeros (4096 - length (l ++ c)).
Proof.
  intros Hlen. unfold splice. rewrite take_app_length, drop_app_ge by lia.
  replace (length l + length c - length l)%nat with (length c) by lia. unfold zeros.
  rewrite drop_replicate, length_app, <- (assoc_L (++)). do 3 f_equal. lia.
Qed.

(** Appending the next block to the page it belongs to. *)
Lemma page_of_splice bytes j : (512 * j ≤ length bytes)%nat →
  splice (page_of (take (512 * j) bytes) (j / 8)) (512 * (j `mod` 8)) (take 512 (drop (512 * j) bytes))
  = page_of (take (512 * (j + 1)) bytes) (j / 8).
Proof.
  intros Hlen. pose proof (Nat.div_mod j 8 ltac:(lia)) as Hdm.
  pose proof (Nat.mod_upper_bound j 8 ltac:(lia)) as Hr.
  set (k := (j / 8)%nat) in *. set (r := (j `mod` 8)%nat) in *.
  set (A := drop (4096 * k) (take (512 * j) bytes)). set (C := take 512 (drop (512 * j) bytes)).
  assert (length A = 512 * r)%nat as HA by (unfold A; rewrite length_drop, length_take; lia).
  assert (length C ≤ 512)%nat as HC by (unfold C; rewrite length_take; lia).
  assert (drop (4096 * k) (take (512 * (j + 1)) bytes) = A ++ C) as HAC.
  { unfold A, C. replace (512 * (j + 1))%nat with (512 * j + 512)%nat by lia.
    rewrite <- take_take_drop, drop_app_le; [done|]. rewrite length_take. lia. }
  unfold page_of. rewrite HAC. fold A. rewrite !take_pad by (rewrite ?length_app; lia).
  rewrite <- HA. apply splice_pad. lia.
Qed.

(** Block [j] of the bytes of a file. *)
Lemma drop_join_blocks (f : nat → list Z) j : (∀ k, length (f k) = 512%nat) → ∀ a n, (j ≤ n)%nat →
  drop (512 * j) (mjoin (f <$> seq a n)) = mjoin (f <$> seq (a + j) (n - j)).
Proof.
  intros Hf. induction j as [|j IH]; intros a n Hn.
  - rewrite Nat.mul_0_r, drop_0, Nat.add_0_r, Nat.sub_0_r. done.
  - destruct n as [|n]; [lia|]. cbn [seq fmap list_fmap].
    change (mjoin (f a :: ?l)) with (f a ++ mjoin l).
    rewrite drop_app_ge by (rewrite Hf; lia). rewrite Hf.
    replace (512 * S j - 512)%nat with (512 * j)%nat by lia. rewrite IH by lia.
    replace (S a + j)%nat with (a + S j)%nat by lia. done.
Qed.

Lemma file_block blk b0 n j : (∀ k, length (blk k) = 512%nat) → (512 * j < n)%nat →
  take 512 (drop (512 * j) (file_bytes blk b0 n)) = take (Nat.min 512 (n - 512 * j)) (blk (b0 + Z.of_nat j)).
Proof.
  intros Hb Hj. pose proof (ceil_div_bounds n 512 ltac:(lia)). unfold file_bytes.
  rewrite skipn_firstn_comm, take_take, drop_join_blocks by (done || lia).
  destruct (ceil_div n 512 - j)%nat as [|m] eqn:Em; [lia|]. cbn [seq fmap list_fmap].
  change (mjoin (?x :: ?l)) with (x ++ mjoin l). rewrite Nat.add_0_l, take_app_le; [done|].
  rewrite Hb. lia.
Qed.

Lemma length_file_bytes blk b0 n : (∀ k, length (blk k) = 512%nat) → length (file_bytes blk b0 n) = n.
Proof.
  intros Hb. unfold file_bytes. rewrite length_take, Nat.min_l; [done|].
  assert (∀ m a, length (mjoin ((λ k, blk (b0 + Z.of_nat k)) <$> seq a m)) = (512 * m)%nat) as Hl.
  { induction m as [|m IH]; intros a; [done|]. cbn [seq fmap list_fmap].
    change (mjoin (?x :: ?l)) with (x ++ mjoin l). rewrite length_app, Hb, IH. lia. }
  rewrite Hl. pose proof (ceil_div_bounds n 512 ltac:(lia)). lia.
Qed.
