(* ===== verification/ElfLoad.v ===== *)
(** * Correctness of the ELF loader

    [loading] is the state while a process is being loaded: the pages it sees
    are a finite map that every operation of [elf_load] extends; the loops
    over blocks, pages and segments follow [elf_pages]. *)
From S2P Require Import Prelude MemAlloc SoftTlb InodeStore Process Elf.

(** ** The state while a process is being loaded *)
Section loading.
Context (pid : Z) (reader : elf_reader) (stable runs : Z → Prop) (blk : Z → list Z) (limit : Z).
Context `{!ElfReader pid reader stable runs blk limit} (Hpid : pid ≠ 0) (s0 : mmu).

(** The new process sees exactly the pages [im]. *)
Record loading (s : mmu) (im : gmap Z page_t) : Prop := {
  ld_wf : tlb_wf s;
  ld_curr : runs (curr_vm_pid s);
  ld_used : pages_used s = (pages_used s0 + size im)%nat;
  ld_sees vp pg : sees s pid vp pg ↔ im !! vp = Some pg;
  ld_other q vp pg : stable q → q ≠ pid → sees s q vp pg ↔ sees s0 q vp pg
}.

Lemma ld_not_pid s im : loading s im → curr_vm_pid s ≠ pid.
Proof using Type*. intros [_ Hr _ _ _] Heq. apply rd_not. by rewrite <- Heq. Qed.

Lemma ld_fresh s im v : loading s im → im !! v = None → ¬ ∃ i, owns s pid v i.
Proof.
  intros Hl Hv [i Ho].
  assert (sees s pid v (page_at (ram (mem s)) (home s pid v i))) as Hs by (by exists i).
  apply (ld_sees s im Hl) in Hs. congruence.
Qed.

Lemma ld_alloc s im v : loading s im → user_page v → im !! v = None →
  (pages_used s0 + size im < Z.to_nat APPS_PAGES_CNT)%nat → ∃ i s1 s',
  tlb_alloc s = Ret (i, s1) ∧ soft_tlb_map pid v i s1 = Ret s' ∧ 0 ≤ i < APPS_PAGES_CNT ∧
  loading s' (<[v := zero_page]> im) ∧ owns s' pid v i.
Proof.
  intros Hl Hv Hnew Hroom. pose proof (ld_not_pid _ _ Hl) as Hc.
  pose proof Hl as [Hwf Hrun Hu Hs Hoth].
  destruct (alloc_page s pid v Hwf Hpid ltac:(congruence) Hv (ld_fresh s im v Hl Hnew))
    as (i & s1 & s' & Ha & Hm & Hwf' & Hi & Ho & Hc' & Hu' & Hs').
  { apply spec_alloc_room. fold (pages_used s). lia. }
  exists i, s1, s'. split; [done|]. split; [done|]. split; [done|]. split; [|done]. constructor; try done.
  - congruence.
  - rewrite Hu', Hu, map_size_insert, Hnew. apply plus_n_Sm.
  - intros vp pg. rewrite Hs'. destruct (decide (vp = v)) as [->|Hne].
    + rewrite decide_True, lookup_insert_eq by done. split; [by intros ->|by intros [= <-]].
    + rewrite decide_False, lookup_insert_ne by congruence. apply Hs.
  - intros q vp pg Hq Hne. rewrite Hs', decide_False by congruence. by apply Hoth.
Qed.

Lemma ld_write s im v i pg off bs : loading s im → owns s pid v i → im !! v = Some pg → 0 ≤ off →
  off + Z.of_nat (length bs) ≤ PAGE_SIZE → off < PAGE_SIZE → ∃ s', page_write i off bs s = Ret s' ∧
  loading s' (<[v := splice pg (Z.to_nat off) bs]> im) ∧ page_info_table s' = page_info_table s.
Proof.
  intros Hl Ho Hv Hoff Hlen Hlt. pose proof (ld_not_pid _ _ Hl) as Hc.
  pose proof Hl as [Hwf Hrun Hu Hs Hoth]. unfold page_write.
  rewrite bool_decide_true by done. eexists. split; [done|].
  assert (0 ≤ i < APPS_PAGES_CNT) as Hi by apply Ho. destruct (page_id_to_addr i Hi) as [Ha _].
  assert (page_at (ram (mem s)) (POOL + i) = pg) as Hpg.
  { apply (ld_sees s im Hl) in Hv as (j & Hj & <-). rewrite (wf_inj s Hwf _ _ _ _ Hj Ho).
    unfold home. by rewrite (proj2 (Z.eqb_neq _ _)). }
  assert (page_store (u32 (PAGE_ID_TO_ADDR i + off)) bs s = pool_store i (splice pg (Z.to_nat off) bs) s) as ->.
  { unfold page_store. rewrite Ha. change APPS_PAGES_CNT with 1024 in Hi.
    rewrite u32_small by (unfold APPS_PAGES_BASE, PAGE_SIZE in *; lia).
    replace ((APPS_PAGES_BASE + i * PAGE_SIZE + off) / PAGE_SIZE) with (POOL + i)
      by (unfold POOL, APPS_PAGES_BASE, PAGE_SIZE in *; Z.div_mod_to_equations; lia).
    replace ((APPS_PAGES_BASE + i * PAGE_SIZE + off) `mod` PAGE_SIZE) with off
      by (unfold APPS_PAGES_BASE, PAGE_SIZE in *; Z.div_mod_to_equations; lia).
    by rewrite Hpg. }
  destruct (pool_store_spec s pid v i (splice pg (Z.to_nat off) bs) Hwf Ho ltac:(congruence)) as [Hwf' Hs'].
  split; [|done]. constructor; try done.
  - change (pages_used (pool_store _ _ s)) with (pages_used s). rewrite Hu, map_size_insert, Hv. done.
  - intros vp pg'. rewrite Hs'. destruct (decide (vp = v)) as [->|Hne].
    + rewrite decide_True, lookup_insert_eq by done. split; [by intros ->|by intros [= <-]].
    + rewrite decide_False, lookup_insert_ne by congruence. apply Hs.
  - intros q vp pg' Hq Hne. rewrite Hs', decide_False by congruence. by apply Hoth.
Qed.

Lemma splice_zero_page pg : length pg = 4096%nat → splice pg 0 zero_page = zero_page.
Proof.
  intros Hl. unfold splice. rewrite take_0, drop_ge; [by rewrite app_nil_l, app_nil_r|].
  unfold zero_page. rewrite length_zeros. change (Z.to_nat PAGE_SIZE) with 4096%nat. lia.
Qed.

Lemma ld_map_zeroed s im v : loading s im → user_page v → im !! v = None →
  (pages_used s0 + size im < Z.to_nat APPS_PAGES_CNT)%nat → ∃ i s',
  map_zeroed pid v s = Ret (i, s') ∧ loading s' (<[v := zero_page]> im) ∧ owns s' pid v i.
Proof.
  intros Hl Hv Hnew Hroom. destruct (ld_alloc s im v Hl Hv Hnew Hroom) as (i & s1 & s2 & Ha & Hm & Hi & Hl2 & Ho).
  destruct (ld_write s2 _ v i zero_page 0 zero_page Hl2 Ho) as (s' & Hw & Hl' & Ht); try done.
  { apply lookup_insert_eq. }
  exists i, s'. unfold map_zeroed. rewrite Ha, bind_ret, Hm, bind_ret, Hw, bind_ret. split; [done|].
  rewrite insert_insert_eq in Hl'. change (Z.to_nat 0) with 0%nat in Hl'.
  rewrite splice_zero_page in Hl' by done. split; [done|]. unfold owns. by rewrite Ht.
Qed.

Lemma ld_read s im n buf : loading s im → 0 ≤ n < limit → length buf = 512%nat → ∃ s',
  reader n buf s = Ret (blk n, s') ∧ loading s' im ∧ page_info_table s' = page_info_table s.
Proof.
  intros Hl Hn Hb. pose proof (ld_not_pid _ _ Hl) as Hc.
  pose proof Hl as [Hwf Hrun Hu Hs Hoth].
  destruct (rd_read n buf s Hn Hb Hwf Hrun) as (s' & Hr & Hwf' & Hc' & Ht & Hs').
  exists s'. split_and!; try done. constructor; try done.
  - rewrite <- Hu. unfold pages_used. f_equal. apply set_eq. intros j.
    rewrite (wf_used s Hwf), (wf_used s' Hwf'). unfold owns. by rewrite Ht.
  - intros vp pg. rewrite Hs' by apply rd_self. apply Hs.
  - intros q vp pg Hq Hne. rewrite Hs' by done. by apply Hoth.
Qed.

(** ** The segments *)

(** [im] is [im0] with [np] pages of [bytes] from [vp0] on. *)
Definition overlaid (im im0 : gmap Z page_t) (vp0 : Z) (np : nat) (bytes : list Z) : Prop :=
  (∀ vp, im !! vp = if decide (vp0 ≤ vp < vp0 + Z.of_nat np)
                    then Some (page_of bytes (Z.to_nat (vp - vp0))) else im0 !! vp) ∧
  size im = (size im0 + np)%nat.

Definition room (im0 : gmap Z page_t) (vp0 : Z) (np : nat) : Prop :=
  (∀ k, (k < np)%nat → user_page (vp0 + Z.of_nat k) ∧ im0 !! (vp0 + Z.of_nat k) = None) ∧
  (pages_used s0 + size im0 + np ≤ Z.to_nat APPS_PAGES_CNT)%nat.

(** One more zeroed page after the pages of [bytes]. *)
Lemma overlaid_next im im0 vp0 k bytes : overlaid im im0 vp0 k bytes → (length bytes ≤ 4096 * k)%nat →
  im0 !! (vp0 + Z.of_nat k) = None → im !! (vp0 + Z.of_nat k) = None ∧
  overlaid (<[vp0 + Z.of_nat k := zero_page]> im) im0 vp0 (S k) bytes.
Proof.
  intros [Him Hsz] Hlen Hnew.
  assert (im !! (vp0 + Z.of_nat k) = None) as Hn by (rewrite Him, decide_False by lia; done).
  split; [done|]. split; [|rewrite map_size_insert, Hn, Hsz; apply plus_n_Sm].
  intros vp. destruct (decide (vp = vp0 + Z.of_nat k)) as [->|Hne].
  - rewrite lookup_insert_eq, decide_True by lia. f_equal. symmetry. apply page_of_nil.
    replace (Z.to_nat _) with k by lia. done.
  - rewrite lookup_insert_ne, Him by done. apply decide_ext. lia.
Qed.

Lemma ceil_div_8 j : ceil_div (S j) 8 = S (j / 8) ∧
  ((j `mod` 8 = 0)%nat → ceil_div j 8 = (j / 8)%nat) ∧ ((j `mod` 8 ≠ 0)%nat → ceil_div j 8 = S (j / 8)).
Proof.
  unfold ceil_div. pose proof (Nat.div_mod j 8 ltac:(lia)). pose proof (Nat.mod_upper_bound j 8 ltac:(lia)).
  split_and!; intros; symmetry; [apply (Nat.div_unique _ 8 _ (j `mod` 8))
    |apply (Nat.div_unique _ 8 _ 7)|apply (Nat.div_unique _ 8 _ (j `mod` 8 - 1))]; lia.
Qed.

Section blocks.
Context (im0 : gmap Z page_t) (vp0 b0 : Z) (n : nat).
Context (Hb0 : 0 ≤ b0) (Hblk : b0 + Z.of_nat (ceil_div n 512) ≤ limit) (Hlim : limit < 2 ^ 32).
Context (Hroom : room im0 vp0 (ceil_div n 4096)) (Hn : Z.of_nat n < 2 ^ 31) (Hvp0 : 0 ≤ vp0 < 2 ^ 31).

Abbreviation bytes := (file_bytes blk b0 n).

(** Writing block [j] into its page. *)
Lemma overlaid_write im j : overlaid im im0 vp0 (S (j / 8)) (take (512 * j) bytes) → (512 * j ≤ n)%nat →
  im !! (vp0 + Z.of_nat (j / 8)) = Some (page_of (take (512 * j) bytes) (j / 8)) ∧
  overlaid (<[vp0 + Z.of_nat (j / 8) :=
      splice (page_of (take (512 * j) bytes) (j / 8)) (512 * (j `mod` 8)) (take 512 (drop (512 * j) bytes))]> im)
    im0 vp0 (S (j / 8)) (take (512 * S j) bytes).
Proof using Type*.
  intros [Him Hsz] Hj.
  assert (im !! (vp0 + Z.of_nat (j / 8)) = Some (page_of (take (512 * j) bytes) (j / 8))) as Hat.
  { rewrite Him, decide_True by lia. do 2 f_equal. lia. }
  split; [done|]. rewrite page_of_splice by (rewrite length_file_bytes by apply rd_len; lia).
  replace (j + 1)%nat with (S j) by lia.
  split; [|rewrite map_size_insert, Hat; exact Hsz].
  intros vp. destruct (decide (vp = vp0 + Z.of_nat (j / 8))) as [->|Hne].
  - rewrite lookup_insert_eq, decide_True by lia. do 2 f_equal. lia.
  - rewrite lookup_insert_ne, Him by done. case_decide as Hin; [|done]. f_equal.
    pose proof (Nat.div_mod j 8 ltac:(lia)). rewrite !page_of_take by lia. done.
Qed.

(** The page for block [j]: allocated with the first block of a page. *)
Lemma ld_page s im j ppage : loading s im → (512 * j < n)%nat →
  overlaid im im0 vp0 (ceil_div j 8) (take (512 * j) bytes) →
  ((j `mod` 8 ≠ 0)%nat → owns s pid (vp0 + Z.of_nat (j / 8)) ppage) → ∃ ppage' s' im',
  (if (512 * Z.of_nat j) `mod` PAGE_SIZE =? 0 then
     '(ppage_id, s) ← map_zeroed pid (vp0 + Z.of_nat (ceil_div j 8)) s;
     Ret (ppage_id, u32 (vp0 + Z.of_nat (ceil_div j 8) + 1), s)
   else Ret (ppage, vp0 + Z.of_nat (ceil_div j 8), s)) = Ret (ppage', vp0 + Z.of_nat (S (j / 8)), s') ∧
  loading s' im' ∧ overlaid im' im0 vp0 (S (j / 8)) (take (512 * j) bytes) ∧
  owns s' pid (vp0 + Z.of_nat (j / 8)) ppage'.
Proof using Type*.
  intros Hl Hj Ho Hown. destruct (ceil_div_8 j) as (_ & Hz & Hnz).
  pose proof (Nat.div_mod j 8 ltac:(lia)) as Hdm. pose proof (ceil_div_bounds n 4096 ltac:(lia)).
  replace ((512 * Z.of_nat j) `mod` PAGE_SIZE) with (512 * Z.of_nat (j `mod` 8))
    by (unfold PAGE_SIZE; rewrite Nat2Z.inj_mod; Z.div_mod_to_equations; lia).
  destruct (decide (j `mod` 8 = 0)%nat) as [H0|H0].
  - rewrite H0. change (512 * Z.of_nat 0 =? 0) with true. rewrite (Hz H0) in *.
    destruct Hroom as [Hr1 Hr2]. destruct (Hr1 (j / 8)%nat ltac:(lia)) as [Hu Hnew].
    destruct (overlaid_next im im0 vp0 (j / 8) _ Ho) as [Hn' Ho']; [rewrite length_take; lia|done|].
    destruct (ld_map_zeroed s im (vp0 + Z.of_nat (j / 8)) Hl Hu Hn') as (i & s' & -> & Hl' & Hown').
    { destruct Ho as [_ ->]. lia. }
    rewrite bind_ret. exists i, s', (<[vp0 + Z.of_nat (j / 8) := zero_page]> im).
    split_and!; try done. rewrite u32_small by lia. do 2 f_equal. f_equal. lia.
  - rewrite (proj2 (Z.eqb_neq _ _)) by lia. rewrite (Hnz H0) in *. exists ppage, s, im. auto.
Qed.

(** The size of block [j] is its part of the file. *)
Lemma block_size j : (512 * j < n)%nat →
  (if u32 (512 * Z.of_nat j + BLOCK_SIZE) <? Z.of_nat n then BLOCK_SIZE else Z.of_nat n - 512 * Z.of_nat j)
  = Z.of_nat (Nat.min 512 (n - 512 * j)).
Proof using Hn.
  intros Hj. unfold BLOCK_SIZE. rewrite u32_small by lia.
  destruct (Z.ltb_spec (512 * Z.of_nat j + 512) (Z.of_nat n)); lia.
Qed.

Lemma ld_blocks r : ∀ j s im ppage buf, (j + r)%nat = ceil_div n 512 → loading s im → length buf = 512%nat →
  overlaid im im0 vp0 (ceil_div j 8) (take (512 * j) bytes) →
  ((j `mod` 8 ≠ 0)%nat → owns s pid (vp0 + Z.of_nat (j / 8)) ppage) → ∃ buf' s' im',
  load_blocks pid reader (S r) (512 * Z.of_nat j) (Z.of_nat n) (vp0 + Z.of_nat (ceil_div j 8))
    (b0 + Z.of_nat j) ppage buf s
    = Ret (vp0 + Z.of_nat (ceil_div (ceil_div n 512) 8), buf', s') ∧ length buf' = 512%nat ∧
  loading s' im' ∧ overlaid im' im0 vp0 (ceil_div (ceil_div n 512) 8) bytes.
Proof using Type*.
  pose proof (ceil_div_bounds n 512 ltac:(lia)) as Hnb.
  induction r as [|r IH]; intros j s im ppage buf Hjr Hl Hbuf Ho Hown; rewrite load_blocks_S.
  - rewrite Nat.add_0_r in Hjr. subst j. rewrite (proj2 (Z.ltb_ge _ _)) by lia.
    exists buf, s, im. split_and!; try done.
    rewrite take_ge in Ho; [done|]. rewrite length_file_bytes by apply rd_len. lia.
  - assert (512 * j < n)%nat as Hj by lia. rewrite (proj2 (Z.ltb_lt _ _)) by lia.
    destruct (ld_page s im j ppage Hl Hj Ho Hown) as (ppage1 & s1 & im1 & -> & Hl1 & Ho1 & Hown1).
    rewrite bind_ret, (block_size j Hj), Nat2Z.id.
    destruct (ld_read s1 im1 (b0 + Z.of_nat j) buf Hl1 ltac:(lia) Hbuf) as (s2 & -> & Hl2 & Ht2).
    rewrite bind_ret. destruct (overlaid_write im1 j Ho1 ltac:(lia)) as [Hat Ho2].
    rewrite <- (file_block blk b0 n j) by (apply rd_len || lia).
    replace ((512 * Z.of_nat j) `mod` PAGE_SIZE) with (512 * Z.of_nat (j `mod` 8))
      by (unfold PAGE_SIZE; rewrite Nat2Z.inj_mod; Z.div_mod_to_equations; lia).
    pose proof (Nat.mod_upper_bound j 8 ltac:(lia)) as Hr8.
    assert (owns s2 pid (vp0 + Z.of_nat (j / 8)) ppage1) as Hown2 by (unfold owns; rewrite Ht2; exact Hown1).
    destruct (ld_write s2 im1 _ ppage1 _ (512 * Z.of_nat (j `mod` 8)) (take 512 (drop (512 * j) bytes))
                Hl2 Hown2 Hat) as (s3 & -> & Hl3 & Ht3);
      [lia|rewrite length_take; unfold PAGE_SIZE; lia|unfold PAGE_SIZE; lia|].
    rewrite bind_ret. replace (Z.to_nat (512 * _)) with (512 * (j `mod` 8))%nat in Hl3 by lia.
    unfold BLOCK_SIZE. rewrite !u32_small by lia. destruct (ceil_div_8 j) as (Hc & _).
    replace (512 * Z.of_nat j + 512) with (512 * Z.of_nat (S j)) by lia.
    replace (b0 + Z.of_nat j + 1) with (b0 + Z.of_nat (S j)) by lia. rewrite <- Hc in *.
    apply (IH (S j) s3 _ ppage1 (blk (b0 + Z.of_nat j)) ltac:(lia) Hl3); [apply rd_len|exact Ho2|].
    intros Hne. replace (S j / 8)%nat with (j / 8)%nat; [unfold owns; rewrite Ht3; exact Hown2|].
    destruct (ceil_div_8 (S j)) as (_ & _ & Hs). pose proof (Hs Hne). lia.
Qed.
End blocks.

(** The zero pages after the file part. *)
Lemma ld_rest r : ∀ fuel k s im im0 vp0 bytes, (r < fuel)%nat → loading s im → overlaid im im0 vp0 k bytes →
  (length bytes ≤ 4096 * k)%nat → room im0 vp0 (k + r) → 0 ≤ vp0 < 2 ^ 31 → Z.of_nat (k + r) < 2 ^ 31 →
  ∃ s' im', load_rest pid fuel (vp0 + Z.of_nat k) (vp0 + Z.of_nat (k + r)) s = Ret s' ∧
  loading s' im' ∧ overlaid im' im0 vp0 (k + r) bytes.
Proof using Type*.
  induction r as [|r IH]; intros [|fuel] k s im im0 vp0 bytes Hf Hl Ho Hlen Hroom Hv0 Hmax; try lia;
    rewrite load_rest_S.
  - rewrite Nat.add_0_r, (proj2 (Z.ltb_ge _ _)) by lia. exists s, im. done.
  - rewrite (proj2 (Z.ltb_lt _ _)) by lia. pose proof Hroom as [Hr1 Hr2].
    destruct (Hr1 k ltac:(lia)) as [Hu Hnew].
    destruct (overlaid_next im im0 vp0 k bytes Ho Hlen Hnew) as [Hn Ho'].
    destruct (ld_map_zeroed s im (vp0 + Z.of_nat k) Hl Hu Hn) as (i & s1 & -> & Hl1 & _).
    { destruct Ho as [_ ->]. lia. }
    rewrite bind_ret, u32_small by lia. replace (vp0 + Z.of_nat k + 1) with (vp0 + Z.of_nat (S k)) by lia.
    replace (k + S r)%nat with (S k + r)%nat in * by lia.
    by apply (IH fuel (S k) s1 _ im0 vp0 bytes ltac:(lia) Hl1 Ho' ltac:(lia)).
Qed.

(** A program header the loader can handle. *)
Definition ph_ok (ph : pheader) : Prop :=
  0 ≤ p_offset ph ∧ 0 ≤ p_vaddr ph < 2 ^ 32 ∧ 0 ≤ p_filesz ph < 2 ^ 31 ∧ 0 ≤ p_memsz ph ∧
  p_vaddr ph + p_memsz ph < 2 ^ 32 ∧
  p_offset ph / BLOCK_SIZE + Z.of_nat (ceil_div (Z.to_nat (p_filesz ph)) 512) ≤ limit.

Lemma ceil_div_pages n : ceil_div (ceil_div n 512) 8 = ceil_div n 4096.
Proof using.
  pose proof (ceil_div_bounds n 512 ltac:(lia)). pose proof (ceil_div_bounds n 4096 ltac:(lia)).
  pose proof (ceil_div_bounds (ceil_div n 512) 8 ltac:(lia)). lia.
Qed.

Lemma room_le im0 vp0 np np' : room im0 vp0 np → (np' ≤ np)%nat → room im0 vp0 np'.
Proof using. intros [H1 H2] Hle. split; [intros k Hk; apply H1; lia|lia]. Qed.

Lemma room_small im0 vp0 np : room im0 vp0 np → 0 ≤ vp0 → (np ≤ 512)%nat.
Proof using.
  intros [H1 _] Hv. destruct (decide (np ≤ 512)%nat); [done|]. exfalso.
  destruct (H1 0%nat ltac:(lia)) as [[Hlo _] _]. destruct (H1 512%nat ltac:(lia)) as [[_ Hhi] _].
  change (APPS_ENTRY / PAGE_SIZE) with 524800 in Hlo. change (APPS_STACK_TOP / PAGE_SIZE) with 525312 in Hhi. lia.
Qed.

Lemma ld_segment s im0 ph buf : loading s im0 → ph_ok ph → RAM_START ≤ p_vaddr ph → limit < 2 ^ 32 →
  length buf = 512%nat → room im0 (p_vaddr ph / PAGE_SIZE) (seg_npages ph) → ∃ buf' s' im',
  load_segment pid reader ph buf s = Ret (buf', s') ∧ length buf' = 512%nat ∧ loading s' im' ∧
  overlaid im' im0 (p_vaddr ph / PAGE_SIZE) (seg_npages ph)
    (file_bytes blk (p_offset ph / BLOCK_SIZE) (Z.to_nat (p_filesz ph))).
Proof using Type*.
  intros Hl (Ho1 & Hv1 & Hf1 & Hm1 & Hend & Hlim1) Hram Hlim Hbuf Hroom. unfold load_segment.
  rewrite (proj2 (Z.ltb_ge _ _)), u32_small by lia. cbv zeta.
  set (vp0 := p_vaddr ph / PAGE_SIZE) in *. set (n := Z.to_nat (p_filesz ph)) in *.
  set (b0 := p_offset ph / BLOCK_SIZE) in *.
  set (mp := Z.to_nat ((p_vaddr ph + p_memsz ph) / PAGE_SIZE - vp0)).
  assert (seg_npages ph = Nat.max (ceil_div n 4096) mp) as Hnp by done. rewrite Hnp in *.
  assert (0 ≤ vp0 < 2 ^ 31) as Hvp by (unfold vp0, PAGE_SIZE; Z.div_mod_to_equations; lia).
  assert (0 ≤ b0) as Hb0 by (unfold b0, BLOCK_SIZE; Z.div_mod_to_equations; lia).
  pose proof (room_small _ _ _ Hroom ltac:(lia)) as Hsmall.
  assert (vp0 ≤ (p_vaddr ph + p_memsz ph) / PAGE_SIZE) as Hge by (apply Z.div_le_mono; lia || done).
  destruct (ld_blocks im0 vp0 b0 n Hb0 Hlim1 Hlim (room_le _ _ _ (ceil_div n 4096) Hroom ltac:(lia)) ltac:(lia) Hvp
              (ceil_div n 512) 0 s im0 0 buf) as (buf1 & s1 & im1 & E1 & Hb1 & Hl1 & Hov1); try done.
  { split; [|cbn; lia]. intros vp. by rewrite decide_False by (cbn; lia). }
  replace (Z.to_nat ((p_filesz ph + 511) / BLOCK_SIZE)) with (ceil_div n 512)
    by (unfold ceil_div, n, BLOCK_SIZE; rewrite Z2Nat.inj_div, Z2Nat.inj_add by lia; done).
  replace (p_filesz ph) with (Z.of_nat n) by (unfold n; lia).
  change (512 * Z.of_nat 0) with 0 in E1. rewrite !Z.add_0_r in E1.
  rewrite E1, bind_ret. rewrite ceil_div_pages in Hov1 |- *. fold mp.
  replace ((p_vaddr ph + p_memsz ph) / PAGE_SIZE) with (vp0 + Z.of_nat mp) by (unfold mp; lia).
  destruct (Nat.le_gt_cases mp (ceil_div n 4096)) as [Hle|Hgt].
  - rewrite load_rest_S, (proj2 (Z.ltb_ge _ _)), bind_ret by lia.
    rewrite Nat.max_l by done. eauto 10.
  - rewrite Nat.max_r in * by lia. pose proof (ceil_div_bounds n 4096 ltac:(lia)).
    destruct (ld_rest (mp - ceil_div n 4096) (S mp) (ceil_div n 4096) s1 im1 im0 vp0 (file_bytes blk b0 n))
      as (s2 & im2 & E2 & Hl2 & Hov2); try done; try lia.
    + rewrite length_file_bytes by apply rd_len. lia.
    + eapply room_le; [exact Hroom|lia].
    + replace (ceil_div n 4096 + _)%nat with mp in * by lia. rewrite E2, bind_ret. eauto 10.
Qed.

(** ** The whole program *)

(** The pages loaded so far, as a list. *)
Definition holds (im : gmap Z page_t) (l : list (Z * page_t)) : Prop :=
  (∀ vp pg, im !! vp = Some pg ↔ (vp, pg) ∈ l) ∧ size im = length l.

Lemma holds_fresh im l v : holds im l → v ∉ l.*1 → im !! v = None.
Proof using.
  intros [H _] Hv. destruct (im !! v) as [pg|] eqn:E; [|done]. exfalso. apply Hv.
  apply list_elem_of_fmap. exists (v, pg). split; [done|]. by apply H.
Qed.

Lemma holds_snoc im l v pg : holds im l → v ∉ l.*1 → holds (<[v := pg]> im) (l ++ [(v, pg)]).
Proof using.
  intros Hh Hv. pose proof (holds_fresh im l v Hh Hv) as Hn. destruct Hh as [H Hs].
  split; [|rewrite map_size_insert, Hn, length_app, Hs; cbn; lia].
  intros vp pg'. rewrite elem_of_app, list_elem_of_singleton. destruct (decide (vp = v)) as [->|Hne].
  - rewrite lookup_insert_eq. split; [intros [= ->]; by right|]. intros [Hin|[= ->]]; [|done].
    exfalso. apply Hv, list_elem_of_fmap. by exists (v, pg').
  - rewrite lookup_insert_ne, H by done. split; [by left|]. intros [?|[= ? _]]; done.
Qed.

Lemma holds_segment im' im l ph : holds im l →
  overlaid im' im (p_vaddr ph / PAGE_SIZE) (seg_npages ph)
    (file_bytes blk (p_offset ph / BLOCK_SIZE) (Z.to_nat (p_filesz ph))) →
  (∀ k, (k < seg_npages ph)%nat → im !! (p_vaddr ph / PAGE_SIZE + Z.of_nat k) = None) →
  holds im' (l ++ seg_pages blk ph).
Proof using.
  intros [H Hs] [Him Hsz] Hnew. split.
  - intros vp pg. rewrite elem_of_app, <- H, Him. unfold seg_pages. rewrite list_elem_of_fmap. case_decide as Hin.
    + split.
      * intros [= <-]. right. exists (Z.to_nat (vp - p_vaddr ph / PAGE_SIZE)).
        split; [f_equal; lia|]. apply elem_of_seq. lia.
      * intros [Hold|(k & [= -> ->] & Hk%elem_of_seq)]; [|do 2 f_equal; lia]. exfalso.
        pose proof (Hnew (Z.to_nat (vp - p_vaddr ph / PAGE_SIZE)) ltac:(lia)) as Hn.
        replace (p_vaddr ph / PAGE_SIZE + _) with vp in Hn by lia. congruence.
    + split; [by left|]. intros [|(k & [= -> ->] & Hk%elem_of_seq)]; [done|]. exfalso. lia.
  - rewrite Hsz, Hs, length_app. unfold seg_pages. by rewrite length_fmap, length_seq.
Qed.

Definition program_pages (phs : list pheader) : list (Z * page_t) :=
  filter (λ ph, RAM_START ≤ p_vaddr ph) phs ≫= seg_pages blk.

(** Everything that is still to be mapped fits. *)
Definition fits (l todo : list (Z * page_t)) : Prop :=
  NoDup (l ++ todo).*1 ∧ Forall user_page todo.*1 ∧
  (pages_used s0 + length (l ++ todo) ≤ Z.to_nat APPS_PAGES_CNT)%nat.

Lemma fits_app l t1 t2 : fits l (t1 ++ t2) → fits (l ++ t1) t2.
Proof using.
  intros (H1 & H2 & H3). rewrite fmap_app, Forall_app in H2. rewrite (assoc_L (++)) in H1, H3.
  split; [exact H1|]. split; [apply H2|exact H3].
Qed.

Lemma room_of_fits im l ph todo : holds im l → fits l (seg_pages blk ph ++ todo) →
  room im (p_vaddr ph / PAGE_SIZE) (seg_npages ph).
Proof using.
  intros Hh (Hnd & Hu & Hsz). split.
  - intros k Hk.
    assert (p_vaddr ph / PAGE_SIZE + Z.of_nat k ∈ (seg_pages blk ph).*1) as Hin.
    { unfold seg_pages. rewrite <- list_fmap_compose. apply list_elem_of_fmap. exists k.
      split; [done|]. apply elem_of_seq. lia. }
    split.
    + rewrite Forall_forall in Hu. apply Hu. rewrite fmap_app. apply elem_of_app. by left.
    + apply (holds_fresh im l); [done|]. intros Hl. rewrite fmap_app in Hnd. apply NoDup_app in Hnd as (_ & Hnd & _).
      apply (Hnd _ Hl). rewrite fmap_app. apply elem_of_app. by left.
  - destruct Hh as [_ ->]. rewrite !length_app in Hsz. unfold seg_pages in Hsz.
    rewrite length_fmap, length_seq in Hsz. lia.
Qed.

Lemma ld_segments hbuf phs : ∀ i s im l buf todo, loading s im → holds im l → length buf = 512%nat →
  limit < 2 ^ 32 → Forall ph_ok phs →
  (∀ k ph, phs !! k = Some ph → program_header hbuf (i + Z.of_nat k) = Ret ph) →
  fits l (program_pages phs ++ todo) → ∃ s' im',
  load_segments pid reader (length phs) i hbuf buf s = Ret s' ∧ loading s' im' ∧
  holds im' (l ++ program_pages phs).
Proof using Type*.
  induction phs as [|ph phs IH]; intros i s im l buf todo Hl Hh Hbuf Hlim Hok Hph Hfits.
  { exists s, im. split_and!; try done. unfold program_pages. cbn. by rewrite app_nil_r. }
  apply Forall_cons in Hok as [Hok1 Hok]. cbn [length load_segments].
  pose proof (Hph 0%nat ph eq_refl) as Hph0. rewrite Z.add_0_r in Hph0. rewrite Hph0, bind_ret.
  assert (∀ k ph', phs !! k = Some ph' → program_header hbuf (i + 1 + Z.of_nat k) = Ret ph') as Hph'.
  { intros k ph' Hk. rewrite <- (Hph (S k) ph' Hk). f_equal. lia. }
  unfold program_pages in *. rewrite filter_cons in *. destruct (decide (RAM_START ≤ p_vaddr ph)) as [Hge|Hlt].
  - rewrite bind_cons in *. rewrite <- (assoc_L (++)) in Hfits.
    destruct (ld_segment s im ph buf Hl Hok1 Hge Hlim Hbuf (room_of_fits _ _ _ _ Hh Hfits))
      as (buf1 & s1 & im1 & -> & Hb1 & Hl1 & Hov).
    rewrite bind_ret. rewrite (assoc_L (++)).
    apply (IH (i + 1) s1 im1 (l ++ seg_pages blk ph) buf1 todo); try done; [|by apply fits_app].
    apply (holds_segment im1 im); [done..|]. intros k Hk.
    by apply (room_of_fits _ _ _ _ Hh Hfits).
  - assert (load_segment pid reader ph buf s = Ret (buf, s)) as ->.
    { unfold load_segment. by rewrite (proj2 (Z.ltb_lt _ _)) by lia. }
    rewrite bind_ret. by apply (IH (i + 1) s im l buf todo).
Qed.

(** ** The argument page *)

(** After the pointers argv[0 .. i-1] have been stored. *)
Definition arg_page_upto (argc i : nat) (args : list Z) : page_t :=
  (le32 (Z.of_nat argc) ++ mjoin ((λ i, le32 (APPS_ARG + 68 + 32 * Z.of_nat i)) <$> seq 0 i)) ++
  zeros (4 * (16 - i)) ++ args ++ zeros (4028 - length args).

Lemma splice_middle (a b b' c : list Z) off : off = length a → length b = length b' →
  splice (a ++ b ++ c) off b' = a ++ b' ++ c.
Proof using.
  intros -> Hb. unfold splice. rewrite take_app_length, drop_app_ge by lia. do 2 f_equal.
  rewrite Nat.add_comm, Nat.add_sub, <- Hb. apply drop_app_length.
Qed.

Lemma splice_nil m off : splice m off [] = m.
Proof using. unfold splice. by rewrite app_nil_l, Nat.add_0_r, take_drop. Qed.

Lemma zeros_app n m : zeros (n + m) = zeros n ++ zeros m.
Proof using. apply replicate_add. Qed.

Lemma arg_page_start argc args : (length args ≤ 4028)%nat →
  splice (splice zero_page 0 (le32 (Z.of_nat argc))) 68 args = arg_page_upto argc 0 args.
Proof using.
  intros Hl. unfold arg_page_upto. cbn [seq fmap list_fmap]. change (mjoin []) with (@nil Z).
  rewrite app_nil_r. change (4 * (16 - 0))%nat with 64%nat.
  assert (zero_page = [] ++ zeros 4 ++ (zeros 64 ++ zeros (length args) ++ zeros (4028 - length args))) as ->.
  { rewrite <- !zeros_app, app_nil_l. unfold zero_page. f_equal. change (Z.to_nat PAGE_SIZE) with 4096%nat. lia. }
  rewrite splice_middle by done. rewrite app_nil_l, (assoc_L (++) (le32 _) (zeros 64)).
  rewrite splice_middle; [by rewrite <- (assoc_L (++))| |by rewrite length_zeros].
  by rewrite length_app, length_le32, length_zeros.
Qed.

Lemma length_pointers i : length (mjoin ((λ i, le32 (APPS_ARG + 68 + 32 * Z.of_nat i)) <$> seq 0 i)) = (4 * i)%nat.
Proof using.
  induction i as [|i IH]; [done|]. rewrite seq_S, fmap_app, join_app, length_app, IH. cbn -[le32].
  change (mjoin [?x]) with (x ++ []). rewrite app_nil_r, length_le32. lia.
Qed.

Lemma arg_page_next argc i args : (i < 16)%nat →
  splice (arg_page_upto argc i args) (4 + 4 * i) (le32 (APPS_ARG + 68 + 32 * Z.of_nat i))
  = arg_page_upto argc (S i) args.
Proof using.
  intros Hi. unfold arg_page_upto. replace (4 * (16 - i))%nat with (4 + 4 * (16 - S i))%nat by lia.
  rewrite zeros_app, <- (assoc_L (++) (zeros 4)).
  rewrite splice_middle; [|by rewrite length_app, length_le32, length_pointers|done].
  rewrite seq_S, fmap_app, join_app. by rewrite <- !(assoc_L (++)).
Qed.

Lemma arg_page_upto_all argc args : arg_page_upto argc argc args = arg_page argc args.
Proof using. unfold arg_page_upto, arg_page. by rewrite <- (assoc_L (++)). Qed.

(** [argc] strings of the array [argv], none for NULL. *)
Definition args_ok (argc : nat) (argv : option (list Z)) (args : list Z) : Prop :=
  (argc ≤ 16)%nat ∧
  match argv with
  | Some bytes => (32 * argc ≤ length bytes)%nat ∧ args = take (32 * argc) bytes
  | None => argc = 0%nat ∧ args = []
  end.

Lemma ld_arg_strings s im v i argc argv args : args_ok argc argv args →
  loading s (<[v := splice zero_page 0 (le32 (Z.of_nat argc))]> im) → owns s pid v i → ∃ s',
  copy_args i (Z.of_nat argc) argv s = Ret s' ∧
  loading s' (<[v := arg_page_upto argc 0 args]> im) ∧ page_info_table s' = page_info_table s.
Proof using Type*.
  intros [Hmax Hargs] Hl Ho. unfold copy_args. destruct argv as [bytes|].
  - destruct Hargs as [Hlen ->]. unfold CMD_ARG_LEN, CMD_NARGS. rewrite u32_small by lia. cbv zeta.
    replace (Z.to_nat (Z.of_nat argc * 32)) with (32 * argc)%nat by lia.
    rewrite bool_decide_true by done.
    destruct (ld_write s _ v i _ (4 + 4 * 16) (take (32 * argc) bytes) Hl Ho (lookup_insert_eq _ _ _))
      as (s' & -> & Hl' & Ht'); [lia|rewrite length_take; unfold PAGE_SIZE; lia|unfold PAGE_SIZE; lia|].
    rewrite insert_insert_eq in Hl'. change (Z.to_nat (4 + 4 * 16)) with 68%nat in Hl'.
    rewrite arg_page_start in Hl' by (rewrite length_take; lia). eauto.
  - destruct Hargs as [-> ->]. exists s. split; [done|]. split; [|done].
    rewrite <- arg_page_start by (cbn; lia). by rewrite splice_nil.
Qed.

Lemma ld_arg_pointers s im v i argc args : (argc ≤ 16)%nat →
  loading s (<[v := arg_page_upto argc 0 args]> im) → owns s pid v i → ∃ s',
  for_up (Z.to_nat (u32 (Z.of_nat argc))) 0
    (λ k s, page_write i (4 + 4 * k) (le32 (u32 (APPS_ARG + 4 + 4 * CMD_NARGS + k * CMD_ARG_LEN))) s) s
  = Ret s' ∧ loading s' (<[v := arg_page argc args]> im).
Proof using Type*.
  intros Hmax Hl Ho. rewrite u32_small, Nat2Z.id by lia.
  destruct (for_up_inv (λ k s', loading s' (<[v := arg_page_upto argc (Z.to_nat k) args]> im) ∧ owns s' pid v i)
    argc 0 (λ k s, page_write i (4 + 4 * k) (le32 (u32 (APPS_ARG + 4 + 4 * CMD_NARGS + k * CMD_ARG_LEN))) s) s)
    as (s' & E & Hl' & _); [done| |].
  - intros k s1 Hk [Hl1 Ho1].
    destruct (ld_write s1 _ v i _ (4 + 4 * k) (le32 (u32 (APPS_ARG + 4 + 4 * CMD_NARGS + k * CMD_ARG_LEN)))
                Hl1 Ho1 (lookup_insert_eq _ _ _)) as (s2 & -> & Hl2 & Ht2); [lia|rewrite length_le32; unfold PAGE_SIZE; lia
        |unfold PAGE_SIZE; lia|].
    exists s2. split; [done|]. split; [|unfold owns; by rewrite Ht2].
    rewrite insert_insert_eq in Hl2. replace (Z.to_nat (k + 1)) with (S (Z.to_nat k)) by lia.
    rewrite <- arg_page_next by lia. replace (4 + 4 * Z.to_nat k)%nat with (Z.to_nat (4 + 4 * k)) by lia.
    unfold CMD_NARGS, CMD_ARG_LEN, APPS_ARG in Hl2. rewrite u32_small in Hl2 by lia.
    unfold APPS_ARG. replace (0x80300000 + 68 + 32 * Z.of_nat (Z.to_nat k)) with
      (0x80300000 + 4 + 4 * 16 + k * 32) by lia. exact Hl2.
  - exists s'. split; [exact E|]. rewrite <- arg_page_upto_all.
    replace (Z.to_nat (0 + Z.of_nat argc)) with argc in Hl' by lia. done.
Qed.

(** The next page to be mapped is free. *)
Lemma fits_next im l v pg todo : holds im l → fits l ((v, pg) :: todo) →
  (v ∉ l.*1) ∧ user_page v ∧ (pages_used s0 + size im < Z.to_nat APPS_PAGES_CNT)%nat ∧
  fits (l ++ [(v, pg)]) todo.
Proof using.
  intros [_ Hs] Hfits. pose proof Hfits as (Hnd & Hu & Hsz). split_and!.
  - rewrite fmap_app in Hnd. apply NoDup_app in Hnd as (_ & Hnd & _). intros Hin. apply (Hnd _ Hin). left.
  - rewrite fmap_cons in Hu. by apply Forall_cons in Hu as [Hu _].
  - rewrite Hs. rewrite length_app in Hsz. cbn in Hsz. lia.
  - by apply (fits_app l [_] todo).
Qed.

Lemma ld_args s im l argc argv args todo : loading s im → holds im l → args_ok argc argv args →
  fits l ((APPS_ARG / PAGE_SIZE, arg_page argc args) :: todo) → ∃ s' im',
  load_args pid (Z.of_nat argc) argv s = Ret s' ∧ loading s' im' ∧
  holds im' (l ++ [(APPS_ARG / PAGE_SIZE, arg_page argc args)]) ∧
  fits (l ++ [(APPS_ARG / PAGE_SIZE, arg_page argc args)]) todo.
Proof using Type*.
  intros Hl Hh Hargs Hfits. unfold load_args. set (v := APPS_ARG / PAGE_SIZE) in *.
  destruct (fits_next im l v _ todo Hh Hfits) as (Hv & Hu & Hroom & Hfits').
  destruct (ld_alloc s im v Hl Hu (holds_fresh im l v Hh Hv) Hroom) as (i & s1 & s2 & -> & Hm & Hi & Hl2 & Ho).
  rewrite bind_ret, Hm, bind_ret.
  destruct (ld_write s2 _ v i zero_page 0 (le32 (Z.of_nat argc)) Hl2 Ho) as (s3 & -> & Hl3 & Ht3);
    [apply lookup_insert_eq|done..|]. rewrite bind_ret. rewrite insert_insert_eq in Hl3.
  assert (owns s3 pid v i) as Ho3 by (unfold owns; rewrite Ht3; exact Ho).
  destruct (ld_arg_strings s3 im v i argc argv args Hargs Hl3 Ho3) as (s4 & -> & Hl4 & Ht4).
  rewrite bind_ret. assert (owns s4 pid v i) as Ho4 by (unfold owns; rewrite Ht4; exact Ho3).
  destruct (ld_arg_pointers s4 im v i argc args (proj1 Hargs) Hl4 Ho4) as (s5 & -> & Hl5).
  exists s5, (<[v := arg_page argc args]> im). split_and!; try done. by apply holds_snoc.
Qed.

(** A page without further contents. *)
Lemma ld_alloc_and_map s im l v todo : loading s im → holds im l → fits l ((v, zero_page) :: todo) → ∃ s' im',
  alloc_and_map pid v s = Ret s' ∧ loading s' im' ∧ holds im' (l ++ [(v, zero_page)]) ∧
  fits (l ++ [(v, zero_page)]) todo.
Proof using Type*.
  intros Hl Hh Hfits. destruct (fits_next im l v _ todo Hh Hfits) as (Hv & Hu & Hroom & Hfits').
  destruct (ld_alloc s im v Hl Hu (holds_fresh im l v Hh Hv) Hroom) as (i & s1 & s' & Ha & Hm & _ & Hl' & _).
  exists s', (<[v := zero_page]> im). unfold alloc_and_map. rewrite Ha, bind_ret. split_and!; try done.
  by apply holds_snoc.
Qed.
End loading.

Arguments ph_ok limit ph : clear implicits.

(** ** Bytes *)

(** Byte [a] of the file. *)
Definition file_byte (blk : Z → list Z) (a : Z) : Z := byte_at (blk (a / 512)) (Z.to_nat (a `mod` 512)).

Lemma byte_at_drop l n i : byte_at (drop n l) i = byte_at l (n + i).
Proof. unfold byte_at. by rewrite lookup_drop. Qed.
Lemma byte_at_take l n i : (i < n)%nat → byte_at (take n l) i = byte_at l i.
Proof. intros. unfold byte_at. by rewrite lookup_take_lt. Qed.

Lemma page_of_byte bytes k i : (i < 4096)%nat → (4096 * k + i < length bytes)%nat →
  byte_at (page_of bytes k) i = byte_at bytes (4096 * k + i).
Proof.
  intros Hi Hlen. unfold page_of. rewrite byte_at_take by done.
  rewrite byte_at_app_l by (rewrite length_drop; lia). apply byte_at_drop.
Qed.

Lemma file_bytes_byte blk b0 n o : (∀ k, length (blk k) = 512%nat) → (o < n)%nat → 0 ≤ b0 →
  byte_at (file_bytes blk b0 n) o = file_byte blk (512 * b0 + Z.of_nat o).
Proof.
  intros Hb Ho Hb0. pose proof (Nat.div_mod o 512 ltac:(lia)) as Hdm.
  pose proof (Nat.mod_upper_bound o 512 ltac:(lia)) as Hr.
  set (j := (o / 512)%nat) in *. set (r := (o `mod` 512)%nat) in *.
  assert (byte_at (file_bytes blk b0 n) o = byte_at (take 512 (drop (512 * j) (file_bytes blk b0 n))) r) as ->.
  { rewrite byte_at_take, byte_at_drop by done. f_equal. lia. }
  rewrite file_block by (done || lia). rewrite byte_at_take by lia. unfold file_byte. f_equal.
  - f_equal. apply (Z.div_unique _ 512 _ (Z.of_nat r)); lia.
  - rewrite <- (Z.mod_unique (512 * b0 + Z.of_nat o) 512 (b0 + Z.of_nat j) (Z.of_nat r)) by lia. lia.
Qed.

(** A page-aligned segment at a block boundary of the file. *)
Definition aligned (ph : pheader) : Prop := (PAGE_SIZE | p_vaddr ph) ∧ (BLOCK_SIZE | p_offset ph).

Lemma segment_byte blk ph o : (∀ k, length (blk k) = 512%nat) → aligned ph → 0 ≤ p_offset ph →
  0 ≤ o < p_filesz ph → ∃ pg, ((p_vaddr ph + o) / PAGE_SIZE, pg) ∈ seg_pages blk ph ∧
  byte_at pg (Z.to_nat ((p_vaddr ph + o) `mod` PAGE_SIZE)) = file_byte blk (p_offset ph + o).
Proof.
  intros Hb [[v Hv] [b Hoff]] Ho0 Ho. unfold PAGE_SIZE, BLOCK_SIZE in *. set (n := Z.to_nat (p_filesz ph)).
  set (k := Z.to_nat (o / 4096)). set (i := Z.to_nat (o `mod` 4096)).
  assert (o = 4096 * Z.of_nat k + Z.of_nat i ∧ (i < 4096)%nat) as [Hki Hi]
    by (unfold k, i; Z.div_mod_to_equations; lia).
  exists (page_of (file_bytes blk (p_offset ph / 512) n) k). split.
  - apply list_elem_of_fmap. exists k. split.
    + f_equal. unfold PAGE_SIZE. rewrite Hv, Z.div_mul by done. symmetry.
      apply (Z.div_unique _ 4096 _ (Z.of_nat i)); lia.
    + apply elem_of_seq. split; [lia|]. unfold seg_npages. fold n.
      pose proof (ceil_div_bounds n 4096 ltac:(lia)). lia.
  - rewrite <- (Z.mod_unique (p_vaddr ph + o) 4096 (v + Z.of_nat k) (Z.of_nat i)) by lia. rewrite Nat2Z.id.
    rewrite page_of_byte by (rewrite ?length_file_bytes by done; lia).
    rewrite file_bytes_byte by (done || lia || (Z.div_mod_to_equations; lia)). f_equal.
    rewrite Hoff, Z.div_mul by done. lia.
Qed.

(** The program headers [phs] of a file, and arguments, that the loader can
    handle: the pages are distinct pages of the user area. *)
Record program_ok (blk : Z → list Z) (limit : Z) (phs : list pheader) (argc : nat)
    (argv : option (list Z)) (args : list Z) : Prop := {
  po_limit : 0 < limit < 2 ^ 32;
  po_phnum : length phs = Z.to_nat (e_phnum (blk 0));
  po_headers k ph : phs !! k = Some ph → program_header (blk 0) (Z.of_nat k) = Ret ph;
  po_ph : Forall (ph_ok limit) phs;
  po_args : args_ok argc argv args;
  po_distinct : NoDup (elf_pages blk phs argc args).*1;
  po_user : Forall user_page (elf_pages blk phs argc args).*1
}.

(** A memory in which process [pid] can be loaded: it has no pages and
    [n] pages of the pool are free. *)
Record space_ok (pid : Z) (s : mmu) (n : nat) : Prop := {
  so_pid : pid ≠ 0;
  so_wf : tlb_wf s;
  so_empty vp pg : ¬ sees s pid vp pg;
  so_room : (pages_used s + n ≤ Z.to_nat APPS_PAGES_CNT)%nat
}.

Lemma elf_load_ok pid reader stable runs blk limit `{!ElfReader pid reader stable runs blk limit}
    s phs argc argv args hbuf0 buf0 :
  program_ok blk limit phs argc argv args → space_ok pid s (length (elf_pages blk phs argc args)) →
  runs (curr_vm_pid s) → length hbuf0 = 512%nat → length buf0 = 512%nat →
  ∃ s', elf_load pid reader hbuf0 buf0 (Z.of_nat argc) argv s = Ret s' ∧ tlb_wf s' ∧
    runs (curr_vm_pid s') ∧ pages_used s' = (pages_used s + length (elf_pages blk phs argc args))%nat ∧
    (∀ vp pg, sees s' pid vp pg ↔ (vp, pg) ∈ elf_pages blk phs argc args) ∧
    (∀ ph o, ph ∈ phs → RAM_START ≤ p_vaddr ph → aligned ph → 0 ≤ o < p_filesz ph → ∃ pg,
       sees s' pid ((p_vaddr ph + o) / PAGE_SIZE) pg ∧
       byte_at pg (Z.to_nat ((p_vaddr ph + o) `mod` PAGE_SIZE)) = file_byte blk (p_offset ph + o)) ∧
    (∀ q vp pg, stable q → q ≠ pid → sees s' q vp pg ↔ sees s q vp pg).
Proof.
  intros [Hlim Hlen Hph Hok Hargs Hnd Hu] [Hpid Hwf Hno Hroom] Hrun Hh0 Hb0. unfold elf_load.
  assert (loading pid stable runs s s ∅) as Hl0.
  { constructor; try done. intros vp pg. rewrite lookup_empty.
    split; [|done]. intros Hs. by apply Hno in Hs. }
  destruct (ld_read pid reader stable runs blk limit Hpid s s ∅ 0 hbuf0 Hl0 ltac:(lia) Hh0) as (s1 & -> & Hl1 & _).
  rewrite bind_ret, <- Hlen.
  set (tail := [(APPS_ARG / PAGE_SIZE, arg_page argc args); (SYSCALL_ARG / PAGE_SIZE, zero_page);
                (APPS_STACK_TOP / PAGE_SIZE - 1, zero_page); (APPS_STACK_TOP / PAGE_SIZE - 2, zero_page)]).
  assert (fits s [] (program_pages blk phs ++ tail)) as Hfits by (split_and!; done).
  destruct (ld_segments pid reader stable runs blk limit Hpid s (blk 0) phs 0 s1 ∅ [] buf0 tail Hl1)
    as (s2 & im2 & -> & Hl2 & Hh2); try done; try lia.
  { split; [|done]. intros vp pg. rewrite lookup_empty. split; [done|]. by intros ?%not_elem_of_nil. }
  rewrite bind_ret. cbn [app] in Hh2. apply (fits_app s []) in Hfits. cbn [app] in Hfits.
  destruct (ld_args pid reader stable runs blk limit Hpid s s2 im2 _ argc argv args _ Hl2 Hh2 Hargs Hfits)
    as (s3 & im3 & -> & Hl3 & Hh3 & Hf3). rewrite bind_ret.
  destruct (ld_alloc_and_map pid reader stable runs blk limit Hpid s s3 im3 _ _ _ Hl3 Hh3 Hf3) as (s4 & im4 & -> & Hl4 & Hh4 & Hf4).
  rewrite bind_ret. cbn [for_up].
  destruct (ld_alloc_and_map pid reader stable runs blk limit Hpid s s4 im4 _ _ _ Hl4 Hh4 Hf4) as (s5 & im5 & -> & Hl5 & Hh5 & Hf5).
  rewrite bind_ret. change (1 + 1) with 2.
  destruct (ld_alloc_and_map pid reader stable runs blk limit Hpid s s5 im5 _ _ _ Hl5 Hh5 Hf5) as (s6 & im6 & -> & Hl6 & Hh6 & _).
  rewrite bind_ret. exists s6. rewrite <- !(assoc_L (++)) in Hh6. cbn [app] in Hh6.
  destruct Hl6 as [Hwf6 Hc6 Hu6 Hs6 Hoth]. destruct Hh6 as [Hin Hsz6].
  rewrite Hsz6 in Hu6.
  assert (∀ vp pg, sees s6 pid vp pg ↔ (vp, pg) ∈ elf_pages blk phs argc args) as Hpages.
  { intros vp pg. rewrite Hs6, Hin. done. }
  split_and!; try done. intros ph o Hin' Hram Hal Ho.
  destruct (segment_byte blk ph o (rd_len (ElfReader := _)) Hal) as (pg & Hpg & Hbyte); [|done|].
  { rewrite Forall_forall in Hok. apply (Hok ph Hin'). }
  exists pg. split; [|done]. apply Hpages. unfold elf_pages. apply elem_of_app. left.
  apply list_elem_of_bind. exists ph. split; [done|]. by apply list_elem_of_filter.
Qed.

(** C25: loading a program.  When the pages of the program, the argument page,
    the system call page and the two stack pages fit into the free part of
    the pool and lie in the user area, [elf_load] succeeds, and afterwards
    the new process sees exactly these pages: every loaded segment with its
    bytes from the file followed by zeros, argc and argv, and zeroed stack
    and system call pages.  In particular byte [o] of an aligned segment is
    byte [p_offset + o] of the file.  Processes that the reader leaves alone
    see their old memory. *)
Theorem elf_load_image pid reader stable runs blk limit `{!ElfReader pid reader stable runs blk limit}
    s phs argc argv args hbuf0 buf0 :
  program_ok blk limit phs argc argv args → space_ok pid s (length (elf_pages blk phs argc args)) →
  runs (curr_vm_pid s) → length hbuf0 = 512%nat → length buf0 = 512%nat →
  ∃ s', elf_load pid reader hbuf0 buf0 (Z.of_nat argc) argv s = Ret s' ∧ tlb_wf s' ∧
    runs (curr_vm_pid s') ∧ pages_used s' = (pages_used s + length (elf_pages blk phs argc args))%nat ∧
    (∀ vp pg, sees s' pid vp pg ↔ (vp, pg) ∈ elf_pages blk phs argc args) ∧
    (∀ ph o, ph ∈ phs → RAM_START ≤ p_vaddr ph → aligned ph → 0 ≤ o < p_filesz ph → ∃ pg,
       sees s' pid ((p_vaddr ph + o) / PAGE_SIZE) pg ∧
       byte_at pg (Z.to_nat ((p_vaddr ph + o) `mod` PAGE_SIZE)) = file_byte blk (p_offset ph + o)) ∧
    (∀ q vp pg, stable q → q ≠ pid → sees s' q vp pg ↔ sees s q vp pg).
Proof. apply (elf_load_ok pid reader stable runs blk limit). Qed.
