(* ===== verification/SysProc.v ===== *)
(** * The process server (apps/system/sys_proc.c)

    GPID_PROCESS starts the other servers and then handles requests to spawn,
    to exit and to kill all user processes.  It calls the kernel's process
    functions and the ELF loader directly.  A call of the file server is the
    function [file_rpc] of FileServer.v; what is uninitialised in the source
    (the request's block, the stack buffers, the stale parts of the system
    call areas) are arguments. *)
From S2P Require Import Prelude MemAlloc SoftTlb Timer Terminal Earth EarthImpl Process.
From S2P Require Import InodeStore FileServer CString Directory Elf ElfLoad.

Definition PROC_SPAWN : Z := 0.
Definition PROC_EXIT : Z := 1.
Definition PROC_KILLALL : Z := 2.
Definition CMD_OK : Z := 0.
Definition CMD_ERROR : Z := 1.
Definition AMP : Z := 38.

Definition EGOS_BIN_MAX_NBYTE : Z := 128 * 1024.
Definition SYS_TERM_EXEC_START : Z := EGOS_BIN_MAX_NBYTE / BLOCK_SIZE * 2.
Definition SYS_FILE_EXEC_START : Z := EGOS_BIN_MAX_NBYTE / BLOCK_SIZE * 3.
Definition SYS_SHELL_EXEC_START : Z := EGOS_BIN_MAX_NBYTE / BLOCK_SIZE * 4.

(** The static variables [app_ino] and [app_pid] and the local
    [shell_waiting]. *)
Record server := Server { app_ino : Z; app_pid : Z; shell_waiting : bool }.

(** [struct proc_request] in the buffer: type, argc, argv. *)
Definition req_type (buf : list Z) : Z := get32 buf 0.
Definition req_argc (buf : list Z) : Z := i32 (get32 buf 4).
Definition req_argv (buf : list Z) : list Z := drop 8 buf.

(** [req->argv[req->argc - 1][0]] *)
Definition last_arg (buf : list Z) : outcome Z := char_at buf (8 + CMD_ARG_LEN * (req_argc buf - 1)).

Abbreviation kernel := (kstate earth_state).

(** [elf_load] on the kernel's memory. *)
Definition load_process (pid : Z) (reader : elf_reader) (hbuf0 buf0 : list Z) (argc : Z)
    (argv : option (list Z)) (k : kernel) : outcome kernel :=
  m ← elf_load pid reader hbuf0 buf0 argc argv (es_mmu (earth k));
  Ret (set_earth k (with_mmu (earth k) m)).

(** ** The system servers *)
Section boot.
Context (rom : Flash.disk) (hbuf0 buf0 : list Z).

(** [sys_proc_read] with [sys_apps_base]. *)
Definition sys_proc_read (sys_apps_base : Z) : elf_reader := λ block_no dst m,
  bs ← Flash.disk_read rom (u32 (sys_apps_base + block_no)) 1;
  Ret (default dst (head bs), m).

(** The message names [sys_apps[pid - 1]], an array of four. *)
Definition sys_spawn (base : Z) (k : kernel) : outcome (Z * kernel) :=
  '(pid, k) ← proc_alloc k;
  if (pid - 1 <? 0) || (4 <=? pid - 1) then Fault (Undef "sys_apps index") else
  k ← load_process pid (sys_proc_read base) hbuf0 buf0 0 None k;
  Ret (pid, proc_set_ready k pid).

(** The start of [main]: terminal, file system and shell, in this order.
    [handshake x] is the call of [sys_recv] in which [main] waits for the
    message of server [x]: until it arrives the kernel runs the servers that
    have been started.  The messages and the report about each are in
    Startup.v. *)
Definition start_servers (handshake : Z → kernel → outcome kernel) (k : kernel) : outcome (list Z * kernel) :=
  '(p1, k) ← sys_spawn SYS_TERM_EXEC_START k;
  k ← handshake GPID_TERMINAL k;
  '(p2, k) ← sys_spawn SYS_FILE_EXEC_START k;
  k ← handshake GPID_FILE k;
  '(p3, k) ← sys_spawn SYS_SHELL_EXEC_START k;
  Ret ([p1; p2; p3], k).
End boot.

(** ** Requests *)
Section requests.
Context {S : Type} (fs : inode_store S) (sfs : S).
Context (junk stale stale' hbuf0 buf0 : list Z).
Context `{!Earth earth_state}.

Definition app_read (ino : Z) : elf_reader := λ off dst m,
  '(_, block) ← file_rpc fs sfs ino off junk stale stale';
  Ret (block, m).

Definition app_spawn (buf : list Z) (st : server) (k : kernel) : outcome (Z * server * kernel) :=
  bin_ino ← dir_lookup fs sfs 0 (str "bin/" ++ [0]) junk stale stale';
  ino ← dir_lookup fs sfs bin_ino (req_argv buf) junk stale stale';
  if ino <? 0 then Ret (CMD_ERROR, Server ino (app_pid st) (shell_waiting st), k) else
  c ← last_arg buf;
  let argc := if c =? AMP then i32 (req_argc buf - 1) else req_argc buf in
  '(pid, k) ← proc_alloc k;
  k ← load_process pid (app_read ino) hbuf0 buf0 argc (Some (take 512 (req_argv buf))) k;
  Ret (CMD_OK, Server ino pid (shell_waiting st), proc_set_ready k pid).

(** One round of the loop of [main]: the messages sent (receiver, bytes), the
    buffer, the server's variables and the kernel state afterwards.  The
    reply is put into the buffer of the request. *)
Definition proc_serve (sender : Z) (buf : list Z) (st : server) (k : kernel)
    : outcome (list (Z * list Z) * list Z * server * kernel) :=
  let type := req_type buf in
  if type =? PROC_SPAWN then
    '(r, st, k) ← app_spawn buf st k;
    let buf := splice buf 0 (le32 r) in
    c ← last_arg buf;
    let st := Server (app_ino st) (app_pid st) (negb (c =? AMP) && (get32 buf 0 =? CMD_OK)) in
    Ret ([(GPID_SHELL, take 4 buf)], buf, st, k)
  else if type =? PROC_EXIT then
    k ← proc_free sender k;
    Ret (if shell_waiting st && (app_pid st =? sender) then [(GPID_SHELL, take 4 buf)] else [], buf, st, k)
  else if type =? PROC_KILLALL then
    k ← proc_free GPID_ALL k;
    Ret ([], buf, st, k)
  else Fault (Fatal "sys_process: invalid request %d").
End requests.

(** ** The readers deliver the file *)

(** A reader that gets the blocks from somewhere and leaves memory alone. *)
Lemma pure_reader pid (reader : elf_reader) blk limit :
  (∀ n, length (blk n) = 512%nat) →
  (∀ n buf m, 0 ≤ n < limit → length buf = 512%nat → reader n buf m = Ret (blk n, m)) →
  ∀ c, c ≠ pid → ElfReader pid reader (λ _, True) (λ q, q = c) blk limit.
Proof.
  intros Hlen Hread c Hc. constructor; [done|congruence|done|]. intros n buf s Hn Hb Hwf Hrun. exists s.
  split_and!; try done. by apply Hread.
Qed.

Lemma app_reader {S} (fs : inode_store S) sfs junk stale stale' pid ino blk limit :
  0 ≤ ino < 2 ^ 32 → limit ≤ 2 ^ 32 → length junk = 512%nat → length stale = SYSCALL_MSG_LEN →
  (∀ n, length (blk n) = 512%nat) →
  (∀ n buf, 0 ≤ n < limit → length buf = 512%nat → read fs sfs ino n buf = Ret (0, blk n)) →
  ∀ c, c ≠ pid → ElfReader pid (app_read fs sfs junk stale stale' ino) (λ _, True) (λ q, q = c) blk limit.
Proof.
  intros Hino Hlim Hj Hs Hlen Hread. apply pure_reader; [done|]. intros n buf m Hn Hb. unfold app_read.
  rewrite (file_rpc_read fs sfs ino n junk stale stale' 0 (blk n)); try done; [lia|]. apply Hread; [done|].
  rewrite length_take, length_drop. unfold send_content. rewrite length_app, length_file_request by done. lia.
Qed.

Lemma sys_reader rom pid base blk limit : Flash.type rom = Flash.FLASH_ROM →
  0 ≤ base → base + limit ≤ 2 ^ 32 → (∀ n, length (blk n) = 512%nat) →
  (∀ n, 0 ≤ n < limit → Flash.rom rom !! Z.to_nat (base + n) = Some (blk n)) →
  ∀ c, c ≠ pid → ElfReader pid (sys_proc_read rom base) (λ _, True) (λ q, q = c) blk limit.
Proof.
  intros Hty Hbase Hlim Hlen Hrom. apply pure_reader; [done|]. intros n buf m Hn Hb. unfold sys_proc_read.
  rewrite u32_small by lia. by rewrite (Flash.disk_read_one rom _ (blk n)) by auto.
Qed.

(** ** Starting a process *)

(** Process [pid] has been started in its slot with the pages [pages];
    everything else is as before. *)
Record spawned (pid : Z) (pages : list (Z * page_t)) (k k' : kernel) : Prop := {
  sp_slot : ∃ p, proc_set k !! Z.to_nat pid = Some p ∧ p_status p = PROC_UNUSED ∧
    proc_set k' = <[Z.to_nat pid := with_status PROC_READY (loaded pid p)]> (proc_set k);
  sp_table : table_ok (proc_set k');
  sp_wf : tlb_wf (es_mmu (earth k'));
  sp_curr : curr_vm_pid (es_mmu (earth k')) = curr_vm_pid (es_mmu (earth k));
  sp_used : pages_used (es_mmu (earth k')) = (pages_used (es_mmu (earth k)) + length pages)%nat;
  sp_sees vp pg : sees (es_mmu (earth k')) pid vp pg ↔ (vp, pg) ∈ pages;
  sp_other q vp pg : q ≠ pid → sees (es_mmu (earth k')) q vp pg ↔ sees (es_mmu (earth k)) q vp pg
}.

(** [proc_alloc] gives the lowest unused slot. *)
Lemma proc_alloc_spec {E} (s : kstate E) i : table_ok (proc_set s) → spec_slot (proc_set s) = Some i →
  1 ≤ i ≤ MAX_NPROCESS ∧ ∃ p, proc_set s !! Z.to_nat i = Some p ∧ p_status p = PROC_UNUSED ∧
    proc_alloc s = Ret (i, set_proc s i (loaded i p)).
Proof.
  intros Hok Hi. pose proof (proc_alloc_loop_spec 16 1 s (proj1 Hok) ltac:(lia) eq_refl) as H.
  change (head (filter _ (seqZ 1 _))) with (spec_slot (proc_set s)) in H. rewrite Hi in H.
  destruct H as (Hr & p & Hp & Hu & E1). split; [unfold MAX_NPROCESS; lia|]. eauto.
Qed.

Lemma set_ready_loaded {E} (s : kstate E) i p : table_ok (proc_set s) → 0 < i < MAX_NPROCESS →
  proc_set s !! Z.to_nat i = Some p → proc_set (proc_set_ready (set_proc s i (loaded i p)) i)
  = <[Z.to_nat i := with_status PROC_READY (loaded i p)]> (proc_set s).
Proof.
  intros Hok Hi Hp.
  change (proc_set (proc_set_ready _ i)) with (set_status_in i PROC_READY (<[Z.to_nat i := loaded i p]> (proc_set s))).
  assert (table_ok (<[Z.to_nat i := loaded i p]> (proc_set s))) as Hok'.
  { apply table_ok_insert; [done|]. replace i with (Z.of_nat (Z.to_nat i)) at 2 by lia.
    apply slot_ok_loaded. lia. }
  apply list_eq. intros j. destruct (decide (j = Z.to_nat i)) as [->|Hne].
  - apply lookup_lt_Some in Hp as Hlt. rewrite list_lookup_insert_eq by done.
    rewrite (set_status_slot _ i PROC_READY Hok' Hi (Z.to_nat i) (loaded i p)) by (by apply list_lookup_insert_eq).
    rewrite decide_True by (split; [lia|done]). done.
  - rewrite list_lookup_insert_ne by done.
    destruct (proc_set s !! j) as [q|] eqn:Hq.
    + rewrite (set_status_slot _ i PROC_READY Hok' Hi j q) by (by rewrite list_lookup_insert_ne).
      rewrite decide_False by lia. done.
    + rewrite lookup_set_status, list_lookup_insert_ne, Hq by done. done.
Qed.

Lemma spawn_spec k pid reader blk limit phs argc argv args hbuf0 buf0 :
  ElfReader pid reader (λ _, True) (λ q, q = curr_vm_pid (es_mmu (earth k))) blk limit →
  table_ok (proc_set k) → spec_slot (proc_set k) = Some pid → pid < MAX_NPROCESS →
  program_ok blk limit phs argc argv args →
  space_ok pid (es_mmu (earth k)) (length (elf_pages blk phs argc args)) →
  length hbuf0 = 512%nat → length buf0 = 512%nat → ∃ k0 k1,
  proc_alloc k = Ret (pid, k0) ∧ load_process pid reader hbuf0 buf0 (Z.of_nat argc) argv k0 = Ret k1 ∧
  spawned pid (elf_pages blk phs argc args) k (proc_set_ready k1 pid).
Proof.
  intros Hrd Hok Hslot Hlt Hprog Hspace Hh Hb.
  destruct (proc_alloc_spec k pid Hok Hslot) as (Hrange & p & Hp & Hu & E0).
  destruct (@elf_load_ok pid reader _ _ blk limit Hrd (es_mmu (earth k)) phs argc argv args hbuf0 buf0
              Hprog Hspace eq_refl Hh Hb) as (m & Em & Hwf & Hc & Hused & Hsees & _ & Hoth).
  eexists _, _. split; [exact E0|]. split; [unfold load_process; cbn [set_proc set_procs earth]; by rewrite Em|].
  assert (proc_set (proc_set_ready (set_earth (set_proc k pid (loaded pid p)) (with_mmu (earth k) m)) pid)
    = <[Z.to_nat pid := with_status PROC_READY (loaded pid p)]> (proc_set k)) as Hps
    by (apply (set_ready_loaded k); (done || lia)).
  constructor; cbn [earth proc_set_ready proc_set_status set_procs set_earth es_mmu with_mmu set_proc]; try done.
  - exists p. done.
  - rewrite Hps. apply table_ok_insert; [done|]. split_and!; cbn; [right|right|]; lia.
  - intros q vp pg Hq. by apply Hoth.
Qed.

(** ** The system servers get the process ids the other parts expect *)

Lemma spec_slot_first ps i : 1 ≤ i ≤ MAX_NPROCESS → p_status <$> ps !! Z.to_nat i = Some PROC_UNUSED →
  (∀ j, 1 ≤ j < i → p_status <$> ps !! Z.to_nat j ≠ Some PROC_UNUSED) → spec_slot ps = Some i.
Proof.
  intros Hi Hu Hused. unfold spec_slot, MAX_NPROCESS in *.
  pose proof (first_seqZ (λ i, p_status <$> ps !! Z.to_nat i = Some PROC_UNUSED) id 1 16) as H.
  rewrite list_fmap_id in H. change (Z.of_nat 16) with 16 in H.
  destruct (head _) as [a|]; [|exfalso; by apply (H i); [lia|]].
  destruct H as (b & Hb & -> & Hub & Hbefore). unfold id in *. f_equal.
  destruct (Z.lt_trichotomy b i) as [Hlt|[->|Hgt]]; [|done|].
  - exfalso. by apply (Hused b); [lia|].
  - exfalso. by apply (Hbefore i); [lia|].
Qed.

(** The flash holds, from block [base] on, a program with the pages [pages]. *)
Definition server_image (rom : Flash.disk) (base : Z) (pages : list (Z * page_t)) : Prop :=
  ∃ blk limit phs, (∀ n, length (blk n) = 512%nat) ∧ 0 ≤ base ∧ base + limit ≤ 2 ^ 32 ∧
    (∀ n, 0 ≤ n < limit → Flash.rom rom !! Z.to_nat (base + n) = Some (blk n)) ∧
    program_ok blk limit phs 0 None [] ∧ pages = elf_pages blk phs 0 [].

(** The next slot after process [pid] has been started. *)
Lemma spawned_next pid pages k k' : spawned pid pages k k' → 1 ≤ pid < 4 →
  spec_slot (proc_set k) = Some pid →
  p_status <$> proc_set k !! Z.to_nat (pid + 1) = Some PROC_UNUSED → spec_slot (proc_set k') = Some (pid + 1).
Proof.
  intros [(p & Hp & Hu & Hps) _ _ _ _ _ _] Hpid Hslot Hnext. rewrite Hps.
  apply spec_slot_first; [unfold MAX_NPROCESS; lia| |].
  - by rewrite list_lookup_insert_ne by lia.
  - intros j Hj. destruct (decide (j = pid)) as [->|Hne].
    + apply lookup_lt_Some in Hp. by rewrite list_lookup_insert_eq.
    + rewrite list_lookup_insert_ne by lia. intros Hj'.
      unfold spec_slot in Hslot.
      pose proof (first_seqZ (λ i, p_status <$> proc_set k !! Z.to_nat i = Some PROC_UNUSED) id 1 16) as H.
      rewrite list_fmap_id in H. change (Z.of_nat 16) with MAX_NPROCESS in H. rewrite Hslot in H.
      destruct H as (b & Hb' & Eb & _ & Hbefore). unfold id in Eb. subst b. by apply (Hbefore j); [lia|].
Qed.

Lemma space_after pid pages k k' q n : spawned pid pages k k' → q ≠ pid →
  space_ok q (es_mmu (earth k)) (length pages + n) → space_ok q (es_mmu (earth k')) n.
Proof.
  intros Hsp Hq [H0 Hwf Hno Hroom]. constructor; [done|by apply (sp_wf _ _ _ _ Hsp)| |].
  - intros vp pg Hs. apply (sp_other _ _ _ _ Hsp) in Hs; [|done]. by apply Hno in Hs.
  - rewrite (sp_used _ _ _ _ Hsp). lia.
Qed.
(** What the servers may do while the process server waits for their message:
    anything with their own slots and memory.  Nobody ends or starts a
    process or gets new pages, and the process server goes on in the end. *)
Record handshake_ok (handshake : Z → kernel → outcome kernel) : Prop := {
  hs_runs x k : GPID_PROCESS < x → table_ok (proc_set k) → p_status <$> proc_set k !! 1%nat = Some PROC_RUNNING →
    p_status <$> proc_set k !! Z.to_nat x = Some PROC_READY → curr_vm_pid (es_mmu (earth k)) = GPID_PROCESS → ∃ k',
    handshake x k = Ret k' ∧ table_ok (proc_set k') ∧ p_status <$> proc_set k' !! 1%nat = Some PROC_RUNNING ∧
    curr_vm_pid (es_mmu (earth k')) = GPID_PROCESS ∧
    (∀ i : nat, p_status <$> proc_set k' !! i = Some PROC_UNUSED ↔ p_status <$> proc_set k !! i = Some PROC_UNUSED) ∧
    ∀ q n, p_status <$> proc_set k !! Z.to_nat q = Some PROC_UNUSED → space_ok q (es_mmu (earth k)) n →
      space_ok q (es_mmu (earth k')) n
}.

(** The process server waits and the next slot is free. *)
Record waiting_for (x : Z) (k : kernel) : Prop := {
  wf_table' : table_ok (proc_set k);
  wf_running : p_status <$> proc_set k !! 1%nat = Some PROC_RUNNING;
  wf_curr : curr_vm_pid (es_mmu (earth k)) = GPID_PROCESS;
  wf_free (i : nat) : (Z.to_nat x < i ≤ 4)%nat → p_status <$> proc_set k !! i = Some PROC_UNUSED;
  wf_taken (i : nat) : (1 ≤ i ≤ Z.to_nat x)%nat → p_status <$> proc_set k !! i ≠ Some PROC_UNUSED
}.

Lemma spawned_waits x pages k k' : spawned x pages k k' → waiting_for (x - 1) k → 2 ≤ x ≤ 4 →
  waiting_for x k' ∧ p_status <$> proc_set k' !! Z.to_nat x = Some PROC_READY.
Proof.
  intros [(p & Hp & _ & Hps) Hok _ Hc _ _ _] [_ Hrun Hcur Hfree Htaken] Hx. pose proof (lookup_lt_Some _ _ _ Hp) as Hlt.
  split; [constructor|]; [done| | | | |]; rewrite ?Hps, ?Hc; try done.
  - by rewrite list_lookup_insert_ne by lia.
  - intros i Hi. rewrite list_lookup_insert_ne by lia. apply Hfree. lia.
  - intros i Hi. destruct (decide (i = Z.to_nat x)) as [->|Hne]; [by rewrite list_lookup_insert_eq|].
    rewrite list_lookup_insert_ne by done. apply Htaken. lia.
  - by rewrite list_lookup_insert_eq.
Qed.

(** One handshake. *)
Lemma handshake_waits hs x k : handshake_ok hs → waiting_for x k → 2 ≤ x ≤ 4 →
  p_status <$> proc_set k !! Z.to_nat x = Some PROC_READY → ∃ k', hs x k = Ret k' ∧ waiting_for x k' ∧
  ∀ q n, x < q ≤ 4 → space_ok q (es_mmu (earth k)) n → space_ok q (es_mmu (earth k')) n.
Proof.
  intros [Hhs] [Hok Hrun Hc Hfree Htaken] Hx Hready.
  destruct (Hhs x k) as (k' & Heq & Hok' & Hrun' & Hc' & Hun & Hsp); try done; [unfold GPID_PROCESS; lia|].
  exists k'. split; [done|]. split; [|intros q n Hq; apply Hsp, Hfree; lia]. constructor; try done.
  - intros i Hi. by apply Hun, Hfree.
  - intros i Hi. rewrite Hun. by apply Htaken.
Qed.

Lemma waiting_slot x k : waiting_for x k → 1 ≤ x ≤ 3 → spec_slot (proc_set k) = Some (x + 1).
Proof.
  intros [_ _ _ Hfree Htaken] Hx. apply spec_slot_first; [unfold MAX_NPROCESS; lia|apply Hfree; lia|].
  intros j Hj. apply Htaken. lia.
Qed.

(** The state after the three spawns when nothing happens in between. *)
Lemma spawned_thrice k k1 k2 k3 pages1 pages2 pages3 :
  spawned 2 pages1 k k1 → spawned 3 pages2 k1 k2 → spawned 4 pages3 k2 k3 →
  table_ok (proc_set k3) ∧ proc_set k3 !! 1%nat = proc_set k !! 1%nat ∧
  (∀ i, (2 ≤ i ≤ 4)%nat → p_status <$> proc_set k3 !! i = Some PROC_READY) ∧
  (∀ vp pg, (sees (es_mmu (earth k3)) GPID_TERMINAL vp pg ↔ (vp, pg) ∈ pages1) ∧
            (sees (es_mmu (earth k3)) GPID_FILE vp pg ↔ (vp, pg) ∈ pages2) ∧
            (sees (es_mmu (earth k3)) GPID_SHELL vp pg ↔ (vp, pg) ∈ pages3) ∧
            (sees (es_mmu (earth k3)) GPID_PROCESS vp pg ↔ sees (es_mmu (earth k)) GPID_PROCESS vp pg)).
Proof.
  intros [(p1 & L1 & _ & P1) _ _ _ _ V1 O1] [(p2 & L2 & _ & P2) _ _ _ _ V2 O2] [(p3 & L3 & _ & P3) Hok3 _ _ _ V3 O3].
  apply lookup_lt_Some in L1, L2, L3. split; [done|]. rewrite P2, P1 in *. rewrite !length_insert in *.
  change (Z.to_nat 2) with 2%nat in *. change (Z.to_nat 3) with 3%nat in *. change (Z.to_nat 4) with 4%nat in *.
  split; [by rewrite P3, !list_lookup_insert_ne|]. split.
  - intros i Hi. rewrite P3. assert (i = 2 ∨ i = 3 ∨ i = 4)%nat as [->|[->| ->]] by lia;
      rewrite ?list_lookup_insert_ne, list_lookup_insert_eq by (rewrite ?length_insert; (done || lia)); done.
  - intros vp pg. unfold GPID_TERMINAL, GPID_FILE, GPID_SHELL, GPID_PROCESS.
    rewrite (O3 2), (O2 2), V1, (O3 3), V2, V3, (O3 1), (O2 1), (O1 1) by lia. done.
Qed.

Section start.
Context (rom : Flash.disk) (hbuf0 buf0 : list Z).
Context (Hrom : Flash.type rom = Flash.FLASH_ROM) (Hh : length hbuf0 = 512%nat) (Hb : length buf0 = 512%nat).

Lemma sys_spawn_spec k base pages pid : server_image rom base pages → table_ok (proc_set k) →
  spec_slot (proc_set k) = Some pid → 1 ≤ pid ≤ 4 → curr_vm_pid (es_mmu (earth k)) ≠ pid →
  space_ok pid (es_mmu (earth k)) (length pages) → ∃ k',
  sys_spawn rom hbuf0 buf0 base k = Ret (pid, k') ∧ spawned pid pages k k'.
Proof using Type*.
  intros (blk & limit & phs & Hlen & Hbase & Hlim & Hblk & Hprog & ->) Hok Hslot Hpid Hc Hspace.
  destruct (spawn_spec k pid (sys_proc_read rom base) blk limit phs 0 None [] hbuf0 buf0)
    as (k0 & k1 & E0 & E1 & Hsp); try done.
  - by apply sys_reader.
  - unfold MAX_NPROCESS. lia.
  - unfold sys_spawn. rewrite E0, bind_ret.
    rewrite (proj2 (Z.ltb_ge _ _)), (proj2 (Z.leb_gt _ _)) by lia. cbn [orb].
    change 0 with (Z.of_nat 0). rewrite E1, bind_ret. eauto.
Qed.


(** One server is started. *)
Lemma server_spawned x base pages k : waiting_for x k → 1 ≤ x ≤ 3 → server_image rom base pages →
  space_ok (x + 1) (es_mmu (earth k)) (length pages) → ∃ k',
  sys_spawn rom hbuf0 buf0 base k = Ret (x + 1, k') ∧ spawned (x + 1) pages k k' ∧ waiting_for (x + 1) k' ∧
  p_status <$> proc_set k' !! Z.to_nat (x + 1) = Some PROC_READY.
Proof using Type*.
  intros Hw Hx Him Hsp. destruct (sys_spawn_spec k base pages (x + 1) Him (wf_table' x k Hw) (waiting_slot x k Hw Hx))
    as (k' & E1 & S1); [lia|rewrite (wf_curr x k Hw); unfold GPID_PROCESS; lia|done|].
  exists k'. destruct (spawned_waits (x + 1) pages k k' S1) as [? ?]; [by replace (x + 1 - 1) with x by lia|lia|done].
Qed.

(** The process server starts the terminal, the file server and the shell
    with exactly the process ids the system uses to address them.  When the
    table holds only the process server and the three programs fit, each
    ends up ready in its slot with its own program in memory, and starting it
    changes no other slot and no other process' memory. *)
Theorem servers_start hs k pages1 pages2 pages3 : handshake_ok hs → table_ok (proc_set k) →
  p_status <$> proc_set k !! 1%nat = Some PROC_RUNNING →
  (∀ i, (2 ≤ i ≤ 4)%nat → p_status <$> proc_set k !! i = Some PROC_UNUSED) →
  server_image rom SYS_TERM_EXEC_START pages1 → server_image rom SYS_FILE_EXEC_START pages2 →
  server_image rom SYS_SHELL_EXEC_START pages3 →
  curr_vm_pid (es_mmu (earth k)) = GPID_PROCESS →
  (∀ q, 2 ≤ q ≤ 4 → space_ok q (es_mmu (earth k)) (length pages1 + (length pages2 + length pages3))) → ∃ k1 k1' k2 k2' k',
  start_servers rom hbuf0 buf0 hs k = Ret ([GPID_TERMINAL; GPID_FILE; GPID_SHELL], k') ∧
  spawned GPID_TERMINAL pages1 k k1 ∧ hs GPID_TERMINAL k1 = Ret k1' ∧
  spawned GPID_FILE pages2 k1' k2 ∧ hs GPID_FILE k2 = Ret k2' ∧ spawned GPID_SHELL pages3 k2' k'.
Proof using Type*.
  intros Hhs Hok H1 Hfree Him1 Him2 Him3 Hc Hsp.
  assert (waiting_for 1 k) as Hw1.
  { constructor; try done. intros i Hi. replace i with 1%nat by lia. by rewrite H1. }
  destruct (server_spawned 1 _ pages1 k Hw1 ltac:(lia) Him1) as (k1 & E1 & S1 & W1 & R1).
  { destruct (Hsp 2 ltac:(lia)) as [? ? ? ?]. constructor; try done. lia. }
  assert (∀ q, 3 ≤ q ≤ 4 → space_ok q (es_mmu (earth k1)) (length pages2 + length pages3)) as Hsp1.
  { intros q Hq. apply (space_after _ _ _ _ q _ S1); [lia|]. apply Hsp. lia. }
  destruct (handshake_waits hs 2 k1 Hhs W1 ltac:(lia) R1) as (k1' & F1 & W1' & Q1).
  destruct (server_spawned 2 _ pages2 k1' W1' ltac:(lia) Him2) as (k2 & E2 & S2 & W2 & R2).
  { destruct (Q1 3 _ ltac:(lia) (Hsp1 3 ltac:(lia))) as [? ? ? ?]. constructor; try done. lia. }
  destruct (handshake_waits hs 3 k2 Hhs W2 ltac:(lia) R2) as (k2' & F2 & W2' & Q2).
  destruct (server_spawned 3 _ pages3 k2' W2' ltac:(lia) Him3) as (k3 & E3 & S3 & _).
  { apply (Q2 4 _ ltac:(lia)). apply (space_after _ _ _ _ 4 _ S2 ltac:(lia)). apply (Q1 4 _ ltac:(lia)), Hsp1. lia. }
  exists k1, k1', k2, k2', k3. unfold start_servers. rewrite E1, bind_ret. change (1 + 1) with GPID_TERMINAL.
  change 2 with GPID_TERMINAL in F1. rewrite F1, bind_ret, E2, bind_ret.
  change 3 with GPID_FILE in F2. change (2 + 1) with GPID_FILE. rewrite F2, bind_ret, E3, bind_ret. done.
Qed.
End start.

(** ** Spawn requests *)

(** Overwriting the type field leaves argc and argv in place. *)
Lemma splice_type buf r : (8 ≤ length buf)%nat →
  splice buf 0 (le32 r) = le32 r ++ drop 4 buf ∧ req_argc (splice buf 0 (le32 r)) = req_argc buf ∧
  req_argv (splice buf 0 (le32 r)) = req_argv buf.
Proof.
  intros Hlen. assert (splice buf 0 (le32 r) = le32 r ++ drop 4 buf) as ->.
  { unfold splice. by rewrite take_0, app_nil_l, length_le32. }
  split; [done|]. unfold req_argc, req_argv. split.
  - f_equal. rewrite get32_app_r by (by rewrite length_le32). rewrite length_le32.
    unfold get32. by rewrite !byte_at_drop.
  - rewrite drop_app_ge by (rewrite length_le32; lia). rewrite length_le32, drop_drop. done.
Qed.

Lemma last_arg_argc buf c : last_arg buf = Ret c → 1 ≤ req_argc buf.
Proof.
  unfold last_arg, char_at, CMD_ARG_LEN. case_bool_decide as Hi; [|done]. intros _. lia.
Qed.

Lemma last_arg_splice buf r c : (8 ≤ length buf)%nat → last_arg buf = Ret c →
  last_arg (splice buf 0 (le32 r)) = Ret c.
Proof.
  intros Hlen Hc. pose proof (last_arg_argc buf c Hc) as Hargc.
  destruct (splice_type buf r Hlen) as (E & Ea & Ev). unfold last_arg in *. rewrite Ea.
  rewrite <- Hc. unfold char_at, CMD_ARG_LEN in *. rewrite length_splice by (rewrite length_le32; lia).
  case_bool_decide; [|done].
  assert (splice buf 0 (le32 r) !! Z.to_nat (8 + 32 * (req_argc buf - 1))
          = buf !! Z.to_nat (8 + 32 * (req_argc buf - 1))) as ->; [|done].
  rewrite E, lookup_app_r by (rewrite length_le32; lia). rewrite length_le32, lookup_drop. f_equal. lia.
Qed.

Section spawn.
Context {S : Type} (fs : inode_store S) (sfs : S) (junk stale stale' hbuf0 buf0 : list Z).
Context `{!Earth earth_state}.
Context (Hj : length junk = 512%nat) (Hs : length stale = SYSCALL_MSG_LEN).
Context (Hh : length hbuf0 = 512%nat) (Hb : length buf0 = 512%nat).

Abbreviation serve := (proc_serve fs sfs junk stale stale' hbuf0 buf0).

(** The command of a request is found as inode [ino] of /bin. *)
Definition found (buf : list Z) (ino : Z) : Prop := ∃ bin_ino,
  dir_lookup fs sfs 0 (str "bin/" ++ [0]) junk stale stale' = Ret bin_ino ∧
  dir_lookup fs sfs bin_ino (req_argv buf) junk stale stale' = Ret ino.

(** The file [ino] has the blocks [blk] below [limit]. *)
Definition file_has (ino : Z) (blk : Z → list Z) (limit : Z) : Prop :=
  (∀ n, length (blk n) = 512%nat) ∧
  ∀ n buf, 0 ≤ n < limit → length buf = 512%nat → read fs sfs ino n buf = Ret (0, blk n).

(** The number of arguments passed on: a last argument "&" is dropped. *)
Definition passed_argc (buf : list Z) (c : Z) : Z := if c =? AMP then req_argc buf - 1 else req_argc buf.

Lemma serve_spawn sender buf st k ino pid c blk limit phs argc args :
  req_type buf = PROC_SPAWN → length buf = SYSCALL_MSG_LEN →
  found buf ino → 0 ≤ ino < 2 ^ 31 → file_has ino blk limit →
  last_arg buf = Ret c → passed_argc buf c = Z.of_nat argc →
  program_ok blk limit phs argc (Some (take 512 (req_argv buf))) args →
  table_ok (proc_set k) → spec_slot (proc_set k) = Some pid → pid < MAX_NPROCESS →
  curr_vm_pid (es_mmu (earth k)) ≠ pid →
  space_ok pid (es_mmu (earth k)) (length (elf_pages blk phs argc args)) → ∃ buf' k',
  serve sender buf st k = Ret ([(GPID_SHELL, le32 CMD_OK)], buf', Server ino pid (negb (c =? AMP)), k') ∧
  spawned pid (elf_pages blk phs argc args) k k'.
Proof using Type*.
  intros Hty Hlen (bin_ino & E1 & E2) Hino [Hbl Hfile] Hc Hargc Hprog Hok Hslot Hlt Hcur Hspace.
  pose proof (last_arg_argc buf c Hc) as Hge. pose proof (i32_range (get32 buf 4)) as Hmax. fold (req_argc buf) in Hmax.
  destruct (spawn_spec k pid (app_read fs sfs junk stale stale' ino) blk limit phs argc
              (Some (take 512 (req_argv buf))) args hbuf0 buf0) as (k0 & k1 & E3 & E4 & Hsp); try done.
  { apply app_reader; try done; [lia|]. destruct Hprog. lia. }
  unfold proc_serve, app_spawn. rewrite Hty. change (PROC_SPAWN =? PROC_SPAWN) with true. cbv beta iota zeta.
  rewrite E1, bind_ret, E2, bind_ret, (proj2 (Z.ltb_ge _ _)), Hc, bind_ret by lia.
  assert ((if c =? AMP then i32 (req_argc buf - 1) else req_argc buf) = Z.of_nat argc) as ->.
  { unfold passed_argc in Hargc. destruct (c =? AMP); [rewrite i32_small by lia|]; done. }
  rewrite E3, bind_ret, E4, !bind_ret.
  assert (8 ≤ length buf)%nat as H8 by (rewrite Hlen; unfold SYSCALL_MSG_LEN; lia).
  rewrite (last_arg_splice buf CMD_OK c H8 Hc), bind_ret.
  destruct (splice_type buf CMD_OK H8) as (-> & _ & _). rewrite get32_le32.
  rewrite take_app_length' by (by rewrite length_le32).
  change (u32 CMD_OK =? CMD_OK) with true. rewrite andb_true_r. eauto.
Qed.

(** C23: a spawn request for a program of /bin that fits in memory starts it:
    the process gets the lowest free slot, sees exactly the pages of the
    program file with the arguments of the request (without a final "&"),
    and is ready; the shell gets CMD_OK, and the server remembers the process
    and waits for it unless it runs in the background.  No other process
    changes. *)
Theorem spawn_runs sender buf st k ino pid c blk limit phs argc args :
  req_type buf = PROC_SPAWN → length buf = SYSCALL_MSG_LEN →
  found buf ino → 0 ≤ ino < 2 ^ 31 → file_has ino blk limit →
  last_arg buf = Ret c → passed_argc buf c = Z.of_nat argc →
  program_ok blk limit phs argc (Some (take 512 (req_argv buf))) args →
  table_ok (proc_set k) → spec_slot (proc_set k) = Some pid → pid < MAX_NPROCESS →
  curr_vm_pid (es_mmu (earth k)) ≠ pid →
  space_ok pid (es_mmu (earth k)) (length (elf_pages blk phs argc args)) → ∃ buf' k',
  serve sender buf st k = Ret ([(GPID_SHELL, le32 CMD_OK)], buf', Server ino pid (negb (c =? AMP)), k') ∧
  spawned pid (elf_pages blk phs argc args) k k'.
Proof using Type*. apply serve_spawn. Qed.

(** A spawn request for a name that is not in /bin changes no process; the
    shell gets CMD_ERROR and the server does not wait. *)
Theorem spawn_not_found sender buf st k ino c :
  req_type buf = PROC_SPAWN → length buf = SYSCALL_MSG_LEN → found buf ino → ino < 0 →
  last_arg buf = Ret c → ∃ buf',
  serve sender buf st k = Ret ([(GPID_SHELL, le32 CMD_ERROR)], buf', Server ino (app_pid st) false, k).
Proof using Type*.
  intros Hty Hlen (bin_ino & E1 & E2) Hino Hc. unfold proc_serve, app_spawn. rewrite Hty.
  change (PROC_SPAWN =? PROC_SPAWN) with true. cbv beta iota zeta.
  rewrite E1, bind_ret, E2, bind_ret, (proj2 (Z.ltb_lt _ _)), bind_ret by lia.
  assert (8 ≤ length buf)%nat as H8 by (rewrite Hlen; unfold SYSCALL_MSG_LEN; lia).
  rewrite (last_arg_splice buf CMD_ERROR c H8 Hc), bind_ret.
  destruct (splice_type buf CMD_ERROR H8) as (-> & _ & _). rewrite get32_le32.
  rewrite take_app_length' by (by rewrite length_le32).
  change (u32 CMD_ERROR =? CMD_OK) with false. rewrite andb_false_r. eauto.
Qed.
End spawn.

(** ** Exit *)

(** The pages in use are as many as the pages the processes see. *)
Lemma pages_used_sees m m' : tlb_wf m → tlb_wf m' →
  (∀ q vp, (∃ pg, sees m q vp pg) ↔ (∃ pg, sees m' q vp pg)) → pages_used m = pages_used m'.
Proof.
  intros Hwf Hwf' Hsame.
  set (pairs := λ m, (λ i, (λ e, (pi_pid e, pi_vpage_no e)) <$> page_info_table m !! Z.to_nat i)
                     <$> elements (used (bitmap (mem m)))).
  assert (∀ m, tlb_wf m → NoDup (pairs m) ∧ ∀ x, x ∈ pairs m ↔ ∃ q vp pg, sees m q vp pg ∧ x = Some (q, vp)) as Hp.
  { clear. intros m Hwf. unfold pairs. split.
    - apply NoDup_fmap_2_strong; [|apply NoDup_elements].
      intros i j (q & vp & Hi)%elem_of_elements%(wf_used m Hwf) (q' & vp' & Hj)%elem_of_elements%(wf_used m Hwf) E.
      pose proof Hi as (_ & _ & Ei). pose proof Hj as (_ & _ & Ej). rewrite Ei, Ej in E.
      injection E as -> ->. by apply (wf_inj m Hwf q' vp').
    - intros x. rewrite list_elem_of_fmap. split.
      + intros (i & -> & (q & vp & Hi)%elem_of_elements%(wf_used m Hwf)). pose proof Hi as (_ & _ & Ei).
        rewrite Ei. eexists q, vp, _. split; [by exists i|done].
      + intros (q & vp & pg & (i & Hi & _) & ->). pose proof Hi as (_ & _ & Ei). exists i. rewrite Ei.
        split; [done|]. apply elem_of_elements, (wf_used m Hwf). eauto. }
  destruct (Hp m Hwf) as [Hnd Hin], (Hp m' Hwf') as [Hnd' Hin'].
  assert (pairs m ≡ₚ pairs m') as Hperm%Permutation_length.
  { apply NoDup_Permutation; [done|done|]. intros x. rewrite Hin, Hin'. split.
    - intros (q & vp & pg & Hs & ->). destruct (proj1 (Hsame q vp) (ex_intro _ pg Hs)) as [pg' ?]. eauto 10.
    - intros (q & vp & pg & Hs & ->). destruct (proj2 (Hsame q vp) (ex_intro _ pg Hs)) as [pg' ?]. eauto 10. }
  unfold pairs in Hperm. by rewrite !length_fmap in Hperm.
Qed.

Section exit.
Context {S : Type} (fs : inode_store S) (sfs : S) (junk stale stale' hbuf0 buf0 : list Z).
Context (clock : nat → Z).
#[local] Instance exit_earth : Earth earth_state := earth_impl clock.

Lemma proc_free_one k pid : tlb_wf (es_mmu (earth k)) → 0 < pid → ∃ m,
  proc_free pid k = Ret (proc_set_status (set_earth k (with_mmu (earth k) m)) pid PROC_UNUSED) ∧
  tlb_wf m ∧ ∀ q vp pg, sees m q vp pg ↔ sees (es_mmu (earth k)) q vp pg ∧ q ≠ pid.
Proof.
  intros Hwf Hpid. destruct (free_spec (es_mmu (earth k)) Hwf pid ltac:(lia)) as (m & E & Hwf' & _ & _ & Hsees).
  exists m. unfold proc_free, GPID_ALL. rewrite (proj2 (Z.eqb_neq _ _)) by lia. cbn [negb].
  split_and!; try done. unfold mmu_free, exit_earth, earth_impl. by rewrite E.
Qed.

(** An exit request frees the sender: its slot becomes unused, all its
    pages and nobody else's are unmapped, and the shell is woken exactly when
    it waits for this process. *)
Theorem exit_frees sender buf st k : req_type buf = PROC_EXIT → table_ok (proc_set k) →
  tlb_wf (es_mmu (earth k)) → 0 < sender < MAX_NPROCESS → ∃ k',
  proc_serve fs sfs junk stale stale' hbuf0 buf0 sender buf st k =
    Ret (if shell_waiting st && (app_pid st =? sender) then [(GPID_SHELL, take 4 buf)] else [], buf, st, k') ∧
  table_ok (proc_set k') ∧ tlb_wf (es_mmu (earth k')) ∧
  (∀ i p, proc_set k !! i = Some p → proc_set k' !! i =
     Some (if decide (Z.of_nat i = sender ∧ p_pid p = sender) then with_status PROC_UNUSED p else p)) ∧
  (∀ q vp pg, sees (es_mmu (earth k')) q vp pg ↔ sees (es_mmu (earth k)) q vp pg ∧ q ≠ sender).
Proof.
  intros Hty Hok Hwf Hsender. destruct (proc_free_one k sender Hwf ltac:(lia)) as (m & E & Hwf' & Hsees).
  unfold proc_serve. rewrite Hty. change (PROC_EXIT =? PROC_SPAWN) with false.
  change (PROC_EXIT =? PROC_EXIT) with true. cbv beta iota zeta. rewrite E, bind_ret.
  eexists. split; [done|]. split_and!; try done.
  - apply table_ok_set_status; [done|lia].
  - by apply set_status_slot.
Qed.

(** C24: no leak: a process that is spawned and then exits leaves the memory of
    every process, the number of used pages and every other slot of the
    table exactly as they were before, and its own slot unused. *)
Theorem spawn_exit_no_leak pid pages k k1 buf st : spawned pid pages k k1 → table_ok (proc_set k) →
  tlb_wf (es_mmu (earth k)) → (∀ vp pg, ¬ sees (es_mmu (earth k)) pid vp pg) → 0 < pid < MAX_NPROCESS →
  req_type buf = PROC_EXIT → ∃ msgs k2,
  proc_serve fs sfs junk stale stale' hbuf0 buf0 pid buf st k1 = Ret (msgs, buf, st, k2) ∧
  (∀ q vp pg, sees (es_mmu (earth k2)) q vp pg ↔ sees (es_mmu (earth k)) q vp pg) ∧
  pages_used (es_mmu (earth k2)) = pages_used (es_mmu (earth k)) ∧
  (∀ i, i ≠ Z.to_nat pid → proc_set k2 !! i = proc_set k !! i) ∧
  p_status <$> proc_set k2 !! Z.to_nat pid = Some PROC_UNUSED.
Proof.
  intros Hsp Hok Hwf Hno Hpid Hty. pose proof (sp_table _ _ _ _ Hsp) as Hok1.
  destruct (proc_free_one k1 pid (sp_wf _ _ _ _ Hsp) ltac:(lia)) as (m & E & Hwf' & Hsees).
  unfold proc_serve. rewrite Hty. change (PROC_EXIT =? PROC_SPAWN) with false.
  change (PROC_EXIT =? PROC_EXIT) with true. cbv beta iota zeta. rewrite E, bind_ret.
  eexists _, _. split; [done|].
  assert (∀ q vp pg, sees m q vp pg ↔ sees (es_mmu (earth k)) q vp pg) as Hsame.
  { intros q vp pg. rewrite Hsees. destruct (decide (q = pid)) as [->|Hq].
    - split; [tauto|]. intros Hs. by apply Hno in Hs.
    - rewrite (sp_other _ _ _ _ Hsp) by done. tauto. }
  split_and!; [exact Hsame|apply pages_used_sees; [done..|]| |].
  - intros q vp. split; intros [pg Hpg]; exists pg; by apply Hsame.
  - destruct Hsp as [(p & Hp & _ & Hps) _ _ _ _ _ _]. intros i Hi. cbn [proc_set proc_set_status set_procs set_earth].
    destruct (proc_set k !! i) as [q|] eqn:Hq.
    + rewrite (set_status_slot _ pid _ Hok1 Hpid i q) by (rewrite Hps, list_lookup_insert_ne; done).
      by rewrite decide_False by lia.
    + rewrite lookup_set_status, Hps, list_lookup_insert_ne, Hq by done. done.
  - destruct Hsp as [(p & Hp & _ & Hps) _ _ _ _ _ _]. cbn [proc_set proc_set_status set_procs set_earth].
    apply lookup_lt_Some in Hp as Hlt.
    rewrite (set_status_slot _ pid _ Hok1 Hpid (Z.to_nat pid) (with_status PROC_READY (loaded pid p)))
      by (rewrite Hps; by apply list_lookup_insert_eq).
    by rewrite decide_True by (split; [lia|done]).
Qed.
End exit.
