(* ===== verification/BootServers.v ===== *)
(** * The system servers on the image (tools/mkfs.c, apps/system/sys_proc.c)

    mkfs loads the kernel and the four system servers into exec[], one every
    EGOS_BIN_MAX_NBYTE bytes, and writes exec[] in front of the file system.
    [start_servers] of SysProc.v reads them back from the flash.  The host's
    read() may return fewer bytes than asked for: the lists [reads] are what
    it returns. *)
From S2P Require Import Prelude InodeStore MemAlloc SoftTlb Timer Terminal Earth EarthImpl Process.
From S2P Require Import TreediskSpec CString Mkfs Elf ElfLoad SysProc.
Import Flash.

(** ** Loading a file *)

(** The loop of [load_file(file_name, dst + off)] for a file with the bytes
    [data], of which [nread] have been read. *)
Fixpoint load_loop (reads : list nat) (data : list Z) (nread off : nat) (dst : list Z) : outcome (list Z) :=
  if (nread <? length data)%nat then
    match reads with
    | [] => Fault OutOfFuel
    | r :: reads =>
        let bs := take r (drop nread data) in
        if bool_decide (off + nread + length bs ≤ length dst)%nat
        then load_loop reads data (nread + r) off (splice dst (off + nread) bs)
        else Fault (Undef "write past the end of the array")
    end
  else Ret dst.

Definition load_file (reads : list nat) (data : list Z) (off : nat) (dst : list Z) : outcome (list Z) :=
  load_loop reads data 0 off dst.

(** [EGOS_BIN_MAX_NBYTE] as an array index. *)
Definition BIN_BYTES : nat := Z.to_nat EGOS_BIN_MAX_NBYTE.

(** The first loop of [main]: binary [i] goes to [exec + i * EGOS_BIN_MAX_NBYTE]. *)
Fixpoint load_binaries (i : nat) (bins : list (list nat * list Z)) (exec : list Z) : outcome (list Z) :=
  match bins with
  | [] => Ret exec
  | (reads, data) :: bins =>
      exec ← load_file reads data (i * BIN_BYTES) exec;
      load_binaries (i + 1) bins exec
  end.

(** [char exec[SIZE_2MB]], and the blocks of it on the disk. *)
Definition exec_init : list Z := zeros (Z.to_nat SIZE_2MB).
Definition exec_blocks (exec : list Z) : list block_t := inode_block exec <$> seq 0 4096.

(** ** What is loaded *)
Lemma BIN_BYTES_eq : BIN_BYTES = (512 * 256)%nat.
Proof. unfold BIN_BYTES, EGOS_BIN_MAX_NBYTE. lia. Qed.
#[global] Opaque BIN_BYTES.

Lemma lookup_splice m off bs i : (off + length bs ≤ length m)%nat →
  splice m off bs !! i = if decide (off ≤ i < off + length bs)%nat then bs !! (i - off)%nat else m !! i.
Proof.
  intros Hlen. unfold splice. case_decide as Hi.
  - rewrite lookup_app_r by (rewrite length_take; lia). rewrite length_take, Nat.min_l by lia.
    rewrite lookup_app_l by lia. done.
  - destruct (decide (i < off)%nat).
    + rewrite lookup_app_l by (rewrite length_take; lia). by rewrite lookup_take_lt.
    + rewrite lookup_app_r by (rewrite length_take; lia). rewrite length_take, Nat.min_l by lia.
      rewrite lookup_app_r by lia. rewrite lookup_drop. f_equal. lia.
Qed.

(** read() makes progress and never returns more than asked for. *)
Fixpoint reads_ok (reads : list nat) (left : nat) : Prop :=
  match reads with
  | [] => left = O
  | r :: reads => (0 < r ≤ left)%nat ∧ reads_ok reads (left - r)
  end.

Lemma load_loop_spec reads data off : ∀ nread dst, (nread ≤ length data)%nat →
  reads_ok reads (length data - nread) → (off + length data ≤ length dst)%nat → ∃ dst',
  load_loop reads data nread off dst = Ret dst' ∧ length dst' = length dst ∧
  ∀ i, dst' !! i = if decide (off + nread ≤ i < off + length data)%nat then data !! (i - off)%nat else dst !! i.
Proof.
  induction reads as [|r reads IH]; intros nread dst Hn Hr Hlen; cbn [load_loop reads_ok] in *.
  - rewrite (proj2 (Nat.ltb_ge _ _)) by lia. exists dst. split_and!; [done..|]. intros i. by rewrite decide_False by lia.
  - destruct Hr as [Hr0 Hr]. rewrite (proj2 (Nat.ltb_lt _ _)) by lia.
    assert (length (take r (drop nread data)) = r) as Hl by (rewrite length_take, length_drop; lia).
    rewrite Hl, bool_decide_true by lia.
    destruct (IH (nread + r)%nat (splice dst (off + nread) (take r (drop nread data)))) as (dst' & E & Hl' & Hd);
      [lia|by replace (length data - (nread + r))%nat with (length data - nread - r)%nat by lia|
       rewrite length_splice; lia|].
    exists dst'. split; [exact E|]. split; [rewrite Hl', length_splice; lia|]. intros i. rewrite Hd, lookup_splice, Hl by lia.
    repeat case_decide; try lia; try done.
    rewrite lookup_take_lt, lookup_drop by lia. f_equal. lia.
Qed.

(** [exec] holds [data] as binary [i], zero padded. *)
Definition holds_bin (exec : list Z) (i : nat) (data : list Z) : Prop :=
  ∀ pos, (pos < BIN_BYTES)%nat → exec !! (i * BIN_BYTES + pos)%nat = Some (default 0 (data !! pos)).

Definition bin_ok (b : list nat * list Z) : Prop := reads_ok b.1 (length b.2) ∧ (length b.2 ≤ BIN_BYTES)%nat.

Lemma load_binaries_spec bins : ∀ i exec, Forall bin_ok bins →
  ((i + length bins) * BIN_BYTES ≤ length exec)%nat →
  (∀ j, (i ≤ j < i + length bins)%nat → holds_bin exec j []) → ∃ exec',
  load_binaries i bins exec = Ret exec' ∧ length exec' = length exec ∧
  (∀ j b, bins !! j = Some b → holds_bin exec' (i + j) b.2) ∧
  (∀ pos, (pos < i * BIN_BYTES)%nat → exec' !! pos = exec !! pos).
Proof.
  induction bins as [|[reads data] bins IH]; intros i exec Hok Hlen Hzero; cbn [load_binaries length] in *.
  - exists exec. by split_and!.
  - apply Forall_cons in Hok as [[Hr Hb] Hok]. cbn [fst snd] in Hr, Hb.
    destruct (load_loop_spec reads data (i * BIN_BYTES) 0 exec) as (e1 & E1 & Hl1 & Hd1);
      [lia|by rewrite Nat.sub_0_r|nia|]. unfold load_file. rewrite E1, bind_ret.
    destruct (IH (i + 1)%nat e1 Hok) as (exec' & E & Hl & Hbins & Hbefore).
    + rewrite Hl1. nia.
    + intros j Hj pos Hpos. rewrite Hd1, decide_False by nia. apply (Hzero j); [lia|done].
    + exists exec'. split; [exact E|]. split; [congruence|]. split.
      * intros [|j] b Hj; cbn in Hj.
        -- injection Hj as <-. cbn [snd]. intros pos Hpos. rewrite Hbefore, Hd1 by nia. case_decide as Hin.
           ++ replace (_ - _)%nat with pos by lia. destruct (data !! pos) as [x|] eqn:Hx; [done|].
              apply lookup_ge_None in Hx. lia.
           ++ rewrite (lookup_ge_None_2 data pos) by lia.
              pose proof (Hzero i ltac:(lia) pos Hpos) as Hz. by rewrite Nat.add_0_r.
        -- replace (i + S j)%nat with (i + 1 + j)%nat by lia. by apply Hbins.
      * intros pos Hpos. rewrite Hbefore, Hd1, decide_False by nia. done.
Qed.

(** The blocks of a binary, zero padded. *)
Definition binary_blk (data : list Z) (n : Z) : block_t :=
  (λ pos, default 0 (data !! (512 * Z.to_nat n + pos)%nat)) <$> seq 0 512.

Lemma length_binary_blk data n : length (binary_blk data n) = 512%nat.
Proof. unfold binary_blk. by rewrite length_fmap, length_seq. Qed.

Lemma exec_block_at exec i data n : holds_bin exec i data → (i < 16)%nat → 0 ≤ n < 256 →
  exec_blocks exec !! (256 * i + Z.to_nat n)%nat = Some (binary_blk data n).
Proof.
  intros Hb Hi Hn. unfold exec_blocks. rewrite list_lookup_fmap, lookup_seq_lt by lia.
  change (inode_block exec <$> Some ?x) with (Some (inode_block exec x)). f_equal.
  apply list_eq. intros pos. unfold inode_block, binary_blk. rewrite list_lookup_fmap.
  destruct (decide (pos < 512)%nat) as [Hp|Hp].
  - rewrite lookup_take_lt, lookup_drop, lookup_seq_lt by lia. change (?f <$> Some ?x) with (Some (f x)). cbv beta. cbn [Nat.add].
    rewrite <- Hb by (rewrite BIN_BYTES_eq; lia). f_equal. rewrite BIN_BYTES_eq. lia.
  - rewrite lookup_take_ge, lookup_seq_ge by lia. done.
Qed.

Lemma exec_init_zero j : (j < 16)%nat → holds_bin exec_init j [].
Proof.
  intros Hj pos Hpos. unfold exec_init, zeros. apply lookup_replicate_2. rewrite BIN_BYTES_eq in *. unfold SIZE_2MB. lia.
Qed.

Lemma length_exec_init : length exec_init = (16 * BIN_BYTES)%nat.
Proof. unfold exec_init. rewrite length_zeros, BIN_BYTES_eq. unfold SIZE_2MB. lia. Qed.

(** Binary [i] of the image, as the process server reads it. *)
Lemma binary_image exec fs i data phs base : holds_bin exec i data → (i < 16)%nat → base = 256 * Z.of_nat i →
  program_ok (binary_blk data) 256 phs 0 None [] →
  server_image (disk_init (exec_blocks exec ++ fs)) base (elf_pages (binary_blk data) phs 0 []).
Proof.
  intros Hb Hi -> Hprog. exists (binary_blk data), 256, phs. split; [apply length_binary_blk|].
  split; [lia|]. split; [lia|]. split; [|done]. intros n Hn. cbn [rom disk_init].
  replace (Z.to_nat (256 * Z.of_nat i + n)) with (256 * i + Z.to_nat n)%nat by lia.
  apply lookup_app_l_Some. by apply exec_block_at.
Qed.

(** C2: the system starts from the image mkfs builds: whatever portions the
    host's read() returns the binaries in, the flash image holds each of them
    in its place, and the process server that runs on this image starts the
    terminal, the file server and the shell with the process ids 2, 3 and 4
    by which the system addresses them, whatever the servers already started
    do while it waits for their messages.  When it has been started, each is
    ready in its slot and sees exactly the pages of its own binary, and
    starting it changes no other slot and no other process' memory.  With
    nothing happening in between, this holds of the three together at the
    end. *)
Theorem boot_servers bins b2 b3 b4 phs2 phs3 phs4 apps after hbuf0 buf0 hs k :
  Forall bin_ok bins → length bins = 5%nat →
  snd <$> bins !! 2%nat = Some b2 → snd <$> bins !! 3%nat = Some b3 → snd <$> bins !! 4%nat = Some b4 →
  program_ok (binary_blk b2) 256 phs2 0 None [] → program_ok (binary_blk b3) 256 phs3 0 None [] →
  program_ok (binary_blk b4) 256 phs4 0 None [] →
  apps_ok apps → (256 ≤ length after)%nat → length hbuf0 = 512%nat → length buf0 = 512%nat →
  handshake_ok hs → table_ok (proc_set k) → p_status <$> proc_set k !! 1%nat = Some PROC_RUNNING →
  (∀ i, (2 ≤ i ≤ 4)%nat → p_status <$> proc_set k !! i = Some PROC_UNUSED) →
  curr_vm_pid (es_mmu (earth k)) = GPID_PROCESS →
  let pages2 := elf_pages (binary_blk b2) phs2 0 [] in
  let pages3 := elf_pages (binary_blk b3) phs3 0 [] in
  let pages4 := elf_pages (binary_blk b4) phs4 0 [] in
  (∀ q, 2 ≤ q ≤ 4 → space_ok q (es_mmu (earth k)) (length pages2 + (length pages3 + length pages4))) →
  ∃ exec img rom k1 k1' k2 k2' k', load_binaries 0 bins exec_init = Ret exec ∧
  mkfs (exec_blocks exec) apps after = Ret (img, rom) ∧
  start_servers (disk_init rom) hbuf0 buf0 hs k = Ret ([GPID_TERMINAL; GPID_FILE; GPID_SHELL], k') ∧
  spawned GPID_TERMINAL pages2 k k1 ∧ hs GPID_TERMINAL k1 = Ret k1' ∧
  spawned GPID_FILE pages3 k1' k2 ∧ hs GPID_FILE k2 = Ret k2' ∧ spawned GPID_SHELL pages4 k2' k' ∧
  (k1' = k1 → k2' = k2 →
   proc_set k' !! 1%nat = proc_set k !! 1%nat ∧
   (∀ i, (2 ≤ i ≤ 4)%nat → p_status <$> proc_set k' !! i = Some PROC_READY) ∧
   (∀ vp pg, (sees (es_mmu (earth k')) GPID_TERMINAL vp pg ↔ (vp, pg) ∈ pages2) ∧
             (sees (es_mmu (earth k')) GPID_FILE vp pg ↔ (vp, pg) ∈ pages3) ∧
             (sees (es_mmu (earth k')) GPID_SHELL vp pg ↔ (vp, pg) ∈ pages4) ∧
             (sees (es_mmu (earth k')) GPID_PROCESS vp pg ↔ sees (es_mmu (earth k)) GPID_PROCESS vp pg))).
Proof.
  intros Hbins H5 H2 H3 H4 P2 P3 P4 Happs Hafter Hh Hb Hhs Hok Hrun Hfree Hcur. cbn zeta. intros Hspace.
  destruct (load_binaries_spec bins 0 exec_init Hbins) as (exec & E & _ & Hhold & _).
  { rewrite length_exec_init, H5. lia. }
  { intros j Hj. apply exec_init_zero. lia. }
  destruct (mkfs_files (exec_blocks exec) apps after Happs Hafter) as (fs & fl & F & Em & _).
  assert (∀ i b, snd <$> bins !! i = Some b → holds_bin exec i b) as Hbin.
  { intros i b Hi. destruct (bins !! i) as [x|] eqn:Hx; [|done]. injection Hi as <-. exact (Hhold i x Hx). }
  exists exec. eexists _, _.
  destruct (servers_start (disk_init (exec_blocks exec ++ mjoin (replicate 15 fs))) hbuf0 buf0 eq_refl Hh Hb hs k
    (elf_pages (binary_blk b2) phs2 0 []) (elf_pages (binary_blk b3) phs3 0 []) (elf_pages (binary_blk b4) phs4 0 []))
    as (k1 & k1' & k2 & k2' & k' & Es & S1 & F1 & S2 & F2 & S3).
  - exact Hhs.
  - exact Hok.
  - exact Hrun.
  - exact Hfree.
  - apply (binary_image exec _ 2 b2); [by apply Hbin|lia|reflexivity|done].
  - apply (binary_image exec _ 3 b3); [by apply Hbin|lia|reflexivity|done].
  - apply (binary_image exec _ 4 b4); [by apply Hbin|lia|reflexivity|done].
  - exact Hcur.
  - exact Hspace.
  - exists k1, k1', k2, k2', k'. split; [exact E|]. split; [exact Em|]. split; [exact Es|]. split_and!; try assumption.
    intros -> ->. exact (proj2 (spawned_thrice k k1 k2 k' _ _ _ S1 S2 S3)).
Qed.
