(* ===== verification/BootSpawn.v ===== *)
(** * From a command line to a running process

    Puts the shell's parser, the message to the process server, the directory
    and the files of the booted disk image, and the loader together. *)
From S2P Require Import Prelude MemAlloc SoftTlb Timer Earth EarthImpl Process InodeStore Treedisk.
From S2P Require Import FileServer CString Directory TreediskSpec Mkfs BootPaths Shell Elf ElfLoad SysProc.
Import Flash.

(** ** The request of the shell *)

(** [struct proc_request] as the shell sends it. *)
Definition encode_request (type : Z) (r : request) : list Z :=
  le32 type ++ le32 (r_argc r) ++ mjoin (r_argv r).

(** What [sys_recv] delivers: the rest of the message is what the sender's
    system call area held before. *)
Definition delivered (stale : list Z) (type : Z) (r : request) : list Z :=
  send_content stale (encode_request type r).

Lemma split_nonempty sep text : ∀ w, Forall (λ w, w ≠ []) (split sep w text).
Proof.
  induction text as [|c text IH]; intros w; cbn [split].
  - case_decide; [constructor|by constructor].
  - destruct (negb (c =? sep)); [apply IH|]. case_decide; [apply IH|]. by constructor.
Qed.

Lemma split_chars P sep text : Forall P text → ∀ w, Forall P w → Forall (Forall P) (split sep w text).
Proof.
  intros Ht. induction Ht as [|c text Hc _ IH]; intros w Hw; cbn [split].
  - case_decide; [constructor|by constructor].
  - destruct (negb (c =? sep)).
    + apply IH. apply Forall_app. split; [done|by constructor].
    + case_decide; [by apply IH|]. constructor; [done|]. by apply IH.
Qed.

Lemma split_count text : ∀ w, (length (split SPACE w text) ≤ S (closed_words w text))%nat.
Proof.
  induction text as [|c text IH]; intros w; cbn [split closed_words].
  - case_decide; simpl; lia.
  - destruct (negb (c =? SPACE)); [apply IH|]. case_decide; [apply IH|]. cbn [length].
    specialize (IH []). lia.
Qed.

(** Joining rows of 32 bytes. *)
Lemma join_rows (rows : list (list Z)) : Forall (λ r, length r = 32%nat) rows →
  length (mjoin rows) = (32 * length rows)%nat ∧
  (∀ m, take (32 * m) (mjoin rows) = mjoin (take m rows)) ∧
  ∀ m, drop (32 * m) (mjoin rows) = mjoin (drop m rows).
Proof.
  intros Hrows. induction Hrows as [|r rows Hr Hrows (IH1 & IH2 & IH3)].
  - change (mjoin []) with (@nil Z). split_and!; [done| |]; intros m; [by rewrite !take_nil|by rewrite !drop_nil].
  - change (mjoin (r :: rows)) with (r ++ mjoin rows). split_and!.
    + rewrite length_app, IH1. cbn [length]. lia.
    + intros [|m]; [done|]. rewrite take_app_ge by lia. cbn [take].
      change (mjoin (r :: ?l)) with (r ++ mjoin l). f_equal. rewrite <- IH2. f_equal. lia.
    + intros [|m]; [done|]. rewrite drop_app_ge by lia. cbn [drop]. rewrite <- IH3. f_equal. lia.
Qed.

Lemma argv_of_rows ws : Forall (λ w, length w < 32)%nat ws → Forall (λ r, length r = 32%nat) (argv_of ws).
Proof.
  intros Hws. unfold argv_of. apply Forall_app. split.
  - apply Forall_fmap. eapply Forall_impl; [exact Hws|]. intros w Hw. cbn beta in Hw. unfold compose, arg_row. len.
  - apply Forall_replicate. apply length_zeros.
Qed.

Section request.
Context (stale : list Z) (ws : list (list Z)).
Context (Hstale : length stale = SYSCALL_MSG_LEN) (Hlen : (1 ≤ length ws ≤ 16)%nat).
Context (Hws : Forall (λ w, length w < 32)%nat ws).
Abbreviation buf := (delivered stale PROC_SPAWN (Request (Z.of_nat (length ws)) (argv_of ws))).

Lemma length_argv : length (mjoin (argv_of ws)) = 512%nat.
Proof using All.
  destruct (join_rows _ (argv_of_rows ws Hws)) as (-> & _ & _). unfold argv_of.
  rewrite length_app, length_fmap, length_replicate. lia.
Qed.

Lemma delivered_fields : req_type buf = PROC_SPAWN ∧ req_argc buf = Z.of_nat (length ws) ∧
  (∃ rest, req_argv buf = mjoin (argv_of ws) ++ rest) ∧ length buf = SYSCALL_MSG_LEN.
Proof using All.
  unfold delivered, send_content, encode_request; cbn [r_argc r_argv].
  pose proof length_argv as Hl. unfold SYSCALL_MSG_LEN in *. split_and!.
  - unfold req_type. rewrite <- !(assoc_L (++)). by rewrite get32_le32.
  - unfold req_argc. rewrite <- !(assoc_L (++)). rewrite get32_app_r by (by rewrite length_le32).
    rewrite length_le32. change (4 - 4)%nat with 0%nat. rewrite get32_le32, u32_small by lia.
    apply i32_small. lia.
  - eexists. unfold req_argv. rewrite <- !(assoc_L (++)).
    rewrite drop_app_ge by (rewrite length_le32; lia). rewrite length_le32.
    rewrite drop_app_ge by (rewrite length_le32; lia). rewrite length_le32. by rewrite drop_0.
  - rewrite length_app, length_drop, !length_app, !length_le32, Hl. lia.
Qed.

(** argv[0] is the first word. *)
Lemma delivered_name w : head ws = Some w → ∃ rest, req_argv buf = w ++ 0 :: rest.
Proof using All.
  intros Hw. destruct delivered_fields as (_ & _ & (rest & ->) & _).
  destruct ws as [|w' ws']; [done|]. injection Hw as ->. apply Forall_cons in Hws as [Hw _].
  unfold argv_of. cbn [fmap list_fmap app]. change (mjoin (?x :: ?l)) with (x ++ mjoin l).
  unfold arg_row. replace (32 - length w)%nat with (S (31 - length w)) by lia.
  exists (zeros (31 - length w) ++ mjoin ((arg_row <$> ws') ++ replicate (16 - length (w :: ws')) (zeros 32)) ++ rest).
  change (zeros (S (31 - length w))) with (0 :: zeros (31 - length w)).
  rewrite <- !(assoc_L (++)). done.
Qed.

(** The strings of the first [m] arguments. *)
Lemma delivered_args m : (m ≤ length ws)%nat →
  take (32 * m) (take 512 (req_argv buf)) = mjoin (arg_row <$> take m ws) ∧
  (32 * m ≤ length (take 512 (req_argv buf)))%nat.
Proof using All.
  intros Hm. destruct delivered_fields as (_ & _ & (rest & ->) & _). pose proof length_argv as Hl.
  rewrite take_app_length' by done. rewrite Hl. split; [|lia].
  destruct (join_rows _ (argv_of_rows ws Hws)) as (_ & -> & _). unfold argv_of.
  rewrite take_app_le by (rewrite length_fmap; lia). by rewrite fmap_take.
Qed.

(** argv[argc - 1][0] is the first character of the last word. *)
Lemma delivered_last c w : last ws = Some (c :: w) → last_arg buf = Ret c.
Proof using All.
  intros Hlast. destruct delivered_fields as (_ & Hargc & (rest & Hargv) & Hb).
  unfold last_arg, CMD_ARG_LEN. rewrite Hargc. pose proof length_argv as Hl.
  replace (8 + 32 * (Z.of_nat (length ws) - 1)) with (Z.of_nat (8 + 32 * (length ws - 1))) by lia.
  apply char_at_lookup. rewrite <- lookup_drop. fold (req_argv buf). rewrite Hargv, lookup_app_l by lia.
  rewrite <- (Nat.add_0_r (32 * _)), <- lookup_drop.
  destruct (join_rows _ (argv_of_rows ws Hws)) as (_ & _ & ->). unfold argv_of.
  rewrite last_lookup in Hlast.
  assert ((arg_row <$> ws) !! (length ws - 1)%nat = Some (arg_row (c :: w))) as Hrow.
  { rewrite list_lookup_fmap. replace (length ws - 1)%nat with (pred (length ws)) by lia. by rewrite Hlast. }
  rewrite drop_app_le by (rewrite length_fmap; lia). by rewrite (drop_S _ _ _ Hrow).
Qed.
End request.

(** ** The whole way *)

(** The words of a command line that the shell accepts. *)
Lemma parse_words text ws : ws = split SPACE [] text → ws ≠ [] → Forall (λ c, c ≠ 0) text →
  spec_parse text ≠ None →
  parse_request text = Ret (Some (Request (Z.of_nat (length ws)) (argv_of ws))) ∧
  (1 ≤ length ws ≤ 16)%nat ∧ Forall (λ w, length w < 32)%nat ws ∧
  Forall (λ w, w ≠ []) ws ∧ Forall (Forall (λ c, c ≠ 0)) ws.
Proof.
  intros -> Hne Hz Hspec.
  pose proof (parse_loop_spec text [] [] ltac:(simpl; lia) ltac:(simpl; lia) (Forall_nil_2 _)) as Hparse.
  change (parse_request text = Ret (spec_parse text)) in Hparse. rewrite Hparse. clear Hparse.
  unfold spec_parse in *. cbv zeta in *. destruct (decide _) as [[Hlen Hcount]|]; [|by destruct Hspec].
  pose proof (split_count text []). split; [done|]. split.
  { destruct (split SPACE [] text); [done|simpl in *; lia]. }
  split; [done|]. split; [apply split_nonempty|]. apply split_chars; [done|constructor].
Qed.

(** Blocks of a file, null beyond its end. *)
Definition blocks_of (f : list block_t) (n : Z) : block_t := default null_block (f !! Z.to_nat n).

Lemma length_blocks_of f n : Forall block_ok f → length (blocks_of f n) = 512%nat.
Proof.
  intros Hf. unfold blocks_of. destruct (f !! Z.to_nat n) as [b|] eqn:E; [|apply length_zeros].
  by eapply Forall_lookup_1 in Hf.
Qed.

(** The arguments that are passed on: a last word "&..." is dropped. *)
Definition background (ws : list (list Z)) : bool :=
  match last ws with Some (c :: _) => c =? AMP | _ => false end.
Definition passed (ws : list (list Z)) : list (list Z) :=
  if background ws then take (length ws - 1) ws else ws.

Lemma last_word ws : ws ≠ [] → Forall (λ w, w ≠ []) ws → ∃ c w, last ws = Some (c :: w) ∧ background ws = (c =? AMP).
Proof.
  intros Hne Hall. unfold background. destruct (last ws) as [x|] eqn:El; [|by apply last_None in El].
  apply last_Some_elem_of in El as Hx. rewrite Forall_forall in Hall. specialize (Hall x Hx).
  destruct x as [|c w]; [done|]. eauto.
Qed.

Lemma passed_take ws : passed ws = take (length (passed ws)) ws.
Proof.
  unfold passed. destruct (background ws); [|by rewrite take_ge].
  f_equal. rewrite length_take. lia.
Qed.

Lemma read_app_block rom F f n nb i b :
  (∀ ino off buf, treedisk_read disk_store 0 7 (disk_init rom) (Z.of_nat ino) (Z.of_nat off) buf
     = match FileSpec.spec_read F ino off with Some b => Ret (0, b) | None => Ret (-1, buf) end) →
  F !! (7 + n)%nat = Some f → 0 ≤ i < Z.of_nat nb → length f = nb →
  InodeStore.read (treedisk_init disk_store 0 7) (disk_init rom) (7 + Z.of_nat n) i b = Ret (0, blocks_of f i).
Proof.
  intros Hread Hf Hi Hlen. pose proof (Hread (7 + n)%nat (Z.to_nat i) b) as H.
  rewrite Nat2Z.inj_add, Z2Nat.id in H by lia. etrans; [exact H|].
  unfold FileSpec.spec_read, blocks_of. rewrite Hf. cbn.
  destruct (lookup_lt_is_Some_2 f (Z.to_nat i)) as [x Hx]; [lia|]. by rewrite Hx.
Qed.

(** C1: a command runs.  On the system booted from the image that mkfs wrote,
    a command line whose first word names an application makes the shell send
    a request that the process server answers by starting that application:
    the lowest free slot is ready to run with exactly the pages of the
    application's file and with the words of the line as argv (a last word
    "&" apart), the shell gets CMD_OK, and the server waits for the process
    exactly when the line does not end in "&". *)
Theorem command_runs `{!Earth earth_state} exec apps after junk stale stale' stale2 hbuf0 buf0
    text ws n name data phs sender st k pid :
  apps_ok apps → names_ok apps → (256 ≤ length after)%nat → length exec = 4096%nat →
  length junk = 512%nat → length stale = SYSCALL_MSG_LEN → length stale2 = SYSCALL_MSG_LEN →
  length hbuf0 = 512%nat → length buf0 = 512%nat →
  elf_apps apps !! n = Some (name, data) →
  ws = split SPACE [] text → head ws = Some (app_name name) → Forall (λ c, c ≠ 0) text → spec_parse text ≠ None →
  (∀ f, holds_data f data →
     program_ok (blocks_of f) (Z.of_nat (nblocks (length data))) phs (length (passed ws))
       (Some (mjoin (argv_of ws))) (mjoin (arg_row <$> passed ws)) ∧
     space_ok pid (es_mmu (earth k))
       (length (elf_pages (blocks_of f) phs (length (passed ws)) (mjoin (arg_row <$> passed ws))))) →
  table_ok (proc_set k) → spec_slot (proc_set k) = Some pid → pid < MAX_NPROCESS →
  curr_vm_pid (es_mmu (earth k)) ≠ pid →
  ∃ req img rom f buf' k', parse_request text = Ret (Some req) ∧
  mkfs exec apps after = Ret (img, rom) ∧ holds_data f data ∧
  proc_serve (treedisk_init disk_store 0 7) (disk_init rom) junk stale stale' hbuf0 buf0 sender
      (delivered stale2 PROC_SPAWN req) st k
    = Ret ([(GPID_SHELL, le32 CMD_OK)], buf', Server (7 + Z.of_nat n) pid (negb (background ws)), k') ∧
  spawned pid (elf_pages (blocks_of f) phs (length (passed ws)) (mjoin (arg_row <$> passed ws))) k k'.
Proof.
  intros Happs Hnames Hafter Hexec Hj Hs Hs2 Hh Hb Hn Hws Hhead Hz Hspec Hprog Hok Hslot Hlt Hcur.
  assert (ws ≠ []) as Hwne by (intros Hnil; rewrite Hnil in Hhead; discriminate Hhead).
  destruct (parse_words text ws Hws Hwne Hz Hspec) as (Hparse & Hlen & Hshort & Hne & Hnz).
  destruct (booted_apps exec apps after junk stale stale' Happs Hnames Hafter Hexec Hj Hs)
    as (img & rom & F & E & Hread & Hfiles & Hbin & Happ & _).
  destruct (Hfiles n name data Hn) as (f & Hf & Hdata). destruct (Hprog f Hdata) as [Hp Hsp].
  destruct (delivered_fields stale2 ws Hs2 Hlen Hshort) as (Hty & Hargc & (rest & Hargv) & Hbl).
  destruct (delivered_name stale2 ws Hs2 Hlen Hshort _ Hhead) as (rest' & Hname).
  set (req := Request (Z.of_nat (length ws)) (argv_of ws)) in *.
  destruct (last_word ws Hwne Hne) as (c & w & Hlast & Hbg).
  assert (take 512 (req_argv (delivered stale2 PROC_SPAWN req)) = mjoin (argv_of ws)) as Htake.
  { rewrite Hargv. apply take_app_length'. symmetry. exact (length_argv stale2 ws Hs2 Hlen Hshort). }
  destruct (serve_spawn (treedisk_init disk_store 0 7) (disk_init rom) junk stale stale' hbuf0 buf0 Hj Hs Hh Hb
              sender (delivered stale2 PROC_SPAWN req) st k (7 + Z.of_nat n) pid c (blocks_of f)
              (Z.of_nat (nblocks (length data))) phs (length (passed ws)) (mjoin (arg_row <$> passed ws)))
    as (buf' & k' & Eserve & Hspawned).
  - exact Hty.
  - exact Hbl.
  - exists BIN_DIR_INODE. split; [exact Hbin|]. rewrite Hname, dir_lookup_app; [exact (Happ n _ Hn)|].
    rewrite Forall_forall in Hnz. apply Hnz. destruct ws as [|w0 ws']; [discriminate Hhead|].
    injection Hhead as <-. left.
  - destruct Happs as (_ & Hcnt & _). apply lookup_lt_Some in Hn. lia.
  - split; [intros i; apply length_blocks_of, Hdata|]. intros i b Hi _.
    apply (read_app_block rom F f n (nblocks (length data)) i b Hread Hf Hi (proj1 Hdata)).
  - exact (delivered_last stale2 ws Hs2 Hlen Hshort c w Hlast).
  - unfold passed_argc. rewrite Hargc. unfold passed. rewrite Hbg. destruct (c =? AMP); [|reflexivity].
    rewrite length_take. lia.
  - rewrite Htake. exact Hp.
  - exact Hok.
  - exact Hslot.
  - exact Hlt.
  - exact Hcur.
  - exact Hsp.
  - exists req, img, rom, f, buf', k'. rewrite Hbg. split_and!; assumption.
Qed.
