(* ===== verification/ShellMain.v ===== *)
(** * The shell's main loop and its protocol with the process server
    (apps/system/sys_shell.c, apps/system/sys_proc.c)

    The shell reads a line, takes its commands one by one ([parse_batch_cmds]
    of Shell.v) and executes each: some by itself, others by a request to the
    process server and a wait for one or two messages from it.  The shell
    blocks while it waits, so between two of its steps the server may handle
    the requests of other processes; [step] has these interleavings. *)
From S2P Require Import Prelude MemAlloc SoftTlb Timer Terminal Earth EarthImpl Process InodeStore Treedisk.
From S2P Require Import FileServer CString Print TermServer Directory Apps AppsSpec Shell Elf ElfLoad SysProc BootSpawn.

(** ** The prompt *)

(** ["\x1B[1;32m➜ \x1B[1;36m%s\x1B[1;0m %% "], the arrow in UTF-8. *)
Definition prompt_fmt : list Z :=
  ESC :: str "[1;32m" ++ [0xE2; 0x9E; 0x9C] ++ str " " ++ ESC :: str "[1;36m%s" ++ ESC :: str "[1;0m %% ".

Section prompt.
Context (fr : nat → frame).

(** [do printf(...) while (term_read(buf, TERM_BUF_SIZE) == 0)]: system
    applications are compiled with KERNEL, so these are the [term_write] and
    [term_read] that access the TTY. *)
Fixpoint shell_prompt (fuel : nat) (n : nat) (workdir buf : list Z) (u : uart) : outcome (list Z * uart) :=
  match fuel with
  | O => Fault OutOfFuel
  | S fuel =>
      u ← my_printf term_write (f_buf (fr n)) (prompt_fmt ++ [0]) [VStr workdir] u;
      '(r, buf, u) ← term_read buf TERM_BUF_SIZE u;
      if r =? 0 then shell_prompt fuel (n + 1) workdir buf u else Ret (buf, u)
  end.

(** ** Commands *)
Inductive action :=
  | ADone                      (* executed by the shell itself *)
  | AKillall                   (* a PROC_KILLALL request, no reply *)
  | ASpawn (r : request).      (* a PROC_SPAWN request, then a reply *)

(** The body of the inner loop up to the first message. *)
Definition shell_command (n : nat) (nextcmd : list Z) (workdir : list Z) (u : uart) : outcome (action * uart) :=
  if bool_decide (nextcmd = str "coresinfo") then Ret (ADone, u)
  else if bool_decide (nextcmd = str "killall") then Ret (AKillall, u)
  else if bool_decide (nextcmd = str "pwd") then
    u ← printf term_write fr n (str "%s" ++ EOL) [VStr workdir] u; Ret (ADone, u)
  else
    req ← parse_request nextcmd;
    match req with
    | None =>
        u ← info term_write fr n (str "sys_shell: too many arguments or argument too long") [] u;
        Ret (ADone, u)
    | Some r => Ret (ASpawn r, u)
    end.

(** [req.argv[req.argc - 1][0]] in the shell's memory. *)
Definition shell_last (r : request) : outcome Z := char_at (mjoin (r_argv r)) (CMD_ARG_LEN * (r_argc r - 1)).

(** What the shell does next. *)
Inductive mode :=
  | MReady                 (* execute the next command *)
  | MReply (r : request)   (* wait for the reply to a spawn request *)
  | MExit.                 (* wait until the foreground process ends *)

(** After the reply to a spawn request. *)
Definition shell_reply (n : nat) (r : request) (reply : list Z) (u : uart) : outcome (mode * uart) :=
  if negb (get32 reply 0 =? CMD_OK) then
    u ← info term_write fr n (str "sys_shell: command %s not found") [VStr (mjoin (r_argv r))] u;
    Ret (MReady, u)
  else
    c ← shell_last r;
    Ret (if negb (c =? AMP) then MExit else MReady, u).
End prompt.

(** ** Reading a command line *)
Definition prompt_text (path : list Z) : list Z :=
  (ESC :: str "[1;32m" ++ [0xE2; 0x9E; 0x9C] ++ str " " ++ ESC :: str "[1;36m") ++ path ++ (ESC :: str "[1;0m % ").

Section reading.
Context (fr : nat → frame) (Hfr : ∀ n, frame_ok (fr n)).

Lemma prompt_prints n path rest u : nonzero path → (length path < 450)%nat → ∃ b,
  my_printf term_write (f_buf (fr n)) (prompt_fmt ++ [0]) [VStr (path ++ 0 :: rest)] u =
  Ret (Uart (rx u) (tx u ++ prompt_text path) b).
Proof using Hfr.
  intros Hp Hl. destruct (Hfr n) as (Hj & _ & Hb).
  assert (length (prompt_text path) = length path + 27)%nat as Hlen.
  { unfold prompt_text. rewrite !length_app. cbn. lia. }
  unfold my_printf. rewrite (log_text _ [] [] _ prompt_fmt _ (prompt_text path)); [|constructor|constructor| |].
  - rewrite Hb, bool_decide_true by (cbn [length]; lia). cbn [app]. rewrite app_nil_r. apply term_write_spec.
  - apply (bool_decide_unpack _). vm_compute. exact I.
  - etrans; [apply (format_text_arg (ESC :: str "[1;32m" ++ [0xE2; 0x9E; 0x9C] ++ str " " ++ ESC :: str "[1;36m")
      (ESC :: str "[1;0m %% ") (path ++ 0 :: rest) path []); [|by apply cstr_app]|done].
    apply (bool_decide_unpack _). vm_compute. exact I.
Qed.

(** One line. *)
Lemma read_line_once cs rest buf u : Forall is_char cs → Forall (λ c, c ≠ ENTER) cs →
  rx u = cs ++ ENTER :: rest → length buf = 512%nat → Terminal.fits 511 [] cs →
  let line := reverse (foldl edit_step [] cs) in ∃ tl b,
  term_read buf TERM_BUF_SIZE u = Ret (if decide (line = []) then 0 else Z.of_nat (length line) + 1, line ++ 0 :: tl,
    Uart rest (tx u ++ echoes [] cs ++ EOL) b) ∧ length (line ++ 0 :: tl) = 512%nat.
Proof using Type.
  intros Hc Hne Hrx Hb Hfits. cbn zeta.
  destruct (term_read_line cs rest buf TERM_BUF_SIZE u Hc Hne Hrx) as (buf' & b & Hread & Htake & Hnul & Hlen);
    [unfold TERM_BUF_SIZE; lia|rewrite Hb; unfold TERM_BUF_SIZE; lia|exact Hfits|].
  set (line := reverse (foldl edit_step [] cs)) in *. exists (drop (S (length line)) buf'), b.
  assert (line ++ 0 :: drop (S (length line)) buf' = buf') as ->.
  { rewrite <- Htake at 1. by apply take_drop_middle. }
  split; [exact Hread|congruence].
Qed.

(** C36: the shell's prompt: after any number of empty lines the first line
    that is not empty ends the loop, with the edited line as a terminated
    string in the shell's buffer; the terminal shows the prompt with the
    working directory once per line, and the echo. *)
Theorem shell_prompt_reads k : ∀ n path wrest cs rest buf u, nonzero path → (length path < 450)%nat →
  Forall is_char cs → Forall (λ c, c ≠ ENTER) cs → Terminal.fits 511 [] cs → length buf = 512%nat →
  rx u = replicate k ENTER ++ cs ++ ENTER :: rest →
  let line := reverse (foldl edit_step [] cs) in line ≠ [] → ∃ tl b,
  shell_prompt fr (S k) n (path ++ 0 :: wrest) buf u =
  Ret (line ++ 0 :: tl, Uart rest (tx u ++ mjoin (replicate k (prompt_text path ++ EOL)) ++
                                  prompt_text path ++ echoes [] cs ++ EOL) b).
Proof using Hfr.
  induction k as [|k IH]; intros n path wrest cs rest buf u Hp Hpl Hc Hne Hfits Hb Hrx; cbn zeta; intros Hline.
  - destruct (prompt_prints n path wrest u Hp Hpl) as (b0 & Hprompt).
    destruct (read_line_once cs rest buf (Uart (rx u) (tx u ++ prompt_text path) b0) Hc Hne Hrx Hb Hfits)
      as (tl & b & Hread & _).
    exists tl, b. cbn [shell_prompt]. rewrite Hprompt, bind_ret, Hread, bind_ret.
    rewrite decide_False, (proj2 (Z.eqb_neq _ _)) by (done || lia).
    cbn [tx replicate mjoin list_join app]. by rewrite <- !(assoc_L (++)).
  - destruct (prompt_prints n path wrest u Hp Hpl) as (b0 & Hprompt).
    destruct (read_line_once [] (replicate k ENTER ++ cs ++ ENTER :: rest) buf (Uart (rx u) (tx u ++ prompt_text path) b0))
      as (tl0 & b & Hread & Hlen); [constructor|constructor|exact Hrx|exact Hb|cbn; lia|].
    destruct (IH (n + 1)%nat path wrest cs rest _ (Uart (replicate k ENTER ++ cs ++ ENTER :: rest)
      ((tx u ++ prompt_text path) ++ echoes [] [] ++ EOL) b) Hp Hpl Hc Hne Hfits Hlen eq_refl Hline) as (tl & b' & Hrec).
    exists tl, b'. change (shell_prompt fr (S (S k)) n (path ++ 0 :: wrest) buf u) with
      (u ← my_printf term_write (f_buf (fr n)) (prompt_fmt ++ [0]) [VStr (path ++ 0 :: wrest)] u;
       '(r, buf, u) ← term_read buf TERM_BUF_SIZE u;
       if r =? 0 then shell_prompt fr (S k) (n + 1) (path ++ 0 :: wrest) buf u else Ret (buf, u)).
    rewrite Hprompt, bind_ret, Hread, bind_ret. rewrite decide_True, Z.eqb_refl by done. etrans; [exact Hrec|].
    cbn [tx echoes app replicate]. change (mjoin (?x :: ?l)) with (x ++ mjoin l). by rewrite <- !(assoc_L (++)).
Qed.
End reading.

(** Enter, then "ls", in /home. *)
Lemma shell_prompt_reads_witness : ∃ tl b,
  shell_prompt demo_frame 2 0 (str "/home" ++ 0 :: zeros 10) (zeros 512) (Uart [0x0d; 0x6c; 0x73; 0x0d] [] 0) =
  Ret (str "ls" ++ 0 :: tl, Uart [] ([] ++ mjoin (replicate 1 (prompt_text (str "/home") ++ EOL)) ++
         prompt_text (str "/home") ++ echoes [] [0x6c; 0x73] ++ EOL) b).
Proof.
  apply (shell_prompt_reads demo_frame demo_frame_ok 1 0 (str "/home") (zeros 10) [0x6c; 0x73] [] (zeros 512)
    (Uart [0x0d; 0x6c; 0x73; 0x0d] [] 0)); try reflexivity;
    try (apply (bool_decide_unpack _); vm_compute; exact I).
Defined.

(** ** Shell and process server *)
Section protocol.
Context {St : Type} (fs : inode_store St) (sfs : St).
Context (junk stale stale' hbuf0 buf0 : list Z) (fr : nat → frame).
Context `{EA : !Earth earth_state}.

(** The shell's variables, the server's, and the kernel. *)
Record system := System {
  s_text : list Z; s_batch : batch; s_mode : mode; s_tty : uart; s_server : server; s_kernel : kernel
}.

(** A process slot in use. *)
Definition alive (k : kernel) (pid : Z) : Prop :=
  0 < pid ∧ ∃ p, proc_set k !! Z.to_nat pid = Some p ∧ p_status p ≠ PROC_UNUSED.

(** The request of [killall]: only the type is initialised. *)
Definition killall_request (junk : list Z) : list Z := le32 PROC_KILLALL ++ junk.

(** The request of [exit()] of the C library, likewise; [exit()] then loops
    until the server has freed the process. *)
Definition exit_request (junk : list Z) : list Z := le32 PROC_EXIT ++ junk.

(** One step of the shell or the server. *)
Inductive step : system → system → Prop :=
  (* the shell executes the next command of the line by itself *)
  | step_local n wd text b b' cmd u u' st k :
      parse_batch_cmds text b = Ret (Some cmd, b') →
      shell_command fr n cmd wd u = Ret (ADone, u') →
      step (System text b MReady u st k) (System text b' MReady u' st k)
  (* ... or sends a request to end all user processes, which the server handles *)
  | step_killall n wd text b b' cmd u u' st st' k k' msg msgs buf :
      parse_batch_cmds text b = Ret (Some cmd, b') →
      shell_command fr n cmd wd u = Ret (AKillall, u') → length msg = 1020%nat →
      proc_serve fs sfs junk stale stale' hbuf0 buf0 GPID_SHELL (killall_request msg) st k = Ret (msgs, buf, st', k') →
      step (System text b MReady u st k) (System text b' MReady u' st' k')
  (* ... or sends a request to spawn and waits for the reply *)
  | step_spawn n wd text b b' cmd u u' st k r :
      parse_batch_cmds text b = Ret (Some cmd, b') →
      shell_command fr n cmd wd u = Ret (ASpawn r, u') →
      step (System text b MReady u st k) (System text b' (MReply r) u' st k)
  (* the server handles the request and the shell takes the reply *)
  | step_reply n text b r u u' st st' k k' stale2 reply buf m :
      length stale2 = SYSCALL_MSG_LEN →
      proc_serve fs sfs junk stale stale' hbuf0 buf0 GPID_SHELL (delivered stale2 PROC_SPAWN r) st k
        = Ret ([(GPID_SHELL, reply)], buf, st', k') →
      shell_reply fr n r reply u = Ret (m, u') →
      step (System text b (MReply r) u st k) (System text b m u' st' k')
  (* a user process exits; a message to the waiting shell wakes it *)
  | step_exit text b m u st st' k k' pid msg msgs buf :
      GPID_USER_START ≤ pid < MAX_NPROCESS → alive k pid → length msg = 1020%nat →
      proc_serve fs sfs junk stale stale' hbuf0 buf0 pid (exit_request msg) st k = Ret (msgs, buf, st', k') →
      step (System text b m u st k) (System text b (if decide (msgs = []) then m else MReady) u st' k')
  (* the shell has no more commands and reads the next line *)
  | step_line n text text' b b' wd buf buf' rest u u' fuel st k :
      parse_batch_cmds text b = Ret (None, b') →
      shell_prompt fr fuel n wd buf u = Ret (buf', u') → buf' = text' ++ 0 :: rest → nonzero text' →
      step (System text b MReady u st k) (System text' b' MReady u' st k)
  (* the kernel runs processes, without creating or ending any *)
  | step_kernel text b m u st k k' :
      table_ok (proc_set k') → (∀ pid, alive k' pid ↔ alive k pid) →
      step (System text b m u st k) (System text b m u st k').

(** *** What each request does to the processes *)
Abbreviation serve := (proc_serve fs sfs junk stale stale' hbuf0 buf0).

Lemma alive_set_status ps pid st i : table_ok ps → 0 < pid < MAX_NPROCESS → 0 < i →
  (∃ p, set_status_in pid st ps !! Z.to_nat i = Some p ∧ p_status p ≠ PROC_UNUSED) ↔
  (i ≠ pid ∧ (∃ p, ps !! Z.to_nat i = Some p ∧ p_status p ≠ PROC_UNUSED)) ∨
  (i = pid ∧ ∃ p, ps !! Z.to_nat i = Some p ∧ (if decide (p_pid p = pid) then st ≠ PROC_UNUSED else p_status p ≠ PROC_UNUSED)).
Proof.
  intros Hok Hpid Hi. destruct (ps !! Z.to_nat i) as [p|] eqn:Hp.
  - rewrite (set_status_slot ps pid st Hok Hpid _ p Hp). destruct (decide (i = pid)) as [->|Hne].
    + rewrite Z2Nat.id by lia. split.
      * intros (q & [= <-] & Hq). right. split; [done|]. exists p. split; [done|].
        destruct (decide (p_pid p = pid)); [rewrite decide_True in Hq by done|rewrite decide_False in Hq by tauto]; done.
      * intros [[? _]|(_ & q & [= <-] & Hq)]; [done|]. eexists. split; [done|].
        destruct (decide (p_pid p = pid)); [rewrite decide_True by done|rewrite decide_False by tauto]; done.
    + rewrite decide_False by lia. split; [by left; split|]. intros [[_ ?]|[? _]]; done.
  - rewrite lookup_set_status, Hp. cbn. split; [by intros (? & ? & _)|]. intros [(_ & ? & ? & _)|(_ & ? & ? & _)]; done.
Qed.

Lemma exit_request_type msg : req_type (exit_request msg) = PROC_EXIT.
Proof using Type. unfold req_type, exit_request. by rewrite get32_le32. Qed.

(** An exit request ends exactly its sender. *)
Lemma serve_exit pid msg st k msgs buf st' k' : req_type msg = PROC_EXIT → table_ok (proc_set k) →
  0 < pid < MAX_NPROCESS → alive k pid → serve pid msg st k = Ret (msgs, buf, st', k') →
  st' = st ∧ table_ok (proc_set k') ∧ (∀ i, alive k' i ↔ alive k i ∧ i ≠ pid) ∧
  (msgs ≠ [] ↔ shell_waiting st = true ∧ app_pid st = pid).
Proof using Type.
  intros Hty Hok Hpid Halive H. unfold proc_serve in H. rewrite Hty in H.
  change (PROC_EXIT =? PROC_SPAWN) with false in H. change (PROC_EXIT =? PROC_EXIT) with true in H.
  cbv beta iota zeta in H. unfold proc_free in H. unfold GPID_ALL in H.
  rewrite (proj2 (Z.eqb_neq pid (-1))) in H by lia. cbn [negb] in H.
  destruct (mmu_free pid (earth k)) as [e|]; [|discriminate]. rewrite !bind_ret in H. injection H as <- <- <- <-.
  cbn [proc_set proc_set_status set_procs set_earth]. split_and!; [done|apply table_ok_set_status; [done|lia]| |].
  - intros i. unfold alive. cbn [proc_set proc_set_status set_procs set_earth].
    destruct (decide (0 < i)) as [Hi|]; [|tauto]. rewrite alive_set_status by done. split.
    + intros (_ & [[Hne Hp]|(-> & p & Hp & Hst)]); [done|]. exfalso.
      destruct Halive as (_ & q & Hq & Hu). rewrite Hp in Hq. injection Hq as ->.
      destruct Hok as [_ Hs]. destruct (Hs _ _ Hp) as ([?|Hid] & _ & _); [done|].
      rewrite decide_True in Hst by (rewrite Hid, Z2Nat.id; lia). done.
    + intros ((_ & Hp) & Hne). split; [done|]. by left.
  - destruct (shell_waiting st), (Z.eqb_spec (app_pid st) pid); cbn [andb]; split; intros; try done; intuition done.
Qed.

(** A request to end all processes creates none. *)
Lemma free_users_alive n : ∀ i k k', table_ok (proc_set k) → for_up n i free_user k = Ret k' →
  table_ok (proc_set k') ∧ ∀ pid, alive k' pid → alive k pid.
Proof using Type.
  induction n as [|n IH]; intros i k k' Hok H; cbn [for_up] in H; [by injection H as <-|].
  apply bind_ret_inv in H as (k1 & Hk1 & H).
  assert (table_ok (proc_set k1) ∧ ∀ pid, alive k1 pid → alive k pid) as [Hok1 Hsub].
  { unfold free_user in Hk1. apply bind_ret_inv in Hk1 as (p & Hp & Hk1). unfold get_proc in Hp.
    destruct (proc_set k !! Z.to_nat i) as [q|] eqn:Hq; [|discriminate]. injection Hp as <-.
    destruct (_ && _) eqn:Hcond; [|by injection Hk1 as <-].
    apply bind_ret_inv in Hk1 as (e & _ & Hk1). injection Hk1 as <-.
    apply andb_prop in Hcond as [_ Hused]. apply negb_true_iff, bool_decide_eq_false in Hused.
    cbn [proc_set set_earth set_proc set_procs]. split.
    - apply table_ok_insert; [done|]. destruct (proj2 Hok _ _ Hq) as (H1 & H2 & H3).
      split_and!; cbn; [by left|done|done].
    - intros pid (Hpos & r & Hr & Hst). split; [done|]. cbn [proc_set set_earth set_proc set_procs] in Hr.
      apply list_lookup_insert_Some in Hr as [(_ & <- & _)|[_ Hr]]; [done|eauto]. }
  destruct (IH _ _ _ Hok1 H) as [Hok' Hsub']. split; [done|]. eauto.
Qed.

Lemma serve_killall pid msg st k msgs buf st' k' : table_ok (proc_set k) →
  serve pid (killall_request msg) st k = Ret (msgs, buf, st', k') →
  st' = st ∧ table_ok (proc_set k') ∧ ∀ i, alive k' i → alive k i.
Proof using Type.
  intros Hok H. unfold proc_serve in H.
  assert (req_type (killall_request msg) = PROC_KILLALL) as Hty by (unfold req_type, killall_request; by rewrite get32_le32).
  rewrite Hty in H. change (PROC_KILLALL =? PROC_SPAWN) with false in H. change (PROC_KILLALL =? PROC_EXIT) with false in H.
  change (PROC_KILLALL =? PROC_KILLALL) with true in H. cbv beta iota zeta in H.
  apply bind_ret_inv in H as (k1 & Hk1 & H). injection H as <- <- <- <-.
  unfold proc_free in Hk1. change (negb (GPID_ALL =? GPID_ALL)) with false in Hk1. cbv iota in Hk1.
  split; [done|]. by eapply free_users_alive.
Qed.

(** The slot of a new process is in use once it is loaded. *)
Lemma alloc_alive k pid k2 k3 k4 reader argc argv : table_ok (proc_set k) → proc_alloc k = Ret (pid, k2) →
  load_process pid reader hbuf0 buf0 argc argv k2 = Ret k3 → k4 = proc_set_ready k3 pid →
  table_ok (proc_set k4) ∧ alive k4 pid.
Proof using Type.
  intros Hok Halloc Hload ->. pose proof (proc_alloc_loop_spec 16 1 k (proj1 Hok) ltac:(lia) eq_refl) as Hspec.
  change (proc_alloc_loop 16 1 k = Ret (pid, k2)) in Halloc.
  destruct (head _) as [j|]; [|by rewrite Hspec in Halloc].
  destruct Hspec as (Hj & p & Hp & _ & Heq). rewrite Heq in Halloc. injection Halloc as <- <-.
  unfold load_process in Hload. apply bind_ret_inv in Hload as (m & _ & Hload). injection Hload as <-.
  cbn [proc_set proc_set_ready proc_set_status set_procs set_earth set_proc].
  assert (table_ok (<[Z.to_nat j := loaded j p]> (proc_set k))) as Hok2.
  { apply table_ok_insert; [done|]. rewrite <- (Z2Nat.id j) at 2 by lia. apply slot_ok_loaded. lia. }
  split; [apply table_ok_set_status; [done|lia]|]. split; [lia|].
  cbn [proc_set proc_set_ready proc_set_status set_procs set_earth set_proc].
  rewrite lookup_set_status, list_lookup_insert_eq by (by eapply lookup_lt_Some). eexists. split; [reflexivity|].
  by destruct (_ && _).
Qed.

(** A spawn request starts one process, which the server remembers, or none. *)
Lemma serve_spawn_inv sender msg st k msgs buf st' k' : req_type msg = PROC_SPAWN → (8 ≤ length msg)%nat →
  table_ok (proc_set k) → serve sender msg st k = Ret (msgs, buf, st', k') → ∃ c,
  last_arg (splice msg 0 (le32 (if decide (msgs = [(GPID_SHELL, le32 CMD_OK)]) then CMD_OK else CMD_ERROR))) = Ret c ∧
  table_ok (proc_set k') ∧
  ((msgs = [(GPID_SHELL, le32 CMD_ERROR)] ∧ shell_waiting st' = false ∧ k' = k) ∨
   (msgs = [(GPID_SHELL, le32 CMD_OK)] ∧ shell_waiting st' = negb (c =? AMP) ∧ alive k' (app_pid st'))).
Proof using Type.
  intros Hty Hlen Hok H. unfold proc_serve in H. rewrite Hty in H. change (PROC_SPAWN =? PROC_SPAWN) with true in H.
  cbv beta iota zeta in H. apply bind_ret_inv in H as ([[r st1] k1] & Hspawn & H).
  apply bind_ret_inv in H as (c & Hc & H). injection H as <- <- <- <-.
  destruct (splice_type msg r Hlen) as (Hsp & _ & _).
  rewrite Hsp, take_app_length' by (by rewrite length_le32). rewrite get32_le32. cbn [shell_waiting app_pid].
  unfold app_spawn in Hspawn. apply bind_ret_inv in Hspawn as (bin & _ & Hspawn).
  apply bind_ret_inv in Hspawn as (ino & _ & Hspawn). destruct (ino <? 0).
  - injection Hspawn as <- <- <-. exists c. rewrite decide_False by (intros [=]). split; [done|]. split; [done|]. left.
    split; [done|]. split; [|done]. change (u32 CMD_ERROR =? CMD_OK) with false. apply andb_false_r.
  - apply bind_ret_inv in Hspawn as (c0 & _ & Hspawn). apply bind_ret_inv in Hspawn as ([pid k2] & Halloc & Hspawn).
    apply bind_ret_inv in Hspawn as (k3 & Hload & Hspawn). injection Hspawn as <- <- <-.
    destruct (alloc_alive k pid k2 k3 (proc_set_ready k3 pid) _ _ _ Hok Halloc Hload eq_refl) as [Hok' Hal].
    exists c. rewrite decide_True by done. split; [done|]. split; [exact Hok'|]. right. split; [done|].
    split; [|exact Hal]. change (u32 CMD_OK =? CMD_OK) with true. apply andb_true_r.
Qed.

(** The last argument is the same for the shell and for the server. *)
Definition request_ok (r : request) : Prop := 0 ≤ r_argc r ≤ 16 ∧ length (mjoin (r_argv r)) = 512%nat.

Lemma parse_request_ok text r : parse_request text = Ret (Some r) → request_ok r.
Proof using Type.
  intros H. pose proof (parse_loop_spec text [] [] ltac:(simpl; lia) ltac:(simpl; lia) (Forall_nil_2 _)) as Hparse.
  change (parse_request text = Ret (spec_parse text)) in Hparse. rewrite Hparse in H. unfold spec_parse in H.
  destruct (decide _) as [[Hlen Hcount]|]; [|discriminate]. injection H as <-.
  pose proof (split_count text []) as Hn. split; cbn [r_argc r_argv]; [lia|].
  destruct (join_rows _ (argv_of_rows _ Hlen)) as (-> & _ & _). unfold argv_of.
  rewrite length_app, length_fmap, length_replicate. lia.
Qed.

Lemma last_arg_agree stale2 r c c' t : request_ok r → length stale2 = SYSCALL_MSG_LEN → shell_last r = Ret c →
  last_arg (splice (delivered stale2 PROC_SPAWN r) 0 (le32 t)) = Ret c' → c = c'.
Proof using Type.
  intros [Hargc Hargv] Hst Hc Hc'.
  assert (8 ≤ length (delivered stale2 PROC_SPAWN r))%nat as H8.
  { unfold delivered, send_content, encode_request. rewrite !length_app, !length_le32. lia. }
  destruct (splice_type (delivered stale2 PROC_SPAWN r) t H8) as (Hsp & Ha & _).
  unfold last_arg in Hc'. rewrite Ha in Hc'.
  assert (req_argc (delivered stale2 PROC_SPAWN r) = r_argc r) as Hr.
  { unfold req_argc, delivered, send_content, encode_request. rewrite <- !(assoc_L (++)).
    rewrite get32_app_r, length_le32 by (by rewrite length_le32). rewrite (get32_le32 (r_argc r)).
    apply i32_u32. lia. }
  rewrite Hr in Hc'. unfold shell_last, char_at, CMD_ARG_LEN in *.
  case_bool_decide as Hi; [|discriminate]. case_bool_decide as Hi'; [|discriminate].
  rewrite Hsp in Hc'. rewrite lookup_app_r, length_le32 in Hc' by (rewrite length_le32; lia).
  unfold delivered, send_content, encode_request in Hc'. rewrite <- !(assoc_L (++)) in Hc'.
  rewrite drop_app_length' in Hc' by (by rewrite length_le32).
  rewrite lookup_app_r, length_le32 in Hc' by (rewrite length_le32; lia).
  rewrite lookup_app_l in Hc' by lia.
  replace (Z.to_nat (8 + 32 * (r_argc r - 1)) - 4 - 4)%nat with (Z.to_nat (32 * (r_argc r - 1))) in Hc' by lia.
  rewrite Hc in Hc'. by injection Hc'.
Qed.

(** *** The invariant *)

(** The server waits for a process on behalf of the shell. *)
Definition owes_wakeup (x : system) : Prop :=
  shell_waiting (s_server x) = true ∧ alive (s_kernel x) (app_pid (s_server x)).

Definition protocol_inv (x : system) : Prop :=
  table_ok (proc_set (s_kernel x)) ∧
  match s_mode x with
  | MReady => ¬ owes_wakeup x
  | MReply r => ¬ owes_wakeup x ∧ request_ok r
  | MExit => owes_wakeup x
  end.

(** After the servers have started: no request has been handled. *)
Definition started (x : system) : Prop :=
  s_mode x = MReady ∧ app_pid (s_server x) = 0 ∧ table_ok (proc_set (s_kernel x)).

Lemma started_inv x : started x → protocol_inv x.
Proof using Type. intros (Hm & Hp & Hok). split; [done|]. rewrite Hm. intros [_ [? _]]. lia. Qed.

Lemma reply_inv n text b r u u' st st' k k' stale2 reply buf m : request_ok r → table_ok (proc_set k) →
  length stale2 = SYSCALL_MSG_LEN →
  serve GPID_SHELL (delivered stale2 PROC_SPAWN r) st k = Ret ([(GPID_SHELL, reply)], buf, st', k') →
  shell_reply fr n r reply u = Ret (m, u') → protocol_inv (System text b m u' st' k').
Proof using Type.
  intros Hr Hok Hst Hserve Hreply.
  assert (req_type (delivered stale2 PROC_SPAWN r) = PROC_SPAWN) as Hty.
  { unfold req_type, delivered, send_content, encode_request. rewrite <- !(assoc_L (++)). by rewrite get32_le32. }
  assert (8 ≤ length (delivered stale2 PROC_SPAWN r))%nat as H8.
  { unfold delivered, send_content, encode_request. rewrite !length_app, !length_le32. lia. }
  destruct (serve_spawn_inv _ _ _ _ _ _ _ _ Hty H8 Hok Hserve) as (c & Hc & Hok' & [(Hm & Hw & Hk)|(Hm & Hw & Hal)]);
    injection Hm as ->; unfold shell_reply in Hreply.
  - change (negb (get32 (le32 CMD_ERROR) 0 =? CMD_OK)) with true in Hreply. cbv iota in Hreply.
    apply bind_ret_inv in Hreply as (u1 & _ & Hreply). injection Hreply as <- _. split; [done|].
    cbn [s_mode]. unfold owes_wakeup. cbn [s_server]. rewrite Hw. by intros [? _].
  - change (negb (get32 (le32 CMD_OK) 0 =? CMD_OK)) with false in Hreply. cbv iota in Hreply.
    apply bind_ret_inv in Hreply as (c' & Hc' & Hreply). injection Hreply as <- _. split; [done|].
    rewrite (last_arg_agree stale2 r c' c _ Hr Hst Hc' Hc). cbn [s_mode].
    unfold owes_wakeup. cbn [s_server s_kernel]. rewrite Hw.
    destruct (c =? AMP); cbn [negb]; [by intros [? _]|done].
Qed.

Lemma exit_inv text b m u st st' k k' pid msg msgs buf : GPID_USER_START ≤ pid < MAX_NPROCESS → alive k pid →
  req_type msg = PROC_EXIT → serve pid msg st k = Ret (msgs, buf, st', k') →
  protocol_inv (System text b m u st k) →
  protocol_inv (System text b (if decide (msgs = []) then m else MReady) u st' k').
Proof using Type.
  unfold GPID_USER_START. intros Hpid Hal Hty Hserve [Hok Hm]. cbn [s_mode s_kernel] in *.
  destruct (serve_exit pid msg st k msgs buf st' k' Hty Hok ltac:(lia) Hal Hserve) as (-> & Hok' & Halive & Hmsgs).
  split; [done|]. cbn [s_mode]. unfold owes_wakeup in *. cbn [s_server s_kernel] in *.
  destruct (decide (msgs = [])) as [Hnil|Hsome].
  - assert (¬ (shell_waiting st = true ∧ app_pid st = pid)) as Hno by (rewrite <- Hmsgs; tauto).
    destruct m; rewrite Halive; tauto.
  - apply Hmsgs in Hsome as [Hw Hp]. rewrite Halive. tauto.
Qed.

Lemma step_inv x y : step x y → protocol_inv x → protocol_inv y.
Proof using Type.
  intros Hstep Hinv. pose proof Hinv as [Hok Hm]. destruct Hstep; cbn [s_mode s_kernel] in *.
  - exact Hinv.
  - match goal with H : proc_serve _ _ _ _ _ _ _ _ _ _ _ = _ |- _ => apply serve_killall in H as (-> & Hok' & Hsub); [|done] end.
    split; [done|]. unfold owes_wakeup in *. cbn [s_mode s_server s_kernel] in *. intros [Hw Hal]. apply Hm. eauto.
  - split; [done|]. split; [exact Hm|].
    match goal with H : shell_command _ _ _ _ _ = _ |- _ => unfold shell_command in H; rename H into Hcmd end.
    repeat case_bool_decide; try discriminate; [by apply bind_ret_inv in Hcmd as (? & _ & [=])|].
    apply bind_ret_inv in Hcmd as ([req|] & Hreq & Hcmd); [|by apply bind_ret_inv in Hcmd as (? & _ & [=])].
    injection Hcmd as -> _. by eapply parse_request_ok.
  - destruct Hm as [_ Hr]. by eapply reply_inv.
  - eapply exit_inv; eauto using exit_request_type.
  - exact Hinv.
  - match goal with H : ∀ pid, alive _ pid ↔ _ |- _ => rename H into Hsame end.
    split; [done|]. unfold owes_wakeup in *. cbn [s_mode s_server s_kernel] in *. destruct m; rewrite ?Hsame; done.
Qed.

(** C22: the shell and the process server never get out of step: in every
    state reachable from the start, whatever commands are typed and in
    whatever order processes run and exit, (1) a shell that waits for its
    foreground process waits for a process that exists and that the server
    will report; (2) the exit of a process makes the server send a message
    to the shell exactly when the shell waits for this process, so no message
    is ever taken for the reply to another request. *)
Theorem shell_protocol x y : started x → rtc step x y →
  (s_mode y = MExit → owes_wakeup y) ∧
  ∀ pid msg msgs buf st' k', GPID_USER_START ≤ pid < MAX_NPROCESS → alive (s_kernel y) pid →
  req_type msg = PROC_EXIT → serve pid msg (s_server y) (s_kernel y) = Ret (msgs, buf, st', k') →
  (msgs ≠ [] ↔ s_mode y = MExit ∧ app_pid (s_server y) = pid).
Proof using Type.
  intros Hstart Hsteps.
  assert (protocol_inv y) as [Hok Hm].
  { apply started_inv in Hstart. induction Hsteps as [|x y z Hxy _ IH]; [done|]. apply IH. by eapply step_inv. }
  split; [by intros Hx; rewrite Hx in Hm|]. unfold GPID_USER_START. intros pid msg msgs buf st' k' Hpid Hal Hty Hserve.
  destruct (serve_exit pid msg _ _ msgs buf st' k' Hty Hok ltac:(lia) Hal Hserve) as (_ & _ & _ & ->).
  unfold owes_wakeup in Hm. destruct (s_mode y); split; intros [Hw Hp]; try discriminate; rewrite ?Hp in *; tauto.
Qed.
End protocol.
