(* ===== verification/SysProcExample.v ===== *)
(** * A concrete program and the states around it

    An ELF file with one segment, a flash with this program as each system
    server, a disk image with it as an application, and kernel states in
    which the theorems about the loader and the process server apply. *)
From S2P Require Import Prelude MemAlloc SoftTlb Timer Terminal Earth EarthImpl Process Kernel KernelExample.
From S2P Require Import InodeStore Treedisk FileServer CString Directory Mkfs BootPaths Print TermServer Apps AppsSpec Shell Elf ElfLoad SysProc BootServers BootSpawn ShellMain.

(** ** The program: 600 bytes at the application entry, from offset 512 *)
Definition elf_block0 : block_t :=
  zeros 28 ++ le32 52 ++ zeros 12 ++ [1; 0] ++ zeros 6 ++
  (le32 1 ++ le32 512 ++ le32 APPS_ENTRY ++ le32 0 ++ le32 600 ++ le32 600 ++ le32 5 ++ le32 4096) ++ zeros 428.
Definition elf_data : list Z := elf_block0 ++ replicate 512 17 ++ replicate 88 18.
Definition elf_phs : list pheader := [PHeader 512 APPS_ENTRY 600 600].

(** The first block determines everything but the bytes of the segment. *)
Lemma elf_program_ok blk limit argc argv args : blk 0 = elf_block0 → 3 ≤ limit < 2 ^ 32 →
  args_ok argc argv args → program_ok blk limit elf_phs argc argv args.
Proof.
  intros H0 Hlim Hargs. constructor; rewrite ?H0, ?elf_pages_keys; try done; [lia| | | |].
  - intros k ph Hk. destruct k as [|k]; [|done]. injection Hk as <-. vm_compute. reflexivity.
  - constructor; [|constructor]. unfold ph_ok; cbn [p_offset p_vaddr p_filesz p_memsz].
    split_and!; try (vm_compute; congruence).
    change (512 / BLOCK_SIZE + Z.of_nat (ceil_div (Z.to_nat 600) 512)) with 3. lia.
  - apply (bool_decide_unpack _). vm_compute. exact I.
  - apply (bool_decide_unpack _). vm_compute. exact I.
Qed.

Lemma elf_pages_count blk argc args : length (elf_pages blk elf_phs argc args) = 5%nat.
Proof. rewrite <- (length_fmap fst), elf_pages_keys. vm_compute. reflexivity. Qed.

Definition demo_blk (n : Z) : block_t := if n =? 0 then elf_block0 else replicate 512 n.

Lemma demo_blk_len n : length (demo_blk n) = 512%nat.
Proof. unfold demo_blk. destruct (n =? 0); [vm_compute; reflexivity|apply length_replicate]. Qed.

(** ** Memory and table of a system that runs only the process server *)
Lemma no_pages m : tlb_wf m → (∀ q vp pg, ¬ sees m q vp pg) → pages_used m = 0%nat.
Proof.
  intros Hwf Hno. unfold pages_used. apply size_empty_iff, elem_of_equiv_empty. intros i Hi.
  apply (wf_used m Hwf) in Hi as (q & vp & Ho). apply (Hno q vp (page_at (ram (mem m)) (home m q vp i))). by exists i.
Qed.

Lemma boot_mmu : ∃ m, soft_tlb_switch 1 mmu_boot = Ret m ∧ curr_vm_pid m = 1 ∧
  ∀ pid n, pid ≠ 0 → (n ≤ 1024)%nat → space_ok pid m n.
Proof.
  destruct TlbSpec.R_boot as (Hwf & _ & Hasp).
  destruct (switch_spec mmu_boot 1 Hwf ltac:(done)) as (m & E & Hwf' & Hc & Hsees).
  exists m. split; [exact E|]. split; [exact Hc|]. intros pid n Hpid Hn.
  assert (∀ q vp pg, ¬ sees mmu_boot q vp pg) as Hno.
  { intros q vp pg Hs. apply Hasp in Hs. cbn [TlbSpec.asp] in Hs. rewrite lookup_empty in Hs. discriminate Hs. }
  assert (pages_used m = 0%nat) as Hused.
  { apply no_pages; [exact Hwf'|]. intros q vp pg Hs. apply Hsees in Hs. exact (Hno q vp pg Hs). }
  constructor; [exact Hpid|exact Hwf'| |].
  - intros vp pg Hs. apply Hsees in Hs. exact (Hno pid vp pg Hs).
  - rewrite Hused. change (Z.to_nat APPS_PAGES_CNT) with 1024%nat. lia.
Qed.

Definition boot_table : list process := idle_process :: proc1 :: replicate 15 idle_process.
Definition boot_kernel (m : mmu) : kernel :=
  KState 0 [1; 0; 0; 0] boot_table (EarthState m (Timer 0 (replicate 8 0)) (Uart [] [] 0) (replicate 4 0)).

Lemma boot_table_ok : table_ok boot_table.
Proof.
  split; [done|]. intros i p Hp. do 17 (destruct i as [|i];
    [injection Hp as <-; split_and!; vm_compute; first [by left|by right|done]|]). done.
Qed.

Lemma elf_load_image_witness : ∃ m s', tlb_wf m ∧
  elf_load 2 (λ n buf m, Ret (demo_blk n, m)) (zeros 512) (zeros 512) (Z.of_nat 0) None m = Ret s' ∧
  sees s' 2 (APPS_STACK_TOP / PAGE_SIZE - 1) zero_page.
Proof.
  destruct boot_mmu as (m & _ & Hc & Hspace). exists m.
  pose proof (pure_reader 2 (λ n buf m, Ret (demo_blk n, m)) demo_blk 3 demo_blk_len
                (λ _ _ _ _ _, eq_refl) 1 ltac:(done)) as Hrd.
  destruct (@elf_load_image 2 (λ n buf m, Ret (demo_blk n, m)) _ _ demo_blk 3 Hrd m elf_phs 0 None [] (zeros 512) (zeros 512))
    as (s' & E & _ & _ & _ & Hsees & _).
  - apply elf_program_ok; [reflexivity|lia|]. split; [lia|done].
  - apply Hspace; [done|]. rewrite elf_pages_count. lia.
  - exact Hc.
  - reflexivity.
  - reflexivity.
  - exists s'. split; [apply (Hspace 2 0%nat); [done|lia]|]. split; [exact E|]. apply Hsees.
    unfold elf_pages. apply elem_of_app. right. right. right. left.
Defined.

(** ** The system servers *)
Definition prog : list block_t := demo_blk <$> [0; 1; 2].
Definition demo_rom : Flash.disk :=
  Flash.disk_init (replicate 512 null_block ++ prog ++ replicate 253 null_block ++ prog ++ replicate 253 null_block ++ prog).

Lemma demo_image base : base = 512 ∨ base = 768 ∨ base = 1024 →
  server_image demo_rom base (elf_pages demo_blk elf_phs 0 []).
Proof.
  intros Hbase. exists demo_blk, 3, elf_phs. split; [exact demo_blk_len|]. split; [lia|]. split; [lia|]. split.
  - intros n Hn. assert (n = 0 ∨ n = 1 ∨ n = 2) as Hcases by lia.
    destruct Hbase as [->|[->| ->]], Hcases as [->|[->| ->]]; vm_compute; reflexivity.
  - split; [|reflexivity]. apply elf_program_ok; [reflexivity|lia|]. split; [lia|done].
Qed.

(** While the process server waits, the server that has been started runs
    until it waits for a request. *)
Definition demo_handshake (x : Z) (k : kernel) : outcome kernel := Ret (proc_set_pending k x).

Lemma demo_handshake_ok : handshake_ok demo_handshake.
Proof.
  constructor. intros x k Hx Hok H1 Hready Hc. exists (proc_set_pending k x). unfold GPID_PROCESS in Hx.
  assert (∀ i p, proc_set k !! i = Some p → Z.of_nat i ≠ x → proc_set (proc_set_pending k x) !! i = Some p) as Hother.
  { intros i p Hp Hi. change (proc_set (proc_set_pending k x)) with (set_status_in x PROC_PENDING_SYSCALL (proc_set k)).
    rewrite lookup_set_status, Hp. cbn. f_equal. destruct (proj2 Hok i p Hp) as (_ & Hpid & _).
    rewrite (proj2 (Z.eqb_neq (p_pid p) x)) by lia. by rewrite andb_false_r. }
  split; [done|]. split; [by apply table_ok_set_status; [|lia]|]. split.
  { destruct (proc_set k !! 1%nat) as [p|] eqn:Hp; [|done]. rewrite (Hother 1%nat p Hp) by lia. done. }
  split; [exact Hc|]. split; [|intros q n _ Hsp; exact Hsp]. intros i.
  destruct (proc_set k !! i) as [p|] eqn:Hp.
  - destruct (decide (Z.of_nat i = x)) as [<-|Hne]; [|by rewrite (Hother i p Hp)]. rewrite Nat2Z.id, Hp in Hready.
    change (proc_set (proc_set_pending k (Z.of_nat i))) with (set_status_in (Z.of_nat i) PROC_PENDING_SYSCALL (proc_set k)).
    rewrite lookup_set_status, Hp. cbn in *. destruct (_ && _); cbn; split; congruence.
  - change (proc_set (proc_set_pending k x)) with (set_status_in x PROC_PENDING_SYSCALL (proc_set k)).
    by rewrite lookup_set_status, Hp.
Qed.

Lemma servers_start_witness : ∃ m k', curr_vm_pid m = 1 ∧
  start_servers demo_rom (zeros 512) (zeros 512) demo_handshake (boot_kernel m)
  = Ret ([GPID_TERMINAL; GPID_FILE; GPID_SHELL], k') ∧ table_ok (proc_set k').
Proof.
  destruct boot_mmu as (m & _ & Hc & Hspace). exists m.
  destruct (servers_start demo_rom (zeros 512) (zeros 512) eq_refl eq_refl eq_refl demo_handshake (boot_kernel m)
              (elf_pages demo_blk elf_phs 0 []) (elf_pages demo_blk elf_phs 0 []) (elf_pages demo_blk elf_phs 0 []))
    as (k1 & k1' & k2 & k2' & k' & E & _ & _ & _ & _ & S3).
  - exact demo_handshake_ok.
  - exact boot_table_ok.
  - reflexivity.
  - intros i Hi. assert (i = 2 ∨ i = 3 ∨ i = 4)%nat as [->|[->| ->]] by lia; reflexivity.
  - apply demo_image. by left.
  - apply demo_image. right. by left.
  - apply demo_image. right. by right.
  - exact Hc.
  - intros q Hq. apply Hspace; [lia|]. rewrite elf_pages_count. lia.
  - exists k'. split; [exact Hc|]. split; [exact E|apply (sp_table _ _ _ _ S3)].
Defined.

(** The same program as each of the five binaries, read in two portions. *)
Definition demo_bins : list (list nat * list Z) := replicate 5 ([1000; 112]%nat, elf_data).

Lemma demo_bin_blk0 : binary_blk elf_data 0 = elf_block0.
Proof. vm_compute. reflexivity. Qed.

Lemma boot_servers_witness : ∃ m exec img rom k', load_binaries 0 demo_bins exec_init = Ret exec ∧
  mkfs (exec_blocks exec) demo_apps (zeros 256) = Ret (img, rom) ∧
  start_servers (Flash.disk_init rom) (zeros 512) (zeros 512) demo_handshake (boot_kernel m)
  = Ret ([GPID_TERMINAL; GPID_FILE; GPID_SHELL], k') ∧
  ∃ k2', spawned GPID_SHELL (elf_pages (binary_blk elf_data) elf_phs 0 []) k2' k'.
Proof.
  destruct boot_mmu as (m & _ & Hc & Hspace). exists m.
  assert (program_ok (binary_blk elf_data) 256 elf_phs 0 None []) as Hprog.
  { apply elf_program_ok; [exact demo_bin_blk0|lia|]. split; [lia|done]. }
  destruct (boot_servers demo_bins elf_data elf_data elf_data elf_phs elf_phs elf_phs demo_apps (zeros 256)
              (zeros 512) (zeros 512) demo_handshake (boot_kernel m))
    as (exec & img & rom & k1 & k1' & k2 & k2' & k' & E1 & E2 & E3 & _ & _ & _ & _ & S3 & _).
  - apply Forall_replicate. split; cbn [fst snd]; change (length elf_data) with 1112%nat; [split; [lia|]; split; [lia|done]|].
    rewrite BIN_BYTES_eq. lia.
  - reflexivity.
  - reflexivity.
  - reflexivity.
  - reflexivity.
  - exact Hprog.
  - exact Hprog.
  - exact Hprog.
  - apply (bool_decide_unpack _). vm_compute. exact I.
  - rewrite length_zeros. lia.
  - reflexivity.
  - reflexivity.
  - exact demo_handshake_ok.
  - exact boot_table_ok.
  - reflexivity.
  - intros i Hi. assert (i = 2 ∨ i = 3 ∨ i = 4)%nat as [->|[->| ->]] by lia; reflexivity.
  - exact Hc.
  - intros q Hq. apply Hspace; [lia|]. rewrite elf_pages_count. lia.
  - exists exec, img, rom, k'. split; [exact E1|]. split; [exact E2|]. split; [exact E3|]. exists k2'. exact S3.
Defined.

(** ** Requests *)

(** A file system with the root directory, /bin and one application. *)
Definition bin_block_demo : block_t := str "./   6 ../   0 hi   7 " ++ 0 :: zeros 489.
Definition demo_fs : inode_store unit := InodeStore
  (λ _ _, Ret 0) (λ s _ _, Ret (-1, s))
  (λ _ ino off buf,
     if (ino =? 0) && (off =? 0) then Ret (0, root_block)
     else if (ino =? 6) && (off =? 0) then Ret (0, bin_block_demo)
     else if (ino =? 7) && (off <? 3) then Ret (0, demo_blk off)
     else Ret (-1, buf))
  (λ s _ _ _, Ret (-1, s)).

Definition demo_request (words : list (list Z)) : list Z :=
  delivered (zeros 1024) PROC_SPAWN (Request (Z.of_nat (length words)) (argv_of words)).

Lemma demo_lookup words ino :
  dir_lookup demo_fs () 0 (str "bin/" ++ [0]) (zeros 512) (zeros 1024) (zeros 1024) = Ret 6 →
  dir_lookup demo_fs () 6 (req_argv (demo_request words)) (zeros 512) (zeros 1024) (zeros 1024) = Ret ino →
  found demo_fs () (zeros 512) (zeros 1024) (zeros 1024) (demo_request words) ino.
Proof. intros H1 H2. by exists 6. Qed.

#[local] Instance demo_earth_impl : Earth earth_state := earth_impl demo_clock.

Lemma spawn_runs_witness : ∃ m buf' k', curr_vm_pid m = 1 ∧
  proc_serve demo_fs () (zeros 512) (zeros 1024) (zeros 1024) (zeros 512) (zeros 512)
    GPID_SHELL (demo_request [str "hi"; str "&"]) (Server 0 0 false) (boot_kernel m)
  = Ret ([(GPID_SHELL, le32 CMD_OK)], buf', Server 7 2 false, k') ∧
  spawned 2 (elf_pages demo_blk elf_phs 1 (arg_row (str "hi"))) (boot_kernel m) k'.
Proof.
  destruct boot_mmu as (m & _ & Hc & Hspace). exists m.
  destruct (spawn_runs demo_fs () (zeros 512) (zeros 1024) (zeros 1024) (zeros 512) (zeros 512)
              eq_refl eq_refl eq_refl eq_refl GPID_SHELL (demo_request [str "hi"; str "&"]) (Server 0 0 false)
              (boot_kernel m) 7 2 AMP demo_blk 3 elf_phs 1 (arg_row (str "hi"))) as (buf' & k' & E & Hsp).
  - vm_compute. reflexivity.
  - vm_compute. reflexivity.
  - apply demo_lookup; vm_compute; reflexivity.
  - lia.
  - split; [exact demo_blk_len|]. intros n buf Hn _.
    assert (n = 0 ∨ n = 1 ∨ n = 2) as [->|[->| ->]] by lia; reflexivity.
  - vm_compute. reflexivity.
  - vm_compute. reflexivity.
  - apply elf_program_ok; [reflexivity|lia|]. split; [lia|]. split; [|vm_compute; reflexivity].
    apply (bool_decide_unpack _). vm_compute. exact I.
  - exact boot_table_ok.
  - vm_compute. reflexivity.
  - vm_compute. reflexivity.
  - cbn [boot_kernel earth es_mmu]. rewrite Hc. discriminate.
  - apply Hspace; [discriminate|]. rewrite elf_pages_count. lia.
  - exists buf', k'. split; [exact Hc|]. split; [exact E|exact Hsp].
Defined.

Lemma spawn_not_found_witness : ∃ m buf',
  proc_serve demo_fs () (zeros 512) (zeros 1024) (zeros 1024) (zeros 512) (zeros 512)
    GPID_SHELL (demo_request [str "nope"]) (Server 0 0 false) (boot_kernel m)
  = Ret ([(GPID_SHELL, le32 CMD_ERROR)], buf', Server (-1) 0 false, boot_kernel m).
Proof.
  destruct boot_mmu as (m & _ & Hc & Hspace). exists m.
  apply (spawn_not_found demo_fs () (zeros 512) (zeros 1024) (zeros 1024) (zeros 512) (zeros 512)
           eq_refl eq_refl eq_refl eq_refl GPID_SHELL (demo_request [str "nope"]) (Server 0 0 false)
           (boot_kernel m) (-1) 110).
  - vm_compute. reflexivity.
  - vm_compute. reflexivity.
  - apply demo_lookup; vm_compute; reflexivity.
  - lia.
  - vm_compute. reflexivity.
Defined.

(** ** Exit *)
Definition demo_exit : list Z := exit_request (zeros 1020).

Lemma exit_frees_witness : ∃ m k', proc_serve demo_fs () [] [] [] [] [] 1 demo_exit (Server 7 1 true) (boot_kernel m)
  = Ret ([(GPID_SHELL, take 4 demo_exit)], demo_exit, Server 7 1 true, k') ∧ table_ok (proc_set k').
Proof.
  destruct boot_mmu as (m & _ & Hc & Hspace). exists m.
  destruct (exit_frees demo_fs () [] [] [] [] [] demo_clock 1 demo_exit (Server 7 1 true) (boot_kernel m))
    as (k' & E & Hok & _).
  - vm_compute. reflexivity.
  - exact boot_table_ok.
  - apply (Hspace 2 0%nat); [discriminate|lia].
  - unfold MAX_NPROCESS. lia.
  - exists k'. split; [exact E|exact Hok].
Defined.

(** The program of the flash, started in slot 2. *)
Lemma demo_spawned : ∃ m k', curr_vm_pid m = 1 ∧ (∀ pid n, pid ≠ 0 → (n ≤ 1024)%nat → space_ok pid m n) ∧
  spawned 2 (elf_pages demo_blk elf_phs 0 []) (boot_kernel m) k'.
Proof.
  destruct boot_mmu as (m & _ & Hc & Hspace). exists m.
  destruct (sys_spawn_spec demo_rom (zeros 512) (zeros 512) eq_refl eq_refl eq_refl (boot_kernel m) 512
              (elf_pages demo_blk elf_phs 0 []) 2) as (k' & _ & Hsp).
  - apply demo_image. by left.
  - exact boot_table_ok.
  - vm_compute. reflexivity.
  - lia.
  - cbn [boot_kernel earth es_mmu]. rewrite Hc. discriminate.
  - apply Hspace; [discriminate|]. rewrite elf_pages_count. lia.
  - exists k'. auto.
Qed.

Lemma spawn_exit_no_leak_witness : ∃ m k1 msgs k2,
  spawned 2 (elf_pages demo_blk elf_phs 0 []) (boot_kernel m) k1 ∧
  proc_serve demo_fs () [] [] [] [] [] 2 demo_exit (Server 7 2 true) k1
  = Ret (msgs, demo_exit, Server 7 2 true, k2) ∧
  pages_used (es_mmu (earth k2)) = pages_used (es_mmu (earth (boot_kernel m))).
Proof.
  destruct demo_spawned as (m & k1 & Hc & Hspace & Hsp). exists m, k1.
  destruct (spawn_exit_no_leak demo_fs () [] [] [] [] [] demo_clock 2 (elf_pages demo_blk elf_phs 0 [])
              (boot_kernel m) k1 demo_exit (Server 7 2 true)) as (msgs & k2 & E & _ & Hu & _).
  - exact Hsp.
  - exact boot_table_ok.
  - apply (Hspace 2 0%nat); [discriminate|lia].
  - apply (Hspace 2 0%nat); [discriminate|lia].
  - unfold MAX_NPROCESS. lia.
  - vm_compute. reflexivity.
  - exists msgs, k2. split; [exact Hsp|]. split; [exact E|exact Hu].
Defined.

(** ** A command on the booted image *)
Definition image_apps : list (list Z * list Z) := [(str "hi.elf", elf_data)].

Lemma elf_data_block0 f : holds_data f elf_data → blocks_of f 0 = elf_block0.
Proof.
  intros (Hlen & Hok & Hblk).
  destruct (Hblk 0%nat) as (b & Hb & Htake); [apply (bool_decide_unpack _); vm_compute; exact I|].
  unfold blocks_of. change (Z.to_nat 0) with 0%nat. rewrite Hb. cbn [default].
  assert (length b = 512%nat) as Hlb by (eapply Forall_lookup_1 in Hok; [exact Hok|exact Hb]).
  change (length elf_data - 512 * 0)%nat with 1112%nat in Htake. rewrite take_ge in Htake by lia.
  change (default null_block (Some b)) with b. rewrite Htake. vm_compute. reflexivity.
Qed.

Lemma command_runs_witness : ∃ m req img rom f buf' k', parse_request (str "hi there") = Ret (Some req) ∧
  mkfs (replicate 4096 null_block) image_apps (zeros 256) = Ret (img, rom) ∧ holds_data f elf_data ∧
  proc_serve (treedisk_init Flash.disk_store 0 7) (Flash.disk_init rom) (zeros 512) (zeros 1024) (zeros 1024)
      (zeros 512) (zeros 512) GPID_SHELL (delivered (zeros 1024) PROC_SPAWN req) (Server 0 0 false) (boot_kernel m)
    = Ret ([(GPID_SHELL, le32 CMD_OK)], buf', Server (7 + Z.of_nat 0) 2 true, k') ∧
  spawned 2 (elf_pages (blocks_of f) elf_phs 2 (mjoin (arg_row <$> [str "hi"; str "there"]))) (boot_kernel m) k'.
Proof.
  destruct boot_mmu as (m & _ & Hc & Hspace). exists m.
  apply (command_runs (replicate 4096 null_block) image_apps (zeros 256) (zeros 512) (zeros 1024) (zeros 1024)
           (zeros 1024) (zeros 512) (zeros 512) (str "hi there") [str "hi"; str "there"] 0 (str "hi.elf") elf_data
           elf_phs GPID_SHELL (Server 0 0 false) (boot_kernel m) 2).
  - apply (bool_decide_unpack _). vm_compute. exact I.
  - apply (bool_decide_unpack _). vm_compute. exact I.
  - rewrite length_zeros. lia.
  - apply length_replicate.
  - apply length_zeros.
  - apply length_zeros.
  - apply length_zeros.
  - apply length_zeros.
  - apply length_zeros.
  - reflexivity.
  - vm_compute. reflexivity.
  - vm_compute. reflexivity.
  - apply (bool_decide_unpack _). vm_compute. exact I.
  - vm_compute. discriminate.
  - intros f Hf. rewrite elf_pages_count. split; [|apply Hspace; [discriminate|lia]].
    apply elf_program_ok; [exact (elf_data_block0 f Hf)| |].
    + change (nblocks (length elf_data)) with 3%nat. lia.
    + split; [vm_compute; lia|]. split; [apply (bool_decide_unpack _); vm_compute; exact I|vm_compute; reflexivity].
  - exact boot_table_ok.
  - vm_compute. reflexivity.
  - vm_compute. reflexivity.
  - cbn [boot_kernel earth es_mmu]. rewrite Hc. discriminate.
Defined.

(** ** The shell's protocol *)

(** The shell starts "hi" in the foreground and waits for it. *)
Lemma demo_session : ∃ m y, 
  rtc (step demo_fs () (zeros 512) (zeros 1024) (zeros 1024) (zeros 512) (zeros 512) demo_frame)
    (System (str "hi") batch_init MReady (Uart [] [] 0) (Server 0 0 false) (boot_kernel m)) y ∧
  s_mode y = MExit.
Proof.
  destruct boot_mmu as (m & _ & Hc & Hspace). exists m.
  destruct (serve_spawn demo_fs () (zeros 512) (zeros 1024) (zeros 1024) (zeros 512) (zeros 512)
              eq_refl eq_refl eq_refl eq_refl GPID_SHELL (demo_request [str "hi"]) (Server 0 0 false)
              (boot_kernel m) 7 2 104 demo_blk 3 elf_phs 1 (arg_row (str "hi"))) as (buf' & k' & E & _).
  - vm_compute. reflexivity.
  - vm_compute. reflexivity.
  - apply demo_lookup; vm_compute; reflexivity.
  - lia.
  - split; [exact demo_blk_len|]. intros n buf Hn _.
    assert (n = 0 ∨ n = 1 ∨ n = 2) as [->|[->| ->]] by lia; reflexivity.
  - vm_compute. reflexivity.
  - vm_compute. reflexivity.
  - apply elf_program_ok; [reflexivity|lia|]. split; [lia|]. split; [|vm_compute; reflexivity].
    apply (bool_decide_unpack _). vm_compute. exact I.
  - exact boot_table_ok.
  - vm_compute. reflexivity.
  - vm_compute. reflexivity.
  - cbn [boot_kernel earth es_mmu]. rewrite Hc. discriminate.
  - apply Hspace; [discriminate|]. rewrite elf_pages_count. lia.
  - eexists. split.
    + eapply rtc_l; [|apply rtc_once].
      * eapply (step_spawn _ _ _ _ _ _ _ demo_frame 0 [0]); [vm_compute; reflexivity|vm_compute; reflexivity].
      * eapply (step_reply _ _ _ _ _ _ _ demo_frame 0 _ _ _ _ _ _ _ _ _ (zeros 1024));
          [reflexivity|exact E|vm_compute; reflexivity].
    + reflexivity.
Qed.

Lemma shell_protocol_witness : ∃ x y,
  rtc (step demo_fs () (zeros 512) (zeros 1024) (zeros 1024) (zeros 512) (zeros 512) demo_frame) x y ∧
  s_mode y = MExit ∧ owes_wakeup y.
Proof.
  destruct demo_session as (m & y & Hsteps & Hmode). eexists _, y. split; [exact Hsteps|]. split; [exact Hmode|].
  apply (shell_protocol demo_fs () (zeros 512) (zeros 1024) (zeros 1024) (zeros 512) (zeros 512) demo_frame
    (System (str "hi") batch_init MReady (Uart [] [] 0) (Server 0 0 false) (boot_kernel m)) y);
    [|exact Hsteps|exact Hmode].
  split; [reflexivity|]. split; [reflexivity|exact boot_table_ok].
Defined.
